(* ===== verification/_CoqProject ===== *)
-Q . S2P
Prelude.v
Names.v
KeyExpr.v
Qos.v
Time.v
Params.v
ParamStore.v
ParamTasks.v
ZenohParamTasks.v
ActionServer.v
ActionTasks.v
GraphCache.v
TypeDescription.v
Discovery.v
DdsMatch.v
DdsService.v
PubSub.v
ActionClient.v
DdsAction.v
ZenohService.v
ZenohPubSub.v
ZenohAction.v
ZenohNode.v
ZenohContext.v
DdsNode.v
Spinner.v
Rosout.v
WideString.v
OsPath.v
Distributions.v
DdsContext.v
MsgParser.v
MsgGen.v
MsgMain.v
EdgeLoop.v
Fibonacci.v
FibonacciClient.v
TurtleUi.v
TurtleTeleop.v
AddTwoInts.v
Chatter.v
ZenohDemo.v
ParamExamples.v
