(* ===== verification/Prelude.v ===== *)
(** * ros2-client: a verification library

    ros2-client is a Rust client library for ROS 2. One API is implemented over
    two middlewares: DDS (through the crate RustDDS) and Zenoh (the module
    [zenoh_backend]). A [Context] stands for a participant or session; a [Node]
    made from it owns publishers and subscriptions, service clients and servers,
    action clients and servers, and a parameter store. A DDS node's [Spinner] is
    its background task: it serves the parameter services and keeps track of
    discovery. The Zenoh backend does the same over key expressions and
    liveliness tokens, from which every context maintains a graph cache.

    Paths below are under src/src/, those of the examples under src/.

    ** The files

    - Prelude: [Result], strings as lists of [char]s with the [str] methods the
      code uses, printing and parsing of integers, machine integers with their
      wrap-around and their two build profiles, [std::time::Duration], and the
      lemmas and hints the components share.
    - Names (names.rs; name functions of node.rs and zenoh_backend/node.rs):
      node, topic, service, action and type names, their parsers and printers,
      the resolution of a name by either backend.
    - KeyExpr (zenoh_backend/keyexpr.rs): data-plane and liveliness keys, and
      the parser of liveliness keys.
    - Qos (qos.rs, zenoh_backend/qos_encoding.rs): the QoS profile, its
      conversions from and to RustDDS's policies, its compact text encoding.
    - Time (builtin_interfaces.rs, ros_time.rs, steady_time.rs): wire and
      in-memory times and durations, the steady clock.
    - Params (parameters.rs, rcl_interfaces.rs): parameter values, descriptors
      and messages. ParamStore (the parameter parts of node.rs,
      zenoh_backend/parameters.rs): the stores of a DDS node and of the Zenoh
      parameter server, and the six parameter services, written once against
      the interface [ParamBackend] and discharged by both stores. ParamTasks:
      the calls on a DDS node's store, and its Spinner's, as tasks of one lock
      section per step, under any interleaving; ZenohParamTasks: the same for the
      Zenoh parameter server.
    - ActionServer (action/server.rs, action_msgs.rs, unique_identifier_msgs.rs):
      the goal bookkeeping of the asynchronous action server. ActionTasks: its
      calls as tasks of one lock section per step, under any interleaving, with
      reads and writes that may fail.
      ActionClient (action/client.rs, action.rs): its counterpart.
    - GraphCache (zenoh_backend/graph_cache.rs, zenoh_backend/context.rs): the
      cache of live entities, its event streams, the queries and waits on it.
    - Discovery (entities_info.rs, gid.rs, context.rs and the discovery parts of
      node.rs): what a DDS context publishes about its nodes, the tables of
      matched endpoints, the status channels, and the wait for a match. DdsMatch
      (the waits of node.rs, [wait_for_service] of service/client.rs): two such
      waits joined in one task, each simulated by Discovery's, while the Spinner
      announces an event on their channels in either order.
    - DdsService (service/, message_info.rs, helpers of action/raw_server.rs),
      PubSub (pubsub.rs), DdsAction (the synchronous server of action/server.rs,
      action/raw_server.rs): services, topics and action servers over RustDDS.
    - DdsNode (context.rs, node.rs, builtin_topics.rs): the constructors of a DDS
      context, of its nodes and of everything a node creates, in the state and
      error monad [stateE] over the node, its context and the participant's
      log; composed from Names, Discovery, ParamStore and DdsService. DdsContext:
      the options of a context and its creation, with the check of the
      distribution that runs once per process, and the accessors of both.
    - Spinner (node.rs): the event loop of the background task, over the
      parameter handlers of ParamStore, the tables of Discovery and the streams
      of DdsService and PubSub.
    - ZenohService (zenoh_backend/service.rs, attachment.rs, cdr.rs),
      ZenohPubSub (zenoh_backend/pubsub.rs), ZenohAction
      (zenoh_backend/action.rs): services, topics and actions over Zenoh, each
      built on the one before.
    - TypeDescription (zenoh_backend/type_description.rs, type_hash.rs): type
      descriptions, their JSON form and the RIHS01 hashes that go into the keys.
    - ZenohNode (zenoh_backend/node.rs, gid.rs): the entities a Zenoh node
      creates out of the components above, as a state and error monad over the
      node's entity counter and the declarations it asks the session for.
      ZenohContext (zenoh_backend/context.rs): opening a context, its nodes, and
      a network of applications that make and drop entities on contexts.
    - Rosout (log.rs, rosout.rs, zenoh_backend/rosout.rs): log records and the
      ways to write them. WideString (wide_string.rs): UTF-16 strings and their
      serde encoding. Distributions (distributions.rs): the compiled ROS 2
      distribution.
    - MsgParser (bin/msggen/parser.rs, stringparser.rs): the grammar of message
      definitions, over the combinators of nom. MsgGen (bin/msggen/main.rs): the
      Rust code generated from them, in [stateE] over a writer. OsPath: UTF-8 and
      paths as std has them; MsgMain (bin/msggen/main.rs): the query to colcon,
      the [msg] directories and [main], over the operating system, and a run as
      the sequence of the calls it makes.
    - The examples, applications of the components above. Fibonacci
      (examples/concurrent_action_server, minimal_action_server): the main loop and
      the runners of the goals, whose calls are ActionTasks' tasks, section by
      section; FibonacciClient (examples/minimal_action_client): their client.
      TurtleUi, TurtleTeleop (examples/turtle_teleop): keys, the display, and a main
      loop with the tasks it spawns. EdgeLoop: mio's edge-triggered loop with a body
      that takes one item from a history of some depth, as the record of laws
      [takes_one] with the lemmas on the loop; it is instantiated by AddTwoInts
      (examples/async_service_server, ros2_service_server and their clients), over
      DdsService, and by Chatter (examples/talker, async_talker,
      async_smart_talker, listener), over PubSub. ZenohDemo (examples/zenoh_demo):
      a talker and a listener over ZenohPubSub. ParamExamples
      (examples/client_get_parameters, client_list_parameters, time_broadcaster,
      time_reporter): over ParamStore and the clock of Spinner.

    A definition has the source's name; a method of a type whose name clashes
    carries the type's name as a prefix ([Client_new], [raw_accept]). A method on
    [&mut self], or on [&self] with interior mutability, takes the state and
    returns the new one. What a call awaits or asks third-party code for is an
    argument: a clock reading, the outcome of a write, the samples that arrive, a
    random id. A panic is [None], an error a value of [result].

    ** What the theorems show

    - Concurrency and ordering: a wait for a match never loses its wake-up in
      any interleaving of the Spinner's and the waiter's steps
      ([Discovery.wait_step]), nor does a wait for a service, which joins two
      ([DdsMatch.moves]); calls about different parameters interleave without
      disturbing the log of events or the simulated-time flag, while two about
      one parameter race; those of a Zenoh parameter server each publish one event
      and announce a parameter as new once; a wait on the graph cache never misses a token;
      an open event stream sees every later change once and in order; two
      concurrent sends of a DDS client generate one sequence number exactly when
      no increment lies between their loads; the goals of the asynchronous action
      server follow their state machine under every interleaving of its calls,
      and without cancel responses its list of finished goals stays exact, but for
      the goals whose result could not be written, which never get there; two waits
      for results can lose a request and a cancel response can race with a goal's
      end.
    - Termination: a poll of the Spinner's task ends under every order in which
      its arms may be polled, handling what arrived stream by stream, and the
      task returns exactly when it is asked to stop.
    - Invariants and refinements: the graph cache refines the set of live tokens;
      every call of the action server moves goals along the goal state machine,
      and its list of finished goals is the set of ended ones; every reply of a
      Zenoh server answers one received query, at most once; what a DDS context
      last published describes exactly its live nodes; in a network of Zenoh
      applications every context counts exactly the entities its domain holds,
      whatever was made and dropped in whatever order
      ([ZenohContext.run_world]); a DDS node's parameters are those it accepts;
      whatever a DDS node creates, what it announces changes by the readers and
      writers it created, in order, as Discovery's life of a node has it;
      parameter events are a complete log of the store, and the Zenoh store does
      what a DDS node's does on sets of stored parameters, and accepts others that
      the node refuses; match counts are the numbers of
      remote endpoints not lost since.
    - Round trips: names, key expressions, QoS profiles, times, parameters,
      service calls over either middleware, raw and typed endpoints, the
      messages of a Zenoh publisher, message definitions, of which those that have
      a text are the ones a parse can yield, and whose parse ends silently at the
      first line outside the grammar; the generator is total on what parses, and a
      run of it writes the files of the packages colcon named, or panics for one
      of three causes in the states it has reached.
    - Matching across components: the keys of an action client and of an action
      server meet exactly when both resolve to the same action, for typed and raw
      servers, over Zenoh and over DDS; a RIHS01 hash identifies a type
      description up to what the code leaves out of it and to collisions of
      SHA-256; the raw and the typed
      action server agree, over either middleware.
    - Errors and bounds: exactly when parsing fails or panics, when a conversion
      overflows, and what it then returns in either build profile; a Spinner is
      created whole or its node stays mute.
    - The examples: while its writes succeed and no client asks for a negative
      order or for order 1, which never ends, no interleaving of the sections of its
      tasks makes the Fibonacci server panic or tell a wrong number; a server that
      takes one request per edge-triggered event answers as many as it wakes up and
      leaves the rest, up to its history's depth, where the async one answers all
      that the history kept; the listener prints previews and panics exactly at a split
      character; the turtle's cancel key reaches the last rotation and no other; a
      reporter of the simulated clock follows the broadcaster; a validated
      parameter stays valid.
    - Departures from what the code means: some theorems state a behaviour the
      comments or the peer implementation contradict, as it is (the double slash
      of [to_dds_name] in the root namespace, the exchanged operators of the
      steady clock, the payload the Basic and Cyclone mappings ignore, the panic
      after canceling an ended goal, and others their comments name).

    ** Bounds and fuel

    Loops over received samples that RustDDS feeds ([async_receive_response],
    [receive_matching_response], [receive_feedback]) have a fuel argument; more
    fuel than samples at hand makes them return, and that is what their theorems
    assume. [show_N] takes the binary size of the number plus one as fuel, and
    its round trip with [parse_uint] shows it enough. Everything else is
    structural, but for the Spinner's loop, whose fuel is the number of messages
    waiting. Machine integers are numbers in range with the wrap-around
    written out ([wrap_signed], [wrap_unsigned]) or checked ([arith]).

    ** What is not modelled

    RustDDS, Zenoh, [async_channel], [futures::select!] and [join!], CDR and the
    [zenoh-ext] serializer are third-party: they are classes or arguments, or, for
    channels and the polling of futures, their documented behaviour is a step of
    the model; the laws the code relies on are
    ([RustddsQosLaws], [ParamBackendLaws], [CdrMessageLaws],
    [SimpleDataReaderLaws], [ZenohSerializerLaws], [CdrEncodingLaws],
    [StatusStreamLaws], [ActionCodecsLaws], [ZenohSessionLaws], [Sha256Laws]; [Xxh3],
    [DdsQosBuilder] and [DomainParticipant] have none), each
    instantiated by a concrete function where a witness needs it. [NomLaws],
    [Utf16Laws], [SeqFormatLaws] and [IoWriteLaws] are the same for nom, widestring,
    serde and [io::Write], [ParticipantsLaws] for the making of participants;
    [Float64] is [f64] with its parser and printer. For [msggen] the operating
    system is a class with laws ([OsLaws]), bstr one without, and the command
    line is what clap returns. [Delivers] is the arrival of a sample at a reader
    with a history of some depth, which drops the oldest sample that has not been
    taken when it is full ([DeliversLaws]); [Floats] and [Crossterm] stand for the numbers and the
    terminal of the turtle example. Left out are the opening of participants and
    sessions, the [mio] registrations of the library, feature flags and marker
    traits, the tests, and the examples that only create a node and print what
    its streams yield (async_listener, discovery_listener); of the
    others, the creation of their nodes and QoS policies. *)
From stdpp Require Export base tactics list gmap sets strings sorting.
From Stdlib Require Export ZArith Lia ZifyN ZifyNat.

(** [lia] knows division and remainder. *)
Ltac Zify.zify_post_hook ::= Z.to_euclidean_division_equations.

(** ** Rust values shared by every component *)

(** A Rust [char] is a Unicode scalar value and a Rust [String] / [&str] the
    sequence of its [char]s. *)
Abbreviation char := N (only parsing).
Abbreviation str := (list N) (only parsing).

(** The Rust literal written in the source, for ASCII literals. *)
Definition lit (s : string) : str :=
  Ascii.N_of_ascii <$> String.list_ascii_of_string s.

(** [Result<A, E>]. *)
Inductive result (E A : Type) : Type :=
| Ok (a : A)
| Err (e : E).
Arguments Ok {E A} a.
Arguments Err {E A} e.

#[export] Instance result_ret {E} : MRet (result E) := λ A a, Ok a.
#[export] Instance result_bind {E} : MBind (result E) :=
  λ A B f m, match m with Ok a => f a | Err e => Err e end.
#[export] Instance result_fmap {E} : FMap (result E) :=
  λ A B f m, match m with Ok a => Ok (f a) | Err e => Err e end.
#[export] Instance result_eq_dec {E A} `{EqDecision E, EqDecision A} :
  EqDecision (result E A).
Proof. solve_decision. Defined.

(** Stateful code that returns a [Result] (the operator [?] is the bind): the
    state it leaves, on an error too, and its result. *)
Definition stateE (S E A : Type) : Type := S → S * result E A.
#[export] Instance stateE_ret {S E} : MRet (stateE S E) := λ A a st, (st, Ok a).
#[export] Instance stateE_bind {S E} : MBind (stateE S E) :=
  λ A B f m st, match m st with (st, Ok a) => f a st | (st, Err e) => (st, Err e) end.

(** [Option::ok_or]. *)
Definition ok_or {E A} (e : E) (o : option A) : result E A :=
  match o with Some a => Ok a | None => Err e end.
Definition is_ok {E A} (r : result E A) : bool :=
  match r with Ok _ => true | Err _ => false end.
Definition map_err {E F A} (f : E → F) (r : result E A) : result F A :=
  match r with Ok a => Ok a | Err e => Err (f e) end.

(** ** Characters *)
Definition slash : char := 47%N.
Definition percent : char := 37%N.
Definition colon : char := 58%N.
Definition comma : char := 44%N.
Definition underscore : char := 95%N.

Definition is_ascii_digit (c : char) : bool := (48 <=? c)%N && (c <=? 57)%N.
Definition is_ascii_alphabetic (c : char) : bool :=
  ((65 <=? c)%N && (c <=? 90)%N) || ((97 <=? c)%N && (c <=? 122)%N).
Definition is_ascii_alphanumeric (c : char) : bool :=
  is_ascii_alphabetic c || is_ascii_digit c.

(** ** [str] methods of the Rust standard library *)

Definition str_eqb (s t : str) : bool := bool_decide (s = t).

(** [s.split(c)]: always at least one piece. *)
Fixpoint split_on (c : char) (s : str) : list str :=
  match s with
  | [] => [[]]
  | x :: s' =>
      if (x =? c)%N then [] :: split_on c s'
      else match split_on c s' with
           | [] => [[x]]
           | w :: ws => (x :: w) :: ws
           end
  end.

(** The pieces written one after the other with [c] in between, which is what
    a [format!] string of holes separated by [c] produces. *)
Fixpoint join (c : char) (ws : list str) : str :=
  match ws with
  | [] => []
  | [w] => w
  | w :: ws' => w ++ c :: join c ws'
  end.

(** [s.split_once(c)] and [s.rsplit_once(c)]. *)
Fixpoint split_once (c : char) (s : str) : option (str * str) :=
  match s with
  | [] => None
  | x :: s' =>
      if (x =? c)%N then Some ([], s')
      else match split_once c s' with
           | Some (a, b) => Some (x :: a, b)
           | None => None
           end
  end.
Fixpoint rsplit_once (c : char) (s : str) : option (str * str) :=
  match s with
  | [] => None
  | x :: s' =>
      match rsplit_once c s' with
      | Some (a, b) => Some (x :: a, b)
      | None => if (x =? c)%N then Some ([], s') else None
      end
  end.

(** [s.splitn(n, c)]. *)
Fixpoint splitn (n : nat) (c : char) (s : str) : list str :=
  match n with
  | 0 => []
  | 1 => [s]
  | S n' => match split_once c s with
            | Some (a, b) => a :: splitn n' c b
            | None => [s]
            end
  end.

(** [s.replace(c, t)] for a one-character pattern. *)
Definition replace (c : char) (t : str) (s : str) : str :=
  s ≫= λ x, if (x =? c)%N then t else [x].

(** [s.trim_start_matches(c)], [s.trim_matches(c)]. *)
Fixpoint trim_start_matches (c : char) (s : str) : str :=
  match s with
  | [] => []
  | x :: s' => if (x =? c)%N then trim_start_matches c s' else s
  end.
Definition trim_matches (c : char) (s : str) : str :=
  rev (trim_start_matches c (rev (trim_start_matches c s))).

(** [char::is_whitespace] (the Unicode property [White_Space]) and [s.trim()]. *)
Definition is_whitespace (c : char) : bool :=
  ((9 <=? c) && (c <=? 13))%N || (c =? 32)%N || (c =? 133)%N || (c =? 160)%N
  || (c =? 5760)%N || ((8192 <=? c) && (c <=? 8202))%N || (c =? 8232)%N || (c =? 8233)%N
  || (c =? 8239)%N || (c =? 8287)%N || (c =? 12288)%N.
Fixpoint trim_start (s : str) : str :=
  match s with
  | [] => []
  | x :: s' => if is_whitespace x then trim_start s' else s
  end.
Definition trim (s : str) : str := rev (trim_start (rev (trim_start s))).

(** [s.starts_with(t)] for a string pattern. *)
Fixpoint starts_with (t s : str) : bool :=
  match t, s with
  | [], _ => true
  | _ :: _, [] => false
  | a :: t', b :: s' => (a =? b)%N && starts_with t' s'
  end.
(** [s.starts_with(p)] and [s.ends_with(p)] for a character predicate. *)
Definition starts_with_char (p : char → bool) (s : str) : bool :=
  match s with c :: _ => p c | [] => false end.
Definition ends_with_char (p : char → bool) (s : str) : bool :=
  match last s with Some c => p c | None => false end.
(** [s.contains(t)]. *)
Fixpoint contains (t s : str) : bool :=
  starts_with t s || match s with [] => false | _ :: s' => contains t s' end.
Definition str_is_empty (s : str) : bool :=
  match s with [] => true | _ => false end.

(** The [Ord] order of [String]: byte-lexicographic in UTF-8, which is
    lexicographic in the scalar values. *)
Fixpoint str_leb (s t : str) : bool :=
  match s, t with
  | [], _ => true
  | _ :: _, [] => false
  | a :: s', b :: t' => (a <? b)%N || ((a =? b)%N && str_leb s' t')
  end.
Definition str_le (s t : str) : Prop := str_leb s t = true.

#[export] Instance str_le_dec : RelDecision str_le.
Proof. intros s t. unfold str_le. apply _. Defined.

(** ** [Display] and [FromStr] of unsigned integers *)
Fixpoint show_go (fuel : nat) (n : N) (acc : str) : str :=
  match fuel with
  | 0 => acc
  | S f =>
      let acc' := (48 + n `mod` 10)%N :: acc in
      if (n / 10 =? 0)%N then acc' else show_go f (n / 10)%N acc'
  end.
Definition show_N (n : N) : str := show_go (S (N.size_nat n)) n [].
(** [Display] of a signed integer. *)
Definition show_Z (z : Z) : str :=
  if (z <? 0)%Z then lit "-" ++ show_N (Z.to_N (- z)) else show_N (Z.to_N z).

(** [str::parse::<uN>] with [max] the type's [MAX]: an optional [+], at least
    one digit, checked multiplication and addition. *)
Fixpoint parse_digits (max acc : N) (s : str) : option N :=
  match s with
  | [] => Some acc
  | d :: s' =>
      if is_ascii_digit d then
        let acc' := (acc * 10 + (d - 48))%N in
        if (acc' <=? max)%N then parse_digits max acc' s' else None
      else None
  end.
Definition parse_uint (max : N) (s : str) : option N :=
  match (match s with (43%N) :: s' => s' | _ => s end) with
  | [] => None
  | ds => parse_digits max 0 ds
  end.
Definition u16_max : N := 65535%N.
Definition u32_max : N := 4294967295%N.
Definition u64_max : N := 18446744073709551615%N.

(** ** Fixed-width integers *)
Definition i32_min : Z := (-2147483648)%Z.
Definition i32_max : Z := 2147483647%Z.
Definition i64_min : Z := (-9223372036854775808)%Z.
Definition i64_max : Z := 9223372036854775807%Z.
Definition in_i32 (z : Z) : Prop := (i32_min <= z <= i32_max)%Z.
Definition in_u32 (z : Z) : Prop := (0 <= z <= 4294967295)%Z.
Definition in_i64 (z : Z) : Prop := (i64_min <= z <= i64_max)%Z.
Definition in_u64 (z : Z) : Prop := (0 <= z <= 18446744073709551615)%Z.

(** Two's complement wrap-around, which is what [as] casts do. *)
Definition wrap_signed (w : Z) (z : Z) : Z :=
  ((z + 2 ^ (w - 1)) `mod` 2 ^ w - 2 ^ (w - 1))%Z.
Definition wrap_unsigned (w : Z) (z : Z) : Z := (z `mod` 2 ^ w)%Z.

(** Overflow of [+], [-], [*]: the [Debug] profile panics ([None]), the
    [Release] profile wraps around. *)
Inductive profile := Debug | Release.
Definition arith (pr : profile) (w z : Z) : option Z :=
  match pr with
  | Debug =>
      if bool_decide (- 2 ^ (w - 1) <= z < 2 ^ (w - 1))%Z then Some z else None
  | Release => Some (wrap_signed w z)
  end.
Definition arith_u (pr : profile) (w z : Z) : option Z :=
  match pr with
  | Debug => if bool_decide (0 <= z < 2 ^ w)%Z then Some z else None
  | Release => Some (wrap_unsigned w z)
  end.

(** ** [std::time::Duration] *)

(** [u64] seconds and [u32] nanoseconds, the latter below one second. *)
Record StdDuration := { as_secs : N; subsec_nanos : N }.
#[export] Instance StdDuration_eq_dec : EqDecision StdDuration.
Proof. solve_decision. Defined.
Definition NANOS_PER_SEC : N := 1000000000%N.
Definition wf_StdDuration (d : StdDuration) : Prop :=
  (as_secs d <= u64_max)%N ∧ (subsec_nanos d < NANOS_PER_SEC)%N.

(** [Duration::new]: carries the nanoseconds, [None] is its overflow panic. *)
Definition Duration_new (secs nanos : N) : option StdDuration :=
  let s := (secs + nanos / NANOS_PER_SEC)%N in
  if (s <=? u64_max)%N
  then Some {| as_secs := s; subsec_nanos := (nanos mod NANOS_PER_SEC)%N |}
  else None.
Definition as_nanos (d : StdDuration) : N := (as_secs d * NANOS_PER_SEC + subsec_nanos d)%N.
Definition Duration_from_nanos (n : N) : StdDuration :=
  {| as_secs := (n / NANOS_PER_SEC)%N; subsec_nanos := (n mod NANOS_PER_SEC)%N |}.

(** ** Ordered maps

    [BTreeMap<K, V>] is a [gmap]; what depends on the order (iteration) goes
    through [entries], the association list in key order. *)
Definition on_key {K V} (R : relation K) : relation (K * V) := λ a b, R a.1 b.1.

#[export] Instance on_key_dec {K V} (R : relation K) `{!RelDecision R} :
  RelDecision (on_key (V:=V) R).
Proof. intros a b. unfold on_key. apply _. Defined.

Definition entries {V} `{Countable K} (R : relation K) `{!RelDecision R}
    (m : gmap K V) : list (K * V) :=
  merge_sort (on_key R) (map_to_list m).

(** [Vec::dedup]: drops consecutive repetitions. *)
Fixpoint dedup {A} `{EqDecision A} (l : list A) : list A :=
  match l with
  | [] => []
  | x :: l' => match dedup l' with
               | [] => [x]
               | (y :: _) as d => if decide (x = y) then d else x :: d
               end
  end.

(** ** Automation *)
Create HintDb rust discriminated.
#[export] Hint Constants Opaque : rust.

(** Case analysis on every [match] and [if] of the goal or the context. *)
Ltac crush_match :=
  repeat (case_match; simplify_eq/=; try done).
Ltac crush_match_in H :=
  repeat match type of H with
         | context [match ?x with _ => _ end] =>
             let E := fresh "E" in destruct x eqn:E; simplify_eq/=; try done
         end.

(** ** Lemmas: stateful code *)
Section stateE.
Context {S E A B : Type}.
Implicit Types (m : stateE S E A) (f : A → stateE S E B).

Lemma stateE_bind_inv m f st st' r :
  (m ≫= f) st = (st', r) →
  (∃ e, r = Err e ∧ m st = (st', Err e)) ∨ ∃ st1 a, m st = (st1, Ok a) ∧ f a st1 = (st', r).
Proof. unfold mbind, stateE_bind. destruct (m st) as [st1 [a|e]]; naive_solver. Qed.
Lemma stateE_bind_Ok m f st st' b :
  (m ≫= f) st = (st', Ok b) → ∃ st1 a, m st = (st1, Ok a) ∧ f a st1 = (st', Ok b).
Proof. intros [(e&?&_)|?]%stateE_bind_inv; [done|done]. Qed.

Lemma stateE_bind_ext m f f' st :
  (∀ a st, f a st = f' a st) → (m ≫= f) st = (m ≫= f') st.
Proof. intros Hf. unfold mbind, stateE_bind. by destruct (m st) as [? []]. Qed.
Lemma stateE_bind_assoc {C} m f (g : B → stateE S E C) st :
  ((m ≫= f) ≫= g) st = (m ≫= λ a, f a ≫= g) st.
Proof. unfold mbind, stateE_bind. by destruct (m st) as [? []]. Qed.

Lemma is_ok_inv (x : S * result E A) : is_ok x.2 → ∃ st a, x = (st, Ok a).
Proof. destruct x as [st [a|e]]; [eauto|done]. Qed.
(** Code that never returns an error. *)
Definition succeeds {C : Type} (m : stateE S E C) : Prop := ∀ st, is_ok (m st).2.
Lemma succeeds_ret (a : A) : succeeds (mret (M:=stateE S E) a).
Proof. by intros st. Qed.
Lemma succeeds_bind m f : succeeds m → (∀ a, succeeds (f a)) → succeeds (m ≫= f).
Proof.
  intros Hm Hf st. specialize (Hm st). unfold mbind, stateE_bind.
  destruct (m st) as [st1 [a|e]]; [apply Hf|done].
Qed.

(** Code whose every run relates the state it starts in to the one it leaves. *)
Definition respects {C : Type} (R : relation S) (m : stateE S E C) : Prop :=
  ∀ st, R st (m st).1.
Lemma respects_ret (R : relation S) `{!Reflexive R} (a : A) : respects R (mret (M:=stateE S E) a).
Proof. by intros st. Qed.
Lemma respects_bind (R : relation S) `{!Transitive R} m f :
  respects R m → (∀ a, respects R (f a)) → respects R (m ≫= f).
Proof.
  intros Hm Hf st. specialize (Hm st). unfold mbind, stateE_bind.
  destruct (m st) as [st1 [a|e]]; [|done]. etrans; [done|]. apply Hf.
Qed.
End stateE.

(** ** Lemmas: splitting and joining *)

Lemma result_bind_Ok {E A B} (f : A → result E B) (m : result E A) b :
  m ≫= f = Ok b → ∃ a, m = Ok a ∧ f a = Ok b.
Proof. destruct m; [eauto | done]. Qed.

Lemma app_not_shorter {A} (a b : list A) : (length (a ++ b) <? length a) = false.
Proof. apply Nat.ltb_ge. rewrite length_app. lia. Qed.

Lemma split_on_nonempty c s : split_on c s ≠ [].
Proof. destruct s; simpl; repeat case_match; done. Qed.

Lemma split_on_no_sep c s : c ∉ s → split_on c s = [s].
Proof.
  induction s as [|x s IH]; [done|]. simpl. intros Hn.
  apply not_elem_of_cons in Hn as [Hx Hn]. rewrite IH by done.
  destruct (N.eqb_spec x c); [congruence|done].
Qed.

Lemma split_on_app_sep c w s :
  c ∉ w → split_on c (w ++ c :: s) = w :: split_on c s.
Proof.
  induction w as [|x w IH]; simpl; intros Hn.
  - by rewrite N.eqb_refl.
  - apply not_elem_of_cons in Hn as [Hx Hn]. rewrite IH by done.
    destruct (N.eqb_spec x c); [congruence|done].
Qed.

Lemma split_on_join c ws :
  Forall (λ w, c ∉ w) ws → ws ≠ [] → split_on c (join c ws) = ws.
Proof.
  induction 1 as [|w ws Hw Hws IH]; [done|]. intros _.
  destruct ws as [|w' ws]; [by apply split_on_no_sep|].
  change (join c (w :: w' :: ws)) with (w ++ c :: join c (w' :: ws)).
  rewrite split_on_app_sep by done. by rewrite IH.
Qed.

Lemma split_on_pieces c s : Forall (λ w, c ∉ w) (split_on c s).
Proof.
  induction s as [|x s IH]; simpl.
  - constructor; [by apply not_elem_of_nil|done].
  - destruct (N.eqb_spec x c) as [->|Hx].
    + constructor; [by apply not_elem_of_nil|done].
    + destruct (split_on c s) as [|w ws].
      * repeat constructor. set_solver.
      * inversion IH; subst. constructor; [set_solver|done].
Qed.

Lemma join_split_on c s : join c (split_on c s) = s.
Proof.
  induction s as [|x s IH]; [done|]. simpl.
  destruct (N.eqb_spec x c) as [->|Hx].
  - pose proof (split_on_nonempty c s).
    destruct (split_on c s) eqn:E; [done|]. by rewrite <- IH.
  - pose proof (split_on_nonempty c s).
    destruct (split_on c s) as [|w ws] eqn:E; [done|].
    destruct ws; simpl in *; by rewrite <- IH.
Qed.

Lemma split_once_app c a b : c ∉ a → split_once c (a ++ c :: b) = Some (a, b).
Proof.
  induction a as [|x a IH]; simpl; intros Hn.
  - by rewrite N.eqb_refl.
  - apply not_elem_of_cons in Hn as [Hx Hn]. rewrite IH by done.
    destruct (N.eqb_spec x c); [congruence|done].
Qed.

Lemma split_once_none c s : c ∉ s → split_once c s = None.
Proof.
  induction s as [|x s IH]; [done|]. simpl. intros Hn.
  apply not_elem_of_cons in Hn as [Hx Hn]. rewrite IH by done.
  destruct (N.eqb_spec x c); [congruence|done].
Qed.

Lemma rsplit_once_none c s : c ∉ s → rsplit_once c s = None.
Proof.
  induction s as [|x s IH]; [done|]. simpl. intros Hn.
  apply not_elem_of_cons in Hn as [Hx Hn]. rewrite IH by done.
  destruct (N.eqb_spec x c); [congruence|done].
Qed.

Lemma rsplit_once_app c a b : c ∉ b → rsplit_once c (a ++ c :: b) = Some (a, b).
Proof.
  intros Hb. induction a as [|x a IH]; simpl.
  - by rewrite rsplit_once_none, N.eqb_refl.
  - by rewrite IH.
Qed.

Lemma rsplit_once_None c s : rsplit_once c s = None → c ∉ s.
Proof.
  induction s as [|x s IH]; simpl; [intros _; apply not_elem_of_nil|].
  destruct (rsplit_once c s) as [[]|]; [done|].
  destruct (N.eqb_spec x c); [done|]. intros _.
  apply not_elem_of_cons. split; [congruence|auto].
Qed.

Lemma rsplit_once_Some c s a b :
  rsplit_once c s = Some (a, b) → s = a ++ c :: b ∧ c ∉ b.
Proof.
  revert a b. induction s as [|x s IH]; [done|]. simpl. intros a b.
  destruct (rsplit_once c s) as [[a' b']|] eqn:E.
  - intros [= <- <-]. destruct (IH _ _ eq_refl) as [-> ?]. done.
  - destruct (N.eqb_spec x c) as [->|]; [|done]. intros [= <- <-].
    split; [done|]. by apply rsplit_once_None.
Qed.

(** ** Lemmas: replacing characters *)

Lemma replace_app c t s1 s2 :
  replace c t (s1 ++ s2) = replace c t s1 ++ replace c t s2.
Proof. unfold replace. apply bind_app. Qed.

Lemma replace_cons c t x s :
  replace c t (x :: s) = (if (x =? c)%N then t else [x]) ++ replace c t s.
Proof. done. Qed.

Lemma replace_not_in c t s : c ∉ s → replace c t s = s.
Proof.
  induction s as [|x s IH]; [done|]. intros [Hx Hn]%not_elem_of_cons.
  rewrite replace_cons, IH by done.
  destruct (N.eqb_spec x c); [congruence|done].
Qed.

Lemma elem_of_replace c t s y :
  y ∈ replace c t s → (y ∈ s ∧ y ≠ c) ∨ y ∈ t.
Proof.
  induction s as [|x s IH]; [set_solver|]. rewrite replace_cons.
  destruct (N.eqb_spec x c) as [->|]; set_solver.
Qed.

(** Replacing [c] by [d] and back is the identity on strings without [d]. *)
Lemma replace_replace c d s : d ∉ s → replace d [c] (replace c [d] s) = s.
Proof.
  induction s as [|x s IH]; [done|]. intros [Hx Hn]%not_elem_of_cons.
  rewrite replace_cons, replace_app, IH by done.
  destruct (N.eqb_spec x c) as [->|]; unfold replace; simpl.
  - by rewrite N.eqb_refl.
  - destruct (N.eqb_spec x d); [congruence|done].
Qed.

(** ** Lemmas: decimal numerals *)

Lemma show_go_digits f n acc :
  Forall (λ c, is_ascii_digit c = true) acc →
  Forall (λ c, is_ascii_digit c = true) (show_go f n acc).
Proof.
  revert n acc. induction f as [|f IH]; intros n acc H; [done|]. cbn [show_go].
  assert (Forall (λ c, is_ascii_digit c = true) ((48 + n `mod` 10)%N :: acc)).
  { constructor; [|done]. unfold is_ascii_digit.
    assert (n `mod` 10 < 10)%N by (by apply N.mod_upper_bound).
    apply andb_true_intro; split; apply N.leb_le; lia. }
  case_match; eauto.
Qed.

Lemma show_N_digits n : Forall (λ c, is_ascii_digit c = true) (show_N n).
Proof. apply show_go_digits. constructor. Qed.

Lemma show_go_suffix f n acc : acc `suffix_of` show_go f n acc.
Proof.
  revert n acc. induction f as [|f IH]; intros n acc; [done|]. cbn [show_go].
  case_match; [by apply suffix_cons_r|].
  etrans; [|apply IH]. by apply suffix_cons_r.
Qed.

Lemma show_N_nonempty n : show_N n ≠ [].
Proof.
  unfold show_N. cbn [show_go]. case_match; [done|].
  match goal with
  | |- show_go ?f ?m ?a ≠ [] => destruct (show_go_suffix f m a) as [k Hk]; rewrite Hk
  end.
  by destruct k.
Qed.

Lemma show_N_not_in n c : is_ascii_digit c = false → c ∉ show_N n.
Proof.
  intros Hc Hin. pose proof (show_N_digits n) as H.
  rewrite Forall_forall in H. apply H in Hin. congruence.
Qed.

(** The value of a digit string read on top of [a]. *)
Definition digits_val (a : N) (s : str) : N :=
  fold_left (λ a d, a * 10 + (d - 48))%N s a.

Lemma digits_val_ge a s : (a <= digits_val a s)%N.
Proof.
  revert a. induction s as [|d s IH]; intros a; simpl; [lia|].
  specialize (IH (a * 10 + (d - 48))%N). unfold digits_val in *. simpl. lia.
Qed.

Lemma parse_digits_val max a s :
  Forall (λ c, is_ascii_digit c = true) s → (digits_val a s <= max)%N →
  parse_digits max a s = Some (digits_val a s).
Proof.
  intros H. revert a. induction H as [|d s Hd Hs IH]; intros a Hle; [done|].
  simpl. rewrite Hd. unfold digits_val in Hle. simpl in Hle.
  pose proof (digits_val_ge (a * 10 + (d - 48))%N s) as Hge. unfold digits_val in Hge.
  destruct (N.leb_spec (a * 10 + (d - 48)) max); [|lia].
  by apply IH.
Qed.

Lemma show_go_val f n acc :
  (n < 2 ^ N.of_nat f)%N → digits_val 0 (show_go f n acc) = digits_val n acc.
Proof.
  revert n acc. induction f as [|f IH]; intros n acc Hn.
  - simpl in Hn. assert (n = 0)%N as -> by lia. done.
  - cbn [show_go].
    assert (digits_val (n / 10) ((48 + n `mod` 10)%N :: acc) = digits_val n acc) as Hs.
    { unfold digits_val. cbn [fold_left]. f_equal.
      pose proof (N.div_mod n 10 ltac:(done)). lia. }
    destruct (N.eqb_spec (n / 10) 0) as [E|E].
    + rewrite E in Hs. done.
    + rewrite IH; [done|].
      rewrite Nat2N.inj_succ, N.pow_succ_r' in Hn.
      apply N.Div0.div_lt_upper_bound. lia.
Qed.

Lemma N_size_nat_bound n : (n < 2 ^ N.of_nat (N.size_nat n))%N.
Proof.
  destruct n as [|p]; [done|]. simpl N.size_nat.
  induction p as [p IH|p IH|]; cbn [Pos.size_nat];
    rewrite ?Nat2N.inj_succ, ?N.pow_succ_r'; lia.
Qed.

Lemma parse_show_N max n : (n <= max)%N → parse_uint max (show_N n) = Some n.
Proof.
  intros Hmax.
  assert (digits_val 0 (show_N n) = n) as Hv.
  { unfold show_N. rewrite show_go_val; [done|].
    pose proof (N_size_nat_bound n).
    rewrite Nat2N.inj_succ, N.pow_succ_r'. lia. }
  pose proof (show_N_digits n) as Hd. pose proof (show_N_nonempty n).
  unfold parse_uint. destruct (show_N n) as [|d s] eqn:E; [done|].
  assert (parse_digits max 0 (d :: s) = Some n) as Hp.
  { rewrite parse_digits_val by (done || lia). by rewrite Hv. }
  inversion Hd as [|?? Hdd]; subst.
  destruct (decide (d = 43%N)) as [->|]; [done|].
  destruct (N.eqb_spec d 43); [done|].
  repeat case_match; simplify_eq; done.
Qed.

Lemma parse_digits_le max acc s n :
  (acc <= max)%N → parse_digits max acc s = Some n → (n <= max)%N.
Proof.
  revert acc. induction s as [|d s IH]; simpl; intros acc Ha H; [by simplify_eq|].
  destruct (is_ascii_digit d); [|done]. destruct (N.leb_spec (acc * 10 + (d - 48)) max); [|done].
  by eapply IH.
Qed.

Lemma parse_uint_le max s n : parse_uint max s = Some n → (n <= max)%N.
Proof.
  unfold parse_uint. generalize (match s with (43%N) :: s' => s' | _ => s end).
  intros [|d t]; [done|]. apply parse_digits_le. lia.
Qed.

Lemma show_N_inj n m : show_N n = show_N m → n = m.
Proof.
  intros E. pose proof (parse_show_N (N.max n m) n ltac:(lia)) as H.
  rewrite E, parse_show_N in H by lia. by injection H.
Qed.

(** ** Lemmas: the order of strings *)

#[export] Instance str_le_total : Total str_le.
Proof.
  unfold Total, str_le. intros s. induction s as [|a s IH]; intros [|b t]; auto.
  simpl. destruct (N.ltb_spec a b), (N.ltb_spec b a), (N.eqb_spec a b),
    (N.eqb_spec b a); subst; simpl; auto; lia.
Qed.

#[export] Instance str_le_trans : Transitive str_le.
Proof.
  unfold Transitive, str_le. intros s t u. revert s u.
  induction t as [|b t IH]; intros [|a s] [|c u]; simpl; try done.
  intros [H1%N.ltb_lt|[H1%N.eqb_eq H2]%andb_prop]%orb_prop
    [H3%N.ltb_lt|[H3%N.eqb_eq H4]%andb_prop]%orb_prop; subst.
  - assert (a <? c = true)%N as -> by (apply N.ltb_lt; lia). done.
  - assert (a <? c = true)%N as -> by (apply N.ltb_lt; lia). done.
  - assert (b <? c = true)%N as -> by (apply N.ltb_lt; lia). done.
  - rewrite N.eqb_refl, (IH _ _ H2 H4). by rewrite orb_true_r.
Qed.

#[export] Instance str_le_antisymm : AntiSymm (=) str_le.
Proof.
  unfold AntiSymm, str_le. intros s. induction s as [|a s IH]; intros [|b t]; try done.
  simpl. intros [H1%N.ltb_lt|[H1%N.eqb_eq H2]%andb_prop]%orb_prop
    [H3%N.ltb_lt|[H3%N.eqb_eq H4]%andb_prop]%orb_prop; subst; try lia.
  by rewrite (IH t).
Qed.

(** ** Lemmas: ordered maps *)
Section entries.
  Context {V : Type} `{Countable K} (R : relation K) `{!RelDecision R}.
  Context `{!Total R, !Transitive R}.
  Implicit Types m : gmap K V.

#[local] Instance on_key_total : Total (on_key (V:=V) R).
  Proof. intros a b. unfold on_key. apply (total R). Qed.
#[local] Instance on_key_trans : Transitive (on_key (V:=V) R).
  Proof. unfold on_key. intros a b c ??. by etrans. Qed.

Lemma entries_perm m : entries R m ≡ₚ map_to_list m.
  Proof. apply merge_sort_Permutation. Qed.

Lemma elem_of_entries m k v : (k, v) ∈ entries R m ↔ m !! k = Some v.
  Proof. rewrite entries_perm. apply elem_of_map_to_list. Qed.

Lemma NoDup_entries_keys m : NoDup (entries R m).*1.
  Proof. rewrite entries_perm. apply NoDup_fst_map_to_list. Qed.

Lemma entries_sorted m : StronglySorted R (entries R m).*1.
  Proof.
    pose proof (StronglySorted_merge_sort (on_key R) (map_to_list m)) as Hs.
    unfold entries. induction Hs as [|x l Hl IH Hx]; simpl; constructor; [done|].
    rewrite Forall_fmap. by eapply Forall_impl; [exact Hx|].
  Qed.

Lemma length_entries m : length (entries R m) = size m.
  Proof. by rewrite entries_perm, length_map_to_list. Qed.

Lemma elem_of_entries_keys m k : k ∈ (entries R m).*1 ↔ is_Some (m !! k).
  Proof.
    rewrite list_elem_of_fmap. split.
    - intros [[k' v] [-> Hv]]. apply elem_of_entries in Hv. eauto.
    - intros [v Hv]. exists (k, v). split; [done|]. by apply elem_of_entries.
  Qed.
End entries.

Lemma length_filter_perm {A} (P : A → bool) l l' :
  l ≡ₚ l' → length (List.filter P l) = length (List.filter P l').
Proof.
  induction 1 as [|x l l' _ IH|x y l|]; simpl; [done|..|congruence].
  - destruct (P x); simpl; congruence.
  - by destruct (P x), (P y).
Qed.

Lemma sublist_List_filter {A} (P : A → bool) l : List.filter P l `sublist_of` l.
Proof. induction l as [|x l IH]; simpl; [done|]. destruct (P x); by constructor. Qed.

Lemma StronglySorted_sublist {A} (R : relation A) l1 l2 :
  l1 `sublist_of` l2 → StronglySorted R l2 → StronglySorted R l1.
Proof.
  induction 1 as [|x l1 l2 Hl IH|x l1 l2 _ IH]; [done|..]; intros Hs; inversion_clear Hs as [|?? Hs' Hx].
  - constructor; [by apply IH|]. clear IH Hs'.
    induction Hl as [|y l1 l2 _ IH|y l1 l2 _ IH]; [done|..]; inversion_clear Hx; auto.
  - by apply IH.
Qed.

Lemma length_filter_pos {A} (P : A → bool) l :
  0 < length (List.filter P l) ↔ ∃ x, x ∈ l ∧ P x = true.
Proof.
  split.
  - destruct (List.filter P l) as [|x l'] eqn:E; simpl; [lia|]. intros _. exists x.
    rewrite list_elem_of_In, <- filter_In, E. by left.
  - intros (x&Hx&HP). rewrite list_elem_of_In in Hx.
    pose proof (proj2 (filter_In P x l) (conj Hx HP)) as Hf.
    destruct (List.filter P l); [done|simpl; lia].
Qed.

(** Counting the values of a map counts its keys. *)
Lemma length_filter_values {V} `{Countable K} (P : V → bool) (m : gmap K V) :
  length (List.filter P (map_to_list m).*2) = size (filter (λ kv, P kv.2 = true) m).
Proof.
  induction m as [|k v m Hk IH] using map_ind; [done|].
  rewrite (length_filter_perm P _ ((k, v) :: map_to_list m).*2)
    by (by apply fmap_Permutation, map_to_list_insert).
  rewrite fmap_cons. cbn [List.filter snd]. destruct (P v) eqn:Ep; cbn [length].
  - rewrite map_filter_insert_True by done. rewrite map_size_insert_None, IH; [done|].
    apply map_lookup_filter_None. by left.
  - rewrite map_filter_insert_False by (by simpl; congruence).
    by rewrite delete_id.
Qed.

Lemma elem_of_dedup `{EqDecision A} (l : list A) x : x ∈ dedup l ↔ x ∈ l.
Proof.
  induction l as [|y l IH]; [done|]. cbn [dedup].
  destruct (dedup l) as [|z d]; [by rewrite !elem_of_cons, IH|].
  case_decide; subst; rewrite !elem_of_cons in *; tauto.
Qed.

Lemma dedup_sorted_NoDup {A} `{EqDecision A} (R : relation A) `{!AntiSymm (=) R} l :
  StronglySorted R l → NoDup (dedup l) ∧ StronglySorted R (dedup l).
Proof.
  induction 1 as [|x l Hl [IH1 IH2] Hx]; [split; constructor|]. cbn [dedup].
  assert (∀ y, y ∈ dedup l → R x y) as Hd.
  { intros y Hy. rewrite elem_of_dedup in Hy. by eapply Forall_forall in Hx. }
  destruct (dedup l) as [|z d] eqn:E; [repeat constructor; set_solver|].
  case_decide; subst; [done|]. split; constructor; try done.
  - intros [->|Hin]%elem_of_cons; [done|].
    inversion IH2 as [|?? _ Hz]; subst. rewrite Forall_forall in Hz.
    assert (x = z); [|done]. apply (anti_symm R); [set_solver|auto].
  - rewrite Forall_forall. set_solver.
Qed.

(** ** Lemmas: [omap] and an update *)
Lemma omap_insert_same {A B} (f : A → option B) (l : list A) i x y :
  l !! i = Some x → f y = f x → omap f (<[i:=y]> l) = omap f l.
Proof.
  intros Hi Hf. rewrite <-(take_drop_middle l i x Hi) at 2.
  rewrite insert_take_drop by (by eapply lookup_lt_Some). rewrite !omap_app. by csimpl; rewrite Hf.
Qed.
Lemma omap_insert_new {A B} (f : A → option B) (l : list A) i x y b :
  l !! i = Some x → f x = None → f y = Some b → omap f (<[i:=y]> l) ≡ₚ omap f l ++ [b].
Proof.
  intros Hi Hx Hy. rewrite <-(take_drop_middle l i x Hi) at 2.
  rewrite insert_take_drop by (by eapply lookup_lt_Some). rewrite !omap_app. csimpl.
  rewrite Hx, Hy, <-app_assoc. apply Permutation_app_head. by rewrite Permutation_cons_append.
Qed.
Lemma omap_delete_sublist {A B} (f : A → option B) (l : list A) i x y :
  l !! i = Some x → f y = None → omap f (<[i:=y]> l) `sublist_of` omap f l.
Proof.
  intros Hi Hy. rewrite <-(take_drop_middle l i x Hi) at 2.
  rewrite insert_take_drop by (by eapply lookup_lt_Some). rewrite !omap_app. csimpl. rewrite Hy.
  apply sublist_app; [done|]. destruct (f x); [by apply sublist_cons|done].
Qed.
Lemma NoDup_omap_ne {A B} (f : A → option B) (l : list A) i j x y b :
  NoDup (omap f l) → l !! i = Some x → l !! j = Some y → i ≠ j → f x = Some b → f y ≠ Some b.
Proof.
  intros Hnd Hi Hj Hne Hx Hy. revert i j Hi Hj Hne.
  induction l as [|z l IH]; intros [|i] [|j] Hi Hj Hne; simplify_eq/=.
  - rewrite Hx in Hnd. apply NoDup_cons in Hnd as [Hb _]. apply Hb, list_elem_of_omap.
    exists y. split; [by eapply list_elem_of_lookup_2|done].
  - rewrite Hy in Hnd. apply NoDup_cons in Hnd as [Hb _]. apply Hb, list_elem_of_omap.
    exists x. split; [by eapply list_elem_of_lookup_2|done].
  - destruct (f z); [apply NoDup_cons in Hnd as [_ Hnd]|]; by eapply IH; [done..|congruence].
Qed.

Lemma omap_insert_perm {A B} (f : A → option B) (l : list A) i x y :
  l !! i = Some x →
  omap f l ≡ₚ option_list (f x) ++ omap f (delete i l) ∧
  omap f (<[i:=y]> l) ≡ₚ option_list (f y) ++ omap f (delete i l).
Proof.
  intros Hi. apply list_elem_of_split_length in Hi as (l1&l2&->&->).
  rewrite insert_app_r_alt, Nat.sub_diag, delete_middle by done. cbn [insert list_insert].
  rewrite !omap_app. simpl. split; [destruct (f x)|destruct (f y)]; simpl; try done;
    by rewrite Permutation_middle.
Qed.

(** ** A bounded history *)
(** The newest [n] items: what is kept of a history of that depth. *)
Definition keep_last {A} (n : nat) (l : list A) : list A := drop (length l - n) l.
Lemma length_keep_last {A} n (l : list A) : length (keep_last n l) = Nat.min n (length l).
Proof. unfold keep_last. rewrite length_drop. lia. Qed.
Lemma keep_last_all {A} n (l : list A) : length l ≤ n → keep_last n l = l.
Proof. intros Hl. unfold keep_last. by replace (length l - n) with 0 by lia. Qed.
Lemma keep_last_app {A} n (l k : list A) : keep_last n (keep_last n l ++ k) = keep_last n (l ++ k).
Proof.
  destruct (Nat.le_gt_cases (length l) n) as [Hl|Hl]; [by rewrite (keep_last_all n l)|].
  unfold keep_last. rewrite !length_app, length_drop.
  replace (length l - (length l - n) + length k - n) with (length k) by lia.
  replace (length l + length k - n) with (length l - n + length k) by lia.
  rewrite <-drop_drop, (drop_app_le l) by lia. done.
Qed.
Lemma keep_last_fmap {A B} (f : A → B) n (l : list A) : keep_last n (f <$> l) = f <$> keep_last n l.
Proof. unfold keep_last. by rewrite fmap_drop, length_fmap. Qed.
Lemma keep_last_sublist {A} n (l : list A) : keep_last n l `sublist_of` l.
Proof. apply sublist_drop. Qed.
Lemma keep_last_snoc {A} n (l : list A) x : 0 < n → keep_last n (l ++ [x]) ≠ [].
Proof. intros Hn E. apply (f_equal length) in E. rewrite length_keep_last, length_app in E. simpl in E. lia. Qed.

(** ** Lemmas: arithmetic *)

Lemma wrap_signed_id w z :
  (0 < w)%Z → (- 2 ^ (w - 1) <= z < 2 ^ (w - 1))%Z → wrap_signed w z = z.
Proof.
  intros Hw Hz. unfold wrap_signed.
  assert (2 ^ w = 2 * 2 ^ (w - 1))%Z as ->.
  { rewrite <- Z.pow_succ_r by lia. f_equal. lia. }
  rewrite Z.mod_small; lia.
Qed.

Lemma arith_in_range pr w z :
  (0 < w)%Z → (- 2 ^ (w - 1) <= z < 2 ^ (w - 1))%Z → arith pr w z = Some z.
Proof.
  intros Hw Hz. destruct pr; simpl.
  - by rewrite bool_decide_eq_true_2.
  - by rewrite wrap_signed_id.
Qed.

Lemma arith_i64 pr z : in_i64 z → arith pr 64 z = Some z.
Proof. unfold in_i64, i64_min, i64_max. intros. apply arith_in_range; lia. Qed.
Lemma arith_i32 pr z : in_i32 z → arith pr 32 z = Some z.
Proof. unfold in_i32, i32_min, i32_max. intros. apply arith_in_range; lia. Qed.
Lemma wrap_i64_id z : in_i64 z → wrap_signed 64 z = z.
Proof. unfold in_i64, i64_min, i64_max. intros. apply wrap_signed_id; lia. Qed.
Lemma wrap_i32_id z : in_i32 z → wrap_signed 32 z = z.
Proof. unfold in_i32, i32_min, i32_max. intros. apply wrap_signed_id; lia. Qed.
Lemma wrap_u32_id z : in_u32 z → wrap_unsigned 32 z = z.
Proof. unfold in_u32, wrap_unsigned. intros. apply Z.mod_small. lia. Qed.

Lemma wrap_i64_in z : in_i64 (wrap_signed 64 z).
Proof.
  unfold wrap_signed, in_i64, i64_min, i64_max.
  change (2 ^ 64)%Z with 18446744073709551616%Z.
  change (2 ^ (64 - 1))%Z with 9223372036854775808%Z. lia.
Qed.
Lemma wrap_i64_add a b : wrap_signed 64 (wrap_signed 64 a + b) = wrap_signed 64 (a + b).
Proof.
  unfold wrap_signed. f_equal.
  replace ((a + 2 ^ (64 - 1)) `mod` 2 ^ 64 - 2 ^ (64 - 1) + b + 2 ^ (64 - 1))%Z
    with ((a + 2 ^ (64 - 1)) `mod` 2 ^ 64 + b)%Z by lia.
  rewrite Zplus_mod_idemp_l. f_equal. lia.
Qed.
(** Overflow-checked or wrapping, the result of an [i64] operation is an [i64]. *)
Lemma arith_i64_in pr z s : arith pr 64 z = Some s → s = wrap_signed 64 z ∧ in_i64 s.
Proof.
  destruct pr; simpl.
  - case_bool_decide as Hz; [|done]. intros [= <-].
    assert (in_i64 z).
    { unfold in_i64, i64_min, i64_max.
      change (2 ^ (64 - 1))%Z with 9223372036854775808%Z in Hz. lia. }
    by rewrite wrap_i64_id.
  - intros [= <-]. auto using wrap_i64_in.
Qed.

Lemma arith_debug_Some w z z' : arith Debug w z = Some z' → z' = z.
Proof. simpl. case_bool_decide; congruence. Qed.

(** ** Lemmas: [std::time::Duration] *)

Lemma Duration_new_wf s ns d : (s <= u64_max)%N → Duration_new s ns = Some d → wf_StdDuration d.
Proof.
  unfold Duration_new. intros Hs H. destruct (N.leb_spec (s + ns / NANOS_PER_SEC) u64_max); [|done].
  simplify_eq. split; simpl; [done|]. by apply N.mod_lt.
Qed.

Lemma Duration_new_id d :
  wf_StdDuration d → Duration_new (as_secs d) (subsec_nanos d) = Some d.
Proof.
  intros [Hs Hn]. unfold Duration_new. rewrite N.div_small, N.mod_small by done.
  rewrite N.add_0_r. destruct (N.leb_spec (as_secs d) u64_max); [by destruct d|lia].
Qed.

Lemma Duration_nanos_roundtrip d :
  wf_StdDuration d → Duration_from_nanos (as_nanos d) = d.
Proof.
  intros [_ Hn]. unfold Duration_from_nanos, as_nanos. destruct d as [s n]; simpl in *.
  f_equal; unfold NANOS_PER_SEC in *; lia.
Qed.

