(* ===== verification/Names.v ===== *)
(** * Names of nodes, topics, services, actions and types (src/src/names.rs)

    [NodeName], [Name], [MessageTypeName], [ServiceTypeName] and
    [ActionTypeName] with their constructors, parsers and printers, the two
    resolutions of a [Name] against its node -- [to_dds_name] of the DDS
    backend and [resolve_fqn] of the Zenoh backend -- and the names both
    backends derive for actions and parameter services. *)
From S2P Require Import Prelude.

(** ** Data *)

Record NodeName := { namespace : str; base_name : str }.

Inductive NameError :=
| Empty
| BadChar (c : char)
| BadSlash (ns n : str).

Record Name := {
  name_base : str;
  preceeding_tokens : list str;
  absolute : bool
}.

Record MessageTypeName := {
  msg_prefix : str;
  ros2_package_name : str;
  ros2_type_name : str
}.

Record ServiceTypeName := { srv_prefix : str; srv_msg : MessageTypeName }.

(** [ActionTypeName] is a newtype around [MessageTypeName]. *)
Record ActionTypeName := { action_msg : MessageTypeName }.

#[export] Instance NameError_eq_dec : EqDecision NameError.
Proof. solve_decision. Defined.
#[export] Instance NodeName_eq_dec : EqDecision NodeName.
Proof. solve_decision. Defined.
#[export] Instance Name_eq_dec : EqDecision Name.
Proof. solve_decision. Defined.

(** ** [NodeName] *)

(** [NodeName::new]: the checks in the order of the source. *)
Definition NodeName_new (namespace base_name : str) : result NameError NodeName :=
  match base_name with
  | [] => Err Empty
  | c :: _ =>
      if is_ascii_alphabetic c || (c =? underscore)%N then
        match List.find (λ c, negb (is_ascii_alphanumeric c || (c =? underscore)%N)) base_name with
        | Some bad => Err (BadChar bad)
        | None =>
            match namespace with
            | [] => Err (BadSlash (lit "<empty_namespace>") base_name)
            | c :: _ =>
                if is_ascii_alphabetic c || (c =? slash)%N then
                  if starts_with [slash] namespace then
                    match List.find (λ c, negb (is_ascii_alphanumeric c || (c =? underscore)%N
                                               || (c =? slash)%N)) namespace with
                    | Some bad => Err (BadChar bad)
                    | None =>
                        if ends_with_char (λ c, (c =? slash)%N) namespace
                           && negb (str_eqb namespace [slash])
                        then Err (BadSlash namespace base_name)
                        else Ok {| namespace := namespace; base_name := base_name |}
                    end
                  else Err (BadSlash namespace base_name)
                else Err (BadChar c)
            end
        end
      else Err (BadChar c)
  end.

Definition fully_qualified_name (n : NodeName) : str :=
  let fqn := namespace n in
  (if ends_with_char (λ c, (c =? slash)%N) fqn then fqn else fqn ++ [slash])
    ++ base_name n.

(** ** [Name] *)

(** The closures [ok_start_char] and [no_multi_underscore] of [Name::new]. *)
Definition ok_start_char (c : char) : bool := is_ascii_alphabetic c || (c =? underscore)%N.
Definition ok_name_char (c : char) : bool := is_ascii_alphanumeric c || (c =? underscore)%N.
Definition no_multi_underscore (s : str) : bool := negb (contains [underscore; underscore] s).

Definition Name_new (namespace base_name : str) : result NameError Name :=
  let '(namespace_rel, absolute) :=
    match namespace with
    | c :: rel => if (c =? slash)%N then (rel, true) else (namespace, false)
    | [] => (namespace, false)
    end in
  if str_is_empty base_name then Err Empty else
  match List.find (λ c, negb (ok_name_char c)) base_name with
  | Some bad => Err (BadChar bad)
  | None =>
      if negb (starts_with_char ok_start_char base_name) then
        Err (BadChar (match base_name with c :: _ => c | [] => 63%N end))
      else if negb (no_multi_underscore base_name) then Err (BadChar underscore)
      else
        let preceeding_tokens :=
          if str_is_empty namespace_rel then [] else split_on slash namespace_rel in
        if existsb str_is_empty preceeding_tokens then
          Err (BadSlash namespace_rel base_name)
        else if forallb (λ tok, forallb ok_name_char tok
                                && starts_with_char ok_start_char tok
                                && no_multi_underscore tok) preceeding_tokens
        then Ok {| name_base := base_name;
                   preceeding_tokens := preceeding_tokens;
                   absolute := absolute |}
        else Err (BadChar 63%N)
  end.

Definition Name_parse (full_name : str) : result NameError Name :=
  match rsplit_once slash full_name with
  | None => Name_new [] full_name
  | Some ([], []) => Err Empty
  | Some (bad, []) => Err (BadSlash bad [])
  | Some ([], base) => Name_new [slash] base
  | Some (prefix, base) =>
      if ends_with_char (λ c, (c =? slash)%N) prefix
      then Err (BadSlash prefix base)
      else Name_new prefix base
  end.

(** [impl Display for Name]. *)
Definition Name_display (n : Name) : str :=
  (if absolute n then [slash] else [])
    ++ concat (map (λ t, t ++ [slash]) (preceeding_tokens n))
    ++ name_base n.

(** [Name::to_dds_name]; [None] is the panic of its [assert!]. *)
Definition to_dds_name (self : Name) (kind_prefix : str) (node : NodeName)
    (suffix : str) : option str :=
  if ends_with_char (λ c, (c =? slash)%N) kind_prefix then None else
  let r := kind_prefix in
  let r := if absolute self then r else r ++ namespace node in
  let r := r ++ [slash] in
  let r := fold_left (λ r tok, (r ++ tok) ++ [slash]) (preceeding_tokens self) r in
  Some ((r ++ name_base self) ++ suffix).

Definition Name_push (self : Name) (new_suffix : str) : Name :=
  {| name_base := new_suffix;
     preceeding_tokens := preceeding_tokens self ++ [name_base self];
     absolute := absolute self |}.

(** [resolve_fqn] of the Zenoh backend's node.rs. *)
Definition resolve_fqn (name : Name) (node : NodeName) : str :=
  if absolute name then Name_display name
  else let ns := namespace node in
       if str_eqb ns [slash] then slash :: Name_display name
       else ns ++ slash :: Name_display name.

(** ** Type names *)

Definition MessageTypeName_new (package_name type_name : str) : MessageTypeName :=
  {| msg_prefix := lit "msg";
     ros2_package_name := package_name;
     ros2_type_name := type_name |}.
Definition MessageTypeName_new_prefix (package_name type_name prefix : str) : MessageTypeName :=
  {| msg_prefix := prefix;
     ros2_package_name := package_name;
     ros2_type_name := type_name |}.

Definition slash_to_colons (s : str) : str := replace slash [colon; colon] s.

Definition dds_msg_type (m : MessageTypeName) : str :=
  slash_to_colons
    (ros2_package_name m ++ lit "/" ++ msg_prefix m
       ++ lit "/dds_/" ++ ros2_type_name m ++ lit "_").

Definition ServiceTypeName_new (package_name type_name : str) : ServiceTypeName :=
  {| srv_prefix := lit "srv";
     srv_msg := MessageTypeName_new package_name type_name |}.
Definition ServiceTypeName_new_prefix (package_name type_name prefix : str) : ServiceTypeName :=
  {| srv_prefix := prefix;
     srv_msg := MessageTypeName_new package_name type_name |}.
Definition srv_package_name (s : ServiceTypeName) : str :=
  ros2_package_name (srv_msg s).
Definition srv_type_name (s : ServiceTypeName) : str :=
  ros2_type_name (srv_msg s).

(** The common shape of the three service type names. *)
Definition dds_service_type (s : ServiceTypeName) : str :=
  slash_to_colons
    (srv_package_name s ++ lit "/" ++ srv_prefix s ++ lit "/dds_/"
       ++ srv_type_name s ++ lit "_").
Definition dds_request_type (s : ServiceTypeName) : str :=
  slash_to_colons
    (srv_package_name s ++ lit "/" ++ srv_prefix s ++ lit "/dds_/"
       ++ srv_type_name s ++ lit "_Request_").
Definition dds_response_type (s : ServiceTypeName) : str :=
  slash_to_colons
    (srv_package_name s ++ lit "/" ++ srv_prefix s ++ lit "/dds_/"
       ++ srv_type_name s ++ lit "_Response_").

Definition ActionTypeName_new (package_name type_name : str) : ActionTypeName :=
  {| action_msg := MessageTypeName_new package_name type_name |}.
Definition action_package_name (a : ActionTypeName) : str :=
  ros2_package_name (action_msg a).
Definition action_type_name (a : ActionTypeName) : str :=
  ros2_type_name (action_msg a).

Definition dds_action_topic (a : ActionTypeName) (topic : str) : MessageTypeName :=
  MessageTypeName_new_prefix (action_package_name a) (action_type_name a ++ topic)
    (lit "action").
Definition dds_action_service (a : ActionTypeName) (srv : str) : ServiceTypeName :=
  ServiceTypeName_new_prefix (action_package_name a) (action_type_name a ++ srv)
    (lit "action").

(** ** Derived names *)

(** zenoh_backend/node.rs: the [Name] of a parameter service. *)
Definition param_service_name (node_fqn base : str) : result NameError Name :=
  Name_new node_fqn base.
(** zenoh_backend/node.rs: the [Name] of an action's sub-entity. *)
Definition action_sub_name (action_fqn sub : str) : result NameError Name :=
  Name_new (action_fqn ++ lit "/_action") sub.
(** node.rs, [create_action_client] / [create_action_server] of the DDS
    backend: the same sub-entities by [push]. *)
Definition dds_action_sub_name (action_name : Name) (sub : str) : Name :=
  Name_push (Name_push action_name (lit "_action")) sub.

(** ** Well-formedness *)

(** The grammar of one name token of the ROS 2 design article: letters, digits
    and underscores, not starting with a digit, no repeated underscore. *)
Definition token_ok (t : str) : bool :=
  forallb ok_name_char t && starts_with_char ok_start_char t && no_multi_underscore t.
Definition wf_name (n : Name) : Prop :=
  token_ok (name_base n) = true ∧ Forall (λ t, token_ok t = true) (preceeding_tokens n).

(** What [NodeName::new] promises of a node name. *)
Definition ns_char (c : char) : bool := ok_name_char c || (c =? slash)%N.
Definition wf_node_name (n : NodeName) : Prop :=
  forallb ok_name_char (base_name n) = true ∧
  starts_with_char ok_start_char (base_name n) = true ∧
  forallb ns_char (namespace n) = true ∧
  starts_with [slash] (namespace n) = true ∧
  (namespace n = [slash] ∨ ends_with_char (λ c, (c =? slash)%N) (namespace n) = false).

(** The namespaces both name types accept: the root, or slash-led tokens. *)
Definition wf_namespace (ns : str) (tokens : list str) : Prop :=
  ns = slash :: join slash tokens ∧ Forall (λ t, token_ok t = true) tokens.

(** ** Helper lemmas *)

Lemma find_negb_None (p : char → bool) s :
  List.find (λ c, negb (p c)) s = None ↔ forallb p s = true.
Proof.
  induction s as [|c s IH]; [done|]. simpl.
  destruct (p c); simpl; [done|]. by split.
Qed.

Lemma ok_name_char_not_slash c : ok_name_char c = true → c ≠ slash.
Proof. by intros H ->. Qed.

Lemma forallb_not_in (p : char → bool) c s :
  forallb p s = true → p c = false → c ∉ s.
Proof.
  rewrite forallb_forall. intros H Hc Hin%list_elem_of_In. apply H in Hin. congruence.
Qed.

Lemma token_ok_inv t :
  token_ok t = true →
  forallb ok_name_char t = true ∧ starts_with_char ok_start_char t = true ∧
  no_multi_underscore t = true ∧ t ≠ [] ∧ slash ∉ t.
Proof.
  unfold token_ok. intros [[H1 H2]%andb_prop H3]%andb_prop.
  repeat split; try done.
  - by destruct t.
  - by eapply forallb_not_in.
Qed.

Lemma tokens_ok_no_slash ts :
  Forall (λ t, token_ok t = true) ts → Forall (λ t, slash ∉ t) ts.
Proof. intros H. eapply Forall_impl; [exact H|]. intros t Ht. by apply token_ok_inv. Qed.

Lemma existsb_empty_tokens ts :
  Forall (λ t, token_ok t = true) ts → existsb str_is_empty ts = false.
Proof.
  induction 1 as [|t ts Ht _ IH]; [done|]. simpl. rewrite IH.
  apply token_ok_inv in Ht as (_&_&_&Ht&_). by destruct t.
Qed.

Lemma forallb_tokens ts :
  forallb (λ tok, forallb ok_name_char tok && starts_with_char ok_start_char tok
                  && no_multi_underscore tok) ts = true ↔
  Forall (λ t, token_ok t = true) ts.
Proof. rewrite forallb_forall, List.Forall_forall. done. Qed.

(** [Name::new] after its namespace has been split at the leading slash. *)
Lemma Name_new_rel (abs : bool) rel base n :
  (abs = false → ∀ r, rel ≠ slash :: r) →
  Name_new ((if abs then [slash] else []) ++ rel) base = Ok n ↔
  token_ok base = true ∧
  Forall (λ t, token_ok t = true) (preceeding_tokens n) ∧
  n = {| name_base := base;
         preceeding_tokens := if str_is_empty rel then [] else split_on slash rel;
         absolute := abs |}.
Proof.
  intros Hrel. unfold Name_new.
  assert (match (if abs then [slash] else []) ++ rel with
          | c :: r => if (c =? slash)%N then (r, true)
                      else ((if abs then [slash] else []) ++ rel, false)
          | [] => ((if abs then [slash] else []) ++ rel, false)
          end = (rel, abs)) as ->.
  { destruct abs; simpl; [done|]. destruct rel as [|c r]; [done|].
    destruct (N.eqb_spec c slash) as [->|]; [|done]. by destruct (Hrel eq_refl r). }
  set (ts := if str_is_empty rel then [] else split_on slash rel).
  split.
  - destruct base as [|c b]; [done|]. simpl str_is_empty. cbv iota.
    destruct (List.find _ _) eqn:Ef; [done|]. apply find_negb_None in Ef.
    destruct (starts_with_char _ _) eqn:Es; [|done]. simpl negb. cbv iota.
    destruct (no_multi_underscore _) eqn:Em; [|done]. simpl negb. cbv iota.
    destruct (existsb _ _); [done|].
    destruct (forallb _ ts) eqn:Ets; [|done]. intros [= <-]. simpl.
    split; [|split; [by apply forallb_tokens|done]].
    unfold token_ok. by rewrite Ef, Es, Em.
  - intros (Hb&Hts&->). simpl in Hts. fold ts in Hts. fold ts.
    rewrite (existsb_empty_tokens _ Hts).
    apply forallb_tokens in Hts. rewrite Hts.
    apply token_ok_inv in Hb as (H1&H2&H3&H4&_).
    rewrite (proj2 (find_negb_None _ _) H1), H2, H3. simpl.
    by destruct base.
Qed.

Lemma join_tokens_not_slash ts r :
  Forall (λ t, token_ok t = true) ts → join slash ts ≠ slash :: r.
Proof.
  intros H. destruct H as [|t ts Ht Hts]; [done|].
  apply token_ok_inv in Ht as (_&_&_&Ht&Hs). destruct t as [|c t]; [done|].
  simpl. destruct ts; simpl; intros [= -> _]; apply Hs; left.
Qed.

Lemma join_tokens_empty ts :
  Forall (λ t, token_ok t = true) ts → str_is_empty (join slash ts) = str_is_empty (concat ts).
Proof.
  intros H. destruct H as [|t ts Ht Hts]; [done|].
  apply token_ok_inv in Ht as (_&_&_&Ht&_). destruct t as [|c t]; [done|].
  by destruct ts.
Qed.

(** A well-formed name is what [Name::new] builds from its printed namespace. *)
Lemma Name_new_join n :
  wf_name n →
  Name_new ((if absolute n then [slash] else []) ++ join slash (preceeding_tokens n))
    (name_base n) = Ok n.
Proof.
  intros [Hb Hts]. apply Name_new_rel.
  { intros _ r. by apply join_tokens_not_slash. }
  split; [done|]. split; [done|].
  destruct n as [b ts abs]; simpl in *. f_equal.
  destruct (Hts) as [|t ts' Ht Hts']; [done|].
  rewrite join_tokens_empty by done.
  rewrite split_on_join by (done || by apply tokens_ok_no_slash).
  apply token_ok_inv in Ht as (_&_&_&Ht&_). by destruct t.
Qed.

Lemma concat_slash_join ts b :
  concat (map (λ t, t ++ [slash]) ts) ++ b = join slash (ts ++ [b]).
Proof.
  induction ts as [|t ts IH]; [done|]. simpl. rewrite <- !(assoc_L (++)), IH.
  by destruct ts.
Qed.

Lemma Name_display_join n :
  Name_display n = (if absolute n then [slash] else [])
                     ++ join slash (preceeding_tokens n ++ [name_base n]).
Proof. unfold Name_display. by rewrite concat_slash_join. Qed.

Lemma join_snoc c ts b : ts ≠ [] → join c (ts ++ [b]) = join c ts ++ c :: b.
Proof.
  induction ts as [|t ts IH]; [done|]. intros _. destruct ts as [|t' ts]; [done|].
  change (join c ((t :: t' :: ts) ++ [b])) with (t ++ c :: join c ((t' :: ts) ++ [b])).
  rewrite IH by done. change (join c (t :: t' :: ts)) with (t ++ c :: join c (t' :: ts)).
  by rewrite <- (assoc_L (++)).
Qed.

Lemma ends_with_char_app p s t : t ≠ [] → ends_with_char p (s ++ t) = ends_with_char p t.
Proof.
  intros Ht. unfold ends_with_char. rewrite last_app.
  destruct (last t) eqn:E; [done|]. by apply last_None in E.
Qed.

Lemma ends_with_char_not_in c s : c ∉ s → ends_with_char (λ x, (x =? c)%N) s = false.
Proof.
  intros Hn. unfold ends_with_char. destruct (last s) as [x|] eqn:E; [|done].
  apply last_Some_elem_of in E. destruct (N.eqb_spec x c); [congruence|done].
Qed.

Lemma join_tokens_end ts :
  Forall (λ t, token_ok t = true) ts →
  ends_with_char (λ c, (c =? slash)%N) (join slash ts) = false.
Proof.
  intros H. destruct ts as [|t ts _] using rev_ind; [done|].
  apply Forall_app in H as [_ H]. inversion H as [|?? Ht _]; subst.
  apply token_ok_inv in Ht as (_&_&_&Hne&Ht).
  destruct (decide (ts = [])) as [->|]; [by apply ends_with_char_not_in|].
  rewrite join_snoc by done.
  change (slash :: t) with ([slash] ++ t). rewrite (assoc_L (++)).
  rewrite ends_with_char_app by done. by apply ends_with_char_not_in.
Qed.

Lemma token_ok_display n : wf_name n → Name_display n ≠ [] ∧
  ends_with_char (λ c, (c =? slash)%N) (Name_display n) = false.
Proof.
  intros [Hb Hts]. rewrite Name_display_join.
  assert (Forall (λ t, token_ok t = true) (preceeding_tokens n ++ [name_base n])) as H.
  { apply Forall_app. auto. }
  assert (join slash (preceeding_tokens n ++ [name_base n]) ≠ []) as Hne.
  { destruct (decide (preceeding_tokens n = [])) as [->|].
    - simpl. by apply token_ok_inv in Hb as (_&_&_&?&_).
    - rewrite join_snoc by done. by destruct (join _ _). }
  split; [by destruct (absolute n), (join _ _)|].
  rewrite ends_with_char_app by done. by apply join_tokens_end.
Qed.

Lemma Name_parse_display n : wf_name n → Name_parse (Name_display n) = Ok n.
Proof.
  intros Hn. pose proof (Name_new_join n Hn) as Hnew. pose proof Hn as [Hb Hts].
  pose proof Hb as (_&_&_&Hbne&Hbs)%token_ok_inv.
  rewrite Name_display_join. unfold Name_parse.
  destruct (decide (preceeding_tokens n = [])) as [E|E].
  - rewrite E in *. destruct (absolute n).
    + change (rsplit_once slash _) with (rsplit_once slash ([] ++ slash :: name_base n)).
      rewrite rsplit_once_app by done. by destruct (name_base n).
    + change (rsplit_once slash _) with (rsplit_once slash (name_base n)).
      by rewrite rsplit_once_none.
  - rewrite join_snoc, (assoc_L (++)), rsplit_once_app by done.
    pose proof (join_tokens_end _ Hts) as Hend.
    assert (join slash (preceeding_tokens n) ≠ []) as Hj.
    { intros Hj. apply (f_equal str_is_empty) in Hj. rewrite join_tokens_empty in Hj by done.
      destruct (preceeding_tokens n) as [|t ts]; [done|]. inversion Hts as [|?? Ht _]; subst.
      apply token_ok_inv in Ht as (_&_&_&Ht&_). by destruct t. }
    assert (∀ p, ends_with_char p ((if absolute n then [slash] else [])
              ++ join slash (preceeding_tokens n)) =
            ends_with_char p (join slash (preceeding_tokens n))) as Hp.
    { intros p. by apply ends_with_char_app. }
    rewrite <- Hp in Hend.
    destruct (_ ++ join slash _) as [|c pre] eqn:Epre.
    { apply app_eq_nil in Epre as [_ ?]. done. }
    rewrite Hend. by destruct (name_base n).
Qed.

Lemma Name_new_display ns base n :
  Name_new ns base = Ok n → ns ≠ [] → ends_with_char (λ c, (c =? slash)%N) ns = false →
  wf_name n ∧ Name_display n = ns ++ slash :: base.
Proof.
  intros Hn Hne Hend.
  assert (∃ (abs : bool) rel, ns = (if abs then [slash] else []) ++ rel ∧ rel ≠ [] ∧
            (abs = false → ∀ r, rel ≠ slash :: r)) as (abs&rel&->&Hrne&Hrel).
  { destruct ns as [|c rel]; [done|]. destruct (decide (c = slash)) as [->|Hc].
    - exists true, rel. split; [done|]. split; [|done]. by intros ->.
    - exists false, (c :: rel). split; [done|]. split; [done|]. intros _ r [= ? ?]. done. }
  apply Name_new_rel in Hn as (Hb&Hts&->); [|done]. simpl in *.
  split; [done|]. rewrite Name_display_join. simpl.
  destruct rel as [|c rel]; [done|]. cbn [str_is_empty].
  rewrite join_snoc by apply split_on_nonempty.
  by rewrite join_split_on, (assoc_L (++)).
Qed.

(** The namespaces [wf_namespace] describes, as [NodeName]s use them. *)
Lemma wf_namespace_resolve ns tokens node n :
  wf_namespace ns tokens → namespace node = ns → wf_name n → absolute n = false →
  resolve_fqn n node =
  Name_display {| name_base := name_base n;
                  preceeding_tokens := tokens ++ preceeding_tokens n; absolute := true |}.
Proof.
  intros [-> Hts] Hns [Hb Hn] Hrel. unfold resolve_fqn. rewrite Hrel, Hns.
  rewrite !Name_display_join, Hrel. simpl.
  unfold str_eqb. case_bool_decide as E.
  - injection E as E. destruct tokens as [|t ts]; [done|].
    inversion Hts as [|?? Ht _]; subst.
    apply token_ok_inv in Ht as (_&_&_&Ht&_). by destruct t, ts.
  - f_equal. destruct tokens as [|t ts] using rev_ind; [done|].
    clear. revert t. induction ts as [|u us IH]; intros t; simpl.
    + by destruct (preceeding_tokens n).
    + specialize (IH t). destruct (us ++ [t]) eqn:E2; [by destruct us|].
      simpl in *. rewrite <- (assoc_L (++)). simpl. by rewrite <- IH.
Qed.

(** A resolved name is not empty and has none of the characters names exclude. *)
Lemma not_in_join (c d : char) ws : c ≠ d → Forall (λ w, c ∉ w) ws → c ∉ join d ws.
Proof.
  intros Hcd. induction 1 as [|w ws Hw Hws IH]; [set_solver|].
  destruct ws as [|w' ws]; [done|].
  change (join d (w :: w' :: ws)) with (w ++ d :: join d (w' :: ws)). set_solver.
Qed.
Lemma Name_display_not_in c n : wf_name n → ns_char c = false → c ∉ Name_display n.
Proof.
  intros [Hb Hts] Hc. assert (c ≠ slash) as Hs by (by intros ->).
  apply orb_false_iff in Hc as [Ho _]. rewrite Name_display_join.
  assert (c ∉ join slash (preceeding_tokens n ++ [name_base n])) as Hj.
  { apply not_in_join; [done|]. apply Forall_app. split; [|constructor; [|constructor]].
    - eapply Forall_impl; [exact Hts|]. intros t (Ht&_)%token_ok_inv. by eapply forallb_not_in.
    - apply token_ok_inv in Hb as (Hb&_). by eapply forallb_not_in. }
  destruct (absolute n); set_solver.
Qed.
Lemma resolve_fqn_clean c n node :
  wf_name n → wf_node_name node → ns_char c = false →
  c ∉ resolve_fqn n node ∧ resolve_fqn n node ≠ [].
Proof.
  intros Hn Hnode Hc. assert (c ≠ slash) as Hs by (by intros ->).
  pose proof (proj1 (token_ok_display n Hn)) as Hne.
  pose proof (Name_display_not_in c n Hn Hc) as Hd.
  destruct Hnode as (_&_&Hns&_). pose proof (forallb_not_in _ _ _ Hns Hc).
  unfold resolve_fqn. destruct (absolute n); [done|]. destruct (str_eqb _ _).
  - split; [set_solver|done].
  - split; [set_solver|]. by intros [_ ?]%app_eq_nil.
Qed.

(** ** Properties *)

(** C24: [Name::parse] accepts exactly the printed forms of well-formed names:
    parsing inverts [Display], rejects everything else, and a parsed name
    prints back to its input. *)
Theorem name_parse_iff s n :
  Name_parse s = Ok n ↔ wf_name n ∧ Name_display n = s.
Proof.
  split; [|by intros [? <-]; apply Name_parse_display].
  unfold Name_parse. destruct (rsplit_once slash s) as [[a b]|] eqn:E.
  - apply rsplit_once_Some in E as [-> Hb].
    destruct b as [|c b]; [by destruct a|]. destruct a as [|d a].
    + intros H. change [slash] with ((if true then [slash] else []) ++ []) in H.
      apply Name_new_rel in H as (?&?&->); [|done]. done.
    + destruct (ends_with_char _ _) eqn:Ee; [done|]. intros H.
      by apply Name_new_display in H.
  - apply rsplit_once_None in E. intros H.
    change [] with ((if false then [slash] else []) ++ []) in H.
    apply Name_new_rel in H as (?&?&->); [|done]. done.
Qed.

(** A well-formed node name is accepted as it is. *)
Lemma NodeName_new_ok n : wf_node_name n → NodeName_new (namespace n) (base_name n) = Ok n.
Proof.
  intros (H1&H2&H3&H4&H5). unfold NodeName_new.
  destruct n as [ns bn]; cbn [namespace base_name] in *.
  destruct bn as [|c b]; [done|].
  destruct (is_ascii_alphabetic c || _) eqn:Ec; [|by unfold starts_with_char, ok_start_char in H2; rewrite Ec in H2].
  apply find_negb_None in H1. unfold ok_name_char in H1. rewrite H1.
  destruct ns as [|d ns]; [done|]. apply andb_prop in H4 as [<-%N.eqb_eq _].
  change (starts_with [slash] (slash :: ns)) with true.
  rewrite orb_true_r. cbv iota.
  apply find_negb_None in H3. unfold ns_char, ok_name_char in H3. rewrite H3.
  destruct H5 as [->| ->]; done.
Qed.

(** [NodeName::new] succeeds exactly on a base name of letters, digits and
    underscores not led by a digit, and a slash-led namespace of the same
    characters that does not end in a slash unless it is the root; the node
    name it returns holds its two arguments unchanged. *)
Lemma node_name_new_iff ns bn n :
  NodeName_new ns bn = Ok n ↔ wf_node_name n ∧ namespace n = ns ∧ base_name n = bn.
Proof.
  unfold NodeName_new, wf_node_name. split.
  - destruct bn as [|c b]; [done|]. destruct (_ || _) eqn:Ec; [|done].
    destruct (List.find _ (c :: b)) eqn:Ef; [done|]. apply find_negb_None in Ef.
    destruct ns as [|d ns]; [done|]. destruct (is_ascii_alphabetic d || _); [|done].
    destruct (starts_with _ _) eqn:Es; [|done].
    destruct (List.find _ (d :: ns)) eqn:Ef2; [done|]. apply find_negb_None in Ef2.
    destruct (_ && _) eqn:Ee; [done|]. intros [= <-]. simpl namespace; simpl base_name.
    repeat split; try done.
    apply andb_false_iff in Ee as [|Ee%negb_false_iff]; [by right|left].
    unfold str_eqb in Ee. by apply bool_decide_eq_true in Ee.
  - intros [Hwf [<- <-]]. by apply NodeName_new_ok.
Qed.

(** The DDS name of a topic or service is the prefix, the name the Zenoh
    backend resolves, and the suffix -- except that a relative name in the root
    namespace gets a doubled slash the Zenoh backend does not write. *)
Lemma to_dds_name_resolve n kind_prefix node suffix :
  ends_with_char (λ c, (c =? slash)%N) kind_prefix = false →
  to_dds_name n kind_prefix node suffix =
  Some (kind_prefix
          ++ (if negb (absolute n) && str_eqb (namespace node) [slash] then [slash] else [])
          ++ resolve_fqn n node ++ suffix).
Proof.
  intros Hk. unfold to_dds_name. rewrite Hk. f_equal.
  assert (∀ ts r, fold_left (λ r tok : str, (r ++ tok) ++ [slash]) ts r =
                  r ++ concat (map (λ t, t ++ [slash]) ts)) as Hf.
  { induction ts as [|t ts IH]; intros r; simpl; [by rewrite app_nil_r|].
    rewrite IH. by rewrite <- !(assoc_L (++)). }
  rewrite Hf. unfold resolve_fqn, Name_display.
  destruct (absolute n); simpl; [by rewrite <- !(assoc_L (++))|].
  unfold str_eqb. case_bool_decide as E; simpl.
  - rewrite E. by repeat (rewrite <- ?(assoc_L (++)); simpl).
  - by repeat (rewrite <- ?(assoc_L (++)); simpl).
Qed.

Lemma to_dds_name_resolve_witness :
  to_dds_name {| name_base := lit "chatter"; preceeding_tokens := []; absolute := false |}
    (lit "rt") {| namespace := lit "/"; base_name := lit "talker" |} [] =
  Some (lit "rt//chatter").
Proof. exact (to_dds_name_resolve _ (lit "rt") _ [] eq_refl). Defined.

Lemma split_on_abs ts b :
  Forall (λ t, token_ok t = true) ts → token_ok b = true →
  split_on slash (join slash (ts ++ [b])) = ts ++ [b].
Proof.
  intros Hts Hb. apply split_on_join; [|by destruct ts].
  apply tokens_ok_no_slash, Forall_app. auto.
Qed.

(** The fully qualified name without its leading slash. *)
Lemma fqn_abs node :
  wf_node_name node →
  ∃ rel, fully_qualified_name node = slash :: rel ∧ rel ≠ [] ∧
         ends_with_char (λ c, (c =? slash)%N) rel = false.
Proof.
  intros (Hb1&Hb2&_&Hs&_). unfold fully_qualified_name.
  destruct (namespace node) as [|c ns]; [done|].
  apply andb_prop in Hs as [<-%N.eqb_eq _].
  assert (slash ∉ base_name node) as Hn by (by eapply forallb_not_in).
  assert (base_name node ≠ []) as Hne by (by destruct (base_name node)).
  destruct (ends_with_char _ _);
    [exists (ns ++ base_name node)|exists ((ns ++ [slash]) ++ base_name node)];
    (split; [done|]); (split; [by destruct ns, (base_name node)|]);
    (rewrite ends_with_char_app by done); by apply ends_with_char_not_in.
Qed.

(** creating a parameter service under a node succeeds exactly when every
    token of the node's fully qualified name obeys the stricter rules of
    [Name]; the service is then called [<fqn>/<base>].  [NodeName] accepts more
    (repeated underscores, repeated slashes, leading digits), and for those
    nodes the name is rejected. *)
Lemma param_service_name_iff node base :
  wf_node_name node → token_ok base = true →
  (is_ok (param_service_name (fully_qualified_name node) base) = true ↔
   Forall (λ t, token_ok t = true) (tail (split_on slash (fully_qualified_name node)))) ∧
  (∀ n, param_service_name (fully_qualified_name node) base = Ok n →
        Name_display n = fully_qualified_name node ++ slash :: base).
Proof.
  intros Hwf Hb. destruct (fqn_abs node Hwf) as (rel&E&Hrel&Hend).
  unfold param_service_name. rewrite E.
  change (tail (split_on slash (slash :: rel))) with (split_on slash rel).
  pose proof (λ n, Name_new_rel true rel base n ltac:(done)) as Hiff.
  cbn [app] in Hiff.
  split; [split|].
  - intros Hok. destruct (Name_new _ _) as [n|] eqn:En; [|done].
    pose proof (proj1 (Hiff n) eq_refl) as (_&Hts&->). simpl in Hts. by destruct rel.
  - intros Hts. rewrite (proj2 (Hiff {| name_base := base;
      preceeding_tokens := split_on slash rel; absolute := true |})); [done|].
    split; [done|]. split; [done|]. by destruct rel.
  - intros n Hn. apply Name_new_display in Hn as [_ ->]; [done|done|].
    change (slash :: rel) with ([slash] ++ rel). by rewrite ends_with_char_app.
Qed.

Lemma param_service_name_iff_witness :
  (∃ node, NodeName_new (lit "/") (lit "my__node") = Ok node ∧
     is_ok (param_service_name (fully_qualified_name node) (lit "get_parameters")) = false) ∧
  is_ok (param_service_name (lit "/robot1/talker") (lit "get_parameters")) = true.
Proof.
  split.
  - eexists. split; [reflexivity|].
    destruct (is_ok _) eqn:E; [|reflexivity].
    apply (param_service_name_iff _ _) in E; [|vm_compute; tauto|reflexivity].
    vm_compute in E. inversion E as [|?? H _]. discriminate H.
  - apply (param_service_name_iff
             {| namespace := lit "/robot1"; base_name := lit "talker" |});
      [vm_compute; tauto|reflexivity|]. vm_compute. repeat constructor.
Defined.

(** A name made absolute in a namespace of the given tokens. *)
Definition absolute_name (tokens : list str) (a : Name) : Name :=
  {| name_base := name_base a; absolute := true;
     preceeding_tokens := (if absolute a then [] else tokens) ++ preceeding_tokens a |}.
Lemma absolute_name_wf tokens a :
  wf_name a → Forall (λ t, token_ok t = true) tokens → wf_name (absolute_name tokens a).
Proof.
  intros [Hb Hts] Hn. split; [done|]. simpl. destruct (absolute a); [done|]. by apply Forall_app.
Qed.
Lemma resolve_absolute a node tokens :
  wf_name a → wf_namespace (namespace node) tokens →
  resolve_fqn a node = Name_display (absolute_name tokens a).
Proof.
  intros Ha Hns. destruct (absolute a) eqn:E.
  - unfold resolve_fqn, absolute_name. rewrite E. f_equal. by destruct a; simpl in *; subst.
  - rewrite (wf_namespace_resolve (namespace node) tokens) by done. unfold absolute_name.
    by rewrite E.
Qed.
Lemma sub_name_wf a sub :
  wf_name a → token_ok sub = true → wf_name (dds_action_sub_name a sub).
Proof.
  intros [Hb Hts] Hsub. split; [done|]. simpl.
  apply Forall_app. split; [|by repeat constructor].
  apply Forall_app. split; [exact Hts|by repeat constructor].
Qed.
Lemma sub_name_display a sub :
  Name_display (dds_action_sub_name a sub) = Name_display a ++ lit "/_action" ++ slash :: sub.
Proof.
  rewrite !Name_display_join. simpl.
  rewrite (join_snoc slash ((preceeding_tokens a ++ [name_base a]) ++ [lit "_action"]))
    by (by intros [_ ?]%app_eq_nil).
  rewrite join_snoc by (by intros [_ ?]%app_eq_nil).
  by rewrite <- !(assoc_L (++)).
Qed.
(** The Zenoh backend's sub-name of an absolute name is the DDS backend's. *)
Lemma action_sub_name_push ab sub :
  wf_name ab → token_ok sub = true →
  action_sub_name (Name_display ab) sub = Ok (dds_action_sub_name ab sub).
Proof.
  intros Hab Hsub. unfold action_sub_name.
  assert (Name_display ab ++ lit "/_action" =
          (if absolute ab then [slash] else [])
            ++ join slash (preceeding_tokens (dds_action_sub_name ab sub))) as ->.
  { rewrite Name_display_join. simpl. rewrite (join_snoc slash (_ ++ [_])); [|
      by intros [_ ?]%app_eq_nil]. by rewrite <- (assoc_L (++)). }
  apply (Name_new_join (dds_action_sub_name ab sub)). by apply sub_name_wf.
Qed.

(** an action's services and topics get the same fully qualified name from
    the DDS backend's two [push]es and from the Zenoh backend's
    [action_sub_name], for every action name and every node whose namespace
    consists of valid tokens. *)
Lemma action_sub_name_backends_agree a node tokens sub :
  wf_name a → wf_namespace (namespace node) tokens → token_ok sub = true →
  ∃ n, action_sub_name (resolve_fqn a node) sub = Ok n ∧ wf_name n ∧
       Name_display n = resolve_fqn (dds_action_sub_name a sub) node.
Proof.
  intros Ha Hns Hsub. pose proof (absolute_name_wf tokens a Ha (proj2 Hns)) as Hab.
  assert (wf_name (dds_action_sub_name a sub)) as Hd by by apply sub_name_wf.
  exists (dds_action_sub_name (absolute_name tokens a) sub). split_and!.
  - rewrite (resolve_absolute a node tokens) by done. by apply action_sub_name_push.
  - by apply sub_name_wf.
  - rewrite (resolve_absolute (dds_action_sub_name a sub) node tokens) by done. f_equal.
    unfold absolute_name, dds_action_sub_name, Name_push. simpl.
    destruct (absolute a); simpl; by rewrite <- ?(assoc_L (++)).
Qed.

Lemma action_sub_name_backends_agree_witness :
  ∃ n, action_sub_name (lit "/robot1/fibonacci") (lit "send_goal") = Ok n ∧ wf_name n ∧
       Name_display n = lit "/robot1/fibonacci/_action/send_goal".
Proof.
  apply (action_sub_name_backends_agree
    {| name_base := lit "fibonacci"; preceeding_tokens := []; absolute := false |}
    {| namespace := lit "/robot1"; base_name := lit "server" |} [lit "robot1"] (lit "send_goal"));
    [split; repeat constructor| split; repeat constructor|reflexivity].
Defined.

(** A package, prefix or type part of a DDS type name. *)
Definition plain_part (s : str) : Prop := slash ∉ s ∧ colon ∉ s.

Lemma slash_to_colons_parts p q :
  plain_part p → slash_to_colons (p ++ slash :: q) = p ++ colon :: colon :: slash_to_colons q.
Proof.
  intros [Hp _]. unfold slash_to_colons. rewrite replace_app.
  by rewrite (replace_not_in _ _ p).
Qed.

Lemma dds_msg_type_shape m :
  plain_part (ros2_package_name m) → plain_part (msg_prefix m) → slash ∉ ros2_type_name m →
  dds_msg_type m =
  ros2_package_name m ++ colon :: colon :: msg_prefix m
    ++ colon :: colon :: lit "dds_" ++ colon :: colon :: ros2_type_name m ++ [underscore].
Proof.
  intros Hp Hx Ht. unfold dds_msg_type.
  change (lit "/" ++ ?r) with (slash :: r).
  rewrite slash_to_colons_parts by done. do 3 f_equal.
  change (lit "/dds_/" ++ ?r) with (slash :: lit "dds_" ++ slash :: r).
  rewrite slash_to_colons_parts by done. do 3 f_equal.
  rewrite slash_to_colons_parts by (split; apply (bool_decide_unpack _); vm_compute; exact I).
  do 3 f_equal. unfold slash_to_colons. apply replace_not_in.
  rewrite elem_of_app. intros [?|?]; [done|]. by apply list_elem_of_singleton in H.
Qed.

Lemma app_sep_inj (c : char) a b a' b' :
  c ∉ a → c ∉ a' → a ++ c :: b = a' ++ c :: b' → a = a' ∧ b = b'.
Proof.
  intros Ha Ha' E. pose proof (split_once_app c a b Ha) as H.
  rewrite E, split_once_app in H by done. by simplify_eq.
Qed.

(** The DDS name of a message type determines its package, its prefix and
    its type name, when none of them contains a slash or a colon (which no ROS
    identifier does); so messages, services' and actions' types of different
    packages or kinds never collide on the wire. *)
Lemma dds_msg_type_inj m m' :
  plain_part (ros2_package_name m) → plain_part (msg_prefix m) → plain_part (ros2_type_name m) →
  plain_part (ros2_package_name m') → plain_part (msg_prefix m') → plain_part (ros2_type_name m') →
  dds_msg_type m = dds_msg_type m' → m = m'.
Proof.
  intros Hp Hx [Ht _] Hp' Hx' [Ht' _] E.
  rewrite !dds_msg_type_shape in E by done.
  apply app_sep_inj in E as [E1 E]; [|apply Hp|apply Hp'].
  injection E as E. apply app_sep_inj in E as [E2 E]; [|apply Hx|apply Hx'].
  injection E as E. apply app_inv_tail in E.
  destruct m, m'; simpl in *. by subst.
Qed.

Lemma dds_msg_type_inj_witness :
  dds_msg_type (MessageTypeName_new (lit "std_msgs") (lit "String")) ≠
  dds_msg_type (MessageTypeName_new_prefix (lit "std_msgs") (lit "String") (lit "srv")).
Proof.
  intros E. apply dds_msg_type_inj in E; [discriminate E|..];
    split; apply (bool_decide_unpack _); vm_compute; exact I.
Defined.
