(* ===== verification/KeyExpr.v ===== *)
(** * Zenoh key expressions (zenoh_backend/keyexpr.rs)

    The construction of data-plane and liveliness keys and the parser of
    liveliness keys. *)
From S2P Require Import Prelude.

Definition ADMIN_SPACE : str := lit "@ros2_lv".

Inductive EntityKind := Node | Publisher | Subscription | ServiceServer | ServiceClient.

#[export] Instance EntityKind_eq_dec : EqDecision EntityKind.
Proof. solve_decision. Defined.

Definition code (k : EntityKind) : str :=
  match k with
  | Node => lit "NN"
  | Publisher => lit "MP"
  | Subscription => lit "MS"
  | ServiceServer => lit "SS"
  | ServiceClient => lit "SC"
  end.

Definition mangle (name : str) : str :=
  if str_is_empty name then lit "%" else replace slash [percent] name.
Definition demangle (name : str) : str := replace percent [slash] name.
Definition strip_slashes (fq_name : str) : str := trim_matches slash fq_name.

Definition topic_keyexpr (domain_id : N) (fq_name type_name type_hash : str) : str :=
  show_N domain_id ++ slash :: strip_slashes fq_name ++ slash :: type_name
    ++ slash :: type_hash.

Record EntityIds := {
  session_id : str;
  ids_node_id : N;
  ids_entity_id : N;
  enclave : str;
  ids_namespace : str;
  ids_node_name : str;
}.

Definition node_liveliness_keyexpr (domain_id : N) (ids : EntityIds) : str :=
  ADMIN_SPACE ++ slash :: show_N domain_id ++ slash :: session_id ids
    ++ slash :: show_N (ids_node_id ids) ++ slash :: show_N (ids_node_id ids)
    ++ slash :: code Node ++ slash :: mangle (enclave ids)
    ++ slash :: mangle (ids_namespace ids) ++ slash :: mangle (ids_node_name ids).

Definition entity_liveliness_keyexpr (domain_id : N) (ids : EntityIds) (kind : EntityKind)
    (qualified_name type_name type_hash qos : str) : str :=
  ADMIN_SPACE ++ slash :: show_N domain_id ++ slash :: session_id ids
    ++ slash :: show_N (ids_node_id ids) ++ slash :: show_N (ids_entity_id ids)
    ++ slash :: code kind ++ slash :: mangle (enclave ids)
    ++ slash :: mangle (ids_namespace ids) ++ slash :: mangle (ids_node_name ids)
    ++ slash :: mangle qualified_name ++ slash :: type_name ++ slash :: type_hash
    ++ slash :: qos.

Definition graph_cache_keyexpr (domain_id : N) : str :=
  ADMIN_SPACE ++ slash :: show_N domain_id ++ lit "/**".

Record ParsedEntity := {
  domain_id : N;
  zid : str;
  node_id : N;
  entity_id : N;
  kind : EntityKind;
  namespace : str;
  node_name : str;
  topic_name : option str;
  type_name : option str;
  type_hash : option str;
  qos : option str;
}.

#[export] Instance ParsedEntity_eq_dec : EqDecision ParsedEntity.
Proof. solve_decision. Defined.

Definition parse_kind (s : str) : option EntityKind :=
  if str_eqb s (lit "NN") then Some Node
  else if str_eqb s (lit "MP") then Some Publisher
  else if str_eqb s (lit "MS") then Some Subscription
  else if str_eqb s (lit "SS") then Some ServiceServer
  else if str_eqb s (lit "SC") then Some ServiceClient
  else None.

(** The chunks past the ninth are only read for the entities that have them,
    as in the source, where they are indexed after the length guards. *)
Definition parse_liveliness_key (key : str) : option ParsedEntity :=
  match split_on slash key with
  | p0 :: p1 :: p2 :: p3 :: p4 :: p5 :: p6 :: p7 :: p8 :: rest =>
      if negb (str_eqb p0 ADMIN_SPACE) then None else
      domain_id ← parse_uint u16_max p1;
      node_id ← parse_uint u64_max p3;
      entity_id ← parse_uint u64_max p4;
      kind ← parse_kind p5;
      '(topic_name, type_name, type_hash, qos) ←
        (if bool_decide (kind = Node) then Some (None, None, None, None) else
         match rest with
         | p9 :: p10 :: p11 :: p12 :: _ =>
             Some (Some (demangle p9), Some p10, Some p11, Some p12)
         | _ => None
         end);
      Some {| domain_id := domain_id; zid := p2; node_id := node_id;
              entity_id := entity_id; kind := kind; namespace := demangle p7;
              node_name := demangle p8; topic_name := topic_name;
              type_name := type_name; type_hash := type_hash; qos := qos |}
  | _ => None
  end.

(** What a mangled name demangles to: itself, except that the empty name comes
    back as the root. *)
Definition demangled (name : str) : str := if str_is_empty name then [slash] else name.

(** ** Lemmas *)

Lemma parse_kind_code k : parse_kind (code k) = Some k.
Proof. by destruct k. Qed.

Lemma parse_kind_Some s k : parse_kind s = Some k → s = code k.
Proof.
  unfold parse_kind, str_eqb. intros H.
  repeat case_bool_decide; by simplify_eq.
Qed.

Lemma demangle_mangle s : percent ∉ s → demangle (mangle s) = demangled s.
Proof.
  intros H. unfold mangle, demangle, demangled. destruct s as [|c s]; [done|].
  cbn [str_is_empty]. by apply replace_replace.
Qed.

Lemma mangle_no_slash s : slash ∉ mangle s.
Proof.
  unfold mangle. destruct (str_is_empty s); [by apply (bool_decide_unpack _)|].
  intros [[? ?]|H]%elem_of_replace; [done|].
  by apply list_elem_of_singleton in H.
Qed.

Lemma code_no_slash k : slash ∉ code k.
Proof. destruct k; by apply (bool_decide_unpack _). Qed.

Lemma ADMIN_SPACE_no_slash : slash ∉ ADMIN_SPACE.
Proof. by apply (bool_decide_unpack _). Qed.

Lemma show_N_no_slash n : slash ∉ show_N n.
Proof. by apply show_N_not_in. Qed.

#[export] Hint Resolve mangle_no_slash code_no_slash ADMIN_SPACE_no_slash show_N_no_slash : rust.

(** Chunks separated by [slash] are recovered by [split]. *)
Lemma split_on_chunk a b : slash ∉ a → split_on slash (a ++ slash :: b) = a :: split_on slash b.
Proof. apply split_on_app_sep. Qed.

(** Reads a key chunk by chunk. *)
Ltac split_chunks :=
  repeat (rewrite split_on_chunk by auto with rust); rewrite split_on_no_sep by auto with rust.

Lemma split_entity_key d ids k qn ty h q :
  slash ∉ session_id ids → slash ∉ ty → slash ∉ h → slash ∉ q →
  split_on slash (entity_liveliness_keyexpr d ids k qn ty h q) =
  [ADMIN_SPACE; show_N d; session_id ids; show_N (ids_node_id ids); show_N (ids_entity_id ids);
   code k; mangle (enclave ids); mangle (ids_namespace ids); mangle (ids_node_name ids);
   mangle qn; ty; h; q].
Proof. intros. unfold entity_liveliness_keyexpr. by split_chunks. Qed.

Lemma split_node_key d ids :
  slash ∉ session_id ids →
  split_on slash (node_liveliness_keyexpr d ids) =
  [ADMIN_SPACE; show_N d; session_id ids; show_N (ids_node_id ids); show_N (ids_node_id ids);
   code Node; mangle (enclave ids); mangle (ids_namespace ids); mangle (ids_node_name ids)].
Proof. intros. unfold node_liveliness_keyexpr. by split_chunks. Qed.

(** The identifiers a key can carry: 16- and 64-bit ids, a session id that is
    one chunk, names without the mangling character. *)
Definition ids_ok (d : N) (ids : EntityIds) : Prop :=
  (d ≤ u16_max)%N ∧ (ids_node_id ids ≤ u64_max)%N ∧ (ids_entity_id ids ≤ u64_max)%N ∧
  slash ∉ session_id ids ∧ percent ∉ ids_namespace ids ∧ percent ∉ ids_node_name ids.

Definition parsed_entity (d : N) (ids : EntityIds) (k : EntityKind) (qn ty h q : str) :
    ParsedEntity :=
  {| domain_id := d; zid := session_id ids; node_id := ids_node_id ids;
     entity_id := ids_entity_id ids; kind := k;
     namespace := demangled (ids_namespace ids); node_name := demangled (ids_node_name ids);
     topic_name := Some (demangled qn); type_name := Some ty; type_hash := Some h;
     qos := Some q |}.

Lemma parse_entity_key d ids k qn ty h q :
  ids_ok d ids → percent ∉ qn → slash ∉ ty → slash ∉ h → slash ∉ q → k ≠ Node →
  parse_liveliness_key (entity_liveliness_keyexpr d ids k qn ty h q) =
  Some (parsed_entity d ids k qn ty h q).
Proof.
  intros (Hd&Hn&He&Hz&Hns&Hnn) Hqn Hty Hh Hq Hk. unfold parse_liveliness_key.
  rewrite split_entity_key by done.
  change (negb (str_eqb ADMIN_SPACE ADMIN_SPACE)) with false. cbv iota.
  rewrite !parse_show_N by done. simpl. rewrite parse_kind_code. simpl.
  rewrite bool_decide_eq_false_2 by done. simpl. by rewrite !demangle_mangle.
Qed.

Lemma parse_node_key d ids :
  ids_ok d ids →
  parse_liveliness_key (node_liveliness_keyexpr d ids) =
  Some {| domain_id := d; zid := session_id ids; node_id := ids_node_id ids;
          entity_id := ids_node_id ids; kind := Node;
          namespace := demangled (ids_namespace ids); node_name := demangled (ids_node_name ids);
          topic_name := None; type_name := None; type_hash := None; qos := None |}.
Proof.
  intros (Hd&Hn&He&Hz&Hns&Hnn). unfold parse_liveliness_key. rewrite split_node_key by done.
  change (negb (str_eqb ADMIN_SPACE ADMIN_SPACE)) with false. cbv iota.
  rewrite !parse_show_N by done. rewrite parse_kind_code. simpl. by rewrite !demangle_mangle.
Qed.

Lemma demangle_no_percent s : percent ∉ demangle s.
Proof.
  intros [[? ?]|H]%elem_of_replace; [done|]. by apply list_elem_of_singleton in H.
Qed.

(** A fully qualified name: one leading slash, none at the end. *)
Definition clean_fqn (fq : str) : Prop :=
  ∃ rel, fq = slash :: rel ∧
    starts_with_char (λ c, (c =? slash)%N) rel = false ∧
    ends_with_char (λ c, (c =? slash)%N) rel = false.

Lemma trim_start_clean c s :
  starts_with_char (λ x, (x =? c)%N) s = false → trim_start_matches c s = s.
Proof. destruct s as [|x s]; [done|]. simpl. by intros ->. Qed.

Lemma trim_matches_clean rel :
  starts_with_char (λ c, (c =? slash)%N) rel = false ∧
    ends_with_char (λ c, (c =? slash)%N) rel = false →
  trim_matches slash (slash :: rel) = rel.
Proof.
  intros [Hs He]. unfold trim_matches.
  change (trim_start_matches slash (slash :: rel)) with (trim_start_matches slash rel).
  rewrite (trim_start_clean slash rel) by done.
  rewrite trim_start_clean; [apply rev_involutive|].
  revert He. unfold ends_with_char. destruct rel as [|x l _] using rev_ind; [done|].
  by rewrite last_snoc, rev_app_distr.
Qed.

(** ** Properties *)

(** C23: parsing the liveliness key of a publisher, subscription, service server
    or client returns every field it was built from; only an empty name comes
    back as [/]. *)
Theorem parse_entity_liveliness d ids k qn ty h q :
  ids_ok d ids → percent ∉ qn → slash ∉ ty → slash ∉ h → slash ∉ q → k ≠ Node →
  parse_liveliness_key (entity_liveliness_keyexpr d ids k qn ty h q) =
  Some {| domain_id := d; zid := session_id ids; node_id := ids_node_id ids;
          entity_id := ids_entity_id ids; kind := k;
          namespace := if str_is_empty (ids_namespace ids) then [slash] else ids_namespace ids;
          node_name := if str_is_empty (ids_node_name ids) then [slash] else ids_node_name ids;
          topic_name := Some (if str_is_empty qn then [slash] else qn);
          type_name := Some ty; type_hash := Some h; qos := Some q |}.
Proof. apply parse_entity_key. Qed.

Definition example_ids : EntityIds :=
  {| session_id := lit "aac3178e"; ids_node_id := 0; ids_entity_id := 10; enclave := [];
     ids_namespace := lit "/"; ids_node_name := lit "talker" |}.

Lemma parse_entity_liveliness_witness :
  entity_liveliness_keyexpr 0 example_ids Publisher (lit "/chatter")
    (lit "std_msgs::msg::dds_::String_") (lit "RIHS01_df") (lit "::,7:,:,:,,")
  = lit "@ros2_lv/0/aac3178e/0/10/MP/%/%/talker/%chatter/std_msgs::msg::dds_::String_/RIHS01_df/::,7:,:,:,,"
  ∧ topic_name <$> parse_liveliness_key
      (entity_liveliness_keyexpr 0 example_ids Publisher (lit "/chatter")
        (lit "std_msgs::msg::dds_::String_") (lit "RIHS01_df") (lit "::,7:,:,:,,"))
  = Some (Some (lit "/chatter")).
Proof.
  split; [vm_compute; reflexivity|].
  rewrite parse_entity_liveliness; [reflexivity|..|discriminate];
    apply (bool_decide_unpack _); vm_compute; exact I.
Defined.

(** Every successfully parsed key starts with the admin space and carries
    numeric ids in range, and exactly the entities other than nodes have a
    topic, a type, a hash and a QoS; no parsed name contains the mangling
    character. *)
Lemma parse_liveliness_wf key e :
  parse_liveliness_key key = Some e →
  starts_with (ADMIN_SPACE ++ [slash]) key = true ∧
  (domain_id e ≤ u16_max)%N ∧ (node_id e ≤ u64_max)%N ∧ (entity_id e ≤ u64_max)%N ∧
  percent ∉ namespace e ∧ percent ∉ node_name e ∧
  (kind e = Node ↔ topic_name e = None) ∧
  (is_Some (topic_name e) ↔ is_Some (type_name e) ∧ is_Some (type_hash e) ∧ is_Some (qos e)).
Proof.
  unfold parse_liveliness_key.
  destruct (split_on slash key) as [|p0 [|p1 [|p2 [|p3 [|p4 [|p5 [|p6 [|p7 [|p8 rest]]]]]]]]]
    eqn:E; [done..|].
  destruct (negb _) eqn:E0; [done|]. apply negb_false_iff, bool_decide_eq_true in E0 as ->.
  destruct (parse_uint u16_max p1) eqn:E1; [simpl|done].
  destruct (parse_uint u64_max p3) eqn:E3; [simpl|done].
  destruct (parse_uint u64_max p4) eqn:E4; [simpl|done].
  destruct (parse_kind p5) eqn:E5; [simpl|done].
  apply parse_uint_le in E1, E3, E4. intros H.
  assert (starts_with (ADMIN_SPACE ++ [slash]) key = true).
  { rewrite <- (join_split_on slash key), E. reflexivity. }
  destruct (bool_decide _) eqn:Ek.
  - apply bool_decide_eq_true in Ek as ->. simplify_eq/=. repeat split; try done;
      try apply demangle_no_percent; by intros [].
  - apply bool_decide_eq_false in Ek.
    destruct rest as [|p9 [|p10 [|p11 [|p12 rest]]]]; [done..|]. simplify_eq/=.
    repeat split; try done; by apply demangle_no_percent.
Qed.

Lemma parse_liveliness_wf_witness :
  parse_liveliness_key (lit "@ros2_lv/0/zz/1/1/NN/%/%/listener") =
  Some {| domain_id := 0; zid := lit "zz"; node_id := 1; entity_id := 1; kind := Node;
          namespace := lit "/"; node_name := lit "listener"; topic_name := None;
          type_name := None; type_hash := None; qos := None |} ∧
  percent ∉ lit "/".
Proof.
  split; [vm_compute; reflexivity|].
  exact (proj1 (proj2 (proj2 (proj2 (proj2
    (parse_liveliness_wf (lit "@ros2_lv/0/zz/1/1/NN/%/%/listener") _ eq_refl)))))).
Defined.

(** Two data-plane keys agree exactly when their domains, names, types and hashes
    do: no other topic or service can receive the data. *)
Lemma topic_key_eq d fq ty h d' fq' ty' h' :
  clean_fqn fq → clean_fqn fq' →
  slash ∉ ty → slash ∉ h → slash ∉ ty' → slash ∉ h' →
  (topic_keyexpr d fq ty h = topic_keyexpr d' fq' ty' h' ↔
   d = d' ∧ fq = fq' ∧ ty = ty' ∧ h = h').
Proof.
  intros [rel [-> Hr]] [rel' [-> Hr']] Hty Hh Hty' Hh'. split; [|naive_solver].
  unfold topic_keyexpr, strip_slashes. rewrite !trim_matches_clean by done. intros E.
  pose proof (f_equal (split_once slash) E) as E1.
  rewrite !split_once_app in E1 by apply show_N_no_slash. injection E1 as Ed E1.
  assert (∀ r t u : str, r ++ slash :: t ++ slash :: u = (r ++ slash :: t) ++ slash :: u) as Ha.
  { intros. by rewrite <- (assoc_L (++)). }
  rewrite !Ha in E1. pose proof (f_equal (rsplit_once slash) E1) as E2.
  rewrite !rsplit_once_app in E2 by done. injection E2 as E2 ->.
  apply (f_equal (rsplit_once slash)) in E2.
  rewrite !rsplit_once_app in E2 by done. injection E2 as -> ->.
  apply show_N_inj in Ed as ->. done.
Qed.
