(* ===== verification/Qos.v ===== *)
(** * Quality of service (qos.rs, zenoh_backend/qos_encoding.rs)

    The owned QoS profile, its conversions from and to RustDDS's policies (whose
    types and builder are parameters) and the compact encoding of the Zenoh
    liveliness keys. *)
From S2P Require Import Prelude.

(** ** The profile *)

Inductive Reliability := BestEffort | Reliable.
Inductive Durability := Volatile | TransientLocal.
Inductive History := KeepLast (depth : N) | KeepAll.
Inductive Liveliness := Automatic | ManualByTopic.
#[export] Instance Reliability_eq_dec : EqDecision Reliability.
Proof. solve_decision. Defined.
#[export] Instance Durability_eq_dec : EqDecision Durability.
Proof. solve_decision. Defined.
#[export] Instance History_eq_dec : EqDecision History.
Proof. solve_decision. Defined.
#[export] Instance Liveliness_eq_dec : EqDecision Liveliness.
Proof. solve_decision. Defined.

Record QosProfile := {
  reliability : Reliability;
  durability : Durability;
  history : History;
  deadline : option StdDuration;
  lifespan : option StdDuration;
  liveliness : Liveliness;
  liveliness_lease : option StdDuration;
}.
#[export] Instance QosProfile_eq_dec : EqDecision QosProfile.
Proof. solve_decision. Defined.

Definition subscription_default : QosProfile :=
  {| reliability := BestEffort; durability := Volatile; history := KeepLast 1;
     deadline := None; lifespan := None; liveliness := Automatic;
     liveliness_lease := None |}.
Definition set_reliability (r : Reliability) (q : QosProfile) : QosProfile :=
  {| reliability := r; durability := durability q; history := history q;
     deadline := deadline q; lifespan := lifespan q; liveliness := liveliness q;
     liveliness_lease := liveliness_lease q |}.
Definition set_durability (d : Durability) (q : QosProfile) : QosProfile :=
  {| reliability := reliability q; durability := d; history := history q;
     deadline := deadline q; lifespan := lifespan q; liveliness := liveliness q;
     liveliness_lease := liveliness_lease q |}.
Definition set_history (h : History) (q : QosProfile) : QosProfile :=
  {| reliability := reliability q; durability := durability q; history := h;
     deadline := deadline q; lifespan := lifespan q; liveliness := liveliness q;
     liveliness_lease := liveliness_lease q |}.
Definition publisher_default : QosProfile := set_reliability Reliable subscription_default.
Definition default_qos : QosProfile := subscription_default.

(** ** Conversions from and to RustDDS policies *)

(** The variants of [rustdds::policy] the conversions construct and match;
    [OtherDurability] is what their catch-all arm meets. *)
Inductive DdsReliability (D : Type) := DdsBestEffort | DdsReliable (max_blocking_time : D).
Arguments DdsBestEffort {D}.
Arguments DdsReliable {D}.
Inductive DdsDurability := DdsVolatile | DdsTransientLocal | OtherDurability.
Inductive DdsHistory := DdsKeepLast (depth : Z) | DdsKeepAll.
Inductive DdsLiveliness (D : Type) :=
| DdsAutomatic (lease_duration : D)
| DdsManualByParticipant (lease_duration : D)
| DdsManualByTopic (lease_duration : D).
Arguments DdsAutomatic {D}.
Arguments DdsManualByParticipant {D}.
Arguments DdsManualByTopic {D}.

(** RustDDS: its [Duration], and [QosPolicies] with its getters and the
    builder's chain of setters followed by [build]. *)
Class RustddsQos (D P : Type) := {
  dds_eq_dec :: EqDecision D;
  INFINITE : D;
  dds_from_millis : Z → D;
  dds_from_nanos : Z → D;
  to_nanoseconds : D → Z;
  q_durability : P → option DdsDurability;
  q_reliability : P → option (DdsReliability D);
  q_history : P → option DdsHistory;
  q_liveliness : P → option (DdsLiveliness D);
  q_deadline : P → option D;
  q_lifespan : P → option D;
  q_build : DdsDurability → DdsReliability D → DdsHistory → DdsLiveliness D → D → D → P;
}.

(** What the builder documents: a policy that was set is the one returned. *)
Class RustddsQosLaws (D P : Type) `{RustddsQos D P} := {
  build_durability d r h l dl ls : q_durability (q_build d r h l dl ls) = Some d;
  build_reliability d r h l dl ls : q_reliability (q_build d r h l dl ls) = Some r;
  build_history d r h l dl ls : q_history (q_build d r h l dl ls) = Some h;
  build_liveliness d r h l dl ls : q_liveliness (q_build d r h l dl ls) = Some l;
  build_deadline d r h l dl ls : q_deadline (q_build d r h l dl ls) = Some dl;
  build_lifespan d r h l dl ls : q_lifespan (q_build d r h l dl ls) = Some ls;
}.

Section dds_conv.
Context {D P : Type} `{RustddsQos D P}.

Definition DEFAULT_MAX_BLOCKING : D := dds_from_millis 100.

Definition to_dds_duration (d : option StdDuration) : D :=
  match d with
  | None => INFINITE
  | Some d => dds_from_nanos (wrap_signed 64 (Z.of_N (as_nanos d)))
  end.
Definition from_dds_duration (d : D) : option StdDuration :=
  if bool_decide (d = INFINITE) then None
  else Some (Duration_from_nanos (Z.to_N (Z.max (to_nanoseconds d) 0))).

Definition to_policies (p : QosProfile) : P :=
  q_build
    (match durability p with
     | Volatile => DdsVolatile
     | TransientLocal => DdsTransientLocal
     end)
    (match reliability p with
     | BestEffort => DdsBestEffort
     | Reliable => DdsReliable DEFAULT_MAX_BLOCKING
     end)
    (match history p with
     | KeepLast depth => DdsKeepLast (wrap_signed 32 (Z.of_N depth))
     | KeepAll => DdsKeepAll
     end)
    (match liveliness p with
     | Automatic => DdsAutomatic (to_dds_duration (liveliness_lease p))
     | ManualByTopic => DdsManualByTopic (to_dds_duration (liveliness_lease p))
     end)
    (to_dds_duration (deadline p))
    (to_dds_duration (lifespan p)).

Definition from_policies (q : P) : QosProfile :=
  let '(l, lease) :=
    match q_liveliness q with
    | Some (DdsManualByTopic d) => (ManualByTopic, from_dds_duration d)
    | Some (DdsAutomatic d) => (Automatic, from_dds_duration d)
    | Some (DdsManualByParticipant d) => (Automatic, from_dds_duration d)
    | None => (Automatic, None)
    end in
  {| reliability := match q_reliability q with
                    | Some (DdsReliable _) => Reliable
                    | _ => BestEffort
                    end;
     durability := match q_durability q with
                   | Some DdsVolatile | None => Volatile
                   | Some _ => TransientLocal
                   end;
     history := match q_history q with
                | Some DdsKeepAll => KeepAll
                | Some (DdsKeepLast depth) => KeepLast (Z.to_N (Z.max depth 0))
                | None => KeepLast 1
                end;
     deadline := q_deadline q ≫= from_dds_duration;
     lifespan := q_lifespan q ≫= from_dds_duration;
     liveliness := l;
     liveliness_lease := lease |}.
End dds_conv.

(** ** The compact encoding *)

Definition DEFAULT_RELIABILITY : Reliability := Reliable.
Definition DEFAULT_DURABILITY : Durability := Volatile.
Definition DEFAULT_LIVELINESS : Liveliness := Automatic.

Definition reliability_code (r : Reliability) : str :=
  match r with Reliable => lit "1" | BestEffort => lit "2" end.
Definition durability_code (d : Durability) : str :=
  match d with TransientLocal => lit "1" | Volatile => lit "2" end.
Definition liveliness_code (l : Liveliness) : str :=
  match l with Automatic => lit "1" | ManualByTopic => lit "3" end.
Definition duration_fields (d : option StdDuration) : str * str :=
  match d with
  | None => ([], [])
  | Some d => (show_N (as_secs d), show_N (subsec_nanos d))
  end.

Definition encode_qos (q : QosProfile) : str :=
  let rel := if bool_decide (reliability q = DEFAULT_RELIABILITY) then []
             else reliability_code (reliability q) in
  let dur := if bool_decide (durability q = DEFAULT_DURABILITY) then []
             else durability_code (durability q) in
  let '(hist, depth) := match history q with
                        | KeepLast depth => ([], depth)
                        | KeepAll => (lit "2", 0%N)
                        end in
  let liv := if bool_decide (liveliness q = DEFAULT_LIVELINESS) then []
             else liveliness_code (liveliness q) in
  let '(dl_s, dl_ns) := duration_fields (deadline q) in
  let '(ls_s, ls_ns) := duration_fields (lifespan q) in
  let '(lease_s, lease_ns) := duration_fields (liveliness_lease q) in
  rel ++ colon :: dur ++ colon :: (hist ++ comma :: show_N depth)
    ++ colon :: (dl_s ++ comma :: dl_ns) ++ colon :: (ls_s ++ comma :: ls_ns)
    ++ colon :: (liv ++ comma :: lease_s ++ comma :: lease_ns).

Inductive QosDecodeError := QosDecodeErr.
#[export] Instance QosDecodeError_eq_dec : EqDecision QosDecodeError.
Proof. solve_decision. Defined.

(** Decoding can panic in [Duration::new]: [None]. *)
Definition decoded (A : Type) : Type := option (result QosDecodeError A).
#[export] Instance decoded_ret : MRet decoded := λ A a, Some (Ok a).
#[export] Instance decoded_bind : MBind decoded := λ A B f m,
  match m with
  | Some (Ok a) => f a
  | Some (Err e) => Some (Err e)
  | None => None
  end.
Definition bad {A} : decoded A := Some (Err QosDecodeErr).
Definition or_bad {A} (o : option A) : decoded A := Some (ok_or QosDecodeErr o).

Definition parse_duration (sec nsec : str) : decoded (option StdDuration) :=
  match str_is_empty sec, str_is_empty nsec with
  | true, true => mret None
  | _, _ =>
      s ← or_bad (parse_uint u64_max sec);
      ns ← or_bad (parse_uint u32_max nsec);
      match Duration_new s ns with
      | Some d => mret (Some d)
      | None => None
      end
  end.

Definition decode_qos (s : str) : decoded QosProfile :=
  match split_on colon s with
  | [g0; g1; g2; g3; g4; g5] =>
      reliability ← (if str_is_empty g0 then mret DEFAULT_RELIABILITY
                     else if str_eqb g0 (lit "1") then mret Reliable
                     else if str_eqb g0 (lit "2") then mret BestEffort else bad);
      durability ← (if str_is_empty g1 then mret DEFAULT_DURABILITY
                    else if str_eqb g1 (lit "1") then mret TransientLocal
                    else if str_eqb g1 (lit "2") then mret Volatile else bad);
      '(hist_str, depth_str) ← or_bad (split_once comma g2);
      depth ← (if str_is_empty depth_str then mret 0%N
               else or_bad (parse_uint u64_max depth_str));
      history ← (if str_is_empty hist_str || str_eqb hist_str (lit "1")
                 then mret (KeepLast depth)
                 else if str_eqb hist_str (lit "2") then mret KeepAll else bad);
      '(dl_s, dl_ns) ← or_bad (split_once comma g3);
      deadline ← parse_duration dl_s dl_ns;
      '(ls_s, ls_ns) ← or_bad (split_once comma g4);
      lifespan ← parse_duration ls_s ls_ns;
      let liv_parts := splitn 3 comma g5 in
      let liv_str := default [] (liv_parts !! 0) in
      let lease_s := default [] (liv_parts !! 1) in
      let lease_ns := default [] (liv_parts !! 2) in
      liveliness ← (if str_is_empty liv_str then mret DEFAULT_LIVELINESS
                    else if str_eqb liv_str (lit "1") then mret Automatic
                    else if str_eqb liv_str (lit "3") then mret ManualByTopic else bad);
      liveliness_lease ← parse_duration lease_s lease_ns;
      mret {| reliability := reliability; durability := durability; history := history;
              deadline := deadline; lifespan := lifespan; liveliness := liveliness;
              liveliness_lease := liveliness_lease |}
  | _ => bad
  end.

(** A profile whose numbers fit their types. *)
Definition wf_qos (q : QosProfile) : Prop :=
  match history q with KeepLast d => (d <= u64_max)%N | KeepAll => True end ∧
  (∀ d, deadline q = Some d → wf_StdDuration d) ∧
  (∀ d, lifespan q = Some d → wf_StdDuration d) ∧
  (∀ d, liveliness_lease q = Some d → wf_StdDuration d).

#[local] Arguments show_N : simpl never.
#[local] Arguments parse_uint : simpl never.
#[local] Arguments parse_duration : simpl never.

(** ** Lemmas *)

Lemma show_N_nonempty_eqb n : str_is_empty (show_N n) = false.
Proof. pose proof (show_N_nonempty n). by destruct (show_N n). Qed.

Lemma parse_duration_fields d s ns :
  (∀ x, d = Some x → wf_StdDuration x) → duration_fields d = (s, ns) →
  parse_duration s ns = Some (Ok d).
Proof.
  intros Hd E. destruct d as [d|]; simplify_eq/=; [|done].
  specialize (Hd d eq_refl). pose proof Hd as [Hs Hn].
  unfold parse_duration. rewrite show_N_nonempty_eqb, (parse_show_N u64_max) by done.
  rewrite parse_show_N by (unfold u32_max, NANOS_PER_SEC in *; lia).
  simpl. by rewrite Duration_new_id.
Qed.

Lemma parse_duration_wf s ns d :
  parse_duration s ns = Some (Ok d) → ∀ x, d = Some x → wf_StdDuration x.
Proof.
  unfold parse_duration. intros H x ->.
  assert (parse_uint u64_max s ≫= (λ s, parse_uint u32_max ns ≫= Duration_new s) = Some x) as Hx.
  { destruct (str_is_empty s), (str_is_empty ns); try discriminate H;
      (destruct (parse_uint u64_max s); [simpl in *|discriminate H]);
      (destruct (parse_uint u32_max ns); [simpl in *|discriminate H]);
      (destruct (Duration_new _ _); [by injection H as ->|discriminate H]). }
  destruct (parse_uint u64_max s) eqn:E1; [simpl in *|done].
  destruct (parse_uint u32_max ns); [simpl in *|done].
  eapply Duration_new_wf; [by eapply parse_uint_le|done].
Qed.

Lemma duration_fields_clean c d s ns :
  is_ascii_digit c = false → duration_fields d = (s, ns) → c ∉ s ∧ c ∉ ns.
Proof.
  intros Hc E. destruct d; simplify_eq/=; [split; by apply show_N_not_in|set_solver].
Qed.

(** An encoded profile is one chunk of a liveliness key. *)
Lemma encode_qos_no_slash q : slash ∉ encode_qos q.
Proof.
  unfold encode_qos.
  destruct (duration_fields (deadline q)) as [dl_s dl_ns] eqn:Edl.
  destruct (duration_fields (lifespan q)) as [ls_s ls_ns] eqn:Els.
  destruct (duration_fields (liveliness_lease q)) as [le_s le_ns] eqn:Ele.
  destruct (duration_fields_clean slash _ _ _ eq_refl Edl).
  destruct (duration_fields_clean slash _ _ _ eq_refl Els).
  destruct (duration_fields_clean slash _ _ _ eq_refl Ele).
  destruct (match history q with KeepLast d => _ | KeepAll => _ end) as [hist depth] eqn:Eh.
  pose proof (show_N_not_in depth slash eq_refl).
  set (rel := if bool_decide (reliability q = _) then _ else _).
  set (dur := if bool_decide (durability q = _) then _ else _).
  set (liv := if bool_decide (liveliness q = _) then _ else _).
  assert (slash ∉ rel ∧ slash ∉ dur ∧ slash ∉ liv ∧ slash ∉ hist) as (?&?&?&?).
  { subst rel dur liv. destruct q as [[] [] [] ? ? [] ?]; simplify_eq/=;
      split_and!; by apply (bool_decide_unpack _). }
  assert (slash ≠ colon ∧ slash ≠ comma) as [? ?] by done.
  clearbody rel dur liv. set_solver.
Qed.

Lemma or_bad_Some {A} (o : option A) a : or_bad o = Some (Ok a) ↔ o = Some a.
Proof. unfold or_bad, ok_or. destruct o; naive_solver. Qed.

Lemma decoded_bind_Some {A B} (m : decoded A) (f : A → decoded B) b :
  m ≫= f = Some (Ok b) → ∃ a, m = Some (Ok a) ∧ f a = Some (Ok b).
Proof. destruct m as [[a|e]|]; [|done..]. intros H. by exists a. Qed.

(** Reads a successful decoding one bind at a time. *)
Ltac inv_decoded H :=
  repeat match type of H with
         | mbind _ _ = Some (Ok _) =>
             let x := fresh "x" in let Hx := fresh "Hx" in
             apply decoded_bind_Some in H as (x & Hx & H); cbv beta zeta in H
         | context [let '(_, _) := ?x in _] => destruct x
         end.

Lemma decode_qos_wf s q : decode_qos s = Some (Ok q) → wf_qos q.
Proof.
  unfold decode_qos. intros H.
  destruct (split_on colon s) as [|g0 [|g1 [|g2 [|g3 [|g4 [|g5 [|]]]]]]]; [done..| |done].
  inv_decoded H. injection H as <-. unfold wf_qos; simpl.
  split; [|split_and!; by eapply parse_duration_wf].
  unfold mret, decoded_ret, bad in *.
  assert (x1 <= u64_max)%N.
  { destruct (str_is_empty l0); [injection Hx2 as <-; apply N.le_0_l|].
    apply (proj1 (or_bad_Some _ _)) in Hx2. exact (parse_uint_le _ _ _ Hx2). }
  destruct (str_is_empty l || _); [by injection Hx3 as <-|].
  destruct (str_eqb l _); [by injection Hx3 as <-|discriminate Hx3].
Qed.

(** The pieces of an encoded profile contain no separator. *)
Lemma encode_decode_qos q : wf_qos q → decode_qos (encode_qos q) = Some (Ok q).
Proof.
  intros (Hh&Hdl&Hls&Hlease). unfold encode_qos.
  destruct (duration_fields (deadline q)) as [dl_s dl_ns] eqn:Edl.
  destruct (duration_fields (lifespan q)) as [ls_s ls_ns] eqn:Els.
  destruct (duration_fields (liveliness_lease q)) as [le_s le_ns] eqn:Ele.
  destruct (duration_fields_clean colon _ _ _ eq_refl Edl).
  destruct (duration_fields_clean colon _ _ _ eq_refl Els).
  destruct (duration_fields_clean colon _ _ _ eq_refl Ele).
  destruct (duration_fields_clean comma _ _ _ eq_refl Edl).
  destruct (duration_fields_clean comma _ _ _ eq_refl Els).
  destruct (duration_fields_clean comma _ _ _ eq_refl Ele).
  assert (colon ≠ comma) by done.
  destruct (match history q with KeepLast d => _ | KeepAll => _ end) as [hist depth] eqn:Eh.
  set (rel := if bool_decide (reliability q = _) then _ else _).
  set (dur := if bool_decide (durability q = _) then _ else _).
  set (liv := if bool_decide (liveliness q = _) then _ else _).
  assert (colon ∉ rel ∧ colon ∉ dur ∧ colon ∉ liv ∧ comma ∉ liv ∧ colon ∉ hist ∧ comma ∉ hist)
    as (?&?&?&?&?&?).
  { subst rel dur liv. destruct q as [[] [] [] ? ? [] ?]; simplify_eq/=;
      split_and!; by apply (bool_decide_unpack _). }
  pose proof (show_N_not_in depth colon eq_refl). pose proof (show_N_not_in depth comma eq_refl).
  unfold decode_qos.
  do 5 rewrite split_on_app_sep by set_solver. rewrite split_on_no_sep by set_solver.
  rewrite !split_once_app by done.
  cbn [splitn]. rewrite !split_once_app by done.
  pose proof (show_N_nonempty_eqb depth) as Hde.
  assert (parse_uint u64_max (show_N depth) = Some depth) as Hdp.
  { apply parse_show_N. destruct (history q); simplify_eq; [done|apply N.le_0_l]. }
  apply (parse_duration_fields _ _ _ Hdl) in Edl. apply (parse_duration_fields _ _ _ Hls) in Els.
  apply (parse_duration_fields _ _ _ Hlease) in Ele.
  subst rel dur liv. clear -Eh Edl Els Ele Hde Hdp.
  revert Hde Hdp. generalize (show_N depth). intros sd Hde Hdp.
  destruct q as [[] [] [] ? ? [] ?]; simplify_eq/=;
    rewrite Hde, Hdp; simpl; rewrite Edl; simpl; rewrite Els; simpl; by rewrite Ele.
Qed.

(** ** Properties *)

(** C22: every QoS profile survives the compact encoding of the liveliness keys,
    for every combination of policies, depths and durations. *)
Theorem qos_roundtrip q : wf_qos q → decode_qos (encode_qos q) = Some (Ok q).
Proof. apply encode_decode_qos. Qed.

Definition example_qos : QosProfile :=
  {| reliability := BestEffort; durability := TransientLocal; history := KeepLast 7;
     deadline := Some {| as_secs := 1; subsec_nanos := 500000000 |}; lifespan := None;
     liveliness := ManualByTopic;
     liveliness_lease := Some {| as_secs := 0; subsec_nanos := 250000000 |} |}.

Lemma qos_roundtrip_witness :
  encode_qos example_qos = lit "2:1:,7:1,500000000:,:3,0,250000000" ∧
  decode_qos (encode_qos example_qos) = Some (Ok example_qos).
Proof.
  split; [vm_compute; reflexivity|]. apply qos_roundtrip.
  split; [vm_compute; discriminate|].
  split_and!; intros d [= <-]; split; vm_compute; done.
Defined.

(** A decoded profile is well formed, and encoding it again gives a string
    that decodes to the same profile, whatever form the received string had. *)
Lemma decode_qos_canonical s q :
  decode_qos s = Some (Ok q) → wf_qos q ∧ decode_qos (encode_qos q) = Some (Ok q).
Proof. intros H%decode_qos_wf. split; [done|]. by apply encode_decode_qos. Qed.

Lemma decode_qos_canonical_witness :
  decode_qos (lit "1:2:1,+7:0,3000000000:,:1,,") =
    Some (Ok {| reliability := Reliable; durability := Volatile; history := KeepLast 7;
                deadline := Some {| as_secs := 3; subsec_nanos := 0 |}; lifespan := None;
                liveliness := Automatic; liveliness_lease := None |}) ∧
  decode_qos (lit "::,7:3,0:,:,,") =
    Some (Ok {| reliability := Reliable; durability := Volatile; history := KeepLast 7;
                deadline := Some {| as_secs := 3; subsec_nanos := 0 |}; lifespan := None;
                liveliness := Automatic; liveliness_lease := None |}).
Proof.
  split; [vm_compute; reflexivity|].
  exact (proj2 (decode_qos_canonical (lit "1:2:1,+7:0,3000000000:,:1,,") _ eq_refl)).
Defined.

(** Decoding a duration panics, instead of returning an error, exactly when
    the two fields parse and the nanoseconds carry the seconds past [u64]. *)
Lemma parse_duration_panics sec nsec :
  parse_duration sec nsec = None ↔
  ∃ s ns, parse_uint u64_max sec = Some s ∧ parse_uint u32_max nsec = Some ns ∧
          (u64_max < s + ns / NANOS_PER_SEC)%N.
Proof.
  unfold parse_duration. split.
  - intros H. destruct (str_is_empty sec), (str_is_empty nsec); try discriminate H;
      (destruct (parse_uint u64_max sec) as [s|]; [simpl in H|discriminate H]);
      (destruct (parse_uint u32_max nsec) as [ns|]; [simpl in H|discriminate H]);
      exists s, ns; unfold Duration_new in H;
      (destruct (N.leb_spec (s + ns / NANOS_PER_SEC) u64_max); [discriminate H|done]).
  - intros (s&ns&Hs&Hns&Hgt).
    assert (str_is_empty sec = false) as -> by by destruct sec.
    rewrite Hs, Hns. simpl. unfold Duration_new.
    destruct (N.leb_spec (s + ns / NANOS_PER_SEC) u64_max); [lia|done].
Qed.

(** A received liveliness key with such a QoS string panics the decoder. *)
Example decode_qos_panic : decode_qos (lit "::,7:18446744073709551615,1000000000:,:,,") = None.
Proof. vm_compute. reflexivity. Qed.

(** A duration RustDDS represents exactly. *)
Definition exact_duration {D P} `{RustddsQos D P} (d : StdDuration) : Prop :=
  wf_StdDuration d ∧ (Z.of_N (as_nanos d) <= i64_max)%Z ∧
  dds_from_nanos (Z.of_N (as_nanos d)) ≠ INFINITE ∧
  to_nanoseconds (dds_from_nanos (Z.of_N (as_nanos d))) = Z.of_N (as_nanos d).

Section dds_conv_lemmas.
Context {D P : Type} `{RustddsQosLaws D P}.

Lemma from_to_dds_duration (d : option StdDuration) :
  (∀ x, d = Some x → exact_duration x) → from_dds_duration (to_dds_duration d) = d.
Proof.
  intros Hd. destruct d as [d|]; unfold to_dds_duration, from_dds_duration.
  - destruct (Hd d eq_refl) as (Hwf&Hle&Hni&Hex).
    rewrite wrap_i64_id by (split; [unfold i64_min; lia|done]).
    rewrite bool_decide_eq_false_2, Hex, Z.max_l, N2Z.id by (done || lia).
    by rewrite Duration_nanos_roundtrip.
  - by rewrite bool_decide_eq_true_2.
Qed.

(** converting a profile to RustDDS policies and back preserves it, when its
    depth fits [i32] and its durations are ones RustDDS represents exactly. *)
Lemma qos_dds_roundtrip (p : QosProfile) :
  match history p with KeepLast d => (Z.of_N d <= i32_max)%Z | KeepAll => True end →
  (∀ x, deadline p = Some x → exact_duration x) →
  (∀ x, lifespan p = Some x → exact_duration x) →
  (∀ x, liveliness_lease p = Some x → exact_duration x) →
  from_policies (to_policies p) = p.
Proof.
  intros Hh Hdl Hls Hle. unfold from_policies, to_policies.
  rewrite build_durability, build_reliability, build_history, build_liveliness,
    build_deadline, build_lifespan.
  destruct p as [r du h dl ls li le]; simpl in *.
  rewrite (from_to_dds_duration dl), (from_to_dds_duration ls) by done.
  assert (∀ d : N, (Z.of_N d <= i32_max)%Z →
            Z.to_N (Z.max (wrap_signed 32 (Z.of_N d)) 0) = d) as Hd.
  { intros d Hdd. rewrite wrap_i32_id by (split; [unfold i32_min; lia|done]). lia. }
  destruct r, du, h, li; rewrite ?(from_to_dds_duration le), ?Hd by done; done.
Qed.
End dds_conv_lemmas.

(** RustDDS with durations counted in nanoseconds, to instantiate the laws. *)
#[local] Instance nanos_RustddsQos :
  RustddsQos (option Z)
    (DdsDurability * DdsReliability (option Z) * DdsHistory * DdsLiveliness (option Z)
       * option Z * option Z) := {
  INFINITE := None;
  dds_from_millis := λ ms, Some (ms * 1000000)%Z;
  dds_from_nanos := Some;
  to_nanoseconds := λ d, default i64_max d;
  q_durability := λ '(d, r, h, l, dl, ls), Some d;
  q_reliability := λ '(d, r, h, l, dl, ls), Some r;
  q_history := λ '(d, r, h, l, dl, ls), Some h;
  q_liveliness := λ '(d, r, h, l, dl, ls), Some l;
  q_deadline := λ '(d, r, h, l, dl, ls), Some dl;
  q_lifespan := λ '(d, r, h, l, dl, ls), Some ls;
  q_build := λ d r h l dl ls, (d, r, h, l, dl, ls);
}.
#[local] Instance nanos_RustddsQosLaws :
  RustddsQosLaws (option Z)
    (DdsDurability * DdsReliability (option Z) * DdsHistory * DdsLiveliness (option Z)
       * option Z * option Z).
Proof. split; reflexivity. Qed.

Lemma qos_dds_roundtrip_witness :
  from_policies (D:=option Z) (to_policies (D:=option Z) example_qos) = example_qos.
Proof.
  apply qos_dds_roundtrip; [vm_compute; discriminate|..];
    intros x [= <-]; split_and!; try (split; vm_compute; done); vm_compute; done.
Defined.

(** A depth past [i32] does not survive: [depth as i32] wraps around. *)
Example qos_dds_depth_wraps :
  history (from_policies (D:=option Z) (to_policies (D:=option Z)
    (set_history (KeepLast 4294967301) publisher_default))) = KeepLast 5.
Proof. vm_compute. reflexivity. Qed.
