(* ===== verification/Time.v ===== *)
(** * Time (builtin_interfaces.rs, ros_time.rs, steady_time.rs)

    The wire types [Time] and [Duration], the in-memory [ROSTime] and
    [ROSDuration], and the steady clock's [Time] and [TimeDiff].  Operations that
    overflow depend on the build profile; [None] is a panic. *)
From S2P Require Import Prelude.
#[local] Open Scope Z_scope.

(** ** builtin_interfaces.rs *)

(** [Time]: nanoseconds since the epoch, [i64]. *)
Record Time := { nanos_since_epoch : Z }.
Definition Time_ZERO : Time := {| nanos_since_epoch := 0 |}.
Definition Time_DUMMY : Time := {| nanos_since_epoch := 1234567890123 |}.
Definition Time_from_nanos (n : Z) : Time := {| nanos_since_epoch := n |}.
Definition Time_to_nanos (t : Time) : Z := nanos_since_epoch t.
(** [Time::now], from what [timestamp_nanos_opt] of the current time returns. *)
Definition Time_now (timestamp_nanos_opt : option Z) : Time :=
  default Time_ZERO (Time_from_nanos <$> timestamp_nanos_opt).

(** [repr::Time]: [i32] seconds and [u32] nanoseconds. *)
Record ReprTime := { sec : Z; nanosec : Z }.
Definition wf_repr (r : ReprTime) : Prop := in_i32 (sec r) ∧ in_u32 (nanosec r).

Definition Time_of_repr (pr : profile) (rt : ReprTime) : option Time :=
  s ← arith pr 64 (sec rt * 1000000000);
  n ← arith pr 64 (s + nanosec rt);
  Some (Time_from_nanos n).

Definition repr_of_Time (pr : profile) (t : Time) : option ReprTime :=
  let t := Time_to_nanos t in
  let quot := Z.quot t 1000000000 in
  let rem := Z.rem t 1000000000 in
  if 0 <=? rem then
    Some {| sec := if i32_max <? quot then i32_max
                   else if quot <? i32_min then i32_min
                   else wrap_signed 32 quot;
            nanosec := wrap_unsigned 32 rem |}
  else
    let quot_sat := if i32_min <=? quot then wrap_signed 32 quot else i32_min in
    s ← arith pr 32 (quot_sat - 1);
    Some {| sec := s; nanosec := wrap_unsigned 32 (1000000000 + rem) |}.

(** [Duration]: the same pair of fields. *)
Record Duration := { dur_sec : Z; dur_nanosec : Z }.
Definition Duration_zero : Duration := {| dur_sec := 0; dur_nanosec := 0 |}.
Definition Duration_from_secs (s : Z) : Duration := {| dur_sec := s; dur_nanosec := 0 |}.
Definition Dur_from_nanos (nanos : Z) : Duration :=
  let quot := Z.quot nanos 1000000000 in
  let rem := Z.rem nanos 1000000000 in
  if 0 <=? rem then
    if i32_max <? quot then {| dur_sec := i32_max; dur_nanosec := 4294967295 |}
    else if quot <=? i32_min then {| dur_sec := i32_min; dur_nanosec := 0 |}
    else {| dur_sec := wrap_signed 32 quot; dur_nanosec := wrap_unsigned 32 rem |}
  else
    if quot <=? i32_min then {| dur_sec := i32_min; dur_nanosec := 0 |}
    else {| dur_sec := wrap_signed 32 (quot + 1);
            dur_nanosec := wrap_unsigned 32 (1000000000 + rem) |}.
Definition Dur_from_millis (pr : profile) (millis : Z) : option Duration :=
  nanos ← arith pr 64 (millis * 1000000);
  Some (Dur_from_nanos nanos).
Definition Dur_to_nanos (pr : profile) (d : Duration) : option Z :=
  s ← arith pr 64 (1000000000 * dur_sec d);
  arith pr 64 (s + dur_nanosec d).

(** ** ros_time.rs *)

Record ROSTime := { ros_nanos : Z }.
Record ROSDuration := { diff : Z }.
Definition ROSTime_from_nanos (n : Z) : ROSTime := {| ros_nanos := n |}.
Definition ROSTime_to_nanos (t : ROSTime) : Z := ros_nanos t.
Definition ROSTime_ZERO : ROSTime := ROSTime_from_nanos 0.
Definition UNIX_EPOCH : ROSTime := ROSTime_from_nanos 0.
Inductive OutOfRangeError := OutOfRange.

(** [TryFrom<DateTime<Utc>>] on what chrono's [timestamp_nanos_opt] returns, and
    [ROSTime::now]. *)
Definition ROSTime_try_from_chrono (timestamp_nanos_opt : option Z) :
    result OutOfRangeError ROSTime :=
  ROSTime_from_nanos <$> ok_or OutOfRange timestamp_nanos_opt.
Definition ROSTime_now (timestamp_nanos_opt : option Z) : ROSTime :=
  match ROSTime_try_from_chrono timestamp_nanos_opt with
  | Ok t => t
  | Err _ => ROSTime_ZERO
  end.

Definition Time_of_ROSTime (rt : ROSTime) : Time := Time_from_nanos (ROSTime_to_nanos rt).
Definition ROSTime_of_Time (t : Time) : ROSTime := ROSTime_from_nanos (Time_to_nanos t).

(** RustDDS's [Timestamp]: [INVALID], [INFINITE] or a tick count; and chrono's
    conversions of a nanosecond timestamp to it. *)
Section timestamp.
Context {Timestamp DateTime : Type} `{EqDecision Timestamp}.
Context (INVALID INFINITE : Timestamp) (to_ticks : Timestamp → Z).
Context (from_timestamp_nanos : Z → DateTime) (Timestamp_try_from : DateTime → option Timestamp).

Inductive TimestampConversionError := Invalid | Infinite.

Definition DateTime_of_ROSTime (rt : ROSTime) : DateTime :=
  from_timestamp_nanos (ROSTime_to_nanos rt).
Definition Timestamp_of_ROSTime (rt : ROSTime) : Timestamp :=
  match Timestamp_try_from (DateTime_of_ROSTime rt) with
  | Some ts => ts
  | None => INVALID
  end.

(** [None] is an overflow panic of the [u64] arithmetic. *)
Definition ROSTime_try_from_Timestamp (pr : profile) (ts : Timestamp) :
    option (result TimestampConversionError ROSTime) :=
  if bool_decide (ts = INVALID) then Some (Err Invalid)
  else if bool_decide (ts = INFINITE) then Some (Err Infinite)
  else
    let ticks := to_ticks ts in
    let seconds := Z.shiftr ticks 32 in
    let whole := Z.shiftl seconds 32 in
    frac_ticks ← arith_u pr 64 (ticks - whole);
    scaled ← arith_u pr 64 (frac_ticks * 1000000000);
    let frac_nanos := Z.shiftr scaled 32 in
    s ← arith_u pr 64 (seconds * 1000000000);
    n ← arith_u pr 64 (s + frac_nanos);
    Some (Ok (ROSTime_from_nanos (wrap_signed 64 n))).
End timestamp.

Definition ROSTime_sub (pr : profile) (a b : ROSTime) : option ROSDuration :=
  d ← arith pr 64 (ros_nanos a - ros_nanos b); Some {| diff := d |}.
Definition ROSTime_sub_duration (pr : profile) (a : ROSTime) (d : ROSDuration) :
    option ROSTime :=
  n ← arith pr 64 (ros_nanos a - diff d); Some {| ros_nanos := n |}.
Definition ROSTime_add_duration (pr : profile) (a : ROSTime) (d : ROSDuration) :
    option ROSTime :=
  n ← arith pr 64 (ros_nanos a + diff d); Some {| ros_nanos := n |}.
Definition ROSDuration_from_nanos (n : Z) : ROSDuration := {| diff := n |}.
Definition ROSDuration_to_nanos (d : ROSDuration) : Z := diff d.
Definition ROSDuration_try_from_std (d : StdDuration) : result OutOfRangeError ROSDuration :=
  let nanos := Z.of_N (as_nanos d) in
  if nanos <=? i64_max then Ok {| diff := wrap_signed 64 nanos |} else Err OutOfRange.
Definition std_try_from_ROSDuration (d : ROSDuration) : result OutOfRangeError StdDuration :=
  if ROSDuration_to_nanos d <? 0 then Err OutOfRange
  else Ok (Duration_from_nanos (Z.to_N (ROSDuration_to_nanos d))).
(** From chrono's [num_nanoseconds]. *)
Definition ROSDuration_try_from_chrono (num_nanoseconds : option Z) :
    result OutOfRangeError ROSDuration :=
  ok_or OutOfRange (ROSDuration_from_nanos <$> num_nanoseconds).
Definition ROSDuration_add (pr : profile) (a b : ROSDuration) : option ROSDuration :=
  d ← arith pr 64 (diff a + diff b); Some {| diff := d |}.
Definition ROSDuration_sub (pr : profile) (a b : ROSDuration) : option ROSDuration :=
  d ← arith pr 64 (diff a - diff b); Some {| diff := d |}.

(** ** steady_time.rs *)

Record TimeDiff := { duration : StdDuration; is_negative : bool }.
Inductive NegativetimeDiffError := NegativetimeDiff.

Definition TimeDiff_from_nanos (pr : profile) (nanos : Z) : option TimeDiff :=
  if 0 <=? nanos then
    Some {| duration := Duration_from_nanos (Z.to_N nanos); is_negative := false |}
  else
    n ← arith pr 64 (- nanos);
    Some {| duration := Duration_from_nanos (Z.to_N (wrap_unsigned 64 n));
            is_negative := true |}.
Definition TimeDiff_from_millis (pr : profile) (millis : Z) : option TimeDiff :=
  n ← arith pr 64 (millis * 1000000); TimeDiff_from_nanos pr n.
Definition TimeDiff_from_secs (pr : profile) (secs : Z) : option TimeDiff :=
  n ← arith pr 64 (secs * 1000000000); TimeDiff_from_nanos pr n.
Definition TimeDiff_as_nanos (d : TimeDiff) : Z :=
  let n := Z.of_N (as_nanos (duration d)) in
  let n := if i64_max <? n then i64_max else n in
  if is_negative d then - n else n.
Definition TimeDiff_as_millis (d : TimeDiff) : Z := Z.quot (TimeDiff_as_nanos d) 1000000.
Definition TimeDiff_as_seconds (d : TimeDiff) : Z := Z.quot (TimeDiff_as_nanos d) 1000000000.
Definition as_duration (d : TimeDiff) : result NegativetimeDiffError StdDuration :=
  if is_negative d then Err NegativetimeDiff else Ok (duration d).
Definition as_saturating_duration (d : TimeDiff) : StdDuration :=
  if is_negative d then {| as_secs := 0; subsec_nanos := 0 |} else duration d.
(** [Ord for Duration]: seconds, then nanoseconds. *)
Definition StdDuration_cmp (a b : StdDuration) : comparison :=
  match N.compare (as_secs a) (as_secs b) with
  | Eq => N.compare (subsec_nanos a) (subsec_nanos b)
  | c => c
  end.
Definition TimeDiff_cmp (a b : TimeDiff) : comparison :=
  match is_negative a, is_negative b with
  | false, false => StdDuration_cmp (duration a) (duration b)
  | true, true => CompOpp (StdDuration_cmp (duration a) (duration b))
  | false, true => Gt
  | true, false => Lt
  end.
Definition TimeDiff_add (pr : profile) (a b : TimeDiff) : option TimeDiff :=
  n ← arith pr 64 (TimeDiff_as_nanos a + TimeDiff_as_nanos b); TimeDiff_from_nanos pr n.
Definition TimeDiff_sub (pr : profile) (a b : TimeDiff) : option TimeDiff :=
  n ← arith pr 64 (TimeDiff_as_nanos a - TimeDiff_as_nanos b); TimeDiff_from_nanos pr n.

(** [std::time::Instant] is nanoseconds from an arbitrary origin; which values
    the platform can represent is a parameter, and [+] and [-] panic outside. *)
Section steady.
Context (representable : Z → bool).

Record SteadyTime := { instant : Z }.

Definition Instant_add (i : Z) (d : StdDuration) : option Z :=
  let r := i + Z.of_N (as_nanos d) in if representable r then Some r else None.
Definition Instant_sub (i : Z) (d : StdDuration) : option Z :=
  let r := i - Z.of_N (as_nanos d) in if representable r then Some r else None.
Definition checked_duration_since (a b : Z) : option StdDuration :=
  if b <=? a then Some (Duration_from_nanos (Z.to_N (a - b))) else None.
Definition saturating_duration_since (a b : Z) : StdDuration :=
  Duration_from_nanos (Z.to_N (a - b)).

Definition SteadyTime_sub (a b : SteadyTime) : TimeDiff :=
  match checked_duration_since (instant a) (instant b) with
  | Some d => {| duration := d; is_negative := false |}
  | None => {| duration := saturating_duration_since (instant b) (instant a);
               is_negative := true |}
  end.
Definition SteadyTime_sub_diff (t : SteadyTime) (d : TimeDiff) : option SteadyTime :=
  if is_negative d
  then i ← Instant_sub (instant t) (duration d); Some {| instant := i |}
  else i ← Instant_add (instant t) (duration d); Some {| instant := i |}.
Definition SteadyTime_add_diff (t : SteadyTime) (d : TimeDiff) : option SteadyTime :=
  if is_negative d
  then i ← Instant_add (instant t) (duration d); Some {| instant := i |}
  else i ← Instant_sub (instant t) (duration d); Some {| instant := i |}.

(** [now_with_utc] from the two clock readings around the UTC one. *)
Definition now_with_utc {Utc} (pr : profile) (m0 m1 : SteadyTime) (utc : Utc) :
    option (SteadyTime * Utc) :=
  let d := SteadyTime_sub m1 m0 in
  half ← TimeDiff_from_nanos pr (Z.quot (TimeDiff_as_nanos d) 2);
  t ← SteadyTime_add_diff m0 half;
  Some (t, utc).
Definition now_with_ros_time (pr : profile) (m0 m1 : SteadyTime)
    (timestamp_nanos_opt : option Z) : option (SteadyTime * ROSTime) :=
  '(st, ct) ← now_with_utc pr m0 m1 timestamp_nanos_opt;
  Some (st, match ROSTime_try_from_chrono ct with
            | Ok t => t
            | Err _ => ROSTime_ZERO
            end).
End steady.

(** ** Lemmas *)

Lemma quot_rem_floor t :
  t = 1000000000 * (t / 1000000000) + t mod 1000000000 ∧
  0 <= t mod 1000000000 < 1000000000 ∧
  ((0 <= Z.rem t 1000000000 ∧ Z.quot t 1000000000 = t / 1000000000 ∧
    Z.rem t 1000000000 = t mod 1000000000 ∧ (t < 0 → t mod 1000000000 = 0)) ∨
   (Z.rem t 1000000000 < 0 ∧ Z.quot t 1000000000 = t / 1000000000 + 1 ∧
    Z.rem t 1000000000 = t mod 1000000000 - 1000000000 ∧ t < 0)).
Proof. lia. Qed.

Lemma wrap_u32_small z : 0 <= z < 1000000000 → wrap_unsigned 32 z = z.
Proof. intros. apply wrap_u32_id. unfold in_u32. lia. Qed.

Lemma repr_of_Time_exact pr t :
  i32_min <= t / 1000000000 <= i32_max →
  repr_of_Time pr (Time_from_nanos t) =
  Some {| sec := t / 1000000000; nanosec := t mod 1000000000 |}.
Proof.
  intros Hr. unfold repr_of_Time. simpl Time_to_nanos.
  destruct (quot_rem_floor t) as (_&Hm&[(H1&H2&H3&H4)|(H1&H2&H3&H4)]); rewrite H2, H3 in *.
  - rewrite (proj2 (Z.leb_le _ _)) by lia.
    rewrite (proj2 (Z.ltb_ge i32_max _)), (proj2 (Z.ltb_ge _ i32_min)) by lia.
    by rewrite wrap_i32_id, wrap_u32_small.
  - rewrite (proj2 (Z.leb_gt _ _)) by lia.
    rewrite (proj2 (Z.leb_le i32_min _)) by lia.
    assert (t / 1000000000 < 0) by lia.
    rewrite wrap_i32_id by (unfold in_i32, i32_max; lia).
    replace (t / 1000000000 + 1 - 1) with (t / 1000000000) by lia.
    rewrite arith_i32 by done. simpl. f_equal. f_equal.
    rewrite <- (wrap_u32_small (t mod 1000000000)) at 2 by done. f_equal. lia.
Qed.

Lemma Time_of_repr_exact pr r :
  wf_repr r → Time_of_repr pr r = Some (Time_from_nanos (sec r * 1000000000 + nanosec r)).
Proof.
  intros [[H1 H2] [H3 H4]]. unfold Time_of_repr.
  unfold i32_min, i32_max in *.
  rewrite arith_i64 by (unfold in_i64, i64_min, i64_max; lia). simpl.
  by rewrite arith_i64 by (unfold in_i64, i64_min, i64_max; lia).
Qed.

(** ** Properties *)

(** Every time whose seconds fit [i32] (1901 to 2038), of either sign, is
    sent as whole seconds rounded down plus a fraction in [0, 10^9), and the
    receiver gets the same time back; no operation overflows. *)
Lemma time_repr_roundtrip pr t :
  i32_min <= t / 1000000000 <= i32_max →
  ∃ r, repr_of_Time pr (Time_from_nanos t) = Some r ∧ wf_repr r ∧
       0 <= nanosec r < 1000000000 ∧ Time_of_repr pr r = Some (Time_from_nanos t).
Proof.
  intros Hr. eexists. split; [by apply repr_of_Time_exact|].
  assert (0 <= t mod 1000000000 < 1000000000) by lia.
  assert (wf_repr {| sec := t / 1000000000; nanosec := t mod 1000000000 |}).
  { split; [done|]. unfold in_u32. simpl. lia. }
  split; [done|]. split; [done|]. rewrite Time_of_repr_exact by done. simpl. do 2 f_equal. lia.
Qed.

Lemma time_repr_roundtrip_witness :
  repr_of_Time Debug (Time_from_nanos (-1500000000)) = Some {| sec := -2; nanosec := 500000000 |} ∧
  ∃ r, repr_of_Time Debug (Time_from_nanos (-1500000000)) = Some r ∧ wf_repr r ∧
       0 <= nanosec r < 1000000000 ∧ Time_of_repr Debug r = Some (Time_from_nanos (-1500000000)).
Proof.
  split; [vm_compute; reflexivity|].
  apply (time_repr_roundtrip Debug (-1500000000)). vm_compute. split; discriminate.
Defined.

(** C37: the saturation of the seconds fails below [i32]: a time before the
    smallest representable second with a fractional part overflows [i32] on the
    final decrement -- a panic in debug builds, [i32::MAX] seconds (year 2038)
    in release builds -- and these are the only times that do. *)
Theorem time_repr_underflow t :
  (repr_of_Time Debug (Time_from_nanos t) = None ↔
   t / 1000000000 < i32_min ∧ t mod 1000000000 ≠ 0) ∧
  (t / 1000000000 < i32_min → t mod 1000000000 ≠ 0 →
   sec <$> repr_of_Time Release (Time_from_nanos t) = Some i32_max).
Proof.
  unfold repr_of_Time. simpl Time_to_nanos.
  destruct (quot_rem_floor t) as (_&Hm&[(H1&H2&H3&H4)|(H1&H2&H3&H4)]); rewrite H2, H3 in *.
  - rewrite (proj2 (Z.leb_le _ _)) by lia.
    assert (t / 1000000000 < i32_min → t < 0) by (unfold i32_min; lia).
    split; [|intros; lia]. split; [done|lia].
  - rewrite (proj2 (Z.leb_gt _ _)) by lia.
    assert (t / 1000000000 < 0) by lia.
    set (q := if _ <=? _ then _ else _).
    assert (q = Z.max i32_min (t / 1000000000 + 1)) as ->.
    { subst q. destruct (Z.leb_spec i32_min (t / 1000000000 + 1)); [|lia].
      rewrite wrap_i32_id by (unfold in_i32, i32_max; lia). lia. }
    destruct (decide (t / 1000000000 < i32_min)) as [Hlt|Hge].
    + rewrite Z.max_l by lia. split; [|done]. split; [|done]. intros _. lia.
    + rewrite Z.max_r by lia. split; [|lia].
      rewrite arith_i32 by (unfold in_i32, i32_max; lia). simpl. split; [done|lia].
Qed.

Lemma time_repr_underflow_witness :
  repr_of_Time Debug (Time_from_nanos (-2147483648000000001)) = None ∧
  sec <$> repr_of_Time Release (Time_from_nanos (-2147483648000000001)) = Some 2147483647.
Proof.
  pose proof (time_repr_underflow (-2147483648000000001)) as [H1 H2].
  split; [apply H1; split; [vm_compute; reflexivity|discriminate]|].
  apply H2; [vm_compute; reflexivity|discriminate].
Defined.

(** [Duration::from_nanos] keeps every non-negative or whole-second duration
    in the range of the wire type and saturates outside; a negative duration
    with a fractional part comes out exactly two seconds too large, since the
    code adds one to the truncated quotient where its comment subtracts one. *)
Lemma duration_from_nanos_value pr n :
  in_i64 n →
  Dur_to_nanos pr (Dur_from_nanos n) = Some
    (if Z.rem n 1000000000 <? 0
     then if Z.quot n 1000000000 <=? i32_min then i32_min * 1000000000 else n + 2000000000
     else if i32_max <? Z.quot n 1000000000 then i32_max * 1000000000 + 4294967295
     else if Z.quot n 1000000000 <=? i32_min then i32_min * 1000000000 else n).
Proof.
  intros Hn. assert (∀ s ns, in_i32 s → in_u32 ns →
    Dur_to_nanos pr {| dur_sec := s; dur_nanosec := ns |} = Some (s * 1000000000 + ns)) as Hto.
  { intros s ns [] []. unfold Dur_to_nanos, i32_min, i32_max in *.
    rewrite arith_i64 by (unfold in_i64, i64_min, i64_max; simpl; lia). simpl.
    rewrite arith_i64 by (unfold in_i64, i64_min, i64_max; simpl; lia). f_equal. lia. }
  unfold Dur_from_nanos. rewrite Z.leb_antisym.
  destruct (quot_rem_floor n) as (E&Hm&[(H1&H2&H3&H4)|(H1&H2&H3&H4)]); rewrite H2, H3 in *.
  - rewrite (proj2 (Z.ltb_ge _ _)) by lia. cbn [negb].
    destruct (Z.ltb_spec i32_max (n / 1000000000)); [rewrite Hto; [done|vm_compute; split; discriminate..]|].
    destruct (Z.leb_spec (n / 1000000000) i32_min); [rewrite Hto; [done|vm_compute; split; discriminate..]|].
    rewrite wrap_i32_id, wrap_u32_small by (unfold in_i32; lia).
    rewrite Hto by (unfold in_i32, in_u32; lia). f_equal. lia.
  - rewrite (proj2 (Z.ltb_lt _ 0)) by lia. cbn [negb].
    destruct (Z.leb_spec (n / 1000000000 + 1) i32_min);
      [rewrite Hto; [done|vm_compute; split; discriminate..]|].
    assert (n / 1000000000 < 0) by lia.
    rewrite wrap_i32_id by (unfold in_i32, i32_max; lia).
    rewrite wrap_u32_id by (unfold in_u32; lia).
    rewrite Hto by (unfold in_i32, in_u32, i32_max; lia). f_equal. lia.
Qed.

Lemma duration_from_nanos_value_witness :
  Dur_from_nanos (-1500000000) = {| dur_sec := 0; dur_nanosec := 500000000 |} ∧
  Dur_to_nanos Debug (Dur_from_nanos (-1500000000)) = Some 500000000.
Proof.
  split; [vm_compute; reflexivity|].
  exact (duration_from_nanos_value Debug (-1500000000) (ltac:(vm_compute; split; discriminate))).
Defined.

(** Converting a DDS timestamp of any tick count to [ROSTime] never
    overflows, in either build profile, and yields the ticks in nanoseconds,
    rounded down. *)
Lemma timestamp_to_ros_time {Timestamp} `{EqDecision Timestamp}
    (INVALID INFINITE : Timestamp) (to_ticks : Timestamp → Z) pr ts :
  in_u64 (to_ticks ts) → ts ≠ INVALID → ts ≠ INFINITE →
  ROSTime_try_from_Timestamp INVALID INFINITE to_ticks pr ts =
    Some (Ok (ROSTime_from_nanos (to_ticks ts * 1000000000 / 2 ^ 32))) ∧
  in_i64 (to_ticks ts * 1000000000 / 2 ^ 32).
Proof.
  intros Ht Hinv Hinf. unfold ROSTime_try_from_Timestamp.
  rewrite !bool_decide_eq_false_2 by done.
  set (k := to_ticks ts) in *. unfold in_u64 in Ht.
  rewrite !Z.shiftr_div_pow2, Z.shiftl_mul_pow2 by lia.
  change (2 ^ 32) with 4294967296.
  assert (k - k / 4294967296 * 4294967296 = k mod 4294967296) as -> by lia.
  assert (∀ z, 0 <= z < 2 ^ 64 → arith_u pr 64 z = Some z) as Ha.
  { intros z Hz. destruct pr; simpl; [by rewrite bool_decide_eq_true_2|].
    unfold wrap_unsigned. by rewrite Z.mod_small. }
  change (2 ^ 64) with 18446744073709551616 in Ha.
  assert (0 <= k mod 4294967296 < 4294967296) by lia.
  assert (0 <= k / 4294967296 < 4294967296) by lia.
  assert (k * 1000000000 / 4294967296 =
          k / 4294967296 * 1000000000 + k mod 4294967296 * 1000000000 / 4294967296) as E.
  { rewrite (Z.div_mod k 4294967296) at 1 by lia.
    replace ((4294967296 * (k / 4294967296) + k mod 4294967296) * 1000000000)
      with (k mod 4294967296 * 1000000000 + k / 4294967296 * 1000000000 * 4294967296) by lia.
    rewrite Z.div_add by lia. lia. }
  assert (0 <= k mod 4294967296 * 1000000000 / 4294967296 < 1000000000) by lia.
  rewrite (Ha (k mod 4294967296)) by lia. cbn [mbind option_bind].
  rewrite (Ha (k mod 4294967296 * 1000000000)) by lia.
  cbn [mbind option_bind]. rewrite Z.shiftr_div_pow2 by lia.
  change (2 ^ 32) with 4294967296.
  rewrite Ha by lia. cbn [mbind option_bind].
  rewrite Ha by lia. cbn [mbind option_bind]. rewrite <- E.
  assert (in_i64 (k * 1000000000 / 4294967296)).
  { unfold in_i64, i64_min, i64_max. lia. }
  by rewrite wrap_i64_id.
Qed.

Lemma timestamp_to_ros_time_witness :
  ROSTime_try_from_Timestamp (-1) (-2) (λ z, z) Debug 6442450944 =
    Some (Ok (ROSTime_from_nanos 1500000000)).
Proof.
  apply (timestamp_to_ros_time (-1) (-2) (λ z, z) Debug 6442450944);
    [vm_compute; split; discriminate|discriminate|discriminate].
Defined.

(** The signed value of a difference, which [is_negative] is the sign of. *)
Definition TimeDiff_value (d : TimeDiff) : Z :=
  if is_negative d then - Z.of_N (as_nanos (duration d)) else Z.of_N (as_nanos (duration d)).

Lemma as_nanos_from_nanos n : as_nanos (Duration_from_nanos n) = n.
Proof. unfold as_nanos, Duration_from_nanos, NANOS_PER_SEC. simpl. lia. Qed.

Lemma SteadyTime_sub_value a b : TimeDiff_value (SteadyTime_sub a b) = instant a - instant b.
Proof.
  unfold SteadyTime_sub, checked_duration_since, saturating_duration_since.
  destruct (Z.leb_spec (instant b) (instant a)); unfold TimeDiff_value;
    cbn [is_negative duration]; rewrite as_nanos_from_nanos; lia.
Qed.

Lemma SteadyTime_add_diff_value repr t d :
  SteadyTime_add_diff repr t d =
  if repr (instant t - TimeDiff_value d) then Some {| instant := instant t - TimeDiff_value d |}
  else None.
Proof.
  unfold SteadyTime_add_diff, TimeDiff_value, Instant_add, Instant_sub.
  destruct (is_negative d); rewrite ?Z.sub_opp_r; by destruct (repr _).
Qed.

Lemma SteadyTime_sub_diff_value repr t d :
  SteadyTime_sub_diff repr t d =
  if repr (instant t + TimeDiff_value d) then Some {| instant := instant t + TimeDiff_value d |}
  else None.
Proof.
  unfold SteadyTime_sub_diff, TimeDiff_value, Instant_add, Instant_sub.
  destruct (is_negative d); rewrite ?Z.add_opp_r; by destruct (repr _).
Qed.

(** On the steady clock, [a - b] is the signed difference of the instants,
    but [+] and [-] of a difference are exchanged: [b + (a - b)] ends as far
    before [b] as [a] is after it, and it is [b - (a - b)] that gives [a]. *)
Lemma steady_add_sub_swapped repr a b :
  TimeDiff_value (SteadyTime_sub a b) = instant a - instant b ∧
  SteadyTime_add_diff repr b (SteadyTime_sub a b) =
    (if repr (2 * instant b - instant a) then Some {| instant := 2 * instant b - instant a |}
     else None) ∧
  SteadyTime_sub_diff repr b (SteadyTime_sub a b) =
    (if repr (instant a) then Some a else None).
Proof.
  rewrite SteadyTime_add_diff_value, SteadyTime_sub_diff_value, SteadyTime_sub_value.
  split; [done|].
  replace (instant b - (instant a - instant b)) with (2 * instant b - instant a) by lia.
  replace (instant b + (instant a - instant b)) with (instant a) by lia.
  split; [done|]. by destruct a.
Qed.

(** Comparison of well-formed differences is comparison of their values. *)
Lemma StdDuration_cmp_nanos a b :
  wf_StdDuration a → wf_StdDuration b →
  StdDuration_cmp a b = N.compare (as_nanos a) (as_nanos b).
Proof.
  intros [_ Ha] [_ Hb]. unfold StdDuration_cmp, as_nanos, NANOS_PER_SEC in *.
  destruct (N.compare_spec (as_secs a) (as_secs b)) as [E|E|E]; symmetry;
    [rewrite E; destruct (N.compare_spec (subsec_nanos a) (subsec_nanos b)) as [E2|E2|E2]|..].
  - by rewrite E2, N.compare_refl.
  - apply N.compare_lt_iff. lia.
  - apply N.compare_gt_iff. lia.
  - apply N.compare_lt_iff. lia.
  - apply N.compare_gt_iff. lia.
Qed.

(** The order of steady-clock differences is the order of their signed
    values (a zero difference is never negative). *)
Lemma TimeDiff_cmp_value a b :
  wf_StdDuration (duration a) → wf_StdDuration (duration b) →
  (is_negative a = true → as_nanos (duration a) ≠ 0%N) →
  (is_negative b = true → as_nanos (duration b) ≠ 0%N) →
  TimeDiff_cmp a b = Z.compare (TimeDiff_value a) (TimeDiff_value b).
Proof.
  intros Ha Hb Hna Hnb. unfold TimeDiff_cmp, TimeDiff_value.
  rewrite StdDuration_cmp_nanos by done.
  destruct (is_negative a), (is_negative b).
  - specialize (Hna eq_refl). rewrite <- N2Z.inj_compare, Z.compare_opp.
    by rewrite (Z.compare_antisym (Z.of_N (as_nanos (duration a)))).
  - specialize (Hna eq_refl). symmetry. apply Z.compare_lt_iff. lia.
  - specialize (Hnb eq_refl). symmetry. apply Z.compare_gt_iff. lia.
  - by rewrite N2Z.inj_compare.
Qed.

Definition one_ms : TimeDiff :=
  {| duration := Duration_from_nanos 1000000; is_negative := false |}.
Definition minus_two_ms : TimeDiff :=
  {| duration := Duration_from_nanos 2000000; is_negative := true |}.
Lemma TimeDiff_cmp_value_witness :
  TimeDiff_cmp minus_two_ms one_ms = Lt ∧
  TimeDiff_cmp minus_two_ms one_ms =
  Z.compare (TimeDiff_value minus_two_ms) (TimeDiff_value one_ms).
Proof.
  split; [vm_compute; reflexivity|].
  apply TimeDiff_cmp_value; try (split; vm_compute; (reflexivity || discriminate)); done.
Defined.
