(* ===== verification/Params.v ===== *)
(** * Parameters (parameters.rs, rcl_interfaces.rs)

    Parameter values, descriptors and the request and response types of the
    parameter services, with their conversions to the raw wire types.  An [f64]
    is its IEEE 754 bit pattern: the code only moves it. *)
From S2P Require Import Prelude.

Abbreviation f64 := N (only parsing).

(** ** Data *)

Inductive ParameterValue :=
| NotSet
| Boolean (b : bool)
| Integer (i : Z)
| Double (d : f64)
| String (s : str)
| ByteArray (a : list N)
| BooleanArray (a : list bool)
| IntegerArray (a : list Z)
| DoubleArray (a : list f64)
| StringArray (a : list str).
#[export] Instance ParameterValue_eq_dec : EqDecision ParameterValue.
Proof. solve_decision. Defined.

Record RosParameter := { p_name : str; p_value : ParameterValue }.

Inductive ParameterType :=
| TNotSet | TBool | TInteger | TDouble | TString
| TByteArray | TBoolArray | TIntegerArray | TDoubleArray | TStringArray.
#[export] Instance ParameterType_eq_dec : EqDecision ParameterType.
Proof. solve_decision. Defined.

(** The discriminants of the enum, [t as u8]. *)
Definition type_code (t : ParameterType) : N :=
  match t with
  | TNotSet => 0 | TBool => 1 | TInteger => 2 | TDouble => 3 | TString => 4
  | TByteArray => 5 | TBoolArray => 6 | TIntegerArray => 7 | TDoubleArray => 8
  | TStringArray => 9
  end.

Definition to_parameter_type (v : ParameterValue) : ParameterType :=
  match v with
  | NotSet => TNotSet
  | Boolean _ => TBool
  | Integer _ => TInteger
  | Double _ => TDouble
  | String _ => TString
  | ByteArray _ => TByteArray
  | BooleanArray _ => TBoolArray
  | IntegerArray _ => TIntegerArray
  | DoubleArray _ => TDoubleArray
  | StringArray _ => TStringArray
  end.
Definition to_parameter_type_raw (v : ParameterValue) : N := type_code (to_parameter_type v).

(** ** The wire types ([raw]) *)

(** The constants of [raw::ParameterType]. *)
Definition NOT_SET : N := 0.
Definition BOOL : N := 1.
Definition INTEGER : N := 2.
Definition DOUBLE : N := 3.
Definition STRING : N := 4.
Definition BYTE_ARRAY : N := 5.
Definition BOOL_ARRAY : N := 6.
Definition INTEGER_ARRAY : N := 7.
Definition DOUBLE_ARRAY : N := 8.
Definition STRING_ARRAY : N := 9.

Record RawParameterValue := {
  ptype : N;
  boolean_value : bool;
  int_value : Z;
  double_value : f64;
  string_value : str;
  byte_array : list N;
  bool_array : list bool;
  int_array : list Z;
  double_array : list f64;
  string_array : list str;
}.
Record RawParameter := { raw_name : str; raw_value : RawParameterValue }.
Record RawSetParametersResult := { successful : bool; reason : str }.
#[export] Instance RawParameterValue_eq_dec : EqDecision RawParameterValue.
Proof. solve_decision. Defined.
#[export] Instance RawParameter_eq_dec : EqDecision RawParameter.
Proof. solve_decision. Defined.

Definition value_of_raw (r : RawParameterValue) : ParameterValue :=
  if (ptype r =? NOT_SET)%N then NotSet
  else if (ptype r =? BOOL)%N then Boolean (boolean_value r)
  else if (ptype r =? INTEGER)%N then Integer (int_value r)
  else if (ptype r =? DOUBLE)%N then Double (double_value r)
  else if (ptype r =? STRING)%N then String (string_value r)
  else if (ptype r =? BYTE_ARRAY)%N then ByteArray (byte_array r)
  else if (ptype r =? BOOL_ARRAY)%N then BooleanArray (bool_array r)
  else if (ptype r =? INTEGER_ARRAY)%N then IntegerArray (int_array r)
  else if (ptype r =? DOUBLE_ARRAY)%N then DoubleArray (double_array r)
  else if (ptype r =? STRING_ARRAY)%N then StringArray (string_array r)
  else NotSet.

(** The value every field of which is the default but those named. *)
Definition raw_default : RawParameterValue :=
  {| ptype := NOT_SET; boolean_value := false; int_value := 0; double_value := 0;
     string_value := []; byte_array := []; bool_array := []; int_array := [];
     double_array := []; string_array := [] |}.
Definition raw_of_value (p : ParameterValue) : RawParameterValue :=
  let d := raw_default in
  let mk t b i f s ba boa ia da sa :=
    {| ptype := t; boolean_value := b; int_value := i; double_value := f; string_value := s;
       byte_array := ba; bool_array := boa; int_array := ia; double_array := da;
       string_array := sa |} in
  match p with
  | NotSet => d
  | Boolean b => mk BOOL b 0%Z 0%N [] [] [] [] [] []
  | Integer i => mk INTEGER false i 0%N [] [] [] [] [] []
  | Double f => mk DOUBLE false 0%Z f [] [] [] [] [] []
  | String s => mk STRING false 0%Z 0%N s [] [] [] [] []
  | ByteArray a => mk BYTE_ARRAY false 0%Z 0%N [] a [] [] [] []
  | BooleanArray a => mk BOOL_ARRAY false 0%Z 0%N [] [] a [] [] []
  | IntegerArray a => mk INTEGER_ARRAY false 0%Z 0%N [] [] [] a [] []
  | DoubleArray a => mk DOUBLE_ARRAY false 0%Z 0%N [] [] [] [] a []
  | StringArray a => mk STRING_ARRAY false 0%Z 0%N [] [] [] [] [] a
  end.

Definition param_of_raw (r : RawParameter) : RosParameter :=
  {| p_name := raw_name r; p_value := value_of_raw (raw_value r) |}.
Definition raw_of_param (p : RosParameter) : RawParameter :=
  {| raw_name := p_name p; raw_value := raw_of_value (p_value p) |}.

(** [SetParametersResult]. *)
Abbreviation SetParametersResult := (result (list N) unit) (only parsing).
Definition raw_of_result (s : SetParametersResult) : RawSetParametersResult :=
  match s with
  | Ok _ => {| successful := true; reason := [] |}
  | Err reason => {| successful := false; reason := reason |}
  end.

(** ** Descriptors *)

Inductive NumericRange :=
| NotSpecified
| IntegerRange (from_value to_value step : Z)
| FloatingPointRange (from_value to_value step : f64).

Record ParameterDescriptor := {
  pd_name : str;
  pd_param_type : ParameterType;
  pd_description : str;
  pd_additional_constraints : str;
  pd_read_only : bool;
  pd_dynamic_typing : bool;
  pd_range : NumericRange;
}.
Record RawIntegerRange := { ir_from : Z; ir_to : Z; ir_step : Z }.
Record RawFloatingPointRange := { fr_from : f64; fr_to : f64; fr_step : f64 }.
Record RawParameterDescriptor := {
  rd_name : str;
  rd_type : N;
  rd_description : str;
  rd_additional_constraints : str;
  rd_read_only : bool;
  rd_dynamic_typing : bool;
  rd_floating_point_range : list RawFloatingPointRange;
  rd_integer_range : list RawIntegerRange;
}.

Definition descriptor_unknown (name : str) : ParameterDescriptor :=
  {| pd_name := name; pd_param_type := TNotSet; pd_description := lit "unknown parameter";
     pd_additional_constraints := []; pd_read_only := true; pd_dynamic_typing := false;
     pd_range := NotSpecified |}.
Definition descriptor_from_value (name : str) (value : ParameterValue) : ParameterDescriptor :=
  {| pd_name := name; pd_param_type := to_parameter_type value;
     pd_description := lit "(description missing, not implemented)";
     pd_additional_constraints := []; pd_read_only := false; pd_dynamic_typing := false;
     pd_range := NotSpecified |}.
Definition raw_of_descriptor (p : ParameterDescriptor) : RawParameterDescriptor :=
  let '(integer_range, floating_point_range) :=
    match pd_range p with
    | NotSpecified => ([], [])
    | IntegerRange a b c => ([{| ir_from := a; ir_to := b; ir_step := c |}], [])
    | FloatingPointRange a b c => ([], [{| fr_from := a; fr_to := b; fr_step := c |}])
    end in
  {| rd_name := pd_name p; rd_type := type_code (pd_param_type p);
     rd_description := pd_description p;
     rd_additional_constraints := pd_additional_constraints p;
     rd_read_only := pd_read_only p; rd_dynamic_typing := pd_dynamic_typing p;
     rd_floating_point_range := floating_point_range; rd_integer_range := integer_range |}.

(** ** rcl_interfaces.rs *)

Record ListParametersRequest := { prefixes : list str; depth : N }.
Record ListParametersResult := { lr_names : list str; lr_prefixes : list str }.
Record ListParametersResponse := { lr_result : ListParametersResult }.
Record GetParametersRequest := { gp_names : list str }.
Record GetParametersResponse := { gp_values : list RawParameterValue }.
Record GetParameterTypesRequest := { gt_names : list str }.
Record GetParameterTypesResponse := { gt_values : list N }.
Record SetParametersRequest := { parameter : list RawParameter }.
Record SetParametersResponse := { results : list RawSetParametersResult }.
Record DescribeParametersRequest := { dp_names : list str }.
Record DescribeParametersResponse := { dp_values : list RawParameterDescriptor }.

(** ** Lemmas *)

Lemma value_of_raw_of_value v : value_of_raw (raw_of_value v) = v.
Proof. by destruct v. Qed.

Lemma ptype_raw_of_value v : ptype (raw_of_value v) = to_parameter_type_raw v.
Proof. by destruct v. Qed.

Lemma param_of_raw_of_param p : param_of_raw (raw_of_param p) = p.
Proof. destruct p as [n v]. unfold param_of_raw. simpl. by rewrite value_of_raw_of_value. Qed.

#[export] Hint Rewrite value_of_raw_of_value ptype_raw_of_value param_of_raw_of_param : rust.

(** ** Properties *)

(** A parameter sent over the wire is the parameter received, its type code
    is the code of its type, and every raw value -- whatever its type code and
    its other fields -- is read as a value whose wire form reads the same. *)
Lemma parameter_raw_roundtrip p r :
  param_of_raw (raw_of_param p) = p ∧
  ptype (raw_value (raw_of_param p)) = type_code (to_parameter_type (p_value p)) ∧
  (ptype r < 10 → type_code (to_parameter_type (value_of_raw r)) = ptype r)%N ∧
  (10 <= ptype r → value_of_raw r = NotSet)%N.
Proof.
  split; [apply param_of_raw_of_param|]. split; [apply ptype_raw_of_value|].
  unfold value_of_raw, NOT_SET, BOOL, INTEGER, DOUBLE, STRING, BYTE_ARRAY, BOOL_ARRAY,
    INTEGER_ARRAY, DOUBLE_ARRAY, STRING_ARRAY.
  split; intros H;
    repeat match goal with |- context [(?a =? ?b)%N] => destruct (N.eqb_spec a b) end;
    simpl; lia || done.
Qed.
