(* ===== verification/ParamStore.v ===== *)
(** * Parameter stores and services (node.rs, zenoh_backend/parameters.rs)

    The parameter store of a DDS [Node] with its [Spinner], the Zenoh
    [ParameterServer], and the parameter services of both, written against the
    interface [ParamBackend]. *)
From S2P Require Import Prelude Params Time Names.

Definition USE_SIM_TIME : str := lit "use_sim_time".

(** ** The interface between stores and services *)

(** What the request handlers use of a store. *)
Class ParamBackend (S : Type) := {
  pb_get : S → str → option ParameterValue;
  pb_set : str → ParameterValue → S → S * SetParametersResult;
  pb_keys : S → list str;
}.
(** What a store promises them: a successful set stores the value and nothing
    else changes, a failed one changes nothing, and the keys are sorted, without
    repetition, those that have a value. *)
Class ParamBackendLaws (S : Type) `{ParamBackend S} := {
  pb_set_get n v s m :
    pb_get (fst (pb_set n v s)) m =
    if is_ok (snd (pb_set n v s)) && bool_decide (m = n) then Some v else pb_get s m;
  pb_keys_sorted s : StronglySorted str_le (pb_keys s) ∧ NoDup (pb_keys s);
  pb_keys_get s n : n ∈ pb_keys s ↔ is_Some (pb_get s n);
}.

(** ** Request handlers *)
Section handlers.
Context {S : Type} `{ParamBackend S}.

Definition get_or_not_set (s : S) (name : str) : ParameterValue :=
  default NotSet (pb_get s name).
Definition handle_get_parameters (req : GetParametersRequest) (s : S) : GetParametersResponse :=
  {| gp_values := raw_of_value ∘ get_or_not_set s <$> gp_names req |}.
Definition handle_get_parameter_types (req : GetParameterTypesRequest) (s : S) :
    GetParameterTypesResponse :=
  {| gt_values := (λ v, type_code (to_parameter_type v)) ∘ get_or_not_set s <$> gt_names req |}.

Fixpoint set_each (ps : list RosParameter) (s : S) : S * list SetParametersResult :=
  match ps with
  | [] => (s, [])
  | p :: ps =>
      let '(s1, r) := pb_set (p_name p) (p_value p) s in
      let '(s2, rs) := set_each ps s1 in (s2, r :: rs)
  end.
Definition handle_set_parameters (req : SetParametersRequest) (s : S) :
    S * SetParametersResponse :=
  let '(s', rs) := set_each (param_of_raw <$> parameter req) s in
  (s', {| results := raw_of_result <$> rs |}).

Definition handle_set_parameters_atomically (req : SetParametersRequest) :
    SetParametersResponse :=
  {| results := (λ _ : RawParameter, raw_of_result
       (Err (lit "Setting parameters atomically is not implemented."))) <$> parameter req |}.

Definition handle_list_parameters (req : ListParametersRequest) (s : S) :
    ListParametersResponse :=
  {| lr_result := {|
       lr_names := List.filter (λ name, match prefixes req with [] => true | _ => false end
                       || existsb (λ p, starts_with p name) (prefixes req)) (pb_keys s);
       lr_prefixes := [] |} |}.

Definition handle_describe_parameters (req : DescribeParametersRequest) (s : S) :
    DescribeParametersResponse :=
  {| dp_values := (λ name, raw_of_descriptor
       (match pb_get s name with
        | Some value => descriptor_from_value name value
        | None => descriptor_unknown name
        end)) <$> dp_names req |}.
End handlers.

(** ** The DDS node *)
Section dds.
(** The application's state [W] behind its validator and set action, and the
    timestamps of the events. *)
Context {W T : Type}.
Definition ParameterFunc : Type := str → ParameterValue → W → W * SetParametersResult.

Record ParameterEvent := {
  timestamp : T;
  node : str;
  new_parameters : list RawParameter;
  changed_parameters : list RawParameter;
  deleted_parameters : list RawParameter;
}.

Record NodeOptions := {
  enable_rosout : bool;
  enable_rosout_reading : bool;
  start_parameter_services : bool;
  declared_parameters : list RosParameter;
  allow_undeclared_parameters : bool;
  parameter_validator : option ParameterFunc;
  parameter_set_action : option ParameterFunc;
}.
Definition NodeOptions_new : NodeOptions :=
  {| enable_rosout := true; enable_rosout_reading := false; start_parameter_services := true;
     declared_parameters := []; allow_undeclared_parameters := false;
     parameter_validator := None; parameter_set_action := None |}.
Definition declare_parameter (name : str) (value : ParameterValue) (o : NodeOptions) :
    NodeOptions :=
  {| enable_rosout := enable_rosout o; enable_rosout_reading := enable_rosout_reading o;
     start_parameter_services := start_parameter_services o;
     declared_parameters := declared_parameters o ++ [{| p_name := name; p_value := value |}];
     allow_undeclared_parameters := allow_undeclared_parameters o;
     parameter_validator := parameter_validator o;
     parameter_set_action := parameter_set_action o |}.
Definition with_parameter_validator (v : ParameterFunc) (o : NodeOptions) : NodeOptions :=
  {| enable_rosout := enable_rosout o; enable_rosout_reading := enable_rosout_reading o;
     start_parameter_services := start_parameter_services o;
     declared_parameters := declared_parameters o;
     allow_undeclared_parameters := allow_undeclared_parameters o;
     parameter_validator := Some v; parameter_set_action := parameter_set_action o |}.
Definition with_parameter_set_action (a : ParameterFunc) (o : NodeOptions) : NodeOptions :=
  {| enable_rosout := enable_rosout o; enable_rosout_reading := enable_rosout_reading o;
     start_parameter_services := start_parameter_services o;
     declared_parameters := declared_parameters o;
     allow_undeclared_parameters := allow_undeclared_parameters o;
     parameter_validator := parameter_validator o; parameter_set_action := Some a |}.

Definition set_enable_rosout (enable_rosout : bool) (o : NodeOptions) : NodeOptions :=
  {| enable_rosout := enable_rosout; enable_rosout_reading := enable_rosout_reading o;
     start_parameter_services := start_parameter_services o;
     declared_parameters := declared_parameters o;
     allow_undeclared_parameters := allow_undeclared_parameters o;
     parameter_validator := parameter_validator o;
     parameter_set_action := parameter_set_action o |}.
Definition read_rosout (enable_rosout_reading : bool) (o : NodeOptions) : NodeOptions :=
  {| enable_rosout := enable_rosout o; enable_rosout_reading := enable_rosout_reading;
     start_parameter_services := start_parameter_services o;
     declared_parameters := declared_parameters o;
     allow_undeclared_parameters := allow_undeclared_parameters o;
     parameter_validator := parameter_validator o;
     parameter_set_action := parameter_set_action o |}.
(** The options an application can make: the fields are private, so [new] and the
    setters above are the only ways to one. *)
Inductive built : NodeOptions → Prop :=
| built_new : built NodeOptions_new
| built_enable_rosout b o : built o → built (set_enable_rosout b o)
| built_read_rosout b o : built o → built (read_rosout b o)
| built_declare name v o : built o → built (declare_parameter name v o)
| built_validator f o : built o → built (with_parameter_validator f o)
| built_set_action f o : built o → built (with_parameter_set_action f o).

(** The part of a [Node] and its [Spinner] that parameters live in: the shared
    store, the simulated-time flag, the application's state, the events handed
    to the [parameter_events] writer (oldest first), and the fixed options. *)
Record Node := {
  parameters : gmap str ParameterValue;
  use_sim_time : bool;
  app : W;
  published : list ParameterEvent;
  fqn : str;
  options : NodeOptions;
}.

Definition validate_parameter_on_set (name : str) (value : ParameterValue) (n : Node) :
    Node * SetParametersResult :=
  if str_eqb name USE_SIM_TIME then
    (n, match value with
        | Boolean _ => Ok tt
        | _ => Err (lit "Parameter'use_sim_time' must be Boolean.")
        end)
  else
    match parameter_validator (options n) with
    | Some v =>
        let '(w, r) := v name value (app n) in
        ({| parameters := parameters n; use_sim_time := use_sim_time n; app := w;
            published := published n; fqn := fqn n; options := options n |}, r)
    | None => (n, Ok tt)
    end.

Definition execute_parameter_set_actions (name : str) (value : ParameterValue) (n : Node) :
    Node * SetParametersResult :=
  if str_eqb name USE_SIM_TIME then
    match value with
    | Boolean s =>
        ({| parameters := parameters n; use_sim_time := s; app := app n;
            published := published n; fqn := fqn n; options := options n |}, Ok tt)
    | _ => (n, Err (lit "Parameter 'use_sim_time' must be Boolean."))
    end
  else
    match parameter_set_action (options n) with
    | Some v =>
        let '(w, r) := v name value (app n) in
        ({| parameters := parameters n; use_sim_time := use_sim_time n; app := w;
            published := published n; fqn := fqn n; options := options n |}, r)
    | None => (n, Ok tt)
    end.

Definition publish (t : T) (new changed deleted : list RawParameter) (n : Node) : Node :=
  {| parameters := parameters n; use_sim_time := use_sim_time n; app := app n;
     published := published n ++ [{| timestamp := t; node := fqn n; new_parameters := new;
                                     changed_parameters := changed;
                                     deleted_parameters := deleted |}];
     fqn := fqn n; options := options n |}.
Definition with_parameters (ps : gmap str ParameterValue) (n : Node) : Node :=
  {| parameters := ps; use_sim_time := use_sim_time n; app := app n;
     published := published n; fqn := fqn n; options := options n |}.

(** [Node::set_parameter]. *)
Definition set_parameter (t : T) (name : str) (value : ParameterValue) (n : Node) :
    Node * SetParametersResult :=
  let already_set := bool_decide (is_Some (parameters n !! name)) in
  if allow_undeclared_parameters (options n) || already_set then
    match validate_parameter_on_set name value n with
    | (n, Err e) => (n, Err e)
    | (n, Ok _) =>
        match execute_parameter_set_actions name value n with
        | (n, Err e) => (n, Err e)
        | (n, Ok _) =>
            let p := {| raw_name := name; raw_value := raw_of_value value |} in
            let '(new, changed) := if already_set then ([], [p]) else ([p], []) in
            (publish t new changed [] (with_parameters (<[name := value]> (parameters n)) n),
             Ok tt)
        end
    end
  else (n, Err (lit "Setting undeclared parameter '" ++ name ++ lit "' is not allowed.")).

(** The [Spinner]'s own copies, over the fields it shares with its node. *)
Definition spinner_validate_parameter_on_set (name : str) (value : ParameterValue) (n : Node) :
    Node * SetParametersResult :=
  if str_eqb name USE_SIM_TIME then
    (n, match value with
        | Boolean _ => Ok tt
        | _ => Err (lit "Parameter'use_sim_time' must be Boolean.")
        end)
  else
    match parameter_validator (options n) with
    | Some v =>
        let '(w, r) := v name value (app n) in
        ({| parameters := parameters n; use_sim_time := use_sim_time n; app := w;
            published := published n; fqn := fqn n; options := options n |}, r)
    | None => (n, Ok tt)
    end.
Definition spinner_execute_parameter_set_actions (name : str) (value : ParameterValue) (n : Node) :
    Node * SetParametersResult :=
  if str_eqb name USE_SIM_TIME then
    match value with
    | Boolean s =>
        ({| parameters := parameters n; use_sim_time := s; app := app n;
            published := published n; fqn := fqn n; options := options n |}, Ok tt)
    | _ => (n, Err (lit "Parameter 'use_sim_time' must be Boolean."))
    end
  else
    match parameter_set_action (options n) with
    | Some v =>
        let '(w, r) := v name value (app n) in
        ({| parameters := parameters n; use_sim_time := use_sim_time n; app := w;
            published := published n; fqn := fqn n; options := options n |}, r)
    | None => (n, Ok tt)
    end.
(** Its timestamp [t] is the system clock's; [Node]'s is [time_now]'s. *)
Definition spinner_set_parameter (t : T) (name : str) (value : ParameterValue) (n : Node) :
    Node * SetParametersResult :=
  let already_set := bool_decide (is_Some (parameters n !! name)) in
  if allow_undeclared_parameters (options n) || already_set then
    match spinner_validate_parameter_on_set name value n with
    | (n, Err e) => (n, Err e)
    | (n, Ok _) =>
        match spinner_execute_parameter_set_actions name value n with
        | (n, Err e) => (n, Err e)
        | (n, Ok _) =>
            let p := {| raw_name := name; raw_value := raw_of_value value |} in
            let '(new, changed) := if already_set then ([], [p]) else ([p], []) in
            (publish t new changed [] (with_parameters (<[name := value]> (parameters n)) n),
             Ok tt)
        end
    end
  else (n, Err (lit "Setting undeclared parameter '" ++ name ++ lit "' is not allowed.")).

Definition undeclare_parameter (t : T) (name : str) (n : Node) : Node :=
  let prev_value := parameters n !! name in
  let n' := with_parameters (delete name (parameters n)) n in
  match prev_value with
  | Some v => publish t [] [] [{| raw_name := name; raw_value := raw_of_value v |}] n'
  | None => n'
  end.
Definition has_parameter (name : str) (n : Node) : bool :=
  bool_decide (is_Some (parameters n !! name)).
Definition get_parameter (name : str) (n : Node) : option ParameterValue := parameters n !! name.
Definition list_parameters (n : Node) : list str := (entries str_le (parameters n)).*1.

(** [Node::new], past the creation of its writers: the store of the declared
    parameters, later ones overwriting earlier ones, and every entry validated
    and executed in key order.  [Err] is [NodeCreateError::BadParameter]. *)
Definition collect (ps : list RosParameter) : gmap str ParameterValue :=
  fold_left (λ m p, <[p_name p := p_value p]> m) ps ∅.
Fixpoint check_each (ps : list (str * ParameterValue)) (n : Node) : result str Node :=
  match ps with
  | [] => Ok n
  | (name, value) :: ps =>
      match validate_parameter_on_set name value n with
      | (_, Err e) => Err e
      | (n, Ok _) =>
          match execute_parameter_set_actions name value n with
          | (_, Err e) => Err e
          | (n, Ok _) => check_each ps n
          end
      end
  end.
Definition with_declared (ps : list RosParameter) (o : NodeOptions) : NodeOptions :=
  {| enable_rosout := enable_rosout o; enable_rosout_reading := enable_rosout_reading o;
     start_parameter_services := start_parameter_services o;
     declared_parameters := ps;
     allow_undeclared_parameters := allow_undeclared_parameters o;
     parameter_validator := parameter_validator o;
     parameter_set_action := parameter_set_action o |}.
Definition Node_new (node_name : NodeName) (o : NodeOptions) (w : W) : result str Node :=
  let declared :=
    declared_parameters o ++ [{| p_name := USE_SIM_TIME; p_value := Boolean false |}] in
  let ps := collect declared in
  check_each (entries str_le ps)
    {| parameters := ps; use_sim_time := false; app := w; published := [];
       fqn := fully_qualified_name node_name; options := with_declared declared o |}.

(** [Node::time_now] from the simulated time and the system clock. *)
Definition time_now (sim_time now : ROSTime) (n : Node) : ROSTime :=
  if use_sim_time n then sim_time else now.

(** The parameter services [Node::spinner] creates; [None] is the panic of
    [Name::new(..).unwrap()]. *)
Definition unwrap_name (fqn base : str) : option Name :=
  match Name_new fqn base with Ok n => Some n | Err _ => None end.
Definition spinner_parameter_services (n : Node) : option (list (Name * ServiceTypeName)) :=
  if start_parameter_services (options n) then
    let server base ty := x ← unwrap_name (fqn n) (lit base);
                          Some (x, ServiceTypeName_new (lit "rcl_interfaces") (lit ty)) in
    s1 ← server "get_parameters" "GetParameters";
    s2 ← server "get_parameter_types" "GetParameterTypes";
    s3 ← server "set_parameters" "SetParameters";
    s4 ← server "set_parameters_atomically" "SetParametersAtomically";
    s5 ← server "list_parameters" "ListParameters";
    s6 ← server "describe_parameters" "DescribeParameters";
    Some [s1; s2; s3; s4; s5; s6]
  else Some [].
End dds.
Arguments Node : clear implicits.
Arguments NodeOptions : clear implicits.
Arguments ParameterEvent : clear implicits.

(** The [Spinner]'s arms of its [select!] for the parameter services: the
    handlers over the node's store, with the time of each request. *)
#[export] Instance Node_backend {W T} (t : T) : ParamBackend (Node W T) := {
  pb_get n name := parameters n !! name;
  pb_set name v n := spinner_set_parameter t name v n;
  pb_keys n := (entries str_le (parameters n)).*1;
}.
Section spinner.
Context {W T : Type} (t : T).
#[local] Existing Instance Node_backend.
Definition spinner_get_parameters (req : GetParametersRequest) (n : Node W T) :=
  handle_get_parameters (H := Node_backend t) req n.
Definition spinner_get_parameter_types (req : GetParameterTypesRequest) (n : Node W T) :=
  handle_get_parameter_types (H := Node_backend t) req n.
Definition spinner_set_parameters (req : SetParametersRequest) (n : Node W T) :=
  handle_set_parameters (H := Node_backend t) req n.
Definition spinner_set_parameters_atomically (req : SetParametersRequest) :=
  handle_set_parameters_atomically req.
Definition spinner_list_parameters (req : ListParametersRequest) (n : Node W T) :=
  handle_list_parameters (H := Node_backend t) req n.
Definition spinner_describe_parameters (req : DescribeParametersRequest) (n : Node W T) :=
  handle_describe_parameters (H := Node_backend t) req n.
End spinner.

(** ** The Zenoh parameter server *)
Section zenoh.
Context {T : Type}.

Record ParameterServer := {
  node_fqn : str;
  store : gmap str ParameterValue;
  events : list (ParameterEvent T);
}.
Definition ParameterServer_new (node_fqn : str) (initial_parameters : list RosParameter) :
    ParameterServer :=
  let store := collect initial_parameters in
  {| node_fqn := node_fqn; events := [];
     store := match store !! USE_SIM_TIME with
              | Some _ => store
              | None => <[USE_SIM_TIME := Boolean false]> store
              end |}.
Definition publish_event (t : T) (new changed deleted : list RawParameter)
    (s : ParameterServer) : ParameterServer :=
  {| node_fqn := node_fqn s; store := store s;
     events := events s ++ [{| timestamp := t; node := node_fqn s; new_parameters := new;
                               changed_parameters := changed;
                               deleted_parameters := deleted |}] |}.
Definition set_and_notify (t : T) (name : str) (value : ParameterValue)
    (s : ParameterServer) : ParameterServer * SetParametersResult :=
  let raw_param := {| raw_name := name; raw_value := raw_of_value value |} in
  let already_set := bool_decide (is_Some (store s !! name)) in
  let s := {| node_fqn := node_fqn s; store := <[name := value]> (store s);
              events := events s |} in
  ((if already_set then publish_event t [] [raw_param] [] s
    else publish_event t [raw_param] [] [] s), Ok tt).
Definition server_get_parameter (name : str) (s : ParameterServer) : option ParameterValue :=
  store s !! name.
Definition server_set_parameter (t : T) (name : str) (value : ParameterValue)
    (s : ParameterServer) : ParameterServer := fst (set_and_notify t name value s).
Definition parameter_names (s : ParameterServer) : list str := (entries str_le (store s)).*1.
End zenoh.
Arguments ParameterServer : clear implicits.

#[export] Instance Server_backend {T} (t : T) : ParamBackend (ParameterServer T) := {
  pb_get s name := store s !! name;
  pb_set name v s := set_and_notify t name v s;
  pb_keys s := (entries str_le (store s)).*1;
}.

(** [spin_once] on the requests queued on the six services, in the order the
    code drains them; the answers, in the order they are sent. *)
Record Queues := {
  q_get : list GetParametersRequest;
  q_types : list GetParameterTypesRequest;
  q_set : list SetParametersRequest;
  q_atomically : list SetParametersRequest;
  q_list : list ListParametersRequest;
  q_describe : list DescribeParametersRequest;
}.
Inductive Answer :=
| AGet (r : GetParametersResponse)
| ATypes (r : GetParameterTypesResponse)
| ASet (r : SetParametersResponse)
| AAtomically (r : SetParametersResponse)
| AList (r : ListParametersResponse)
| ADescribe (r : DescribeParametersResponse).
Section spin_once.
Context {T : Type} (t : T).
#[local] Existing Instance Server_backend.
Fixpoint drain_set (reqs : list SetParametersRequest) (s : ParameterServer T) :
    ParameterServer T * list Answer :=
  match reqs with
  | [] => (s, [])
  | r :: reqs =>
      let '(s1, a) := handle_set_parameters (H := Server_backend t) r s in
      let '(s2, l) := drain_set reqs s1 in (s2, ASet a :: l)
  end.
Definition spin_once (q : Queues) (s : ParameterServer T) : ParameterServer T * list Answer :=
  let a1 := (λ r, AGet (handle_get_parameters (H := Server_backend t) r s)) <$> q_get q in
  let a2 := (λ r, ATypes (handle_get_parameter_types (H := Server_backend t) r s)) <$> q_types q in
  let '(s', a3) := drain_set (q_set q) s in
  let a4 := (λ r, AAtomically (handle_set_parameters_atomically r)) <$> q_atomically q in
  let a5 := (λ r, AList (handle_list_parameters (H := Server_backend t) r s')) <$> q_list q in
  let a6 := (λ r, ADescribe (handle_describe_parameters (H := Server_backend t) r s'))
              <$> q_describe q in
  (s', a1 ++ a2 ++ a3 ++ a4 ++ a5 ++ a6).
End spin_once.
(** [spin]: a [spin_once] whenever [stop] returns [false], with the time and the
    queues it finds. *)
Fixpoint spin {T} (polls : list (T * Queues)) (s : ParameterServer T) : ParameterServer T * list Answer :=
  match polls with
  | [] => (s, [])
  | (t, q) :: polls =>
      let '(s1, answers) := spin_once t q s in
      let '(s2, l) := spin polls s1 in (s2, answers ++ l)
  end.
Definition queued (q : Queues) : nat :=
  length (q_get q) + length (q_types q) + length (q_set q) + length (q_atomically q) +
  length (q_list q) + length (q_describe q).

(** ** The client *)
(** [ParameterClient]: [call_*] is the blocking service call. *)
Section client.
Context {ServiceError : Type}.
Definition client_get_parameters
    (call : GetParametersRequest → result ServiceError GetParametersResponse)
    (names : list str) : result ServiceError (list ParameterValue) :=
  resp ← call {| gp_names := names |}; Ok (value_of_raw <$> gp_values resp).
Definition client_get_parameter_types
    (call : GetParameterTypesRequest → result ServiceError GetParameterTypesResponse)
    (names : list str) : result ServiceError (list N) :=
  gt_values <$> call {| gt_names := names |}.
Definition client_set_parameters
    (call : SetParametersRequest → result ServiceError SetParametersResponse)
    (ps : list RosParameter) : result ServiceError (list SetParametersResult) :=
  resp ← call {| parameter := raw_of_param <$> ps |};
  Ok ((λ r, if successful r then Ok tt else Err (reason r)) <$> results resp).
Definition client_list_parameters
    (call : ListParametersRequest → result ServiceError ListParametersResponse)
    (ps : list str) : result ServiceError (list str) :=
  (λ r, lr_names (lr_result r)) <$> call {| prefixes := ps; depth := 0 |}.
Definition client_describe_parameters
    (call : DescribeParametersRequest → result ServiceError DescribeParametersResponse)
    (names : list str) : result ServiceError (list RawParameterDescriptor) :=
  dp_values <$> call {| dp_names := names |}.
End client.

(** ** Lemmas *)

(** "Keep this function in sync": the copies are. *)
Lemma spinner_set_parameter_eq {W T} (t : T) name v (n : Node W T) :
  spinner_set_parameter t name v n = set_parameter t name v n.
Proof. done. Qed.

Lemma validate_frame {W T} name v (n : Node W T) :
  let n' := fst (validate_parameter_on_set name v n) in
  parameters n' = parameters n ∧ use_sim_time n' = use_sim_time n ∧
  published n' = published n ∧ fqn n' = fqn n ∧ options n' = options n.
Proof.
  unfold validate_parameter_on_set. destruct (str_eqb _ _); [done|].
  destruct (parameter_validator _); [|done]. by destruct (_ _ _ (app n)).
Qed.

Lemma execute_frame {W T} name v (n : Node W T) :
  let n' := fst (execute_parameter_set_actions name v n) in
  parameters n' = parameters n ∧ published n' = published n ∧ fqn n' = fqn n ∧
  options n' = options n.
Proof.
  unfold execute_parameter_set_actions. destruct (str_eqb _ _); [by destruct v|].
  destruct (parameter_set_action _); [|done]. by destruct (_ _ _ (app n)).
Qed.

(** The flag after a successful set. *)
Lemma execute_sim_time {W T} name v (n n' : Node W T) :
  execute_parameter_set_actions name v n = (n', Ok tt) →
  if decide (name = USE_SIM_TIME) then v = Boolean (use_sim_time n')
  else use_sim_time n' = use_sim_time n.
Proof.
  unfold execute_parameter_set_actions, str_eqb. intros H.
  case_bool_decide; [rewrite decide_True by done|rewrite decide_False by done].
  - by destruct v; simplify_eq/=.
  - destruct (parameter_set_action _); [|by simplify_eq].
    destruct (_ _ _ (app n)) as [? []]; by simplify_eq/=.
Qed.

(** Either a set is refused and the store, its flag's parameter and its events
    are as before, or it happened. *)
Lemma set_parameter_cases {W T} (t : T) name v (n : Node W T) :
  let n' := fst (set_parameter t name v n) in
  let p := {| raw_name := name; raw_value := raw_of_value v |} in
  fqn n' = fqn n ∧ options n' = options n ∧
  ((is_ok (snd (set_parameter t name v n)) = false ∧ parameters n' = parameters n ∧
    published n' = published n) ∨
   (is_ok (snd (set_parameter t name v n)) = true ∧
    parameters n' = <[name := v]> (parameters n) ∧
    (if decide (name = USE_SIM_TIME) then v = Boolean (use_sim_time n')
     else use_sim_time n' = use_sim_time n) ∧
    published n' = published n ++
      [if bool_decide (is_Some (parameters n !! name))
       then {| timestamp := t; node := fqn n; new_parameters := [];
               changed_parameters := [p]; deleted_parameters := [] |}
       else {| timestamp := t; node := fqn n; new_parameters := [p];
               changed_parameters := []; deleted_parameters := [] |}])).
Proof.
  simpl. unfold set_parameter.
  destruct (allow_undeclared_parameters _ || _); [|by split_and!; [..|left]].
  destruct (validate_frame name v n) as (E1&E2&E3&E4&E5).
  destruct (validate_parameter_on_set name v n) as [n1 [[]|e]]; simpl in *;
    [|by split_and!; [..|left]].
  destruct (execute_frame name v n1) as (F1&F3&F4&F5).
  pose proof (execute_sim_time name v n1) as Hx.
  destruct (execute_parameter_set_actions name v n1) as [n2 [[]|e]]; simpl in *.
  - specialize (Hx _ eq_refl). rewrite E2 in Hx.
    destruct (bool_decide _); simpl; rewrite F1, F3, F4, E1, E3, E4, F5, E5;
      (split; [done|]; split; [done|right]); by repeat split.
  - split; [congruence|]. split; [congruence|]. left. split; [done|]. split; congruence.
Qed.

#[export] Instance Node_backend_laws {W T} (t : T) :
  @ParamBackendLaws (Node W T) (Node_backend t).
Proof.
  split.
  - intros n v s m. cbn [pb_set pb_get Node_backend]. rewrite spinner_set_parameter_eq.
    destruct (set_parameter_cases t n v s) as (_&_&[(->&->&_)|(->&->&_)]); [done|]. simpl.
    case_bool_decide; [subst; apply lookup_insert_eq|by apply lookup_insert_ne].
  - intros s. split; [apply (entries_sorted _)|apply NoDup_entries_keys].
  - intros s n. apply (elem_of_entries_keys _).
Qed.

#[export] Instance Server_backend_laws {T} (t : T) :
  @ParamBackendLaws (ParameterServer T) (Server_backend t).
Proof.
  split.
  - intros n v s m. simpl. destruct (bool_decide (is_Some _)); simpl;
      (case_bool_decide; [subst; apply lookup_insert_eq|by apply lookup_insert_ne]).
  - intros s. split; [apply (entries_sorted _)|apply NoDup_entries_keys].
  - intros s n. apply (elem_of_entries_keys _).
Qed.

(** The value the last successful assignment to [n] gives it. *)
Fixpoint last_set (n : str) (ps : list RosParameter) (rs : list SetParametersResult) :
    option ParameterValue :=
  match ps, rs with
  | p :: ps, r :: rs =>
      match last_set n ps rs with
      | Some v => Some v
      | None => if is_ok r && bool_decide (n = p_name p) then Some (p_value p) else None
      end
  | _, _ => None
  end.

Section backend_lemmas.
Context {S : Type} `{ParamBackendLaws S}.

Lemma set_each_spec ps s n :
  let '(s', rs) := set_each ps s in
  length rs = length ps ∧
  pb_get s' n = match last_set n ps rs with Some v => Some v | None => pb_get s n end.
Proof.
  revert s. induction ps as [|p ps IH]; intros s; [done|]. simpl.
  pose proof (pb_set_get (p_name p) (p_value p) s n) as Hs.
  destruct (pb_set (p_name p) (p_value p) s) as [s1 r]. simpl in Hs.
  specialize (IH s1). destruct (set_each ps s1) as [s2 rs]. destruct IH as [Hl Hg].
  split; [simpl; congruence|]. rewrite Hg. simpl.
  destruct (last_set n ps rs); [done|]. rewrite Hs. by destruct (_ && _).
Qed.

(** ** Properties *)

(** Against any store that keeps its promises, [set_parameters] answers
    every parameter of the request, in order, and a later [get_parameters],
    [get_parameter_types] or [describe_parameters] sees, for every name, the
    value of the last assignment that was answered as successful, or the value
    from before the request if there is none. *)
Lemma set_then_get (req : SetParametersRequest) (s : S) names :
  let '(s', resp) := handle_set_parameters req s in
  let rs := (λ r, if successful r then Ok tt else Err (reason r)) <$> results resp in
  let value n := default NotSet
    (match last_set n (param_of_raw <$> parameter req) rs with
     | Some v => Some v | None => pb_get s n end) in
  length (results resp) = length (parameter req) ∧
  value_of_raw <$> gp_values (handle_get_parameters {| gp_names := names |} s')
    = value <$> names ∧
  gt_values (handle_get_parameter_types {| gt_names := names |} s')
    = (λ n, type_code (to_parameter_type (value n))) <$> names ∧
  rd_type <$> dp_values (handle_describe_parameters {| dp_names := names |} s')
    = (λ n, type_code (to_parameter_type (value n))) <$> names.
Proof.
  unfold handle_set_parameters.
  pose proof (set_each_spec (param_of_raw <$> parameter req) s) as Hset.
  destruct (set_each _ s) as [s' rs]. simpl.
  assert ((λ r, if successful r then Ok tt else Err (reason r)) <$> (raw_of_result <$> rs) = rs)
    as ->.
  { rewrite <- list_fmap_compose. rewrite <- (list_fmap_id rs) at 2.
    apply list_fmap_ext. by intros _ [[]|e] _. }
  split; [rewrite !length_fmap; destruct (Hset []) as [-> _]; by rewrite length_fmap|].
  rewrite <- !list_fmap_compose.
  split; [|split]; apply list_fmap_ext; intros _ n _; destruct (Hset n) as [_ Hg]; simpl;
    unfold get_or_not_set; rewrite Hg; [by rewrite value_of_raw_of_value|done|].
  by destruct (match last_set _ _ _ with Some _ => _ | None => _ end).
Qed.

(** [list_parameters] answers the names that have a value and start with one
    of the requested prefixes (all of them when no prefix is given), sorted and
    without repetition. *)
Lemma list_parameters_spec (req : ListParametersRequest) (s : S) :
  let names := lr_names (lr_result (handle_list_parameters req s)) in
  StronglySorted str_le names ∧ NoDup names ∧
  ∀ n, n ∈ names ↔ is_Some (pb_get s n) ∧
    (prefixes req = [] ∨ ∃ p, p ∈ prefixes req ∧ starts_with p n = true).
Proof.
  simpl. destruct (pb_keys_sorted s) as [Hs Hnd]. split; [|split].
  - clear Hnd. induction Hs as [|x l Hl IH Hx]; simpl; [constructor|].
    destruct (_ || _); [|done]. constructor; [done|].
    rewrite Forall_forall in *. intros y. rewrite list_elem_of_In, filter_In, <- list_elem_of_In.
    intros [? _]. by apply Hx.
  - apply NoDup_ListNoDup, List.NoDup_filter. by apply NoDup_ListNoDup.
  - intros n. rewrite list_elem_of_In, filter_In, <- list_elem_of_In, pb_keys_get.
    rewrite orb_true_iff, existsb_exists. setoid_rewrite <- list_elem_of_In.
    assert (match prefixes req with [] => true | _ => false end = true ↔ prefixes req = [])
      as ->; [by destruct (prefixes req)|done].
Qed.
End backend_lemmas.

(** Parameters change by sets and undeclarations, at some times. *)
Inductive param_op (T : Type) :=
| OpSet (t : T) (name : str) (v : ParameterValue)
| OpUndeclare (t : T) (name : str).
Arguments OpSet {T}.
Arguments OpUndeclare {T}.
Definition apply_op {W T} (o : param_op T) (n : Node W T) : Node W T :=
  match o with
  | OpSet t name v => fst (set_parameter t name v n)
  | OpUndeclare t name => undeclare_parameter t name n
  end.
Definition apply_ops {W T} (os : list (param_op T)) (n : Node W T) : Node W T :=
  fold_left (λ n o, apply_op o n) os n.

(** What an observer of [parameter_events] makes of an event: new parameters
    must be unknown to it, changed and deleted ones known. *)
Definition replay_new (m : gmap str ParameterValue) (p : RawParameter) :=
  match m !! raw_name p with
  | Some _ => None
  | None => Some (<[raw_name p := value_of_raw (raw_value p)]> m)
  end.
Definition replay_changed (m : gmap str ParameterValue) (p : RawParameter) :=
  match m !! raw_name p with
  | Some _ => Some (<[raw_name p := value_of_raw (raw_value p)]> m)
  | None => None
  end.
Definition replay_deleted (m : gmap str ParameterValue) (p : RawParameter) :=
  if decide (m !! raw_name p = Some (value_of_raw (raw_value p)))
  then Some (delete (raw_name p) m) else None.
Definition foldM {A B} (f : A → B → option A) (l : list B) (a : A) : option A :=
  fold_left (λ o b, a ← o; f a b) l (Some a).
Definition replay_event {T : Type} (m : gmap str ParameterValue) (e : ParameterEvent T) :
    option (gmap str ParameterValue) :=
  m ← foldM replay_new (new_parameters e) m;
  m ← foldM replay_changed (changed_parameters e) m;
  foldM replay_deleted (deleted_parameters e) m.

Lemma foldM_app {A B} (f : A → B → option A) l l' a :
  foldM f (l ++ l') a = foldM f l a ≫= foldM f l'.
Proof.
  unfold foldM. rewrite fold_left_app. destruct (fold_left _ l _) as [a'|]; [done|].
  simpl. by induction l'.
Qed.

Lemma foldM_cons {A B} (f : A → B → option A) b l a : foldM f (b :: l) a = f a b ≫= foldM f l.
Proof. apply (foldM_app f [b]). Qed.
(** Every request is answered once. *)
Lemma drain_set_length {T} (t : T) reqs s : length (drain_set t reqs s).2 = length reqs.
Proof.
  revert s. induction reqs as [|r reqs IH]; intros s; simpl; [done|].
  destruct (handle_set_parameters r s) as [s1 a]. specialize (IH s1).
  destruct (drain_set t reqs s1). simpl in *. by rewrite IH.
Qed.
Lemma spin_once_answers {T} (t : T) q s : length (spin_once t q s).2 = queued q.
Proof.
  unfold spin_once, queued. pose proof (drain_set_length t (q_set q) s) as Hd.
  destruct (drain_set t (q_set q) s). simpl in *. rewrite !length_app, !length_fmap, Hd. lia.
Qed.
Lemma spin_answers {T} (polls : list (T * Queues)) s :
  length (spin polls s).2 = sum_list_with (λ p, queued p.2) polls.
Proof.
  revert s. induction polls as [|[t q] polls IH]; intros s; simpl; [done|].
  pose proof (spin_once_answers t q s) as Hq. destruct (spin_once t q s) as [s1 a].
  specialize (IH s1). destruct (spin polls s1). simpl in *. rewrite length_app. lia.
Qed.
Lemma foldM_inv {A B} (P : A → Prop) (f : A → B → option A) l a a' :
  (∀ a b a', P a → f a b = Some a' → P a') → P a → foldM f l a = Some a' → P a'.
Proof.
  intros Hf Ha. revert a Ha. induction l as [|b l IH]; intros a Ha; [by intros [= <-]|].
  unfold foldM. simpl. destruct (f a b) as [a1|] eqn:E; [apply IH; by eapply Hf|].
  simpl. clear. by induction l.
Qed.

Lemma apply_op_replay {W T} (o : param_op T) (n : Node W T) :
  ∃ es, published (apply_op o n) = published n ++ es ∧
        foldM replay_event es (parameters n) = Some (parameters (apply_op o n)).
Proof.
  destruct o as [t name v|t name]; simpl.
  - destruct (set_parameter_cases t name v n) as (_&_&[(_&->&->)|(_&->&_&->)]).
    + exists []. by rewrite app_nil_r.
    + eexists. split; [done|]. unfold foldM, replay_event. simpl.
      case_bool_decide as Hs; unfold foldM; simpl;
        unfold replay_new, replay_changed; simpl; rewrite value_of_raw_of_value.
      * by destruct Hs as [? ->].
      * by destruct (parameters n !! name) eqn:E; [destruct Hs; eauto|].
  - unfold undeclare_parameter. destruct (parameters n !! name) as [v|] eqn:E; simpl.
    + eexists. split; [done|]. unfold foldM, replay_event. simpl. unfold foldM. simpl.
      unfold replay_deleted. simpl. by rewrite value_of_raw_of_value, decide_True.
    + exists []. rewrite app_nil_r. split; [done|]. by rewrite delete_id.
Qed.

(** The [parameter_events] of a node are a complete log of its store: an
    observer that starts from the parameters and applies every event, checking
    that new parameters are new and that changed and deleted ones exist with the
    reported value, always ends with the node's current parameters. *)
Lemma parameter_events_replay {W T} (os : list (param_op T)) (n : Node W T) :
  ∃ es, published (apply_ops os n) = published n ++ es ∧
        foldM replay_event es (parameters n) = Some (parameters (apply_ops os n)).
Proof.
  revert n. induction os as [|o os IH]; intros n.
  - exists []. by rewrite app_nil_r.
  - destruct (apply_op_replay o n) as (es&E1&E2). destruct (IH (apply_op o n)) as (es'&E1'&E2').
    exists (es ++ es'). simpl. rewrite E1', E1, (assoc_L (++)). split; [done|].
    rewrite foldM_app, E2. done.
Qed.

(** The simulated-time flag follows the parameter. *)
Definition sim_time_ok {W T} (n : Node W T) : Prop :=
  ∀ v, parameters n !! USE_SIM_TIME = Some v → v = Boolean (use_sim_time n).

Lemma sim_time_ok_apply_op {W T} (o : param_op T) (n : Node W T) :
  sim_time_ok n → sim_time_ok (apply_op o n).
Proof.
  intros Hok. destruct o as [t name v|t name]; simpl.
  - pose proof (set_parameter_cases t name v n) as (_&_&H).
    unfold set_parameter in *.
    destruct (allow_undeclared_parameters _ || _); [|done].
    pose proof (validate_frame name v n) as (E1&E2&_).
    destruct (validate_parameter_on_set name v n) as [n1 [[]|e]]; simpl in *;
      [|intros x Hx; rewrite E2; apply Hok; congruence].
    pose proof (execute_sim_time name v n1) as Hx.
    destruct (execute_parameter_set_actions name v n1) as [n2 [[]|e]] eqn:Ex; simpl in *.
    + specialize (Hx _ eq_refl). destruct H as [[Hr _]|(_&Hp&Hf&_)].
      { exfalso. revert Hr. by destruct (bool_decide (is_Some (parameters n !! name))). }
      intros x. rewrite Hp. destruct (decide (name = USE_SIM_TIME)) as [->|Hne].
      * rewrite lookup_insert_eq. by intros [= <-].
      * rewrite lookup_insert_ne, Hf by done. apply Hok.
    + destruct H as [(_&Hp&_)|[? _]]; [|done]. intros x. rewrite Hp. intros Hl.
      rewrite (Hok x Hl). f_equal. clear Hl Hp Hx. revert Ex.
      unfold execute_parameter_set_actions.
      destruct (str_eqb _ _); [destruct v; intros [= <- _]; congruence|].
      destruct (parameter_set_action _); [|done].
      destruct (_ _ _ (app n1)) as [w r]. intros [= <- _]. simpl. congruence.
  - unfold undeclare_parameter. intros x.
    destruct (parameters n !! name); simpl; intros [_ Hx]%lookup_delete_Some; by apply Hok.
Qed.

Lemma sim_time_ok_apply_ops {W T} (os : list (param_op T)) (n : Node W T) :
  sim_time_ok n → sim_time_ok (apply_ops os n).
Proof.
  revert n. induction os as [|o os IH]; intros n Hok; [done|].
  apply IH, sim_time_ok_apply_op, Hok.
Qed.

Lemma check_each_frame {W T} ps (n n' : Node W T) :
  check_each ps n = Ok n' → NoDup ps.*1 →
  parameters n' = parameters n ∧ published n' = published n ∧
  (USE_SIM_TIME ∈ ps.*1 → (USE_SIM_TIME, Boolean (use_sim_time n')) ∈ ps) ∧
  (USE_SIM_TIME ∉ ps.*1 → use_sim_time n' = use_sim_time n).
Proof.
  revert n. induction ps as [|[name v] ps IH]; intros n; simpl.
  { intros [= <-] _. split; [done|]. split; [done|]. split; [set_solver|done]. }
  pose proof (validate_frame name v n) as (E1&E2&E3&_).
  destruct (validate_parameter_on_set name v n) as [n1 [[]|e]]; simpl in *; [|done].
  pose proof (execute_frame name v n1) as (F1&F2&_).
  pose proof (execute_sim_time name v n1) as Hx.
  destruct (execute_parameter_set_actions name v n1) as [n2 [[]|e]]; simpl in *; [|done].
  specialize (Hx _ eq_refl). intros Hc [Hni Hnd]%NoDup_cons.
  apply IH in Hc as (G1&G2&G3&G4); [|done].
  split; [congruence|]. split; [congruence|].
  destruct (decide (name = USE_SIM_TIME)) as [->|Hne].
  - split; [|set_solver]. intros _. rewrite G4 by done. subst v. left.
  - split.
    + intros [?|?]%elem_of_cons; [done|]. right. by apply G3.
    + intros [_ ?]%not_elem_of_cons. rewrite G4 by done. congruence.
Qed.

Lemma collect_snoc ps p : collect (ps ++ [p]) = <[p_name p := p_value p]> (collect ps).
Proof. unfold collect. by rewrite fold_left_app. Qed.

Lemma Node_new_store {W T} nn (o : NodeOptions W) w (n : Node W T) :
  Node_new nn o w = Ok n →
  use_sim_time n = false ∧ published n = [] ∧
  (∀ name, parameters n !! name = if decide (name = USE_SIM_TIME) then Some (Boolean false)
                                  else collect (declared_parameters o) !! name).
Proof.
  intros H. unfold Node_new in H.
  apply check_each_frame in H as (E1&E2&E3&_); [|apply NoDup_entries_keys].
  simpl in *. rewrite collect_snoc in *. simpl in *. split; [|split; [done|]].
  - assert (USE_SIM_TIME ∈ (entries str_le (<[USE_SIM_TIME:=Boolean false]>
              (collect (declared_parameters o)))).*1) as Hin.
    { apply (elem_of_entries_keys _). rewrite lookup_insert_eq. eauto. }
    apply E3 in Hin. apply (elem_of_entries _) in Hin. rewrite lookup_insert_eq in Hin.
    by injection Hin.
  - intros name. rewrite E1. destruct (decide _) as [->|].
    + apply lookup_insert_eq.
    + by rewrite lookup_insert_ne.
Qed.
Lemma Node_new_sim_time_ok {W T} nn (o : NodeOptions W) w (n : Node W T) :
  Node_new nn o w = Ok n → sim_time_ok n.
Proof.
  intros (Hf & _ & Hp)%Node_new_store v. rewrite Hp, decide_True by done. intros [= <-].
  by rewrite Hf.
Qed.

(** A new node stores the declared parameters, the last declaration of a
    name winning, but never simulates time: [use_sim_time] is [false] even if
    the application declared it [true].  From then on, whatever is set (locally
    or remotely) or undeclared, the flag the clock obeys is the stored value of
    the parameter. *)
Lemma use_sim_time_consistent {W T} nn (o : NodeOptions W) w (n : Node W T) :
  Node_new nn o w = Ok n →
  use_sim_time n = false ∧ published n = [] ∧
  (∀ name, parameters n !! name = if decide (name = USE_SIM_TIME) then Some (Boolean false)
                                  else collect (declared_parameters o) !! name) ∧
  ∀ os v, parameters (apply_ops os n) !! USE_SIM_TIME = Some v →
          v = Boolean (use_sim_time (apply_ops os n)).
Proof.
  intros H. pose proof (Node_new_store _ _ _ _ H) as (Hf & Hpub & Hp).
  split_and!; [done..|]. intros os v. by apply sim_time_ok_apply_ops, (Node_new_sim_time_ok nn o w).
Qed.

Definition sim_options : NodeOptions unit :=
  declare_parameter USE_SIM_TIME (Boolean true) NodeOptions_new.
Definition sim_node_name : NodeName := {| namespace := lit "/"; base_name := lit "talker" |}.

Lemma use_sim_time_consistent_witness :
  (use_sim_time <$> @Node_new unit N sim_node_name sim_options tt) = Ok false ∧
  store (@ParameterServer_new N (lit "/talker") (declared_parameters sim_options))
    !! USE_SIM_TIME = Some (Boolean true).
Proof.
  split; [|vm_compute; reflexivity].
  assert (is_ok (@Node_new unit N sim_node_name sim_options tt) = true) as Hok
    by (vm_compute; reflexivity).
  destruct (@Node_new unit N sim_node_name sim_options tt) as [n|e] eqn:E; [|discriminate Hok].
  change (Ok (use_sim_time n) = @Ok str bool false). f_equal.
  exact (proj1 (use_sim_time_consistent _ _ _ _ E)).
Defined.

(** What the application's validator promises of the values it accepts holds of
    every stored parameter, whatever was declared, set and undeclared; the
    simulated-time parameter is not the validator's. *)
Section validated.
Context {W T : Type} (P : str → ParameterValue → Prop).
Definition accepts_only (o : NodeOptions W) : Prop :=
  ∃ f, parameter_validator o = Some f ∧ ∀ name v w, (f name v w).2 = Ok tt → P name v.
Definition params_valid (n : Node W T) : Prop :=
  ∀ name v, parameters n !! name = Some v → name ≠ USE_SIM_TIME → P name v.

Lemma validate_accepts name v (n : Node W T) :
  accepts_only (options n) → (validate_parameter_on_set name v n).2 = Ok tt →
  name ≠ USE_SIM_TIME → P name v.
Proof.
  intros (f & Hf & HP) Hv Hne. unfold validate_parameter_on_set, str_eqb in Hv.
  rewrite bool_decide_false, Hf in Hv by done.
  destruct (f name v (app n)) as [w r] eqn:E. simpl in Hv. subst r. apply (HP name v (app n)).
  by rewrite E.
Qed.
Lemma set_parameter_accepts (t : T) name v (n : Node W T) :
  accepts_only (options n) → is_ok (set_parameter t name v n).2 = true →
  name ≠ USE_SIM_TIME → P name v.
Proof.
  intros Ha Hok. apply (validate_accepts name v n Ha). unfold set_parameter in Hok.
  destruct (_ || _); [|done].
  by destruct (validate_parameter_on_set name v n) as [n1 [[]|e]].
Qed.
Lemma apply_ops_valid (os : list (param_op T)) (n : Node W T) :
  accepts_only (options n) → params_valid n →
  accepts_only (options (apply_ops os n)) ∧ params_valid (apply_ops os n).
Proof.
  revert n. induction os as [|o os IH]; intros n Ha Hn; [done|]. apply IH.
  - destruct o as [t name v|t name]; simpl.
    + by destruct (set_parameter_cases t name v n) as (_ & -> & _).
    + unfold undeclare_parameter. by destruct (parameters n !! name).
  - destruct o as [t name v|t name]; simpl.
    + destruct (set_parameter_cases t name v n) as (_ & _ & [(_ & Hp & _)|(Hok & Hp & _)]);
        intros m u; rewrite Hp; [apply Hn|].
      destruct (decide (name = m)) as [<-|Hne];
        [rewrite lookup_insert_eq; intros [= <-]; by eapply set_parameter_accepts|].
      rewrite lookup_insert_ne by done. apply Hn.
    + intros m u Hm. apply (Hn m u). revert Hm. unfold undeclare_parameter.
      destruct (parameters n !! name); simpl; rewrite lookup_delete_Some; by intros [].
Qed.
Lemma check_each_valid ps (n n' : Node W T) :
  accepts_only (options n) → check_each ps n = Ok n' →
  options n' = options n ∧ ∀ name v, (name, v) ∈ ps → name ≠ USE_SIM_TIME → P name v.
Proof.
  revert n. induction ps as [|[name v] ps IH]; intros n Ha; simpl.
  { intros [= <-]. split; [done|]. by intros ?? ?%elem_of_nil. }
  pose proof (validate_frame name v n) as (_&_&_&_&E).
  pose proof (validate_accepts name v n Ha) as Hv.
  destruct (validate_parameter_on_set name v n) as [n1 [[]|e]]; simpl in *; [|done].
  pose proof (execute_frame name v n1) as (_&_&_&F).
  destruct (execute_parameter_set_actions name v n1) as [n2 [[]|e]]; simpl in *; [|done].
  intros [Ho HP]%IH; [|by rewrite F, E]. split; [congruence|].
  intros m u [[= -> ->]|Hm]%elem_of_cons; [by apply Hv|by apply HP].
Qed.
Lemma parameters_validated nn (o : NodeOptions W) w (n : Node W T) os :
  accepts_only o → Node_new nn o w = Ok n → params_valid (apply_ops os n).
Proof.
  intros Ha H. pose proof (Node_new_store _ _ _ _ H) as (_ & _ & Hp). unfold Node_new in H.
  pose proof H as [Ho HP]%check_each_valid; [|done]. simpl in Ho.
  apply apply_ops_valid; [by rewrite Ho|].
  intros name v Hv Hne. apply HP; [|done]. apply (elem_of_entries _).
  rewrite collect_snoc. simpl. rewrite lookup_insert_ne by done.
  rewrite <-Hv, Hp. by rewrite decide_False.
Qed.
End validated.

(** ** The two stores side by side *)

(** No application can allow undeclared parameters. *)
Lemma built_no_undeclared {W} (o : NodeOptions W) : built o → allow_undeclared_parameters o = false.
Proof. by induction 1. Qed.
Lemma check_each_fixed {W T} ps (n n' : Node W T) :
  check_each ps n = Ok n' → fqn n' = fqn n ∧ options n' = options n.
Proof.
  revert n. induction ps as [|[name v] ps IH]; intros n; simpl; [by intros [= <-]|].
  pose proof (validate_frame name v n) as (_&_&_&Ef&Eo).
  destruct (validate_parameter_on_set name v n) as [n1 [[]|e]]; simpl in *; [|done].
  pose proof (execute_frame name v n1) as (_&_&Ff&Fo).
  destruct (execute_parameter_set_actions name v n1) as [n2 [[]|e]]; simpl in *; [|done].
  intros [-> ->]%IH. split; congruence.
Qed.
Lemma Node_new_fixed {W T} nn (o : NodeOptions W) w (n : Node W T) :
  Node_new nn o w = Ok n →
  fqn n = fully_qualified_name nn ∧
  allow_undeclared_parameters (options n) = allow_undeclared_parameters o ∧
  parameter_validator (options n) = parameter_validator o ∧
  parameter_set_action (options n) = parameter_set_action o.
Proof. unfold Node_new. by intros [-> ->]%check_each_fixed. Qed.

(** A DDS node as an application without callbacks makes it, and a Zenoh parameter
    server, in the same state: same name, same parameters, same events so far. *)
Definition same_params {W T} (n : Node W T) (s : ParameterServer T) : Prop :=
  fqn n = node_fqn s ∧ parameters n = store s ∧ published n = events s ∧
  allow_undeclared_parameters (options n) = false ∧
  parameter_validator (options n) = None ∧ parameter_set_action (options n) = None.
(** What the DDS node sets without a callback: a stored parameter, and
    [use_sim_time] only to a Boolean. *)
Definition settable {W T} (n : Node W T) (name : str) (v : ParameterValue) : bool :=
  bool_decide (is_Some (parameters n !! name)) &&
  bool_decide (name = USE_SIM_TIME → to_parameter_type v = TBool).
(** Sets one after the other, with their results. *)
Fixpoint set_all {S T} (f : T → str → ParameterValue → S → S * SetParametersResult)
    (l : list (T * str * ParameterValue)) (s : S) : S * list SetParametersResult :=
  match l with
  | [] => (s, [])
  | (t, name, v) :: l =>
      let '(s1, r) := f t name v s in let '(s2, rs) := set_all f l s1 in (s2, r :: rs)
  end.

Lemma set_settable {W T} (t : T) name v (n : Node W T) (s : ParameterServer T) :
  same_params n s → settable n name v = true →
  (set_parameter t name v n).2 = Ok tt ∧ (set_and_notify t name v s).2 = Ok tt ∧
  same_params (set_parameter t name v n).1 (set_and_notify t name v s).1 ∧
  ∀ m u, settable (set_parameter t name v n).1 m u = settable n m u.
Proof.
  intros (E1&E2&E3&E4&E5&E6) [Hs Ht]%andb_true_iff.
  pose proof Hs as Hs'. apply bool_decide_eq_true in Hs', Ht.
  assert (∀ n' : Node W T, parameters n' = <[name := v]> (parameters n) →
          ∀ m u, settable n' m u = settable n m u) as Hset.
  { intros n' Hp m u. unfold settable. rewrite Hp. f_equal. apply bool_decide_ext.
    destruct (decide (name = m)) as [->|]; [by rewrite lookup_insert_eq|].
    by rewrite lookup_insert_ne. }
  unfold set_parameter, set_and_notify, validate_parameter_on_set, execute_parameter_set_actions,
    str_eqb. rewrite <-E2, Hs, E4, E5. simpl.
  destruct (decide (name = USE_SIM_TIME)) as [Hn|Hn];
    [rewrite (bool_decide_true (name = _)) by done; subst name|rewrite !(bool_decide_false (name = _)) by done].
  - destruct v; try by specialize (Ht eq_refl).
    split_and!; [done..| |by apply Hset]. unfold same_params. simpl. by rewrite E1, E2, E3, E4, E5, E6.
  - rewrite E6. simpl. split_and!; [done..| |by apply Hset].
    unfold same_params. simpl. by rewrite E1, E2, E3, E4, E5, E6.
Qed.
(** Any other set is refused by the DDS node and done by the Zenoh server. *)
Lemma set_not_settable {W T} (t : T) name v (n : Node W T) (s : ParameterServer T) :
  same_params n s → settable n name v = false →
  (set_parameter t name v n).1 = n ∧ is_ok (set_parameter t name v n).2 = false ∧
  (set_and_notify t name v s).2 = Ok tt ∧
  store (set_and_notify t name v s).1 = <[name := v]> (store s) ∧
  ∃ e, events (set_and_notify t name v s).1 = events s ++ [e].
Proof.
  intros (E1&E2&E3&E4&E5&E6) Hs. split_and!.
  1, 2: unfold set_parameter; rewrite E4; unfold settable in Hs;
    destruct (bool_decide (is_Some _)); simpl in *; [|done];
    apply bool_decide_eq_false in Hs;
    assert (name = USE_SIM_TIME ∧ to_parameter_type v ≠ TBool) as [-> Hv] by
      (destruct (decide (name = USE_SIM_TIME)), (decide (to_parameter_type v = TBool)); tauto);
    unfold validate_parameter_on_set, str_eqb; rewrite bool_decide_true by done; by destruct v.
  1, 2, 3: unfold set_and_notify; destruct (bool_decide _); simpl; eauto.
Qed.
Lemma set_all_cons {S T} (f : T → str → ParameterValue → S → S * SetParametersResult) t name v l s :
  set_all f ((t, name, v) :: l) s =
  ((set_all f l (f t name v s).1).1, (f t name v s).2 :: (set_all f l (f t name v s).1).2).
Proof. simpl. destruct (f t name v s) as [s1 r]. simpl. by destruct (set_all f l s1). Qed.
#[local] Opaque set_parameter set_and_notify.
Lemma set_all_settable {W T} (l : list (T * str * ParameterValue)) (n : Node W T)
    (s : ParameterServer T) :
  same_params n s → Forall (λ x, settable n x.1.2 x.2 = true) l →
  (set_all set_parameter l n).2 = (λ _, Ok tt) <$> l ∧
  (set_all set_and_notify l s).2 = (λ _, Ok tt) <$> l ∧
  same_params (set_all set_parameter l n).1 (set_all set_and_notify l s).1 ∧
  ∀ m u, settable (set_all set_parameter l n).1 m u = settable n m u.
Proof.
  revert n s. induction l as [|[[t name] v] l IH]; intros n s Hs Hl; [done|].
  apply Forall_cons in Hl as [Hv Hl]. destruct (set_settable t name v n s Hs Hv) as (R1&R2&Hs'&Hset).
  rewrite !set_all_cons. simpl. destruct (IH _ _ Hs') as (I1&I2&I3&I4).
  { eapply Forall_impl; [exact Hl|]. intros x Hx. by rewrite Hset. }
  split_and!; [by rewrite R1, I1|by rewrite R2, I2|done|]. intros m u. by rewrite I4.
Qed.
#[local] Transparent set_parameter set_and_notify.
(** They start alike when [use_sim_time] is not declared, or is declared [false];
    the Zenoh server takes over another declaration, the DDS node does not. *)
Lemma stores_start {W T} nn (o : NodeOptions W) w (n : Node W T) :
  built o → parameter_validator o = None → parameter_set_action o = None → Node_new nn o w = Ok n →
  same_params n (ParameterServer_new (fully_qualified_name nn) (declared_parameters o)) ↔
  default (Boolean false) (collect (declared_parameters o) !! USE_SIM_TIME) = Boolean false.
Proof.
  intros Hb%built_no_undeclared Hv Ha Hn. pose proof (Node_new_fixed _ _ _ _ Hn) as (E1&E2&E3&E4).
  pose proof (Node_new_store _ _ _ _ Hn) as (_&E5&E6). unfold same_params. simpl.
  rewrite E1, E2, E3, E4, E5, Hb, Hv, Ha. split.
  - intros (_ & Hp & _). pose proof (E6 USE_SIM_TIME) as Hu. rewrite decide_True in Hu by done.
    rewrite Hp in Hu. destruct (collect (declared_parameters o) !! USE_SIM_TIME) eqn:E; simpl; congruence.
  - intros Hd. split_and!; try done. apply map_eq. intros i. rewrite E6.
    destruct (collect (declared_parameters o) !! USE_SIM_TIME) eqn:E; simpl in *; subst;
      (destruct (decide (i = USE_SIM_TIME)) as [->|]; [|by rewrite ?lookup_insert_ne]);
      by rewrite ?lookup_insert_eq.
Qed.

(** C19: a DDS node made with options an application can build, without callbacks,
    and the Zenoh parameter server of the same name and declared parameters. They
    start with the same parameters if and only if [use_sim_time] is undeclared or
    declared [false]. Then sets of stored parameters, of [use_sim_time] only to a
    Boolean, all succeed on both and leave the same parameters and the same events,
    however many there are. On any other set the two part: the DDS node refuses it
    and is unchanged, the Zenoh server stores the value and publishes an event. *)
Theorem set_backends_agree {W T} nn (o : NodeOptions W) w (n : Node W T) l :
  built o → parameter_validator o = None → parameter_set_action o = None → Node_new nn o w = Ok n →
  let s := ParameterServer_new (fully_qualified_name nn) (declared_parameters o) in
  let '(n1, rs) := set_all set_parameter l n in
  let '(s1, rs') := set_all set_and_notify l s in
  (same_params n s ↔
   default (Boolean false) (collect (declared_parameters o) !! USE_SIM_TIME) = Boolean false) ∧
  (same_params n s → Forall (λ x, settable n x.1.2 x.2 = true) l →
   rs = (λ _, Ok tt) <$> l ∧ rs' = (λ _, Ok tt) <$> l ∧ same_params n1 s1 ∧
   ∀ t name v, settable n name v = false →
     let '(n2, r) := set_parameter t name v n1 in
     let '(s2, r') := set_and_notify t name v s1 in
     n2 = n1 ∧ is_ok r = false ∧ r' = Ok tt ∧ store s2 = <[name := v]> (store s1) ∧
     ¬ same_params n2 s2).
Proof.
  intros Hb Hv Ha Hn s. pose proof (stores_start _ _ _ _ Hb Hv Ha Hn) as Hst. fold s in Hst.
  pose proof (set_all_settable l n s) as Hall.
  destruct (set_all set_parameter l n) as [n1 rs], (set_all set_and_notify l s) as [s1 rs'].
  split; [done|]. intros Hs Hl. destruct (Hall Hs Hl) as (H1&H2&H3&H4). split_and!; [done..|].
  intros t name v Hns. rewrite <-H4 in Hns.
  pose proof (set_not_settable t name v n1 s1 H3 Hns) as (S1&S2&S3&S4&e&S5).
  destruct (set_parameter t name v n1) as [n2 r], (set_and_notify t name v s1) as [s2 r'].
  simpl in *. subst n2. split_and!; [done..|]. intros (_&_&He&_).
  destruct H3 as (_&_&He1&_). rewrite S5, He1 in He. apply (f_equal length) in He.
  rewrite length_app in He. simpl in He. lia.
Qed.

(** A talker that declares its gain and sets it twice. *)
Definition gain_options : NodeOptions unit :=
  declare_parameter (lit "gain") (Integer 1) NodeOptions_new.
Definition open_server : ParameterServer N :=
  {| node_fqn := lit "/talker"; store := ∅; events := [] |}.
Definition gain_server : ParameterServer N :=
  ParameterServer_new (fully_qualified_name sim_node_name) (declared_parameters gain_options).
Definition gain_sets : list (N * str * ParameterValue) :=
  [(1%N, lit "gain", Integer 3); (2%N, USE_SIM_TIME, Boolean true); (3%N, lit "gain", Integer 5)].

Lemma set_backends_agree_witness :
  ∃ n : Node unit N, Node_new sim_node_name gain_options tt = Ok n ∧
    same_params (set_all set_parameter gain_sets n).1 (set_all set_and_notify gain_sets gain_server).1 ∧
    is_ok (set_parameter 4%N (lit "bias") (Integer 0) (set_all set_parameter gain_sets n).1).2 = false ∧
    is_ok (set_and_notify 4%N (lit "bias") (Integer 0)
             (set_all set_and_notify gain_sets gain_server).1).2 = true.
Proof.
  destruct (@Node_new unit N sim_node_name gain_options tt) as [n|e] eqn:E;
    [|exfalso; revert E; vm_compute; discriminate].
  pose proof (set_backends_agree sim_node_name gain_options tt n gain_sets
    (built_declare _ _ _ built_new) eq_refl eq_refl E) as H.
  exists n. split; [done|]. cbv zeta in H. fold gain_server in H.
  destruct (set_all set_parameter gain_sets n) as [n1 rs],
    (set_all set_and_notify gain_sets gain_server) as [s1 rs'].
  destruct H as [Hst Hl].
  assert (settable n (lit "bias") (Integer 0) = false ∧
          Forall (λ x, settable n x.1.2 x.2 = true) gain_sets) as [Hb Hg].
  { revert E. vm_compute. intros [= <-]. split; [done|]. by repeat constructor. }
  destruct Hl as (_&_&Hs&Hr); [apply Hst; vm_compute; reflexivity|exact Hg|].
  specialize (Hr 4%N (lit "bias") (Integer 0) Hb). split; [exact Hs|].
  change (n1, rs).1 with n1. change (s1, rs').1 with s1. revert Hr.
  generalize (set_parameter 4%N (lit "bias") (Integer 0) n1),
    (set_and_notify 4%N (lit "bias") (Integer 0) s1).
  intros [n2 r] [s2 r'] (_&Hr&->&_). exact (conj Hr eq_refl).
Defined.

Lemma set_then_get_witness :
  let req := {| parameter := [raw_of_param {| p_name := lit "gain"; p_value := Integer 3 |}] |} in
  let '(s', resp) := handle_set_parameters (H := Server_backend 0%N) req open_server in
  successful <$> results resp = [true] ∧
  value_of_raw <$> gp_values
    (handle_get_parameters (H := Server_backend 0%N) {| gp_names := [lit "gain"; lit "x"] |} s') =
  [Integer 3; NotSet].
Proof.
  pose proof (@set_then_get (ParameterServer N) (Server_backend 0%N) (Server_backend_laws 0%N)
    {| parameter := [raw_of_param {| p_name := lit "gain"; p_value := Integer 3 |}] |}
    open_server [lit "gain"; lit "x"]) as H.
  cbv zeta. split; [vm_compute; reflexivity|].
  etransitivity; [exact (proj1 (proj2 H))|]. vm_compute. reflexivity.
Defined.

Lemma list_parameters_spec_witness :
  lit "gain" ∈ lr_names (lr_result (handle_list_parameters (H := Server_backend 0%N)
    {| prefixes := [lit "g"]; depth := 0 |}
    (fst (set_and_notify 0%N (lit "gain") (Integer 3) open_server)))).
Proof.
  apply (@list_parameters_spec (ParameterServer N) (Server_backend 0%N) (Server_backend_laws 0%N)).
  split; [vm_compute; eexists; reflexivity|]. right. exists (lit "g").
  split; [left|reflexivity].
Defined.
