(* ===== verification/ParamTasks.v ===== *)
(** * Parameters under concurrent calls (node.rs)

    [set_parameter] and [undeclare_parameter] take [&self]; a node can be shared
    between threads, and its Spinner changes the same parameters from its own
    task. A call locks the map twice, or once, and the callbacks in between. Here
    every call is a task that runs one section per step: looking a name up,
    validating, executing the set action, inserting, removing, notifying.
    ParamStore's operations are the runs without interference. *)
From S2P Require Import Prelude Params ParamStore.

(** Whose copy of the code runs. *)
Inductive caller := ByNode | BySpinner.
(** What an event tells. *)
Inductive change := Created | Changed | Deleted.

Section tasks.
Context {W T : Type}.
Abbreviation Node := (Node W T).

Inductive task :=
| LookUp (c : caller) (name : str) (value : ParameterValue)
| Validate (c : caller) (name : str) (value : ParameterValue) (already_set : bool)
| Execute (c : caller) (name : str) (value : ParameterValue) (already_set : bool)
| Insert (name : str) (value : ParameterValue) (already_set : bool)
| Remove (name : str)
| Notify (ch : change) (name : str) (value : ParameterValue)
| Returned (r : SetParametersResult).

(** *** The sections of [set_parameter] *)
Definition lookup_section (c : caller) (name : str) (value : ParameterValue) (n : Node) : task :=
  let already_set := bool_decide (is_Some (parameters n !! name)) in
  if allow_undeclared_parameters (options n) || already_set
  then Validate c name value already_set
  else Returned (Err (lit "Setting undeclared parameter '" ++ name ++ lit "' is not allowed.")).
Definition or_return (r : SetParametersResult) (k : task) : task :=
  match r with Ok _ => k | Err e => Returned (Err e) end.
Definition validate_section (c : caller) (name : str) (value : ParameterValue) (already_set : bool)
    (n : Node) : Node * task :=
  let '(n, r) := match c with
                 | ByNode => validate_parameter_on_set name value n
                 | BySpinner => spinner_validate_parameter_on_set name value n
                 end in
  (n, or_return r (Execute c name value already_set)).
Definition execute_section (c : caller) (name : str) (value : ParameterValue) (already_set : bool)
    (n : Node) : Node * task :=
  let '(n, r) := match c with
                 | ByNode => execute_parameter_set_actions name value n
                 | BySpinner => spinner_execute_parameter_set_actions name value n
                 end in
  (n, or_return r (Insert name value already_set)).
Definition insert_section (name : str) (value : ParameterValue) (already_set : bool) (n : Node) :
    Node * task :=
  (with_parameters (<[name := value]> (parameters n)) n,
   Notify (if already_set then Changed else Created) name value).
(** *** The section of [undeclare_parameter] *)
Definition remove_section (name : str) (n : Node) : Node * task :=
  (with_parameters (delete name (parameters n)) n,
   match parameters n !! name with
   | Some v => Notify Deleted name v
   | None => Returned (Ok tt)
   end).
(** *** Both publish at the end, with a timestamp [t] *)
Definition notify_section (t : T) (ch : change) (name : str) (value : ParameterValue) (n : Node) :
    Node :=
  let p := {| raw_name := name; raw_value := raw_of_value value |} in
  match ch with
  | Created => publish t [p] [] [] n
  | Changed => publish t [] [p] [] n
  | Deleted => publish t [] [] [p] n
  end.

Definition resume (t : T) (k : task) (n : Node) : option (Node * task) :=
  match k with
  | LookUp c name v => Some (n, lookup_section c name v n)
  | Validate c name v a => Some (validate_section c name v a n)
  | Execute c name v a => Some (execute_section c name v a n)
  | Insert name v a => Some (insert_section name v a n)
  | Remove name => Some (remove_section name n)
  | Notify ch name v => Some (notify_section t ch name v n, Returned (Ok tt))
  | Returned _ => None
  end.

(** *** Any number of calls *)
Record World := { shared : Node; tasks : list task }.
Definition World_new (n : Node) : World := {| shared := n; tasks := [] |}.
Inductive event := Call (k : task) | Run (i : nat) (t : T).
Definition initial (k : task) : bool :=
  match k with LookUp _ _ _ | Remove _ => true | _ => false end.
Definition event_step (ev : event) (w : World) : option World :=
  match ev with
  | Call k => if initial k then Some {| shared := shared w; tasks := tasks w ++ [k] |} else None
  | Run i t =>
      k ← tasks w !! i;
      '(n, k) ← resume t k (shared w);
      Some {| shared := n; tasks := <[i := k]> (tasks w) |}
  end.
Definition run_events (evs : list event) (w : World) : option World :=
  foldM (λ w ev, event_step ev w) evs w.
(** A call run to its end without interference. *)
Fixpoint run_alone (t : T) (fuel : nat) (k : task) (n : Node) : option (Node * SetParametersResult) :=
  match k, fuel with
  | Returned r, _ => Some (n, r)
  | _, O => None
  | _, S fuel => '(n, k) ← resume t k n; run_alone t fuel k n
  end.
End tasks.
Arguments World : clear implicits.
Arguments event : clear implicits.

Section lemmas.
Context {W T : Type}.
Abbreviation Node := (Node W T).
Implicit Types (n : Node) (w : World W T) (k : task).

(** Both copies of the code do the same. *)
Lemma validate_section_eq c name v a n :
  validate_section c name v a n =
    let '(n, r) := validate_parameter_on_set name v n in (n, or_return r (Execute c name v a)).
Proof. by destruct c. Qed.
Lemma execute_section_eq c name v a n :
  execute_section c name v a n =
    let '(n, r) := execute_parameter_set_actions name v n in (n, or_return r (Insert name v a)).
Proof. by destruct c. Qed.

(** A call that nothing interferes with is ParamStore's. *)
Lemma sections_set t c name v n :
  run_alone t 5 (LookUp c name v) n = Some (set_parameter t name v n).
Proof.
  cbn [run_alone resume mbind option_bind]. unfold lookup_section, set_parameter.
  destruct (allow_undeclared_parameters _ || _); [|done].
  cbn [run_alone resume mbind option_bind]. rewrite validate_section_eq.
  destruct (validate_parameter_on_set name v n) as [n1 [[]|e]]; cbn [or_return]; [|done].
  cbn [run_alone resume mbind option_bind]. rewrite execute_section_eq.
  destruct (execute_parameter_set_actions name v n1) as [n2 [[]|e]]; cbn [or_return]; [|done].
  by destruct (bool_decide _).
Qed.
Lemma sections_undeclare t name n :
  run_alone t 2 (Remove name) n = Some (undeclare_parameter t name n, Ok tt).
Proof. simpl. unfold undeclare_parameter. by destruct (parameters n !! name). Qed.

(** ** What every section keeps *)
Lemma resume_options t k n n' k' :
  resume t k n = Some (n', k') → options n' = options n ∧ fqn n' = fqn n.
Proof.
  destruct k as [c name v|c name v a|c name v a|name v a|name|ch name v|r]; simpl;
    unfold insert_section, remove_section; intros H; simplify_eq/=; try done.
  - rewrite validate_section_eq in H. pose proof (validate_frame name v n) as (_&_&_&E4&E5).
    by destruct (validate_parameter_on_set name v n); simplify_eq/=.
  - rewrite execute_section_eq in H. pose proof (execute_frame name v n) as (_&_&E4&E5).
    by destruct (execute_parameter_set_actions name v n); simplify_eq/=.
  - by destruct ch.
Qed.

(** A value the node accepts for a parameter: a Boolean for [use_sim_time], and
    otherwise one that the validator accepts in some state of the application. *)
Definition admissible (o : NodeOptions W) (name : str) (v : ParameterValue) : Prop :=
  if decide (name = USE_SIM_TIME) then ∃ b, v = Boolean b
  else match parameter_validator o with
       | Some f => ∃ x, is_ok (f name v x).2 = true
       | None => True
       end.
Lemma validate_admissible name v n n' :
  validate_parameter_on_set name v n = (n', Ok tt) → admissible (options n) name v.
Proof.
  unfold validate_parameter_on_set, admissible, str_eqb. intros H.
  case_bool_decide; [rewrite decide_True by done|rewrite decide_False by done].
  - destruct v; simplify_eq. eauto.
  - destruct (parameter_validator _) as [f|]; [|done]. exists (app n).
    by destruct (f name v (app n)) as [? [[]|]]; simplify_eq/=.
Qed.
Lemma check_each_admissible ps n n' :
  check_each ps n = Ok n' →
  options n' = options n ∧ ∀ name v, (name, v) ∈ ps → admissible (options n) name v.
Proof.
  revert n. induction ps as [|[name v] ps IH]; intros n; simpl.
  - intros [= <-]. split; [done|]. by intros name v ?%not_elem_of_nil.
  - pose proof (validate_frame name v n) as (_&_&_&_&E5).
    pose proof (validate_admissible name v n) as Hadm.
    destruct (validate_parameter_on_set name v n) as [n1 [[]|e]]; [|done]. simpl in E5.
    pose proof (execute_frame name v n1) as (_&_&_&F5).
    destruct (execute_parameter_set_actions name v n1) as [n2 [[]|e]]; [|done]. simpl in F5.
    intros H. apply IH in H as [H1 H2]. rewrite F5, E5 in *. split; [done|].
    intros name' v' [[= -> ->]|Hin]%elem_of_cons; [by eapply Hadm|by apply H2].
Qed.
End lemmas.

(** ** The store under any interleaving *)
Section typed.
Context {W T : Type}.
Abbreviation Node := (Node W T).
Implicit Types (n : Node) (w : World W T) (k : task).
(** The options of the node, and its names when it was made. *)
Context (o : NodeOptions W) (declared : gset str).

Definition may_hold (name : str) (v : ParameterValue) : Prop :=
  admissible o name v ∧ (allow_undeclared_parameters o = true ∨ name ∈ declared).
Definition typed_task k : Prop :=
  match k with
  | Validate _ name _ _ => allow_undeclared_parameters o = true ∨ name ∈ declared
  | Execute _ name v _ | Insert name v _ | Notify _ name v => may_hold name v
  | _ => True
  end.
Definition event_params (e : ParameterEvent T) : list RawParameter :=
  new_parameters e ++ changed_parameters e ++ deleted_parameters e.
Definition typed_node n : Prop :=
  options n = o ∧ map_Forall may_hold (parameters n) ∧
  Forall (λ e, Forall (λ p, may_hold (raw_name p) (value_of_raw (raw_value p))) (event_params e))
    (published n).

Lemma resume_typed t k n n' k' :
  resume t k n = Some (n', k') → typed_node n → typed_task k → typed_node n' ∧ typed_task k'.
Proof.
  intros H (Ho & Hp & He) Hk. pose proof (resume_options _ _ _ _ _ H) as [Ho' _].
  unfold typed_node. rewrite Ho', Ho.
  destruct k as [c name v|c name v a|c name v a|name v a|name|ch name v|r]; simpl in H, Hk;
    unfold insert_section, remove_section in H; simplify_eq/=.
  - split_and!; try done. unfold lookup_section. rewrite Ho.
    destruct (allow_undeclared_parameters _) eqn:Ha; simpl; [by left; rewrite Ha|].
    case_bool_decide as Hs; simpl; [|done]. destruct Hs as [x Hx]. right.
    destruct (Hp _ _ Hx) as [_ [?|?]]; congruence.
  - rewrite validate_section_eq in H. pose proof (validate_frame name v n) as (E1&_&E3&_).
    pose proof (validate_admissible name v n) as Hadm. rewrite Ho in Hadm.
    destruct (validate_parameter_on_set name v n) as [n1 [[]|e]]; simplify_eq/=;
      rewrite E1, E3; split_and!; try done. split; [|done]. by eapply Hadm.
  - rewrite execute_section_eq in H. pose proof (execute_frame name v n) as (E1&E3&_).
    destruct (execute_parameter_set_actions name v n) as [n1 [[]|e]]; simplify_eq/=;
      by rewrite E1, E3.
  - split_and!; try done. by apply map_Forall_insert_2.
  - split_and!; try done; [by apply map_Forall_delete|].
    destruct (parameters n !! name) eqn:E; [by apply Hp|done].
  - split; [|done]. split; [done|]. destruct ch; simpl; (split; [done|]);
      apply Forall_app; (split; [done|]); (constructor; [|done]); simpl;
      (constructor; [|done]); simpl; by rewrite value_of_raw_of_value.
Qed.
End typed.

Section typed_worlds.
Context {W T : Type}.
Implicit Types (n : Node W T) (w : World W T).

(** What an observer has been told. *)
Definition reported w (name : str) (v : ParameterValue) : Prop :=
  ∃ e p, e ∈ published (shared w) ∧ p ∈ event_params e ∧ raw_name p = name ∧
         value_of_raw (raw_value p) = v.
Definition typed_world (o : NodeOptions W) (declared : gset str) w : Prop :=
  typed_node o declared (shared w) ∧ Forall (typed_task o declared) (tasks w).
Lemma event_step_typed o declared w ev w' :
  typed_world o declared w → event_step ev w = Some w' → typed_world o declared w'.
Proof.
  intros [Hn Hk] H. destruct ev as [k|i t]; simpl in H.
  - destruct (initial k) eqn:Hi; simplify_eq/=. split; [done|]. apply Forall_app. split; [done|].
    constructor; [by destruct k|done].
  - destruct (tasks w !! i) as [k|] eqn:E; [|done]. simpl in H.
    destruct (resume t k (shared w)) as [[n' k']|] eqn:Er; simplify_eq/=.
    destruct (resume_typed o declared _ _ _ _ _ Er Hn) as [Hn' Hk'].
    { by eapply Forall_lookup_1. }
    split; [done|]. by apply Forall_insert.
Qed.
Lemma Node_new_typed nn (o : NodeOptions W) x n :
  Node_new nn o x = Ok n → typed_node (options n) (dom (parameters n)) n.
Proof.
  intros H. pose proof (Node_new_store _ _ _ _ H) as (_ & Hp & _). unfold Node_new in H.
  pose proof (check_each_frame _ _ _ H (NoDup_entries_keys _ _)) as (E & _).
  apply check_each_admissible in H as [Ho Hadm]. split; [done|]. rewrite Hp. split; [|done].
  intros name v Hv. rewrite E in *. split.
  - rewrite Ho. apply Hadm. by apply (elem_of_entries _).
  - right. apply elem_of_dom. eauto.
Qed.

(** C6: the store of a node stays well typed however calls of [set_parameter]
    and [undeclare_parameter], by the node or by its Spinner, interleave. Every
    value it holds, and every value an event tells, is a Boolean if it is that of
    [use_sim_time] and otherwise one the validator accepts, and without undeclared
    parameters every name is one the node was made with. *)
Theorem interleaved_parameters_typed nn (o : NodeOptions W) x n evs w :
  Node_new nn o x = Ok n → run_events evs (World_new n) = Some w →
  ∀ name v, parameters (shared w) !! name = Some v ∨ reported w name v →
    admissible (options n) name v ∧
    (allow_undeclared_parameters (options n) = true ∨ is_Some (parameters n !! name)).
Proof.
  intros Hn Hw.
  assert (typed_world (options n) (dom (parameters n)) w) as [(_ & Hp & He) _].
  { eapply (foldM_inv _ _ _ _ _ (event_step_typed _ _)), Hw. split; [by eapply Node_new_typed|done]. }
  intros name v Hv. setoid_rewrite <- elem_of_dom. destruct Hv as [Hv|(e & p & Hin & Hin' & <- & <-)].
  - by apply Hp.
  - rewrite Forall_forall in He. apply He in Hin. rewrite Forall_forall in Hin. by apply Hin.
Qed.
End typed_worlds.

(** ** The log of events *)
Section log.
Context {W T : Type}.
Abbreviation Node := (Node W T).
Implicit Types (n : Node) (w : World W T) (k : task) (m : gmap str ParameterValue).

(** The parameter a call is about, until it returns. *)
Definition task_name k : option str :=
  match k with
  | LookUp _ name _ | Validate _ name _ _ | Execute _ name _ _ | Insert name _ _
  | Remove name | Notify _ name _ => Some name
  | Returned _ => None
  end.
Definition busy w (name : str) : Prop := ∃ k, k ∈ tasks w ∧ task_name k = Some name.
(** Runs in which no call is made for a parameter that another call is about. *)
Inductive exclusive_run n : World W T → Prop :=
| exclusive_start : exclusive_run n (World_new n)
| exclusive_call k w w' :
    exclusive_run n w → (∀ name, task_name k = Some name → ¬ busy w name) →
    event_step (Call k) w = Some w' → exclusive_run n w'
| exclusive_step i t w w' :
    exclusive_run n w → event_step (Run i t) w = Some w' → exclusive_run n w'.

(** How the parameter, the flag and the observer's [m] stand while a call about
    the parameter, if there is one, is where it is. *)
Definition flag_ok (name : str) n : Prop :=
  ∀ v, name = USE_SIM_TIME → parameters n !! name = Some v → v = Boolean (use_sim_time n).
Definition already_ok (name : str) (a : bool) n : Prop :=
  a = bool_decide (is_Some (parameters n !! name)).
Definition name_ok m n (name : str) (k : option task) : Prop :=
  match k with
  | Some (Insert _ v a) =>
      m !! name = parameters n !! name ∧ already_ok name a n ∧
      (name = USE_SIM_TIME → v = Boolean (use_sim_time n))
  | Some (Validate _ _ _ a) | Some (Execute _ _ _ a) =>
      m !! name = parameters n !! name ∧ already_ok name a n ∧ flag_ok name n
  | Some (Notify Created _ v) => m !! name = None ∧ parameters n !! name = Some v ∧ flag_ok name n
  | Some (Notify Changed _ v) =>
      is_Some (m !! name) ∧ parameters n !! name = Some v ∧ flag_ok name n
  | Some (Notify Deleted _ v) => m !! name = Some v ∧ parameters n !! name = None ∧ flag_ok name n
  | _ => m !! name = parameters n !! name ∧ flag_ok name n
  end.
Definition same_at m n m' n' (name : str) : Prop :=
  m' !! name = m !! name ∧ parameters n' !! name = parameters n !! name ∧
  (name = USE_SIM_TIME → use_sim_time n' = use_sim_time n).
Lemma name_ok_frame m n m' n' name (k : option task) :
  same_at m n m' n' name → name_ok m n name k → name_ok m' n' name k.
Proof.
  intros (Hm & Hp & Hf) H. unfold name_ok, flag_ok, already_ok in *.
  destruct k as [[| | | | |[]|]|]; rewrite Hm, Hp; naive_solver congruence.
Qed.

(** The names a step leaves a call with. *)
Lemma resume_name t k n n' k' name :
  resume t k n = Some (n', k') → task_name k = Some name →
  task_name k' = Some name ∨ task_name k' = None.
Proof.
  intros H Hk. destruct k as [c ? v|c ? v a|c ? v a|? v a|?|ch ? v|r]; simpl in H;
    unfold insert_section, remove_section in H; simplify_eq/=; auto.
  - unfold lookup_section. destruct (_ || _); auto.
  - rewrite validate_section_eq in H. destruct (validate_parameter_on_set _ _ _) as [? []];
      simplify_eq/=; auto.
  - rewrite execute_section_eq in H. destruct (execute_parameter_set_actions _ _ _) as [? []];
      simplify_eq/=; auto.
  - destruct (parameters n !! name); auto.
Qed.
(** What a section does to its parameter, the others and the log. *)
Definition logs m n m' n' : Prop :=
  ∃ es, published n' = published n ++ es ∧ foldM replay_event es m = Some m'.
Lemma logs_nothing m n n' : published n' = published n → logs m n m n'.
Proof. intros H. exists []. by rewrite app_nil_r. Qed.
(** What an observer makes of one notification. *)
Definition note (t : T) (fqn : str) (ch : change) (name : str) (v : ParameterValue) :
    ParameterEvent T :=
  let p := {| raw_name := name; raw_value := raw_of_value v |} in
  {| timestamp := t; node := fqn; new_parameters := match ch with Created => [p] | _ => [] end;
     changed_parameters := match ch with Changed => [p] | _ => [] end;
     deleted_parameters := match ch with Deleted => [p] | _ => [] end |}.
Lemma notify_publishes t ch name v n :
  published (notify_section t ch name v n) = published n ++ [note t (fqn n) ch name v].
Proof. by destruct ch. Qed.
Lemma replay_note t f ch name v m :
  replay_event m (note t f ch name v) =
    match ch, m !! name with
    | Created, None | Changed, Some _ => Some (<[name := v]> m)
    | Deleted, Some x => if decide (x = v) then Some (delete name m) else None
    | _, _ => None
    end.
Proof.
  unfold replay_event, foldM. destruct ch; simpl; unfold replay_new, replay_changed, replay_deleted;
    simpl; rewrite value_of_raw_of_value; destruct (m !! name) as [x|]; simpl; try done.
  destruct (decide (x = v)) as [->|Hne]; [by rewrite decide_True|]. rewrite decide_False; [done|].
  by intros [= ->].
Qed.
Lemma notify_logs t ch name v m n :
  name_ok m n name (Some (Notify ch name v)) →
  logs m n (match ch with Deleted => delete name m | _ => <[name := v]> m end)
    (notify_section t ch name v n).
Proof.
  intros H. eexists. split; [apply notify_publishes|]. rewrite foldM_cons, replay_note.
  destruct ch; simpl in H; destruct H as (Hm & _).
  - by rewrite Hm.
  - by destruct Hm as [x ->].
  - by rewrite Hm, decide_True.
Qed.
Lemma execute_refused name v n n' e :
  execute_parameter_set_actions name v n = (n', Err e) → use_sim_time n' = use_sim_time n.
Proof.
  unfold execute_parameter_set_actions. destruct (str_eqb _ _); [by destruct v; intros [=<-]|].
  destruct (parameter_set_action _) as [f|]; [|done].
  by destruct (f name v (app n)); intros [= <- _].
Qed.
Lemma same_elsewhere m n m' n' name :
  (∀ name', name' ≠ name → m' !! name' = m !! name') →
  (∀ name', name' ≠ name → parameters n' !! name' = parameters n !! name') →
  (name ≠ USE_SIM_TIME → use_sim_time n' = use_sim_time n) →
  ∀ name', name' ≠ name → same_at m n m' n' name'.
Proof. intros Hm Hp Hf name' Hne. split_and!; naive_solver congruence. Qed.

Lemma section_logged t k n n' k' name m :
  resume t k n = Some (n', k') → task_name k = Some name → name_ok m n name (Some k) →
  ∃ m', logs m n m' n' ∧ name_ok m' n' name (Some k') ∧
        ∀ name', name' ≠ name → same_at m n m' n' name'.
Proof.
  intros H Hk Hok. destruct k as [c ? v|c ? v a|c ? v a|? v a|?|ch ? v|r]; simpl in H;
    unfold insert_section, remove_section in H; simplify_eq/=.
  - exists m. split; [by apply logs_nothing|]. split; [|done].
    unfold lookup_section. destruct (_ || _); [|done]. by destruct Hok.
  - exists m. rewrite validate_section_eq in H.
    pose proof (validate_frame name v n) as (E1&E2&E3&_). destruct Hok as (H1 & H2 & H3).
    destruct (validate_parameter_on_set name v n) as [n1 [[]|e]]; simplify_eq/=;
      (split; [by apply logs_nothing|]);
      (split; [|by apply same_elsewhere; [|intros; by rewrite E1|]]);
      unfold already_ok, flag_ok in *; simpl; rewrite E1, E2; auto.
  - exists m. rewrite execute_section_eq in H.
    pose proof (execute_frame name v n) as (E1&E3&_). destruct Hok as (H1 & H2 & H3).
    pose proof (execute_sim_time name v n) as Hx. pose proof (execute_refused name v n) as Hr.
    destruct (execute_parameter_set_actions name v n) as [n1 [[]|e]]; simplify_eq/=;
      (split; [by apply logs_nothing|]).
    + specialize (Hx _ eq_refl). split.
      * unfold already_ok, flag_ok in *. rewrite E1. split_and!; [done..|]. intros ->.
        by rewrite decide_True in Hx.
      * apply same_elsewhere; [done|intros; by rewrite E1|]. intros. by rewrite decide_False in Hx.
    + specialize (Hr _ _ eq_refl). split.
      * unfold flag_ok in *. by rewrite E1, Hr.
      * apply same_elsewhere; [done|intros; by rewrite E1|done].
  - exists m. destruct Hok as (H1 & H2 & H3). split; [by apply logs_nothing|]. split.
    + unfold already_ok in H2.
      assert (flag_ok name (with_parameters (<[name:=v]> (parameters n)) n)) as Hf.
      { intros x Hn. simpl. rewrite lookup_insert_eq. intros [= <-]. auto. }
      destruct a; simpl in *; rewrite lookup_insert_eq, H1; split_and!; try done.
      * symmetry in H2. by apply bool_decide_eq_true in H2.
      * symmetry in H2. apply bool_decide_eq_false in H2. by apply eq_None_not_Some.
    + apply same_elsewhere; [done| |done]. intros. by apply lookup_insert_ne.
  - exists m. destruct Hok as (H1 & H2). split; [by apply logs_nothing|]. split.
    + assert (flag_ok name (with_parameters (delete name (parameters n)) n)) as Hf.
      { intros x _. simpl. by rewrite lookup_delete_eq. }
      destruct (parameters n !! name) eqn:E; simpl in *; rewrite lookup_delete_eq; auto.
    + apply same_elsewhere; [done| |done]. intros. by apply lookup_delete_ne.
  - eexists. split; [by apply notify_logs|].
    assert (parameters (notify_section t ch name v n) = parameters n ∧
            use_sim_time (notify_section t ch name v n) = use_sim_time n) as [Ep Ef] by by destruct ch.
    unfold name_ok, flag_ok in *. rewrite Ep, Ef. split.
    + destruct ch; destruct Hok as (H1 & H2 & H3); rewrite ?lookup_insert_eq, ?lookup_delete_eq; auto.
    + apply same_elsewhere; [|by rewrite Ep|done]. intros.
      destruct ch; by rewrite ?lookup_insert_ne, ?lookup_delete_ne.
Qed.

Record log_inv n0 w m : Prop := {
  log_so_far : logs (parameters n0) n0 m (shared w);
  log_busy i k name :
    tasks w !! i = Some k → task_name k = Some name → name_ok m (shared w) name (Some k);
  log_idle name : ¬ busy w name → name_ok m (shared w) name None;
  log_one i j k k' name :
    tasks w !! i = Some k → tasks w !! j = Some k' →
    task_name k = Some name → task_name k' = Some name → i = j;
}.
Lemma logs_trans m n m' n' m'' n'' : logs m n m' n' → logs m' n' m'' n'' → logs m n m'' n''.
Proof.
  intros (es & Hp & Hes) (es' & Hp' & Hes'). exists (es ++ es').
  rewrite Hp', Hp, foldM_app, Hes. split; [by rewrite (assoc_L (++))|done].
Qed.
Lemma busy_lookup w name :
  busy w name ↔ ∃ i k, tasks w !! i = Some k ∧ task_name k = Some name.
Proof.
  split; [intros (k & [i Hi]%list_elem_of_lookup & Hk); eauto|].
  intros (i & k & Hi & Hk). exists k. split; [by eapply list_elem_of_lookup_2|done].
Qed.
Lemma log_inv_call n0 w m k w' :
  log_inv n0 w m → (∀ name, task_name k = Some name → ¬ busy w name) →
  event_step (Call k) w = Some w' → log_inv n0 w' m.
Proof.
  intros [H1 H2 H3 H4] Hex H. simpl in H. destruct (initial k) eqn:Hi; simplify_eq/=.
  split; simpl; [done|..].
  - intros i k' name [Hl|(_ & [_ <-]%list_lookup_singleton_Some)]%lookup_app_Some Hk'; [by eapply H2|].
    specialize (H3 _ (Hex _ Hk')). by destruct k.
  - intros name Hb. apply H3. intros (k' & Hin & Hk'). apply Hb. exists k'. simpl.
    split; [by apply elem_of_app; left|done].
  - assert (∀ i k' name, tasks w !! i = Some k' → task_name k' = Some name →
              task_name k ≠ Some name) as Hne.
    { intros i k' name Hl Hk' Hk. apply (Hex _ Hk), busy_lookup. eauto. }
    intros i j k1 k2 name [Hl|(Hge & [? ->]%list_lookup_singleton_Some)]%lookup_app_Some
      [Hl'|(Hge' & [? ->]%list_lookup_singleton_Some)]%lookup_app_Some Hk Hk'.
    + by eapply H4.
    + by destruct (Hne _ _ _ Hl Hk).
    + by destruct (Hne _ _ _ Hl' Hk').
    + lia.
Qed.
Lemma log_inv_run n0 w m i t w' :
  log_inv n0 w m → event_step (Run i t) w = Some w' → ∃ m', log_inv n0 w' m'.
Proof.
  intros [H1 H2 H3 H4] H. simpl in H. destruct (tasks w !! i) as [k|] eqn:Hi; [|done]. simpl in H.
  destruct (resume t k (shared w)) as [[n' k']|] eqn:Er; simplify_eq/=.
  assert (∃ name, task_name k = Some name) as [name Hk] by (destruct k; simpl; eauto; done).
  pose proof (resume_name _ _ _ _ _ _ Er Hk) as Hk'.
  destruct (section_logged _ _ _ _ _ _ _ Er Hk (H2 _ _ _ Hi Hk)) as (m' & Hlog & Hok & Hframe).
  assert (i < length (tasks w)) as Hlt by by eapply lookup_lt_Some.
  exists m'. split; simpl; [by eapply logs_trans|..].
  - intros j kj name'. destruct (decide (j = i)) as [->|Hne].
    + rewrite list_lookup_insert_eq by done. intros [= <-] Hn.
      destruct Hk' as [Hk'|]; [|congruence]. by replace name' with name by congruence.
    + rewrite list_lookup_insert_ne by done. intros Hj Hkj.
      assert (name' ≠ name) as Hnn by (intros ->; apply Hne; by eapply H4).
      by apply (name_ok_frame m (shared w) m' n' name' (Some kj)); [apply Hframe|eapply H2].
  - intros name' Hb. destruct (decide (name' = name)) as [->|Hne].
    + destruct Hk' as [Hk'|Hk']; [|by destruct k'].
      destruct Hb. apply busy_lookup. exists i, k'. simpl. by rewrite list_lookup_insert_eq.
    + apply (name_ok_frame m (shared w) m' n' name' None); [by apply Hframe|]. apply H3. intros (j & kj & Hj & Hkj)%busy_lookup.
      apply Hb, busy_lookup. exists j, kj. simpl. rewrite list_lookup_insert_ne; [done|].
      intros <-. congruence.
  - intros j1 j2 k1 k2 name' Hl1 Hl2 Hn1 Hn2.
    assert (∀ j kj, <[i:=k']> (tasks w) !! j = Some kj → task_name kj = Some name' →
              ∃ kj', tasks w !! j = Some kj' ∧ task_name kj' = Some name') as Hold.
    { intros j kj. destruct (decide (j = i)) as [->|Hne].
      - rewrite list_lookup_insert_eq by done. intros [= <-] Hn. exists k. split; [done|].
        destruct Hk'; congruence.
      - rewrite list_lookup_insert_ne by done. eauto. }
    apply Hold in Hl1 as (? & ? & ?); [|done]. apply Hold in Hl2 as (? & ? & ?); [|done].
    by eapply H4.
Qed.
Lemma exclusive_run_log n w : sim_time_ok n → exclusive_run n w → ∃ m, log_inv n w m.
Proof.
  intros Hn Hrun. induction Hrun as [|k w w' _ [m Hm] Hex H|i t w w' _ [m Hm] H].
  - exists (parameters n). split; [by apply logs_nothing|done| |done].
    intros name _. split; [done|]. intros v ->. apply Hn.
  - exists m. by eapply log_inv_call.
  - by eapply log_inv_run.
Qed.

(** C4: calls about different parameters may interleave as they like. As long as
    no call is made for a parameter that another call is about, the events are a
    log of the store at every moment: an observer that checks and applies every
    event holds, for every parameter no call is about, the value in the store;
    and while no call is about [use_sim_time], the flag the clock obeys is the
    parameter's value. *)
Theorem interleaved_events_replay nn (o : NodeOptions W) x n w :
  Node_new nn o x = Ok n → exclusive_run n w →
  (∃ m, foldM replay_event (published (shared w)) (parameters n) = Some m ∧
        ∀ name, ¬ busy w name → m !! name = parameters (shared w) !! name) ∧
  (¬ busy w USE_SIM_TIME → sim_time_ok (shared w)).
Proof.
  intros Hn Hrun. pose proof (Node_new_store _ _ _ _ Hn) as (_ & Hp & _).
  destruct (exclusive_run_log n w) as [m [(es & Hes & Hm) _ Hidle _]];
    [by eapply Node_new_sim_time_ok|done|]. rewrite Hp in Hes. simpl in Hes. split.
  - exists m. rewrite Hes. split; [done|]. intros name Hb. by apply Hidle.
  - intros Hb v. by apply (Hidle _ Hb).
Qed.
End log.

(** ** Calls about one parameter

    The first call is interrupted after some of its sections by the whole of the
    second. *)
Definition interrupted {T} (t : T) (k k' : task) (before during rest : nat) : list (event T) :=
  [Call k; Call k'] ++ replicate before (Run 0 t) ++ replicate during (Run 1 t) ++
  replicate rest (Run 0 t).
Definition set_sim_time (c : caller) (b : bool) : task := LookUp c USE_SIM_TIME (Boolean b).

(** [j] sections of one call. *)
Fixpoint advance {W T} (t : T) (j : nat) (k : task) (n : Node W T) : option (Node W T * task) :=
  match j with
  | O => Some (n, k)
  | S j => '(n, k) ← resume t k n; advance t j k n
  end.
#[local] Arguments run_events : simpl never.
Section races.
Context {W T : Type}.
Implicit Types (n : Node W T) (w : World W T).
Lemma run_events_app evs evs' w :
  run_events (evs ++ evs') w = run_events evs w ≫= run_events evs'.
Proof. apply foldM_app. Qed.
Lemma run_events_cons (ev : event T) evs w :
  run_events (ev :: evs) w = event_step ev w ≫= run_events evs.
Proof. apply (foldM_cons (λ w ev, event_step ev w)). Qed.
Lemma run_advance t i j w k n' k' :
  tasks w !! i = Some k → advance t j k (shared w) = Some (n', k') →
  run_events (replicate j (Run i t)) w = Some {| shared := n'; tasks := <[i := k']> (tasks w) |}.
Proof.
  revert w k. induction j as [|j IH]; intros w k Hi H; simpl in H |- *.
  - simplify_eq. rewrite list_insert_id by done. by destruct w.
  - rewrite run_events_cons. simpl. rewrite Hi. simpl.
    destruct (resume t k (shared w)) as [[n1 k1]|]; [|done]. simpl in *.
    rewrite (IH _ k1); simpl; [|by apply list_lookup_insert_eq, (lookup_lt_Some _ _ k)|done].
    by rewrite list_insert_insert_eq.
Qed.
Lemma run_interrupted t k k' before during rest n n1 k1 n2 k2 n3 k3 :
  initial k = true → initial k' = true →
  advance t before k n = Some (n1, k1) → advance t during k' n1 = Some (n2, k2) →
  advance t rest k1 n2 = Some (n3, k3) →
  run_events (interrupted t k k' before during rest) (World_new n)
    = Some {| shared := n3; tasks := [k3; k2] |}.
Proof.
  intros Hk Hk' H1 H2 H3. unfold interrupted. rewrite run_events_app.
  assert (run_events [Call k; Call k'] (World_new n) = Some {| shared := n; tasks := [k; k'] |}
    :> option (World W T)) as ->.
  { rewrite run_events_cons. simpl. rewrite Hk. simpl. rewrite run_events_cons. simpl. by rewrite Hk'. }
  simpl. rewrite run_events_app, (run_advance t 0 before _ k n1 k1) by done. simpl.
  rewrite run_events_app, (run_advance t 1 during _ k' n2 k2) by done. simpl.
  by rewrite (run_advance t 0 rest _ k1 n3 k3) by done.
Qed.

Lemma exclusive_steps n w l w' :
  exclusive_run n w → run_events ((λ '(i, t), Run i t) <$> l) w = Some w' → exclusive_run n w'.
Proof.
  revert w. induction l as [|[i t] l IH]; intros w Hw; [by intros [= <-]|].
  rewrite fmap_cons, run_events_cons. destruct (event_step _ w) as [w1|] eqn:E; [|done].
  apply IH. by eapply exclusive_step.
Qed.
(** Where a call that sets [use_sim_time] stands. *)
Definition with_flag (b : bool) n : Node W T :=
  {| parameters := parameters n; use_sim_time := b; app := app n; published := published n;
     fqn := fqn n; options := options n |}.
Definition store_flag (b : bool) n : Node W T :=
  with_parameters (<[USE_SIM_TIME := Boolean b]> (parameters n)) n.
Lemma advance_add t j j' k n :
  advance t (j + j') k n = advance t j k n ≫= λ '(n, k), advance t j' k n.
Proof.
  revert k n. induction j as [|j IH]; intros k n; [done|]. simpl.
  destruct (resume t k n) as [[]|]; [apply IH|done].
Qed.
Lemma advance_remove t name v n :
  parameters n !! name = Some v →
  advance t 2 (Remove name) n
    = Some (notify_section t Deleted name v (with_parameters (delete name (parameters n)) n),
            Returned (Ok tt)).
Proof. intros H. simpl. unfold remove_section. by rewrite H. Qed.
Lemma advance_looked_up t c b n :
  is_Some (parameters n !! USE_SIM_TIME) →
  advance t 1 (set_sim_time c b) n = Some (n, Validate c USE_SIM_TIME (Boolean b) true).
Proof.
  intros H. cbn [advance resume set_sim_time mbind option_bind]. unfold lookup_section.
  by rewrite bool_decide_eq_true_2, orb_true_r by done.
Qed.
Lemma advance_executed t c b n a :
  advance t 2 (Validate c USE_SIM_TIME (Boolean b) a) n
    = Some (with_flag b n, Insert USE_SIM_TIME (Boolean b) a).
Proof. by destruct c. Qed.
Lemma advance_set t c b n :
  is_Some (parameters n !! USE_SIM_TIME) →
  advance t 3 (set_sim_time c b) n = Some (with_flag b n, Insert USE_SIM_TIME (Boolean b) true).
Proof.
  intros H. rewrite (advance_add t 1 2), advance_looked_up by done.
  exact (advance_executed t c b n true).
Qed.
(** The whole call. *)
Lemma advance_set_all t c b n :
  is_Some (parameters n !! USE_SIM_TIME) →
  advance t 5 (set_sim_time c b) n
    = Some (notify_section t Changed USE_SIM_TIME (Boolean b) (store_flag b (with_flag b n)),
            Returned (Ok tt)).
Proof. intros H. by rewrite (advance_add t 3 2), advance_set. Qed.
End races.

(** C5: without that discipline the calls race, whoever makes them. Of two calls
    that set [use_sim_time] and both succeed, one can leave the flag and the
    other the stored value, and then the clock disobeys the parameter; or one
    can leave the store and the other the last event, and then the observers of
    the parameter hold another value. And a call that set a parameter while it
    was undeclared brings it back, even where undeclared parameters are not
    allowed, with an event that reports a change of a parameter just deleted. *)
Theorem parameter_call_races {W T} (n : Node W T) (t : T) c c' b old :
  parameters n !! USE_SIM_TIME = Some old →
  (∃ w, run_events (interrupted t (set_sim_time c b) (set_sim_time c' (negb b)) 3 5 2)
          (World_new n) = Some w ∧
     tasks w = [Returned (Ok tt); Returned (Ok tt)] ∧
     parameters (shared w) !! USE_SIM_TIME = Some (Boolean b) ∧
     use_sim_time (shared w) = negb b) ∧
  (∃ w es m, run_events (interrupted t (set_sim_time c b) (set_sim_time c' (negb b)) 4 5 1)
          (World_new n) = Some w ∧
     tasks w = [Returned (Ok tt); Returned (Ok tt)] ∧
     published (shared w) = published n ++ es ∧ foldM replay_event es (parameters n) = Some m ∧
     parameters (shared w) !! USE_SIM_TIME = Some (Boolean (negb b)) ∧
     m !! USE_SIM_TIME = Some (Boolean b)) ∧
  (∃ w es, run_events (interrupted t (set_sim_time c b) (Remove USE_SIM_TIME) 1 2 4)
          (World_new n) = Some w ∧
     tasks w = [Returned (Ok tt); Returned (Ok tt)] ∧
     parameters (shared w) !! USE_SIM_TIME = Some (Boolean b) ∧
     published (shared w) = published n ++ es ∧ foldM replay_event es (parameters n) = None).
Proof.
  intros Hold. assert (is_Some (parameters n !! USE_SIM_TIME)) as H by eauto.
  split_and!.
  - eexists. split; [eapply run_interrupted;
      [done..|by apply advance_set|by apply advance_set_all|done]|].
    split_and!; [done| |done]. simpl. apply lookup_insert_eq.
  - eexists. eexists [_; _]. eexists. split; [eapply run_interrupted; [done..| | |]|].
    + rewrite (advance_add t 3 1), advance_set by done. reflexivity.
    + apply advance_set_all. simpl. rewrite lookup_insert_eq. eauto.
    + reflexivity.
    + split; [done|]. cbn [shared]. rewrite !notify_publishes. split; [by rewrite <-(assoc_L (++))|].
      rewrite !foldM_cons, replay_note, Hold. cbn [mbind option_bind].
      rewrite foldM_cons, replay_note, lookup_insert_eq. split; [done|]. simpl.
      by rewrite !lookup_insert_eq.
  - eexists. eexists [_; _]. split; [eapply run_interrupted; [done..| | |]|].
    + by apply advance_looked_up.
    + by apply advance_remove.
    + rewrite (advance_add t 2 2), advance_executed. reflexivity.
    + split; [done|]. split; [simpl; apply lookup_insert_eq|].
      cbn [shared]. rewrite notify_publishes. split.
      { etrans; [apply (f_equal (λ l, l ++ _)), (notify_publishes t Deleted)|].
        by rewrite <-(assoc_L (++)). }
      rewrite !foldM_cons, replay_note, Hold, decide_True by done. cbn [mbind option_bind].
      by rewrite foldM_cons, replay_note, lookup_delete_eq.
Qed.

(** ** Witnesses *)

(** A node with a parameter [rate] that has to stay below ten, validated by a
    callback that counts its calls. *)
Definition rate_validator : ParameterFunc (W:=nat) := λ name v calls,
  (S calls, match v with
            | Integer z => if (z <? 10)%Z then Ok tt else Err (lit "too fast")
            | _ => Err (lit "not an integer")
            end).
Definition rate : str := lit "rate".
Definition rate_options : NodeOptions nat :=
  declare_parameter rate (Integer 5) (with_parameter_validator rate_validator NodeOptions_new).
Definition rate_node : Node nat N :=
  match Node_new sim_node_name rate_options 0 with
  | Ok n => n
  | Err _ => {| parameters := ∅; use_sim_time := false; app := 0; published := []; fqn := [];
                options := rate_options |}
  end.
Lemma rate_node_new : Node_new sim_node_name rate_options 0 = Ok rate_node.
Proof. vm_compute. reflexivity. Qed.
(** Two calls for [rate], of which one is refused, and one for [use_sim_time],
    section by section in turn. *)
Definition rate_events : list (event N) :=
  [Call (LookUp ByNode rate (Integer 7)); Call (LookUp BySpinner rate (Integer 11));
   Call (set_sim_time ByNode true)] ++
  ((λ i, Run i 3%N) <$> [0; 1; 2; 0; 1; 2; 2; 0; 2; 0; 2; 0]).
Lemma interleaved_parameters_typed_witness :
  ∃ w, run_events rate_events (World_new rate_node) = Some w ∧
    (tasks w !! 1 = Some (Returned (Err (lit "too fast"))) ∧
     parameters (shared w) !! rate = Some (Integer 7) ∧ length (published (shared w)) = 2) ∧
    admissible (options rate_node) rate (Integer 7).
Proof.
  destruct (run_events rate_events (World_new rate_node)) as [w|] eqn:E;
    [|exfalso; revert E; vm_compute; discriminate].
  exists w. split; [done|].
  assert (tasks w !! 1 = Some (Returned (Err (lit "too fast"))) ∧
     parameters (shared w) !! rate = Some (Integer 7) ∧ length (published (shared w)) = 2) as Hw.
  { revert E. vm_compute. by intros [= <-]. }
  split; [done|]. apply (interleaved_parameters_typed _ _ _ _ _ _ rate_node_new E rate (Integer 7)).
  left. apply Hw.
Defined.

Lemma interleaved_events_replay_witness :
  ∃ w m, exclusive_run rate_node w ∧ ¬ busy w USE_SIM_TIME ∧
    foldM replay_event (published (shared w)) (parameters rate_node) = Some m ∧
    m !! USE_SIM_TIME = parameters (shared w) !! USE_SIM_TIME ∧
    tasks w !! 0 = Some (Insert rate (Integer 7) true) ∧ use_sim_time (shared w) = true.
Proof.
  set (k := LookUp ByNode rate (Integer 7)). set (k' := set_sim_time BySpinner true).
  set (w0 := {| shared := rate_node; tasks := [k; k'] |}).
  assert (exclusive_run rate_node w0) as H0.
  { apply (exclusive_call _ k' {| shared := rate_node; tasks := [k] |}); [|simpl|done].
    - apply (exclusive_call _ k (World_new rate_node)); [constructor| |done].
      intros name _ (? & Hin & _). by apply not_elem_of_nil in Hin.
    - intros name [= <-] (k1 & Hin & Hk).
      apply list_elem_of_singleton in Hin as ->. revert Hk. vm_compute. discriminate. }
  destruct (run_events ((λ '(i, t), Run i t) <$> [(0, 3%N); (1, 4%N); (0, 5%N); (1, 6%N); (1, 7%N);
              (0, 8%N); (1, 9%N); (1, 10%N)]) w0) as [w|] eqn:E;
    [|exfalso; revert E; vm_compute; discriminate].
  pose proof (exclusive_steps _ _ _ _ H0 E) as Hrun.
  assert (tasks w = [Insert rate (Integer 7) true; Returned (Ok tt)] ∧
          use_sim_time (shared w) = true) as [Hk Hf].
  { revert E. vm_compute. by intros [= <-]. }
  assert (¬ busy w USE_SIM_TIME) as Hb.
  { intros (k1 & Hin & Hk1). rewrite Hk in Hin.
    apply elem_of_cons in Hin as [->|Hin];
      [|apply list_elem_of_singleton in Hin as ->]; revert Hk1; vm_compute; discriminate. }
  destruct (interleaved_events_replay _ _ _ _ w rate_node_new Hrun) as [(m & Hm & Hst) _].
  exists w, m. rewrite Hk. split_and!; [done..|by apply Hst|done|done].
Defined.

Lemma parameter_call_races_witness :
  parameters rate_node !! USE_SIM_TIME = Some (Boolean false) ∧
  ∃ w, run_events (interrupted 3%N (set_sim_time ByNode true) (set_sim_time BySpinner false) 3 5 2)
         (World_new rate_node) = Some w ∧
    tasks w = [Returned (Ok tt); Returned (Ok tt)] ∧
    parameters (shared w) !! USE_SIM_TIME = Some (Boolean true) ∧ use_sim_time (shared w) = false.
Proof.
  assert (parameters rate_node !! USE_SIM_TIME = Some (Boolean false)) as H
    by (vm_compute; reflexivity).
  split; [exact H|]. apply (parameter_call_races rate_node 3%N ByNode BySpinner true _ H).
Defined.
