(* ===== verification/ZenohParamTasks.v ===== *)
(** * Zenoh parameters under concurrent calls (zenoh_backend/parameters.rs)

    [set_parameter] takes [&self], and an application sets parameters while the
    server's [spin] sets those that requests ask for. A call holds the lock while
    it looks up and inserts, and publishes its event after that. Here every call
    is a task of these two sections; ParamStore's [set_and_notify] is a call that
    nothing comes in between. *)
From S2P Require Import Prelude Params ParamStore.

(** How far a call of [set_and_notify] is, and whether the parameter was set
    when it held the lock. *)
Inductive stage := Started | Stored (already_set : bool) | Told (already_set : bool).
Record task := { t_name : str; t_value : ParameterValue; t_stage : stage }.

Section tasks.
Context {T : Type}.
Abbreviation ParameterServer := (ParameterServer T).

Definition set_stage (st : stage) (k : task) : task :=
  {| t_name := t_name k; t_value := t_value k; t_stage := st |}.
(** The block that holds the lock. *)
Definition store_section (name : str) (value : ParameterValue) (s : ParameterServer) :
    ParameterServer * bool :=
  ({| node_fqn := node_fqn s; store := <[name := value]> (store s); events := events s |},
   bool_decide (is_Some (store s !! name))).
(** What follows it. *)
Definition publish_section (t : T) (name : str) (value : ParameterValue) (already_set : bool)
    (s : ParameterServer) : ParameterServer :=
  let raw_param := {| raw_name := name; raw_value := raw_of_value value |} in
  if already_set then publish_event t [] [raw_param] [] s else publish_event t [raw_param] [] [] s.
Definition resume (t : T) (k : task) (s : ParameterServer) : option (ParameterServer * task) :=
  match t_stage k with
  | Started =>
      let '(s, already_set) := store_section (t_name k) (t_value k) s in
      Some (s, set_stage (Stored already_set) k)
  | Stored already_set =>
      Some (publish_section t (t_name k) (t_value k) already_set s, set_stage (Told already_set) k)
  | Told _ => None
  end.

Record World := { server : ParameterServer; tasks : list task }.
Definition World_new (s : ParameterServer) : World := {| server := s; tasks := [] |}.
Inductive event := Call (name : str) (value : ParameterValue) | Run (i : nat) (t : T).
Definition event_step (ev : event) (w : World) : option World :=
  match ev with
  | Call name value =>
      Some {| server := server w;
              tasks := tasks w ++ [{| t_name := name; t_value := value; t_stage := Started |}] |}
  | Run i t =>
      k ← tasks w !! i;
      '(s, k) ← resume t k (server w);
      Some {| server := s; tasks := <[i := k]> (tasks w) |}
  end.
Definition run_events (evs : list event) (w : World) : option World :=
  foldM (λ w ev, event_step ev w) evs w.

(** A call alone is [set_and_notify]. *)
Lemma sections_alone t name value s :
  let k := {| t_name := name; t_value := value; t_stage := Started |} in
  ('(s1, k1) ← resume t k s; fst <$> resume t k1 s1) = Some (set_and_notify t name value s).1.
Proof. unfold set_and_notify. simpl. by case_bool_decide. Qed.
End tasks.
Arguments World : clear implicits.
Arguments event : clear implicits.

(** ** What the subscribers of the events are told *)
Section announcements.
Context {T : Type}.
Implicit Types (s : ParameterServer T) (w : World T) (k : task).

Definition raw_of (k : task) : RawParameter :=
  {| raw_name := t_name k; raw_value := raw_of_value (t_value k) |}.
(** The parameters an event tells, each with whether as a changed one. *)
Definition announced (e : ParameterEvent T) : list (bool * RawParameter) :=
  (pair false <$> new_parameters e) ++ (pair true <$> changed_parameters e).
Definition told (k : task) : option (bool * RawParameter) :=
  match t_stage k with Told a => Some (a, raw_of k) | _ => None end.
(** What a call found in the store. *)
Definition found (k : task) : option bool :=
  match t_stage k with Stored a | Told a => Some a | Started => None end.
(** The calls that found [x] not set. *)
Definition first_of (x : str) (k : task) : option ParameterValue :=
  if decide (t_name k = x ∧ found k = Some false) then Some (t_value k) else None.

(** How the events, the calls and the store stand in a run from [s0]. *)
Record settled (s0 : ParameterServer T) w : Prop := {
  told_all : events (server w) ≫= announced ≡ₚ (events s0 ≫= announced) ++ omap told (tasks w);
  told_first x : length (omap (first_of x) (tasks w)) =
    if decide (is_Some (store s0 !! x)) then 0
    else if decide (is_Some (store (server w) !! x)) then 1 else 0;
  keeps_set x : is_Some (store s0 !! x) → is_Some (store (server w) !! x);
  holds_asked x v : store (server w) !! x = Some v →
    store s0 !! x = Some v ∨
    ∃ k, k ∈ tasks w ∧ t_name k = x ∧ t_value k = v ∧ is_Some (found k);
}.
Lemma fresh_settled s : settled s (World_new s).
Proof.
  split; simpl; auto.
  - by rewrite app_nil_r.
  - intros x. by destruct (decide (is_Some (store s !! x))).
Qed.
Lemma announced_publish t name v a s :
  events (publish_section t name v a s) ≫= announced =
    (events s ≫= announced) ++ [(a, {| raw_name := name; raw_value := raw_of_value v |})].
Proof. destruct a; simpl; rewrite bind_app; done. Qed.
Lemma store_settled s0 w i k s a :
  settled s0 w → tasks w !! i = Some k → t_stage k = Started →
  store_section (t_name k) (t_value k) (server w) = (s, a) →
  settled s0 {| server := s; tasks := <[i := set_stage (Stored a) k]> (tasks w) |}.
Proof.
  intros [Ht Hf Hk Ha] Hi Hs [= <- <-]. assert (told k = None) as Htk by (unfold told; by rewrite Hs).
  assert (∀ x, first_of x k = None) as Hfk.
  { intros x. unfold first_of, found. rewrite Hs. by rewrite decide_False by (by intros [_ [=]]). }
  split; cbn [server tasks store events].
  - by rewrite (omap_insert_same _ _ _ k).
  - intros x. destruct (decide (x = t_name k)) as [->|Hx].
    + rewrite lookup_insert_eq. specialize (Hf (t_name k)). specialize (Hk (t_name k)).
      rewrite (decide_True (P := is_Some (Some (t_value k)))) by (by eexists). case_bool_decide as Hset.
      * rewrite (decide_True (P := is_Some (store (server w) !! _))) in Hf by done. rewrite (omap_insert_same _ _ _ k); [done..|].
        rewrite Hfk. unfold first_of. by rewrite decide_False by (by intros [_ [=]]).
      * rewrite (decide_False (P := is_Some (store s0 !! _))) in Hf |- * by auto.
        rewrite (decide_False (P := is_Some (store (server w) !! _))) in Hf by done.
        erewrite omap_insert_new; [|done..|]; [by rewrite length_app, Hf|].
        unfold first_of. by rewrite decide_True.
    + rewrite lookup_insert_ne, (omap_insert_same _ _ _ k) by (done || (rewrite Hfk; unfold first_of;
        rewrite decide_False; [done|]; by intros [<- _])). apply Hf.
  - intros x Hx. apply lookup_insert_is_Some. destruct (decide (t_name k = x)); auto.
  - intros x v Hv. assert (i < length (tasks w)) as Hlt by (by eapply lookup_lt_Some).
    apply lookup_insert_Some in Hv as [[<- <-]|[Hne Hv]].
    + right. exists (set_stage (Stored (bool_decide (is_Some (store (server w) !! t_name k)))) k).
      split_and!; [|done|done|by eexists]. apply list_elem_of_lookup. exists i.
      by rewrite list_lookup_insert_eq.
    + destruct (Ha x v Hv) as [?|(k' & Hin & <- & <- & Hfo)]; [by left|]. right.
      apply list_elem_of_lookup in Hin as [j Hj]. exists k'. split_and!; try done.
      apply list_elem_of_lookup. exists j. rewrite list_lookup_insert_ne; [done|].
      intros <-. simplify_eq.
Qed.
Lemma publish_settled s0 w i k t a :
  settled s0 w → tasks w !! i = Some k → t_stage k = Stored a →
  settled s0 {| server := publish_section t (t_name k) (t_value k) a (server w);
                tasks := <[i := set_stage (Told a) k]> (tasks w) |}.
Proof.
  intros [Ht Hf Hk Ha] Hi Hs.
  assert (store (publish_section t (t_name k) (t_value k) a (server w)) = store (server w)) as Hst by (by destruct a).
  split; cbn [server tasks]; rewrite ?announced_publish, ?Hst; [| |done|].
  - rewrite (omap_insert_new _ _ _ k _ (a, raw_of k)); [by rewrite Ht, app_assoc|done| |done].
    unfold told. by rewrite Hs.
  - intros x. rewrite <-Hf. rewrite (omap_insert_same _ _ _ k); [done..|].
    unfold first_of, found. by rewrite Hs.
  - intros x v [?|(k' & Hin & <- & <- & Hfo)]%Ha; [by left|]. right.
    apply list_elem_of_lookup in Hin as [j Hj].
    assert (i < length (tasks w)) as Hlt by (by eapply lookup_lt_Some).
    destruct (decide (i = j)) as [<-|Hne]; [simplify_eq|].
    + exists (set_stage (Told a) k). split_and!; [|done|done|by eexists].
      apply list_elem_of_lookup. exists i. by rewrite list_lookup_insert_eq.
    + exists k'. split_and!; try done. apply list_elem_of_lookup. exists j.
      by rewrite list_lookup_insert_ne.
Qed.
Lemma event_settled s0 ev w w' : settled s0 w → event_step ev w = Some w' → settled s0 w'.
Proof.
  intros Hw. destruct ev as [name v|i t]; simpl.
  - destruct Hw as [Ht Hf Hk Ha]. intros [= <-]. split; cbn [server tasks]; [| |done|].
    + rewrite omap_app. cbn. by rewrite app_nil_r.
    + intros x. rewrite omap_app. unfold first_of at 2. cbn.
      rewrite decide_False by (by intros [_ [=]]). by rewrite app_nil_r.
    + intros x v' [?|(k & ? & ?)]%Ha; [by left|right]. exists k. set_solver.
  - destruct (tasks w !! i) as [k|] eqn:Hi; [|done]. cbn [mbind option_bind].
    unfold resume. destruct (t_stage k) as [|a|a] eqn:Hs; [| |done].
    + destruct (store_section _ _ _) as [s a] eqn:Hss. intros [= <-]. by eapply store_settled.
    + intros [= <-]. by eapply publish_settled.
Qed.
Lemma run_settled s evs w : run_events evs (World_new s) = Some w → settled s w.
Proof.
  intros Hw. eapply (foldM_inv _ _ _ _ _ (λ w ev w', event_settled s ev w w')), Hw. apply fresh_settled.
Qed.

(** Two calls about one parameter can publish in the other order than they
    stored: both have returned, the store holds [v'], and the last event says
    [v]. *)
Lemma last_event_stale s x v v' (t : T) : ∃ evs w,
  run_events evs (World_new s) = Some w ∧ Forall (λ k, is_Some (told k)) (tasks w) ∧
  store (server w) !! x = Some v' ∧
  ∃ a, (last (events (server w)) ≫= λ e, last (announced e)) =
         Some (a, {| raw_name := x; raw_value := raw_of_value v |}).
Proof.
  exists [Call x v; Call x v'; Run 0 t; Run 1 t; Run 1 t; Run 0 t]. eexists. split; [reflexivity|].
  split; [by repeat (constructor; [by eexists|])|]. cbn -[last bool_decide].
  generalize (bool_decide (is_Some (store s !! x))) as a.
  rewrite lookup_insert_eq, bool_decide_eq_true_2 by (by eexists).
  intros a. split; [by destruct a; apply lookup_insert_eq|].
  exists a. destruct a; cbn -[last]; by rewrite last_snoc.
Qed.

(** C7: However the calls of a Zenoh parameter server interleave, every call
    that has returned published exactly one event, and no event has another
    origin; a parameter is announced as new by exactly one call, if it was set
    since the server was made, and by none, if it was set before; what is stored
    is what the server was made with or what some call asked for. *)
Theorem interleaved_zenoh_events fqn initial evs (w : World T) :
  let s0 := ParameterServer_new fqn initial in
  run_events evs (World_new s0) = Some w →
  events (server w) ≫= announced ≡ₚ omap told (tasks w) ∧
  ∀ x,
    length (omap (first_of x) (tasks w)) =
      (if decide (is_Some (store s0 !! x)) then 0
       else if decide (is_Some (store (server w) !! x)) then 1 else 0) ∧
    ∀ v, store (server w) !! x = Some v →
      store s0 !! x = Some v ∨
      ∃ k, k ∈ tasks w ∧ t_name k = x ∧ t_value k = v ∧ is_Some (found k).
Proof. intros s0 [Ht Hf _ Ha]%run_settled. split; [exact Ht|]. intros x. split; [apply Hf|apply Ha]. Qed.
End announcements.

(** Two calls about one new parameter and one about [use_sim_time]; the first
    to store publishes last. *)
Example interleaved_zenoh_events_witness :
  let s0 := ParameterServer_new (T:=N) (lit "/n") [] in
  let evs := [Call (lit "gain") (Integer 1); Call (lit "gain") (Integer 2);
              Call USE_SIM_TIME (Boolean true);
              Run 1 5%N; Run 0 6%N; Run 2 7%N; Run 2 7%N; Run 0 8%N; Run 1 9%N] in
  ∃ w, run_events evs (World_new s0) = Some w ∧
  store (server w) !! lit "gain" = Some (Integer 1) ∧
  fst <$> (events (server w) ≫= announced) = [true; true; false] ∧
  (events (server w) ≫= announced ≡ₚ omap told (tasks w) ∧
   ∀ x,
     length (omap (first_of x) (tasks w)) =
       (if decide (is_Some (store s0 !! x)) then 0
        else if decide (is_Some (store (server w) !! x)) then 1 else 0) ∧
     ∀ v, store (server w) !! x = Some v →
       store s0 !! x = Some v ∨
       ∃ k, k ∈ tasks w ∧ t_name k = x ∧ t_value k = v ∧ is_Some (found k)).
Proof.
  intros s0 evs. eexists. split; [vm_compute; reflexivity|]. split; [vm_compute; reflexivity|].
  split; [vm_compute; reflexivity|].
  apply (interleaved_zenoh_events (lit "/n") [] evs). vm_compute. reflexivity.
Defined.
