(* ===== verification/ActionServer.v ===== *)
(** * The asynchronous action server (action/server.rs, action_msgs.rs)

    The goals of an [AsyncActionServer] as a state machine: one definition per
    operation, each a function of the server state, of what it awaits (incoming
    requests, the clock, whether a write succeeds) and of its arguments, to the
    new state, the messages it sends and its result. *)
From S2P Require Import Prelude Time.

(** ** action_msgs.rs, unique_identifier_msgs.rs *)

(** A UUID is its 128-bit value; [Ord] on the bytes is [Ord] on the value. *)
Abbreviation GoalId := N (only parsing).
Definition UUID_ZERO : GoalId := 0%N.

Record GoalInfo := { goal_id : GoalId; stamp : Time }.
Inductive GoalStatusEnum :=
| Unknown | Accepted | Executing | Canceling | Succeeded | Canceled | Aborted.
#[export] Instance GoalStatusEnum_eq_dec : EqDecision GoalStatusEnum.
Proof. solve_decision. Defined.
Definition status_code (s : GoalStatusEnum) : Z :=
  match s with
  | Unknown => 0 | Accepted => 1 | Executing => 2 | Canceling => 3
  | Succeeded => 4 | Canceled => 5 | Aborted => 6
  end.
Record GoalStatus := { gs_goal_info : GoalInfo; gs_status : GoalStatusEnum }.
Record GoalStatusArray := { status_list : list GoalStatus }.
Record CancelGoalRequest := { cr_goal_info : GoalInfo }.
Inductive CancelGoalResponseEnum := NoError | Rejected | UnknownGoal | GoalTerminated.
Definition cancel_code (c : CancelGoalResponseEnum) : Z :=
  match c with NoError => 0 | Rejected => 1 | UnknownGoal => 2 | GoalTerminated => 3 end.
Record CancelGoalResponse := {
  return_code : CancelGoalResponseEnum;
  goals_canceling : list GoalInfo;
}.

#[export] Instance Time_eq_dec : EqDecision Time.
Proof. solve_decision. Defined.

(** [GoalEndStatus]. *)
Inductive GoalEndStatus := EndSucceeded | EndAborted | EndCanceled.
Definition end_status (e : GoalEndStatus) : GoalStatusEnum :=
  match e with
  | EndSucceeded => Succeeded
  | EndAborted => Aborted
  | EndCanceled => Canceled
  end.

Definition FINISHED_GOAL_BUFFER_SIZE : nat := 2.

Section server.
(** Goals, results and feedback of the action type; ids of requests. *)
Context {G R F ReqId : Type}.

(** ** Data *)

Record AsyncGoal := {
  status : GoalStatusEnum;
  accepted_time : option Time;
  goal : G;
}.
Record AsyncActionServer := {
  goals : gmap GoalId AsyncGoal;
  finished_goals : list GoalId;
  result_requests : gmap GoalId ReqId;
}.
Definition AsyncActionServer_new : AsyncActionServer :=
  {| goals := ∅; finished_goals := []; result_requests := ∅ |}.

(** The handles carry the goal id; a new goal's also its request. *)
Record InnerGoalHandle := { h_goal_id : GoalId }.
Record NewGoalHandle := { new_inner : InnerGoalHandle; req_id : ReqId }.
Record AcceptedGoalHandle := { acc_inner : InnerGoalHandle }.
Record ExecutingGoalHandle := { exe_inner : InnerGoalHandle }.
Record CancelHandle := { cancel_req_id : ReqId; cancel_goals : list GoalId }.
Definition contains_goal (h : CancelHandle) (g : GoalId) : bool :=
  bool_decide (g ∈ cancel_goals h).

Inductive GoalError := NoSuchGoal | WrongGoalState | DDSReadError | DDSWriteError.

(** What the server hands to its services and publishers. *)
Inductive message :=
| SendGoalResponse (req : ReqId) (accepted : bool) (stamp : Time)
| SendFeedback (g : GoalId) (feedback : F)
| SendResult (req : ReqId) (status : GoalStatusEnum) (result : R)
| SendStatuses (statuses : GoalStatusArray)
| SendCancelResponse (req : ReqId) (response : CancelGoalResponse).

Record SendGoalRequest := { sg_goal_id : GoalId; sg_goal : G }.

(** ** Operations *)

Definition with_goals (gs : gmap GoalId AsyncGoal) (s : AsyncActionServer) :
    AsyncActionServer :=
  {| goals := gs; finished_goals := finished_goals s; result_requests := result_requests s |}.
Definition set_status (st : GoalStatusEnum) (ag : AsyncGoal) : AsyncGoal :=
  {| status := st; accepted_time := accepted_time ag; goal := goal ag |}.

Definition mark_goal_finished (g : GoalId) (s : AsyncActionServer) : AsyncActionServer :=
  {| goals := goals s; finished_goals := finished_goals s ++ [g];
     result_requests := result_requests s |}.

Definition looks_done (st : GoalStatusEnum) : bool :=
  match st with Succeeded | Aborted | Canceled => true | _ => false end.

(** Removes the finished goals; [None] is the panic of the [debug_assert!]. *)
Fixpoint flush_each (pr : profile) (fs : list GoalId) (gs : gmap GoalId AsyncGoal) :
    option (gmap GoalId AsyncGoal) :=
  match fs with
  | [] => Some gs
  | g :: fs =>
      match gs !! g, pr with
      | Some ag, Debug =>
          if looks_done (status ag) then flush_each pr fs (delete g gs) else None
      | _, _ => flush_each pr fs (delete g gs)
      end
  end.
Definition flush_finisehd_goals (pr : profile) (s : AsyncActionServer) :
    option AsyncActionServer :=
  gs ← flush_each pr (finished_goals s) (goals s);
  Some {| goals := gs; finished_goals := []; result_requests := result_requests s |}.

Definition get_new_goal (pr : profile) (h : NewGoalHandle) (s : AsyncActionServer) :
    option (AsyncActionServer * option G) :=
  s ← flush_finisehd_goals pr s;
  Some (s, goal <$> goals s !! h_goal_id (new_inner h)).

Definition publish_statuses (s : AsyncActionServer) : message :=
  SendStatuses {| status_list :=
    (λ '(g, ag), {| gs_status := status ag;
                    gs_goal_info := {| goal_id := g;
                                       stamp := default Time_ZERO (accepted_time ag) |} |})
      <$> entries N.le (goals s) |}.

(** The loop of [receive_new_goal] over the incoming goal requests; it waits
    for more ([None]) when they are all duplicates. *)
Fixpoint receive_new_goal (incoming : list (ReqId * SendGoalRequest)) (s : AsyncActionServer) :
    option (AsyncActionServer * NewGoalHandle * list (ReqId * SendGoalRequest)) :=
  match incoming with
  | [] => None
  | (req, r) :: incoming =>
      match goals s !! sg_goal_id r with
      | None =>
          Some (with_goals (<[sg_goal_id r := {| status := Unknown; goal := sg_goal r;
                                                 accepted_time := None |}]> (goals s)) s,
                {| new_inner := {| h_goal_id := sg_goal_id r |}; req_id := req |}, incoming)
      | Some _ => receive_new_goal incoming s
      end
  end.

(** [written] tells whether the response is written; a failed write is an
    error, but the state has changed. *)
Definition accept_goal (now : Time) (written : bool) (h : NewGoalHandle)
    (s : AsyncActionServer) :
    AsyncActionServer * list message * result GoalError AcceptedGoalHandle :=
  let g := h_goal_id (new_inner h) in
  match goals s !! g with
  | None => (s, [], Err NoSuchGoal)
  | Some ag =>
      match status ag with
      | Unknown =>
          let s' := with_goals (<[g := {| status := Accepted; accepted_time := Some now;
                                          goal := goal ag |}]> (goals s)) s in
          (s', [publish_statuses s'; SendGoalResponse (req_id h) true now],
           if written then Ok {| acc_inner := new_inner h |} else Err DDSWriteError)
      | _ => (s, [], Err WrongGoalState)
      end
  end.

Definition reject_goal (now : Time) (written : bool) (h : NewGoalHandle)
    (s : AsyncActionServer) : AsyncActionServer * list message * result GoalError unit :=
  let g := h_goal_id (new_inner h) in
  match goals s !! g with
  | None => (s, [], Err NoSuchGoal)
  | Some ag =>
      match status ag with
      | Unknown =>
          (with_goals (delete g (goals s)) s, [SendGoalResponse (req_id h) false now],
           if written then Ok tt else Err DDSWriteError)
      | _ => (s, [], Err WrongGoalState)
      end
  end.

Definition start_executing_goal (h : AcceptedGoalHandle) (s : AsyncActionServer) :
    AsyncActionServer * list message * result GoalError ExecutingGoalHandle :=
  let g := h_goal_id (acc_inner h) in
  match goals s !! g with
  | None => (s, [], Err NoSuchGoal)
  | Some ag =>
      match status ag with
      | Accepted =>
          let s' := with_goals (<[g := set_status Executing ag]> (goals s)) s in
          (s', [publish_statuses s'], Ok {| exe_inner := acc_inner h |})
      | _ => (s, [], Err WrongGoalState)
      end
  end.

Definition publish_feedback (written : bool) (h : ExecutingGoalHandle) (feedback : F)
    (s : AsyncActionServer) : AsyncActionServer * list message * result GoalError unit :=
  let g := h_goal_id (exe_inner h) in
  match goals s !! g with
  | None => (s, [], Err NoSuchGoal)
  | Some ag =>
      match status ag with
      | Executing =>
          (s, [SendFeedback g feedback], if written then Ok tt else Err DDSWriteError)
      | _ => (s, [], Err WrongGoalState)
      end
  end.

(** The wait for the goal's result request: the buffered one, or the first to
    arrive, the others being buffered; an [Err] of the stream is a read error.
    [None] waits for more. *)
Fixpoint await_result_request (g : GoalId) (incoming : list (result unit (ReqId * GoalId)))
    (s : AsyncActionServer) : option (AsyncActionServer * result GoalError ReqId) :=
  match incoming with
  | [] => None
  | Err _ :: _ => Some (s, Err DDSReadError)
  | Ok (req, g') :: incoming =>
      if (g' =? g)%N then Some (s, Ok req)
      else await_result_request g incoming
             {| goals := goals s; finished_goals := finished_goals s;
                result_requests := <[g' := req]> (result_requests s) |}
  end.
Definition find_result_request (g : GoalId) (incoming : list (result unit (ReqId * GoalId)))
    (s : AsyncActionServer) : option (AsyncActionServer * result GoalError ReqId) :=
  match result_requests s !! g with
  | Some req => Some (s, Ok req)
  | None => await_result_request g incoming s
  end.

Definition send_result_response (incoming : list (result unit (ReqId * GoalId)))
    (written : bool) (h : ExecutingGoalHandle) (result_status : GoalEndStatus) (res : R)
    (s : AsyncActionServer) :
    option (AsyncActionServer * list message * result GoalError unit) :=
  let st := end_status result_status in
  let g := h_goal_id (exe_inner h) in
  '(s, req) ← find_result_request g incoming s;
  Some
    match req with
    | Err e => (s, [], Err e)
    | Ok req =>
        match goals s !! g with
        | None => (s, [], Err NoSuchGoal)
        | Some ag =>
            match status ag with
            | Accepted | Executing | Canceling =>
                let s' := with_goals (<[g := set_status st ag]> (goals s)) s in
                if written
                then (mark_goal_finished g s', [SendResult req st res; publish_statuses s'], Ok tt)
                else (s', [SendResult req st res], Err DDSWriteError)
            | _ => (s, [], Err WrongGoalState)
            end
        end
    end.

Definition abort_goal (h : InnerGoalHandle) (s : AsyncActionServer) :
    AsyncActionServer * list message * result GoalError unit :=
  let g := h_goal_id h in
  match goals s !! g with
  | None => (s, [], Err NoSuchGoal)
  | Some ag =>
      match status ag with
      | Accepted | Executing =>
          let s' := with_goals (<[g := set_status Aborted ag]> (goals s)) s in
          (mark_goal_finished g s', [publish_statuses s'], Ok tt)
      | _ => (s, [], Err WrongGoalState)
      end
  end.
Definition abort_executing_goal (h : ExecutingGoalHandle) := abort_goal (exe_inner h).
Definition abort_accepted_goal (h : AcceptedGoalHandle) := abort_goal (acc_inner h).

(** The filter of a cancel request. *)
Definition accepted_before (stamp : Time) (ag : AsyncGoal) : bool :=
  match accepted_time ag with
  | Some at_ => (nanos_since_epoch at_ <? nanos_since_epoch stamp)%Z
  | None => false
  end.
Definition goal_filter (info : GoalInfo) (p : GoalId * AsyncGoal) : bool :=
  let '(g, ag) := p in
  if bool_decide (goal_id info = UUID_ZERO) then
    if bool_decide (stamp info = Time_ZERO) then true else accepted_before (stamp info) ag
  else if bool_decide (stamp info = Time_ZERO) then (goal_id info =? g)%N
  else (goal_id info =? g)%N || accepted_before (stamp info) ag.
Definition cancelable (st : GoalStatusEnum) : bool :=
  match st with Executing | Accepted => true | _ => false end.

Definition receive_cancel_request (req : ReqId * CancelGoalRequest) (s : AsyncActionServer) :
    CancelHandle :=
  {| cancel_req_id := fst req;
     cancel_goals := (List.filter (goal_filter (cr_goal_info (snd req)))
       (List.filter (λ p, cancelable (status p.2)) (entries N.le (goals s)))).*1 |}.

Definition canceling_goals (gs : list GoalId) (s : AsyncActionServer) : list GoalInfo :=
  omap (λ g, ag ← goals s !! g; st ← accepted_time ag; Some {| goal_id := g; stamp := st |}) gs.
Definition cancel_each (infos : list GoalInfo) (gs : gmap GoalId AsyncGoal) :
    gmap GoalId AsyncGoal :=
  fold_left (λ gs i, alter (set_status Canceling) (goal_id i) gs) infos gs.
Definition respond_to_cancel_requests (written : bool) (h : CancelHandle)
    (goals_to_cancel : list GoalId) (s : AsyncActionServer) :
    AsyncActionServer * list message * result GoalError unit :=
  let infos := canceling_goals goals_to_cancel s in
  let s' := with_goals (cancel_each infos (goals s)) s in
  (s', [publish_statuses s';
        SendCancelResponse (cancel_req_id h)
          {| return_code := match infos with [] => Rejected | _ => NoError end;
             goals_canceling := infos |}],
   if written then Ok tt else Err DDSWriteError).

(** ** Steps *)

(** One call of the interface, with what it awaits. *)
Inductive call :=
| ReceiveNewGoal (incoming : list (ReqId * SendGoalRequest))
| GetNewGoal (h : NewGoalHandle)
| AcceptGoal (now : Time) (written : bool) (h : NewGoalHandle)
| RejectGoal (now : Time) (written : bool) (h : NewGoalHandle)
| StartExecutingGoal (h : AcceptedGoalHandle)
| PublishFeedback (written : bool) (h : ExecutingGoalHandle) (feedback : F)
| SendResultResponse (incoming : list (result unit (ReqId * GoalId))) (written : bool)
    (h : ExecutingGoalHandle) (e : GoalEndStatus) (res : R)
| AbortGoal (h : InnerGoalHandle)
| RespondToCancelRequests (written : bool) (h : CancelHandle) (gs : list GoalId).

(** The state after the call; [None] when it panics or never returns. *)
Definition exec (pr : profile) (c : call) (s : AsyncActionServer) : option AsyncActionServer :=
  match c with
  | ReceiveNewGoal incoming => fst ∘ fst <$> receive_new_goal incoming s
  | GetNewGoal h => fst <$> get_new_goal pr h s
  | AcceptGoal now w h => Some (fst (fst (accept_goal now w h s)))
  | RejectGoal now w h => Some (fst (fst (reject_goal now w h s)))
  | StartExecutingGoal h => Some (fst (fst (start_executing_goal h s)))
  | PublishFeedback w h f => Some (fst (fst (publish_feedback w h f s)))
  | SendResultResponse inc w h e r => fst ∘ fst <$> send_result_response inc w h e r s
  | AbortGoal h => Some (fst (fst (abort_goal h s)))
  | RespondToCancelRequests w h gs => Some (fst (fst (respond_to_cancel_requests w h gs s)))
  end.
Inductive step (pr : profile) : AsyncActionServer → AsyncActionServer → Prop :=
| step_call c s s' : exec pr c s = Some s' → step pr s s'.
End server.
Arguments AsyncActionServer : clear implicits.
Arguments AsyncGoal : clear implicits.
Arguments call : clear implicits.
Arguments message : clear implicits.

(** ** Specification: the life of one goal *)

Section spec.
Context {G R F ReqId : Type}.
Implicit Types s : AsyncActionServer G ReqId.
Implicit Types c : call G R F ReqId.

(** The ROS 2 goal state machine, with the two ways a goal leaves the server:
    rejection, and the flush of finished goals (in release builds the flush does
    not look at the status).  [gs_cancel] is wider than the ROS 2 one, whose
    canceling goals come from accepted or executing ones only. *)
Inductive goal_step (pr : profile) : option (AsyncGoal G) → option (AsyncGoal G) → Prop :=
| gs_same o : goal_step pr o o
| gs_new x : goal_step pr None (Some {| status := Unknown; accepted_time := None; goal := x |})
| gs_accept a t x :
    goal_step pr (Some {| status := Unknown; accepted_time := a; goal := x |})
                 (Some {| status := Accepted; accepted_time := Some t; goal := x |})
| gs_reject a x : goal_step pr (Some {| status := Unknown; accepted_time := a; goal := x |}) None
| gs_start a x :
    goal_step pr (Some {| status := Accepted; accepted_time := a; goal := x |})
                 (Some {| status := Executing; accepted_time := a; goal := x |})
| gs_end st e a x :
    st = Accepted ∨ st = Executing ∨ st = Canceling →
    goal_step pr (Some {| status := st; accepted_time := a; goal := x |})
                 (Some {| status := end_status e; accepted_time := a; goal := x |})
| gs_cancel st t x :
    goal_step pr (Some {| status := st; accepted_time := Some t; goal := x |})
                 (Some {| status := Canceling; accepted_time := Some t; goal := x |})
| gs_flush ag :
    looks_done (status ag) = true ∨ pr = Release → goal_step pr (Some ag) None.

(** ** Lemmas *)

Lemma flush_each_spec pr fs (gs gs' : gmap N (AsyncGoal G)) :
  flush_each pr fs gs = Some gs' →
  ∀ g, gs' !! g = (if decide (g ∈ fs) then None else gs !! g) ∧
       (g ∈ fs → ∀ ag, gs !! g = Some ag → looks_done (status ag) = true ∨ pr = Release).
Proof.
  revert gs. induction fs as [|f fs IH]; intros gs H g.
  { simpl in H. simplify_eq. split; [done|set_solver]. }
  assert (flush_each pr fs (delete f gs) = Some gs' ∧
          ∀ ag, gs !! f = Some ag → looks_done (status ag) = true ∨ pr = Release) as [H' Hf].
  { simpl in H. destruct (gs !! f) as [ag|] eqn:E; [|done].
    destruct pr; [destruct (looks_done _) eqn:El; [|done]|];
      (split; [done|]); intros ? [= <-]; auto. }
  destruct (IH _ H' g) as [H1 H2]. split.
  - rewrite H1. destruct (decide (g = f)) as [->|Hne].
    + rewrite lookup_delete_eq, (decide_True (P:=f ∈ f :: fs)) by set_solver.
      by destruct (decide _).
    + rewrite lookup_delete_ne by done. apply decide_ext. set_solver.
  - intros Hin ag Hag. destruct (decide (g = f)) as [->|Hne]; [by apply Hf|].
    apply H2; [set_solver|]. by rewrite lookup_delete_ne.
Qed.

Lemma flush_each_total pr fs (gs : gmap N (AsyncGoal G)) :
  (∀ g ag, g ∈ fs → gs !! g = Some ag → looks_done (status ag) = true) →
  is_Some (flush_each pr fs gs).
Proof.
  revert gs. induction fs as [|f fs IH]; intros gs H; [by eexists|].
  assert (is_Some (flush_each pr fs (delete f gs))) as Hr.
  { apply IH. intros g ag Hin [_ Hg]%lookup_delete_Some. eapply H; [by right|done]. }
  simpl. destruct (gs !! f) as [ag|] eqn:E; [|done]. destruct pr; [|done].
  by rewrite (H f ag) by (done || by left).
Qed.

Lemma cancel_each_lookup infos (gs : gmap N (AsyncGoal G)) g :
  cancel_each infos gs !! g =
  if decide (g ∈ goal_id <$> infos) then set_status Canceling <$> gs !! g else gs !! g.
Proof.
  unfold cancel_each. revert gs. induction infos as [|i infos IH]; intros gs; [done|].
  cbn [fold_left]. rewrite IH, fmap_cons. destruct (decide (goal_id i = g)) as [<-|Hne].
  - rewrite lookup_alter_eq, (decide_True (P:=goal_id i ∈ _ :: _)) by set_solver.
    destruct (decide _); [|done]. by destruct (gs !! goal_id i).
  - rewrite lookup_alter_ne by done. apply decide_ext. set_solver.
Qed.

Lemma elem_of_canceling_goals (gs : list N) s g :
  g ∈ goal_id <$> canceling_goals gs s ↔
  g ∈ gs ∧ ∃ ag t, goals s !! g = Some ag ∧ accepted_time ag = Some t.
Proof.
  unfold canceling_goals. rewrite list_elem_of_fmap. split.
  - intros (i&->&(g'&Hin&Hi)%list_elem_of_omap).
    destruct (goals s !! g') as [ag|] eqn:E; [simpl in Hi|done].
    destruct (accepted_time ag) as [t|] eqn:Et; [|done]. simplify_eq/=. eauto 10.
  - intros (Hin&ag&t&E&Et). exists {| goal_id := g; stamp := t |}. split; [done|].
    apply list_elem_of_omap. exists g. split; [done|]. by rewrite E; simpl; rewrite Et.
Qed.

Lemma find_result_goals g inc s s' r :
  find_result_request g inc s = Some (s', r) →
  goals s' = goals s ∧ finished_goals s' = finished_goals s.
Proof.
  unfold find_result_request. destruct (result_requests s !! g); [by intros; simplify_eq|].
  revert s. induction inc as [|[[req g']|e] inc IH]; intros s; simpl; [done| |by intros; simplify_eq].
  destruct (g' =? g)%N; [by intros; simplify_eq|]. intros H. apply IH in H. done.
Qed.

(** A status change of one goal, looked at from another. *)
Lemma goal_step_insert pr (gs : gmap N (AsyncGoal G)) g o g' :
  goal_step pr (gs !! g) (Some o) → goal_step pr (gs !! g') (<[g := o]> gs !! g').
Proof.
  intros H. destruct (decide (g = g')) as [<-|Hne].
  - by rewrite lookup_insert_eq.
  - rewrite lookup_insert_ne by done. constructor.
Qed.

(** ** Properties *)

(** Whatever call is made, in whatever state, every goal the server knows
    takes at most one transition of the goal state machine, keeps its payload,
    and keeps the time of its acceptance: no call skips acceptance, restarts an
    ended goal as executing, ends a goal twice or disturbs another goal.  The
    one transition outside the ROS 2 machine is canceling, which the code takes
    from any accepted status, ended ones included. *)
Lemma goal_state_machine pr s s' :
  step (R:=R) (F:=F) pr s s' → ∀ g, goal_step pr (goals s !! g) (goals s' !! g).
Proof.
  intros [c' ? ? H] g. destruct c' as [inc|h|now w h|now w h|h|w h f|inc w h e r|h|w h gs];
    simpl in H.
  - destruct (receive_new_goal inc _) as [[[s1 h1] rest]|] eqn:E; [|done]. simplify_eq/=.
    induction inc as [|[req r] inc IH]; simpl in E; [done|].
    destruct (goals s0 !! _) eqn:Eg; [by apply IH|]. simplify_eq/=.
    apply goal_step_insert. rewrite Eg. constructor.
  - unfold get_new_goal, flush_finisehd_goals in H.
    destruct (flush_each pr _ _) as [gs|] eqn:E; [|done]. simplify_eq/=.
    destruct (flush_each_spec _ _ _ _ E g) as [-> Hd].
    destruct (decide _) as [Hin|]; [|constructor].
    destruct (goals s0 !! g) as [ag|]; constructor. by apply Hd.
  - unfold accept_goal in H. destruct (goals s0 !! h_goal_id (new_inner h)) as [[[] a x]|] eqn:E;
      simplify_eq/=; try constructor. apply goal_step_insert. rewrite E. constructor.
  - unfold reject_goal in H. destruct (goals s0 !! h_goal_id (new_inner h)) as [[[] a x]|] eqn:E;
      simplify_eq/=; try constructor.
    destruct (decide (h_goal_id (new_inner h) = g)) as [<-|Hne].
    + rewrite lookup_delete_eq, E. constructor.
    + rewrite lookup_delete_ne by done. constructor.
  - unfold start_executing_goal in H. destruct (goals s0 !! h_goal_id (acc_inner h)) as [[[] a x]|] eqn:E;
      simplify_eq/=; try constructor. apply goal_step_insert. rewrite E. constructor.
  - unfold publish_feedback in H. destruct (goals s0 !! h_goal_id (exe_inner h)) as [[[] a x]|]; simplify_eq/=;
      constructor.
  - unfold send_result_response in H.
    destruct (find_result_request _ inc s0) as [[s1 [req|er]]|] eqn:Ef; simplify_eq/=;
      apply find_result_goals in Ef as [<- _]; [|constructor].
    destruct (goals s1 !! h_goal_id (exe_inner h)) as [[[] a x]|] eqn:E; simplify_eq/=; try constructor;
      destruct w; simplify_eq/=; apply goal_step_insert; rewrite E; constructor; auto.
  - unfold abort_goal in H. destruct (goals s0 !! h_goal_id h) as [[[] a x]|] eqn:E; simplify_eq/=;
      try constructor; apply goal_step_insert; rewrite E;
      apply (gs_end _ _ EndAborted); auto.
  - simplify_eq/=. rewrite cancel_each_lookup. destruct (decide _) as [Hin|]; [|constructor].
    apply elem_of_canceling_goals in Hin as (_&[st a x]&t&->&[= ->]). constructor.
Qed.

(** Use of the interface as its comments ask: a cancel response names only goals
    that can still be canceled, and results can be written. *)
Definition disciplined c s : Prop :=
  match c with
  | RespondToCancelRequests _ _ gs =>
      ∀ g ag, g ∈ gs → goals s !! g = Some ag → cancelable (status ag) = true
  | SendResultResponse _ written _ _ _ => written = true
  | _ => True
  end.
Inductive reachable pr : AsyncActionServer G ReqId → Prop :=
| reachable_new : reachable pr AsyncActionServer_new
| reachable_step c s s' :
    reachable pr s → disciplined c s → exec pr c s = Some s' → reachable pr s'.

(** The finished goals are the ended ones, and the goals without an acceptance
    time those not yet answered. *)
Definition goal_ok s g : Prop :=
  (g ∈ finished_goals s ↔ ∃ ag, goals s !! g = Some ag ∧ looks_done (status ag) = true) ∧
  (∀ ag, goals s !! g = Some ag → (accepted_time ag = None ↔ status ag = Unknown)).
Definition server_inv s : Prop := NoDup (finished_goals s) ∧ ∀ g, goal_ok s g.

(** Replacing a goal that has not ended by one that has not. *)
Lemma inv_insert s s' g ag :
  server_inv s → goals s' = <[g := ag]> (goals s) → finished_goals s' = finished_goals s →
  (∀ old, goals s !! g = Some old → looks_done (status old) = false) →
  looks_done (status ag) = false → (accepted_time ag = None ↔ status ag = Unknown) →
  server_inv s'.
Proof.
  intros [Hnd Hok] Hg Hf Hold Hnew Ht. split; [by rewrite Hf|]. intros g'.
  destruct (Hok g') as [H1 H2]. unfold goal_ok. rewrite Hf, Hg.
  destruct (decide (g' = g)) as [->|Hne].
  - rewrite lookup_insert_eq, H1. split; [|by intros ? [= <-]].
    split; intros (x&Hx&Hd); [apply Hold in Hx|simplify_eq]; congruence.
  - by rewrite lookup_insert_ne.
Qed.

(** Ending a goal that has not, and marking it finished. *)
Lemma inv_end s s' g old st :
  server_inv s → goals s !! g = Some old → looks_done (status old) = false →
  status old ≠ Unknown → looks_done st = true →
  goals s' = <[g := set_status st old]> (goals s) →
  finished_goals s' = finished_goals s ++ [g] → server_inv s'.
Proof.
  intros [Hnd Hok] Hg Hold Hk Hnew Hg' Hf. split.
  - rewrite Hf. apply NoDup_app. split; [done|]. split; [|apply NoDup_singleton].
    intros x Hx ->%list_elem_of_singleton. apply Hok in Hx as (ag&?&?). congruence.
  - intros g'. destruct (Hok g') as [H1 H2]. unfold goal_ok.
    rewrite Hf, Hg', elem_of_app, list_elem_of_singleton.
    destruct (decide (g' = g)) as [->|Hne].
    + rewrite lookup_insert_eq. split; [split; [eauto|by right]|].
      intros ? [= <-]. simpl. apply H2 in Hg. split; [tauto|]. intros ->. done.
    + rewrite lookup_insert_ne, H1 by done. split; [|done]. naive_solver.
Qed.

Lemma inv_flush pr h s s' v :
  server_inv s → get_new_goal pr h s = Some (s', v) → server_inv s'.
Proof.
  intros [Hnd Hok] H. unfold get_new_goal, flush_finisehd_goals in H.
  destruct (flush_each pr _ _) as [gs|] eqn:E; [|done]. simplify_eq/=.
  split; [by apply NoDup_nil_2|]. intros g. destruct (Hok g) as [H1 H2].
  destruct (flush_each_spec _ _ _ _ E g) as [Hl _]. unfold goal_ok. simpl. rewrite Hl.
  destruct (decide _) as [|Hn]; [split; [set_solver|done]|]. split; [|done].
  rewrite H1 in Hn. set_solver.
Qed.
Lemma inv_reject s g a x :
  server_inv s →
  goals s !! g = Some {| status := Unknown; accepted_time := a; goal := x |} →
  server_inv (with_goals (delete g (goals s)) s).
Proof.
  intros [Hnd Hok] E. split; [done|]. intros g'. destruct (Hok g') as [H1 H2].
  unfold goal_ok. simpl. destruct (decide (g' = g)) as [->|Hne].
  - rewrite lookup_delete_eq, H1, E. split; [|done].
    split; [intros (?&[= <-]&?); done|by intros (?&?&?)].
  - by rewrite lookup_delete_ne.
Qed.
Lemma inv_same_goals s s' :
  server_inv s → goals s' = goals s → finished_goals s' = finished_goals s → server_inv s'.
Proof.
  intros [Hnd Hok] Eg Ef. split; [by rewrite Ef|]. intros g. unfold goal_ok. rewrite Eg, Ef.
  apply Hok.
Qed.
Lemma inv_cancel w h gs s :
  server_inv s → disciplined (RespondToCancelRequests w h gs) s →
  server_inv (respond_to_cancel_requests (R:=R) (F:=F) w h gs s).1.1.
Proof.
  intros [Hnd Hok] Hd. simpl in *. split; [done|]. intros g. destruct (Hok g) as [H1 H2].
  unfold goal_ok. simpl. rewrite cancel_each_lookup. destruct (decide _) as [Hin|]; [|done].
  apply elem_of_canceling_goals in Hin as (Hin&ag&t&Hg&Ht). rewrite Hg in *.
  specialize (Hd g ag Hin Hg). rewrite H1. split.
  - split; [intros (?&[= <-]&?); by destruct (status ag)|].
    intros (?&[= <-]&?). done.
  - intros ? [= <-]. simpl. rewrite Ht. done.
Qed.
Lemma inv_exec pr c s s' :
  server_inv s → disciplined c s → exec pr c s = Some s' → server_inv s'.
Proof.
  intros Hinv Hd H. pose proof Hinv as [Hnd Hok].
  destruct c as [inc|h|now w h|now w h|h|w h f|inc w h e r|h|w h gs]; simpl in *.
  - destruct (receive_new_goal inc _) as [[[s1 h1] rest]|] eqn:E; [|done]. simplify_eq/=.
    induction inc as [|[req r] inc IH]; simpl in E; [done|].
    destruct (goals s !! _) eqn:Eg; [by apply IH|]. simplify_eq/=.
    eapply inv_insert; [done..| | |]; simpl; [congruence|done|done].
  - destruct (get_new_goal pr h s) as [[s1 v]|] eqn:E; simplify_eq/=. by eapply inv_flush.
  - unfold accept_goal in H.
    destruct (goals s !! h_goal_id (new_inner h)) as [[[] a x]|] eqn:E; simplify_eq/=; try done.
    eapply inv_insert; [done..| | |]; simpl; [|done|done]. intros ? [= <-]%(eq_trans (eq_sym E)). done.
  - unfold reject_goal in H.
    destruct (goals s !! h_goal_id (new_inner h)) as [[[] a x]|] eqn:E; simplify_eq/=; try done.
    by eapply inv_reject.
  - unfold start_executing_goal in H.
    destruct (goals s !! h_goal_id (acc_inner h)) as [[[] a x]|] eqn:E; simplify_eq/=; try done.
    destruct (Hok (h_goal_id (acc_inner h))) as [_ Ht]. specialize (Ht _ E). simpl in Ht.
    eapply inv_insert; [done..| | |]; simpl; [|done|].
    + intros ? [= <-]%(eq_trans (eq_sym E)). done.
    + split; [intros Ha%Ht; discriminate Ha|done].
  - unfold publish_feedback in H.
    destruct (goals s !! h_goal_id (exe_inner h)) as [[[] a x]|]; by simplify_eq/=.
  - unfold send_result_response in H. subst w.
    destruct (find_result_request _ inc s) as [[s1 [req|er]]|] eqn:Ef; simplify_eq/=;
      apply find_result_goals in Ef as [Eg Efin].
    2: { by eapply inv_same_goals. }
    assert (server_inv s1) as Hinv1 by (by eapply inv_same_goals).
    destruct (goals s1 !! h_goal_id (exe_inner h)) as [[[] a x]|] eqn:E; simplify_eq/=;
      try done; (eapply inv_end; [exact Hinv1|exact E|done|done| |done|done]); by destruct e.
  - unfold abort_goal in H.
    destruct (goals s !! h_goal_id h) as [[[] a x]|] eqn:E; simplify_eq/=; try done;
      by (eapply (inv_end s _ _ _ Aborted); [exact Hinv|exact E|done..]).
  - simplify_eq/=. by apply (inv_cancel w h gs s).
Qed.

Lemma reachable_inv pr s : reachable pr s → server_inv s.
Proof.
  induction 1 as [|c s s' _ IH Hd He]; [|by eapply inv_exec].
  split; [by apply NoDup_nil_2|]. intros g. unfold goal_ok. simpl.
  rewrite lookup_empty. split; [|done]. split; [set_solver|by intros (?&?&?)].
Qed.

(** C13: as long as cancel responses name only goals that can be canceled and
    results can be written, in every reachable state the finished goals are
    exactly the ended ones, each listed once; so the flush that precedes a new
    goal never fails its assertion, loses no goal, and removes the ended goals
    and no others. *)
Theorem flush_correct pr s :
  reachable pr s →
  NoDup (finished_goals s) ∧
  (∀ g ag, goals s !! g = Some ag → (accepted_time ag = None ↔ status ag = Unknown)) ∧
  ∃ s', flush_finisehd_goals pr s = Some s' ∧ finished_goals s' = [] ∧
    ∀ g, goals s' !! g = match goals s !! g with
                         | Some ag => if looks_done (status ag) then None else Some ag
                         | None => None
                         end.
Proof.
  intros [Hnd Hok]%reachable_inv. split; [done|]. split; [intros g; apply Hok|].
  destruct (flush_each_total pr (finished_goals s) (goals s)) as [gs Hgs].
  { intros g ag Hin Hag. apply Hok in Hin as (?&?&?). congruence. }
  exists {| goals := gs; finished_goals := []; result_requests := result_requests s |}.
  split; [unfold flush_finisehd_goals; by rewrite Hgs|]. split; [done|]. intros g. simpl.
  destruct (flush_each_spec _ _ _ _ Hgs g) as [-> _]. destruct (Hok g) as [H1 _].
  destruct (decide _) as [Hin|Hin]; rewrite H1 in Hin.
  - destruct Hin as (ag&->&->). done.
  - destruct (goals s !! g) as [ag|] eqn:E; [|done].
    destruct (looks_done _) eqn:El; [|done]. exfalso. eauto.
Qed.

(** Without that discipline the flush panics in debug builds: canceling a
    goal that has ended -- which neither the code nor the cancel handle prevents
    -- puts it back to canceling while it stays in the list of finished goals. *)
Lemma cancel_ended_goal_panics s g ag t written h h' :
  goals s !! g = Some ag → accepted_time ag = Some t →
  finished_goals s = [g] →
  let s' := fst (fst (respond_to_cancel_requests (R:=R) (F:=F) written h [g] s)) in
  status <$> goals s' !! g = Some Canceling ∧ get_new_goal Debug h' s' = None.
Proof.
  intros Hg Ht Hf s'.
  assert (goals s' !! g = Some (set_status Canceling ag)) as Hl.
  { change (goals s') with (cancel_each (canceling_goals [g] s) (goals s)).
    rewrite cancel_each_lookup, decide_True, Hg; [done|].
    apply elem_of_canceling_goals. split; [by left|eauto]. }
  rewrite Hl. split; [done|].
  assert (finished_goals s' = [g]) as Hf' by done. clearbody s'.
  unfold get_new_goal, flush_finisehd_goals. rewrite Hf'. simpl. by rewrite Hl.
Qed.

(** The goals offered for cancellation are exactly the accepted or executing
    ones that the request selects -- all of them, those accepted strictly before
    its time stamp, the one with its id, or both -- in id order and without
    repetition. *)
Lemma receive_cancel_request_spec s (req : ReqId * CancelGoalRequest) :
  let info := cr_goal_info (snd req) in
  let selected := cancel_goals (receive_cancel_request req s) in
  StronglySorted N.le selected ∧ NoDup selected ∧
  ∀ g, g ∈ selected ↔ ∃ ag, goals s !! g = Some ag ∧
    (status ag = Accepted ∨ status ag = Executing) ∧
    ((goal_id info = UUID_ZERO ∧ stamp info = Time_ZERO) ∨
     (goal_id info ≠ UUID_ZERO ∧ g = goal_id info) ∨
     (stamp info ≠ Time_ZERO ∧ ∃ t, accepted_time ag = Some t ∧
        (nanos_since_epoch t < nanos_since_epoch (stamp info))%Z)).
Proof.
  simpl. set (l := List.filter _ _).
  assert (l.*1 `sublist_of` (entries N.le (goals s)).*1) as Hsub.
  { apply fmap_sublist. etrans; apply sublist_List_filter. }
  split; [|split].
  - eapply StronglySorted_sublist; [exact Hsub|apply (entries_sorted N.le)].
  - eapply sublist_NoDup; [|exact Hsub]. apply NoDup_entries_keys.
  - intros g. unfold l. rewrite list_elem_of_fmap. split.
    + intros ([g' ag]&->&Hin). rewrite list_elem_of_In, !filter_In, <- list_elem_of_In in Hin.
      destruct Hin as [[Hin%(elem_of_entries N.le) Hc] Hf]. exists ag. split; [done|].
      split; [simpl in Hc; destruct (status ag); auto; discriminate Hc|].
      revert Hf. unfold goal_filter, accepted_before. simpl.
      repeat case_bool_decide; rewrite ?orb_true_iff, ?N.eqb_eq;
        destruct (accepted_time ag); rewrite ?Z.ltb_lt; naive_solver.
    + intros (ag&Hg&Hs&Hf). exists (g, ag). split; [done|].
      rewrite list_elem_of_In, !filter_In, <- list_elem_of_In.
      split; [split; [by apply (elem_of_entries N.le)|]|].
      * simpl. by destruct Hs as [->| ->].
      * unfold goal_filter, accepted_before.
        repeat case_bool_decide; rewrite ?orb_true_iff, ?N.eqb_eq;
          destruct Hf as [[? ?]|[[? ?]|[? (t&Ht&?)]]]; rewrite ?Ht, ?Z.ltb_lt; naive_solver.
Qed.

(** The requests for other goals, buffered in order of arrival. *)
Definition buffer (pre : list (ReqId * N)) (m : gmap N ReqId) : gmap N ReqId :=
  fold_left (λ m p, <[p.2 := p.1]> m) pre m.

(** The result is sent to the request that asks for it: a buffered request
    of the goal answers at once; otherwise the server waits through the requests
    for other goals, keeping the latest of each, until the first one for this
    goal, and while none has come it neither sends the result nor ends the
    goal. *)
Lemma result_request_awaited s (h : ExecutingGoalHandle) e (res : R) pre req post :
  let g := h_goal_id (exe_inner h) in
  (∀ p, p ∈ pre → p.2 ≠ g) →
  let find inc := find_result_request g inc s in
  match result_requests s !! g with
  | Some req0 => ∀ inc, find inc = Some (s, Ok req0)
  | None =>
      find (Ok <$> pre) = None ∧
      send_result_response (F:=F) (Ok <$> pre) true h e res s = None ∧
      find ((Ok <$> pre) ++ Ok (req, g) :: post) =
        Some ({| goals := goals s; finished_goals := finished_goals s;
                 result_requests := buffer pre (result_requests s) |}, Ok req)
  end.
Proof.
  simpl. set (g := h_goal_id (exe_inner h)). intros Hpre. unfold find_result_request.
  destruct (result_requests s !! g) as [req0|] eqn:E; [done|].
  assert (∀ s1, await_result_request g (Ok <$> pre) s1 = None ∧
    await_result_request g ((Ok <$> pre) ++ Ok (req, g) :: post) s1 =
    Some ({| goals := goals s1; finished_goals := finished_goals s1;
             result_requests := buffer pre (result_requests s1) |}, Ok req)) as Haw.
  { clear E. induction pre as [|[r g'] pre IH]; intros s1.
    - simpl. rewrite N.eqb_refl. by destruct s1.
    - assert (g' ≠ g) as Hne by (apply (Hpre (r, g')); by left).
      rewrite fmap_cons. cbn [app await_result_request].
      destruct (N.eqb_spec g' g); [done|]. apply IH. intros p ?. apply Hpre. by right. }
  destruct (Haw s) as [H1 H2]. rewrite H1, H2. split; [done|]. split; [|done].
  unfold send_result_response, find_result_request. fold g. by rewrite E, H1.
Qed.
End spec.

(** ** A run *)

Definition goal7 : AsyncActionServer N N :=
  {| goals := {[7%N := {| status := Executing; accepted_time := Some (Time_from_nanos 5);
                          goal := 100%N |}]};
     finished_goals := []; result_requests := ∅ |}.
Definition handle7 : InnerGoalHandle := {| h_goal_id := 7 |}.
Definition aborted7 : AsyncActionServer N N :=
  fst (fst (abort_goal (R:=N) (F:=N) handle7 goal7)).

Lemma goal_state_machine_witness :
  goal_step (G:=N) Debug (goals goal7 !! 7%N) (goals aborted7 !! 7%N) ∧
  status <$> goals aborted7 !! 7%N = Some Aborted.
Proof.
  split; [|vm_compute; reflexivity].
  apply (goal_state_machine (R:=N) (F:=N) Debug goal7 aborted7).
  apply (step_call Debug (AbortGoal handle7)). vm_compute. reflexivity.
Defined.

Lemma flush_correct_witness :
  ∃ s : AsyncActionServer N N, reachable (R:=N) (F:=N) Debug s ∧
    size (goals s) = 1 ∧ ∃ s', flush_finisehd_goals Debug s = Some s' ∧ finished_goals s' = [].
Proof.
  assert (reachable (R:=N) (F:=N) Debug
            (fst (fst (accept_goal (R:=N) (F:=N) Time_ZERO true
               {| new_inner := handle7; req_id := 1%N |}
               (with_goals {[7%N := {| status := Unknown; accepted_time := None;
                                       goal := 100%N |}]} AsyncActionServer_new))))) as H.
  { eapply (reachable_step Debug (AcceptGoal Time_ZERO true
      {| new_inner := handle7; req_id := 1%N |})); [|exact I|reflexivity].
    eapply (reachable_step Debug (ReceiveNewGoal [(1%N, {| sg_goal_id := 7; sg_goal := 100%N |})]));
      [apply reachable_new|exact I|vm_compute; reflexivity]. }
  eexists. split; [exact H|]. split; [vm_compute; reflexivity|].
  destruct (flush_correct (R:=N) (F:=N) Debug _ H) as (_&_&s'&H1&H2&_). eauto.
Defined.

Lemma cancel_ended_goal_panics_witness :
  finished_goals aborted7 = [7%N] ∧
  get_new_goal Debug {| new_inner := handle7; req_id := 1%N |}
    (fst (fst (respond_to_cancel_requests (R:=N) (F:=N) true
       {| cancel_req_id := 2%N; cancel_goals := [7%N] |} [7%N] aborted7))) = None.
Proof.
  split; [vm_compute; reflexivity|].
  refine (proj2 (cancel_ended_goal_panics (R:=N) (F:=N) aborted7 7%N
    {| status := Aborted; accepted_time := Some (Time_from_nanos 5); goal := 100%N |}
    (Time_from_nanos 5) true _ _ _ _ _)); vm_compute; reflexivity.
Defined.

Lemma result_request_awaited_witness :
  find_result_request 7%N [Ok (1%N, 8%N); Ok (2%N, 7%N)] goal7 =
  Some ({| goals := goals goal7; finished_goals := [];
           result_requests := {[8%N := 1%N]} |}, Ok 2%N).
Proof.
  pose proof (result_request_awaited (F:=N) goal7 {| exe_inner := handle7 |} EndSucceeded 0%N
    [(1%N, 8%N)] 2%N []) as H.
  assert (∀ p : N * N, p ∈ [(1%N, 8%N)] → p.2 ≠ 7%N) as Hp.
  { intros p ->%list_elem_of_singleton. discriminate. }
  specialize (H Hp). exact (proj2 (proj2 H)).
Defined.
