(* ===== verification/ActionTasks.v ===== *)
(** * The asynchronous action server under interleaving (action/server.rs)

    The methods of [AsyncActionServer] take [&self] and lock its maps for one
    section at a time. Here every method is a task that runs one section per
    step, so that any interleaving of any number of calls is a list of events;
    ActionServer's calls are the runs without interference. *)
From S2P Require Import Prelude Time ActionServer.

Section tasks.
Context {G R F ReqId : Type}.
Abbreviation Msg := (message R F ReqId).

(** What a task does after it published the statuses. *)
Inductive after := MarkNext (g : GoalId) | Respond (m : Msg) | ReturnNext.
Inductive task :=
| ReceiveGoal | InsertGoal (r : ReqId * SendGoalRequest (G:=G))
| GetGoal (h : NewGoalHandle (ReqId:=ReqId)) | LookUp (h : NewGoalHandle (ReqId:=ReqId))
| Accept (now : Time) (h : NewGoalHandle (ReqId:=ReqId))
| Reject (now : Time) (h : NewGoalHandle (ReqId:=ReqId))
| Start (h : AcceptedGoalHandle)
| Feedback (h : ExecutingGoalHandle) (feedback : F)
| SendResponse (h : ExecutingGoalHandle) (e : GoalEndStatus) (res : R)
| AwaitRequest (h : ExecutingGoalHandle) (e : GoalEndStatus) (res : R)
| EndGoal (h : ExecutingGoalHandle) (e : GoalEndStatus) (res : R) (req : ReqId)
| Abort (h : InnerGoalHandle)
| ReadCancels (h : CancelHandle (ReqId:=ReqId)) (todo : list GoalId) (infos : list GoalInfo)
| SetCanceling (h : CancelHandle (ReqId:=ReqId)) (todo infos : list GoalInfo)
| Publish (k : after)
| MarkFinished (g : GoalId)
| Send (m : Msg)
| Returned (r : result GoalError unit).

(** The server with the requests that wait to be taken. *)
Record Shared := {
  server : AsyncActionServer G ReqId;
  goal_requests : list (result unit (ReqId * SendGoalRequest (G:=G)));
  request_stream : list (result unit (ReqId * GoalId));
}.
Definition with_server (s : AsyncActionServer G ReqId) (sh : Shared) : Shared :=
  {| server := s; goal_requests := goal_requests sh; request_stream := request_stream sh |}.

(** *** The sections of the calls that have more than one *)

(** [receive_new_goal]: a turn of its loop takes a request, or an error, which
    ends the call, and then looks its goal up and adds it under the lock. *)
Definition receive_section (sh : Shared) : option (Shared * task) :=
  match goal_requests sh with
  | [] => None
  | r :: rest =>
      Some ({| server := server sh; goal_requests := rest; request_stream := request_stream sh |},
            match r with Ok r => InsertGoal r | Err _ => Returned (Err DDSReadError) end)
  end.
Definition insert_section (r : ReqId * SendGoalRequest (G:=G)) (s : AsyncActionServer G ReqId) :
    AsyncActionServer G ReqId * task :=
  match receive_new_goal [r] s with
  | Some (s, _, _) => (s, Returned (Ok tt))
  | None => (s, ReceiveGoal)
  end.
(** [send_result_response]: the look at the buffer, one turn of the loop over
    the stream, the section over the goals. *)
Definition buffer_section (h : ExecutingGoalHandle) (e : GoalEndStatus) (res : R)
    (s : AsyncActionServer G ReqId) : task :=
  match result_requests s !! h_goal_id (exe_inner h) with
  | Some req => EndGoal h e res req
  | None => AwaitRequest h e res
  end.
Definition stream_section (h : ExecutingGoalHandle) (e : GoalEndStatus) (res : R) (sh : Shared) :
    option (Shared * task) :=
  match request_stream sh with
  | [] => None
  | Err _ :: rest =>
      Some ({| server := server sh; goal_requests := goal_requests sh; request_stream := rest |},
            Returned (Err DDSReadError))
  | Ok (req, g) :: rest =>
      Some
        (if (g =? h_goal_id (exe_inner h))%N
         then ({| server := server sh; goal_requests := goal_requests sh; request_stream := rest |},
               EndGoal h e res req)
         else ({| server := {| goals := goals (server sh); finished_goals := finished_goals (server sh);
                               result_requests := <[g := req]> (result_requests (server sh)) |};
                  goal_requests := goal_requests sh; request_stream := rest |},
               AwaitRequest h e res))
  end.
Definition end_section (written : bool) (h : ExecutingGoalHandle) (e : GoalEndStatus) (res : R)
    (req : ReqId) (s : AsyncActionServer G ReqId) : AsyncActionServer G ReqId * list Msg * task :=
  let g := h_goal_id (exe_inner h) in
  match goals s !! g with
  | None => (s, [], Returned (Err NoSuchGoal))
  | Some ag =>
      match status ag with
      | Accepted | Executing | Canceling =>
          (with_goals (<[g := set_status (end_status e) ag]> (goals s)) s,
           [SendResult req (end_status e) res],
           if written then Publish (MarkNext g) else Returned (Err DDSWriteError))
      | _ => (s, [], Returned (Err WrongGoalState))
      end
  end.
Definition abort_section (h : InnerGoalHandle) (s : AsyncActionServer G ReqId) :
    AsyncActionServer G ReqId * task :=
  let g := h_goal_id h in
  match goals s !! g with
  | None => (s, Returned (Err NoSuchGoal))
  | Some ag =>
      match status ag with
      | Accepted | Executing =>
          (with_goals (<[g := set_status Aborted ag]> (goals s)) s, Publish (MarkNext g))
      | _ => (s, Returned (Err WrongGoalState))
      end
  end.
(** [respond_to_cancel_requests]: every goal is looked at, and then set, in a
    section of its own. *)
Definition cancel_response (infos : list GoalInfo) : CancelGoalResponse :=
  {| return_code := match infos with [] => Rejected | _ => NoError end; goals_canceling := infos |}.
Definition read_section (h : CancelHandle (ReqId:=ReqId)) (todo : list GoalId) (infos : list GoalInfo)
    (s : AsyncActionServer G ReqId) : task :=
  match todo with
  | g :: todo => ReadCancels h todo (infos ++ canceling_goals [g] s)
  | [] => SetCanceling h infos infos
  end.
Definition cancel_section (h : CancelHandle (ReqId:=ReqId)) (todo infos : list GoalInfo)
    (s : AsyncActionServer G ReqId) : AsyncActionServer G ReqId * task :=
  match todo with
  | i :: todo => (with_goals (cancel_each [i] (goals s)) s, SetCanceling h todo infos)
  | [] => (s, Publish (Respond (SendCancelResponse (cancel_req_id h) (cancel_response infos))))
  end.

(** The result of a call with one section, without what follows the section. *)
Definition outcome {A} (r : result GoalError A) (next : task) : task :=
  match r with Ok _ => next | Err e => Returned (Err e) end.

(** One step of a task: [None] when it has to wait, has returned, or panics.
    [written] tells whether what it writes is written. *)
Definition resume (pr : profile) (written : bool) (t : task) (sh : Shared) :
    option (Shared * list Msg * task) :=
  let s := server sh in
  match t with
  | ReceiveGoal => '(sh, t) ← receive_section sh; Some (sh, [], t)
  | InsertGoal r => let '(s, t) := insert_section r s in Some (with_server s sh, [], t)
  | GetGoal h => s ← flush_finisehd_goals pr s; Some (with_server s sh, [], LookUp h)
  | LookUp _ => Some (sh, [], Returned (Ok tt))
  | Accept now h =>
      let '(s, _, r) := accept_goal (R:=R) (F:=F) now true h s in
      Some (with_server s sh, [], outcome r (Publish (Respond (SendGoalResponse (req_id h) true now))))
  | Reject now h =>
      let '(s, _, r) := reject_goal (R:=R) (F:=F) now true h s in
      Some (with_server s sh, [], outcome r (Send (SendGoalResponse (req_id h) false now)))
  | Start h =>
      let '(s, _, r) := start_executing_goal (R:=R) (F:=F) h s in
      Some (with_server s sh, [], outcome r (Publish ReturnNext))
  | Feedback h f =>
      let '(s, out, r) := publish_feedback (R:=R) written h f s in
      Some (with_server s sh, out, Returned r)
  | SendResponse h e res => Some (sh, [], buffer_section h e res s)
  | AwaitRequest h e res => '(sh, t) ← stream_section h e res sh; Some (sh, [], t)
  | EndGoal h e res req =>
      let '(s, out, t) := end_section written h e res req s in Some (with_server s sh, out, t)
  | Abort h => let '(s, t) := abort_section h s in Some (with_server s sh, [], t)
  | ReadCancels h todo infos => Some (sh, [], read_section h todo infos s)
  | SetCanceling h todo infos =>
      let '(s, t) := cancel_section h todo infos s in Some (with_server s sh, [], t)
  | Publish k =>
      Some (sh, [publish_statuses s],
            match k with
            | MarkNext g => MarkFinished g
            | Respond m => Send m
            | ReturnNext => Returned (Ok tt)
            end)
  | MarkFinished g => Some (with_server (mark_goal_finished g s) sh, [], Returned (Ok tt))
  | Send m => Some (sh, [m], Returned (if written then Ok tt else Err DDSWriteError))
  | Returned _ => None
  end.

(** *** Any number of calls *)
Record World := { shared : Shared; tasks : list task }.
(** A task runs one step, a call is made, a request arrives. *)
Inductive event :=
| Run (i : nat) (written : bool)
| Spawn (t : task)
| GoalRequest (r : result unit (ReqId * SendGoalRequest (G:=G)))
| ResultRequest (r : result unit (ReqId * GoalId)).
(** The tasks that stand for calls. *)
Definition initial (t : task) : bool :=
  match t with
  | ReceiveGoal | GetGoal _ | Accept _ _ | Reject _ _ | Start _ | Feedback _ _
  | SendResponse _ _ _ | Abort _ | ReadCancels _ _ [] => true
  | _ => false
  end.
Definition event_step (pr : profile) (ev : event) (w : World) : option World :=
  match ev with
  | Run i written =>
      t ← tasks w !! i;
      '(sh, _, t) ← resume pr written t (shared w);
      Some {| shared := sh; tasks := <[i := t]> (tasks w) |}
  | Spawn t => if initial t then Some {| shared := shared w; tasks := tasks w ++ [t] |} else None
  | GoalRequest r =>
      Some {| shared := {| server := server (shared w); goal_requests := goal_requests (shared w) ++ [r];
                           request_stream := request_stream (shared w) |}; tasks := tasks w |}
  | ResultRequest r =>
      Some {| shared := {| server := server (shared w); goal_requests := goal_requests (shared w);
                           request_stream := request_stream (shared w) ++ [r] |}; tasks := tasks w |}
  end.
Fixpoint run_events (pr : profile) (evs : list event) (w : World) : option World :=
  match evs with
  | [] => Some w
  | ev :: evs => w ← event_step pr ev w; run_events pr evs w
  end.
Definition World_new : World :=
  {| shared := {| server := AsyncActionServer_new; goal_requests := []; request_stream := [] |};
     tasks := [] |}.
(** A call run to its end without interference: at most [fuel] steps. *)
Fixpoint run_alone (pr : profile) (fuel : nat) (t : task) (sh : Shared) :
    option (Shared * list Msg * result GoalError unit) :=
  match fuel, t with
  | _, Returned r => Some (sh, [], r)
  | O, _ => None
  | S fuel, _ =>
      '(sh, out1, t) ← resume pr true t sh;
      '(sh, out2, r) ← run_alone pr fuel t sh;
      Some (sh, out1 ++ out2, r)
  end.
End tasks.
Arguments Shared : clear implicits.
Arguments World : clear implicits.
Arguments task : clear implicits.
Arguments event : clear implicits.

Section lemmas.
Context {G R F ReqId : Type}.
Abbreviation Server := (AsyncActionServer G ReqId).
Abbreviation Task := (task G R F ReqId).
Implicit Types (t : Task) (sh : Shared G ReqId) (w : World G R F ReqId) (ev : event G R F ReqId).

(** ** One section, one goal *)

(** The goal state machine, and what two sections of different calls can add to
    it: a goal looked up for a cancel response is set to canceling in a later
    section, whatever became of it. *)
Inductive goal_section (pr : profile) t : option (AsyncGoal G) → option (AsyncGoal G) → Prop :=
| section_goal_step o o' : goal_step pr o o' → goal_section pr t o o'
| section_cancel h i todo infos ag :
    t = SetCanceling h (i :: todo) infos → goal_section pr t (Some ag) (Some (set_status Canceling ag)).

(** The calls with one section step as ActionServer's calls do. *)
Lemma exec_goal_step pr c (s s' : Server) g :
  exec (R:=R) (F:=F) pr c s = Some s' → goal_step pr (goals s !! g) (goals s' !! g).
Proof. intros H. revert g. eapply goal_state_machine, step_call, H. Qed.

Lemma resume_goal pr written t sh sh' out t' g :
  resume pr written t sh = Some (sh', out, t') →
  goal_section pr t (goals (server sh) !! g) (goals (server sh') !! g).
Proof.
  intros H. destruct t as [|q|h|h|now h|now h|h|h f|h e res|h e res|h e res req|h|h todo infos
                          |h todo infos|k|f|m|r]; cbn [resume] in H.
  - unfold receive_section in H. destruct (goal_requests sh); simplify_eq/=. constructor. constructor.
  - unfold insert_section in H.
    destruct (receive_new_goal [q] _) as [[[s h] l]|] eqn:E; simplify_eq/=; constructor; [|constructor].
    apply (exec_goal_step pr (ReceiveNewGoal [q])). simpl. by rewrite E.
  - destruct (flush_finisehd_goals pr _) as [s|] eqn:E; simplify_eq/=. constructor.
    apply (exec_goal_step pr (GetNewGoal h)). simpl. unfold get_new_goal. by rewrite E.
  - simplify_eq/=. constructor. constructor.
  - destruct (accept_goal now true h _) as [[s o] r] eqn:E; simplify_eq/=. constructor.
    apply (exec_goal_step pr (AcceptGoal now true h)). simpl. by rewrite E.
  - destruct (reject_goal now true h _) as [[s o] r] eqn:E; simplify_eq/=. constructor.
    apply (exec_goal_step pr (RejectGoal now true h)). simpl. by rewrite E.
  - destruct (start_executing_goal h _) as [[s o] r] eqn:E; simplify_eq/=. constructor.
    apply (exec_goal_step pr (StartExecutingGoal h)). simpl. by rewrite E.
  - destruct (publish_feedback written h f _) as [[s o] r] eqn:E; simplify_eq/=. constructor.
    apply (exec_goal_step pr (PublishFeedback written h f)). simpl. by rewrite E.
  - simplify_eq/=. constructor. constructor.
  - unfold stream_section in H. destruct (request_stream sh) as [|[[req g']|e'] rest]; simplify_eq/=;
      [|constructor; constructor]. destruct (_ =? _)%N; simplify_eq/=; constructor; constructor.
  - unfold end_section in H.
    destruct (goals (server sh) !! h_goal_id (exe_inner h)) as [[[] a x]|] eqn:E; simplify_eq/=;
      constructor; try constructor; apply goal_step_insert; rewrite E; constructor; auto.
  - unfold abort_section in H.
    destruct (goals (server sh) !! h_goal_id h) as [[[] a x]|] eqn:E; simplify_eq/=;
      constructor; try constructor; apply goal_step_insert; rewrite E;
      apply (gs_end _ _ EndAborted); auto.
  - simplify_eq/=. constructor. constructor.
  - destruct todo as [|i todo]; cbn [cancel_section] in H; injection H as <- _ _;
      [constructor; constructor|].
    change (goals (server (with_server _ sh))) with (cancel_each [i] (goals (server sh))).
    rewrite cancel_each_lookup. destruct (decide _) as [Hin|]; [|constructor; constructor].
    destruct (goals (server sh) !! g) as [ag|]; [by eapply section_cancel|constructor; constructor].
  - simplify_eq/=. constructor. constructor.
  - simplify_eq/=. constructor. constructor.
  - simplify_eq/=. constructor. constructor.
  - done.
Qed.
End lemmas.

Section invariant.
Context {G R F ReqId : Type}.
Abbreviation Server := (AsyncActionServer G ReqId).
Abbreviation Task := (task G R F ReqId).
Implicit Types (t : Task) (sh : Shared G ReqId) (w : World G R F ReqId) (ev : event G R F ReqId).

(** ** The finished goals

    A goal that a task has ended and has still to put on the list. *)
Definition pending t : option GoalId :=
  match t with Publish (MarkNext g) | MarkFinished g => Some g | _ => None end.
(** The goal that a section ends without writing its result: the status is set
    before the write, whose error returns at once. *)
Definition unwritten (written : bool) t (s : Server) : list GoalId :=
  match t with
  | EndGoal h _ _ _ =>
      let g := h_goal_id (exe_inner h) in
      if written then [] else
      match status <$> goals s !! g with Some (Accepted | Executing | Canceling) => [g] | _ => [] end
  | _ => []
  end.
Definition refinish (l : list GoalId) (s : Server) : Server :=
  {| goals := goals s; finished_goals := l; result_requests := result_requests s |}.
(** The invariant of the server when [held] are the goals that have ended and are
    not on the list: those some task has still to list, and those that are never
    listed. *)
Definition holds (held : list GoalId) (s : Server) : Prop :=
  server_inv (refinish (finished_goals s ++ held) s).

Lemma server_inv_perm (s s' : Server) :
  server_inv s → goals s' = goals s → finished_goals s' ≡ₚ finished_goals s → server_inv s'.
Proof.
  intros [Hnd Hok] Hg Hf. split; [by rewrite Hf|]. intros g. destruct (Hok g) as [H1 H2].
  unfold goal_ok. rewrite Hg, Hf. done.
Qed.
Lemma holds_same held held' (s s' : Server) :
  goals s' = goals s → finished_goals s' = finished_goals s → held ≡ₚ held' →
  holds held s → holds held' s'.
Proof.
  intros Hg Hf Hp H. eapply server_inv_perm; [exact H|done|]. simpl. by rewrite Hf, Hp.
Qed.
(** What it means. *)
Lemma holds_ended held (s : Server) g :
  holds held s →
  g ∈ finished_goals s ++ held ↔ ∃ ag, goals s !! g = Some ag ∧ looks_done (status ag) = true.
Proof. intros [_ Hok]. apply (Hok g). Qed.
Lemma holds_accepted held (s : Server) g ag :
  holds held s → goals s !! g = Some ag → accepted_time ag = None ↔ status ag = Unknown.
Proof. intros [_ Hok] Hg. by apply (Hok g). Qed.
Lemma holds_flushes pr held (s : Server) : holds held s → is_Some (flush_finisehd_goals pr s).
Proof.
  intros H. destruct (flush_each_total pr (finished_goals s) (goals s)) as [gs Hgs].
  { intros g ag Hin Hag. destruct (proj1 (holds_ended _ _ g H)) as (ag'&Hag'&Hd);
      [apply elem_of_app; by left|]. congruence. }
  unfold flush_finisehd_goals. rewrite Hgs. by eexists.
Qed.

(** *** The sections *)
(** ActionServer's calls that neither finish nor flush do not look at the list. *)
Definition keeps_finished (c : call G R F ReqId) : bool :=
  match c with
  | ReceiveNewGoal _ | AcceptGoal _ _ _ | RejectGoal _ _ _ | StartExecutingGoal _
  | PublishFeedback _ _ _ => true
  | _ => false
  end.
Lemma exec_refinish pr c (s s' : Server) l :
  keeps_finished c = true → exec pr c s = Some s' →
  finished_goals s' = finished_goals s ∧ exec pr c (refinish l s) = Some (refinish l s').
Proof.
  intros Hc H. destruct c as [inc|h|now wr h|now wr h|h|wr h f|inc wr h e r|h|wr h gs]; try done; simpl in *.
  - destruct (receive_new_goal inc s) as [[[s1 h1] rest]|] eqn:E; [|done]. simplify_eq/=.
    induction inc as [|[req r] inc IH]; simpl in E |- *; [done|].
    destruct (goals s !! _) eqn:Eg; [by apply IH|]. by simplify_eq/=.
  - unfold accept_goal in *. simpl.
    destruct (goals s !! h_goal_id (new_inner h)) as [[[] a x]|]; by simplify_eq/=.
  - unfold reject_goal in *. simpl.
    destruct (goals s !! h_goal_id (new_inner h)) as [[[] a x]|]; by simplify_eq/=.
  - unfold start_executing_goal in *. simpl.
    destruct (goals s !! h_goal_id (acc_inner h)) as [[[] a x]|]; by simplify_eq/=.
  - unfold publish_feedback in *. simpl.
    destruct (goals s !! h_goal_id (exe_inner h)) as [[[] a x]|]; by simplify_eq/=.
Qed.
Lemma holds_call pr c held (s s' : Server) :
  keeps_finished c = true → exec pr c s = Some s' → holds held s → holds held s'.
Proof.
  intros Hk He H. destruct (exec_refinish pr c _ _ (finished_goals s ++ held) Hk He) as [Hf He'].
  unfold holds. rewrite Hf. eapply (inv_exec pr c); [exact H| |exact He']. by destruct c.
Qed.
(** A goal ended in one section, to be marked in a later one or never. *)
Lemma holds_end held (s : Server) g old st :
  holds held s → goals s !! g = Some old → looks_done (status old) = false →
  status old ≠ Unknown → looks_done st = true →
  holds (g :: held) (with_goals (<[g := set_status st old]> (goals s)) s).
Proof.
  intros H Hg Hold Hk Hst.
  eassert (server_inv (refinish ((finished_goals s ++ held) ++ [g])
    (with_goals (<[g := set_status st old]> (goals s)) s))) as H'.
  { eapply (inv_end (refinish (finished_goals s ++ held) s) _ g old st); done. }
  eapply server_inv_perm; [exact H'|done|]. simpl.
  by rewrite <-app_assoc, <-Permutation_cons_append.
Qed.
Lemma holds_mark held (s : Server) g : holds (g :: held) s → holds held (mark_goal_finished g s).
Proof. intros H. eapply server_inv_perm; [exact H|done|]. simpl. by rewrite <-app_assoc. Qed.
(** A flush while goals are held. *)
Lemma holds_flush pr held (s s' : Server) :
  holds held s → flush_finisehd_goals pr s = Some s' →
  holds held s' ∧ finished_goals s' = [] ∧
  ∀ g, goals s' !! g = if decide (g ∈ finished_goals s) then None else goals s !! g.
Proof.
  intros [Hnd Hok] H. unfold flush_finisehd_goals in H.
  destruct (flush_each pr _ _) as [gs|] eqn:E; [|done]. injection H as <-.
  assert (∀ g, gs !! g = if decide (g ∈ finished_goals s) then None else goals s !! g) as Hl
    by (intros g; by destruct (flush_each_spec _ _ _ _ E g) as [-> _]).
  split; [|done]. cbn [finished_goals goals refinish] in Hnd, Hok. unfold holds. simpl.
  apply NoDup_app in Hnd as (_&Hdisj&Hnd). split; [done|]. intros g. destruct (Hok g) as [Hg1 Hg2].
  unfold goal_ok in *. cbn [finished_goals goals refinish] in *. rewrite Hl. rewrite elem_of_app in Hg1.
  destruct (decide _) as [Hin|Hin]; split; try done.
  - split; [intros Hpn; by destruct (Hdisj g)|by intros (?&?&?)].
  - rewrite <-Hg1. tauto.
Qed.
(** Setting a goal that has not ended to canceling. *)
Lemma holds_cancel held (s : Server) g old :
  holds held s → goals s !! g = Some old → looks_done (status old) = false → status old ≠ Unknown →
  holds held (with_goals (<[g := set_status Canceling old]> (goals s)) s).
Proof.
  intros H Hg Hold Hk. eapply (inv_insert (refinish (finished_goals s ++ held) s)); [done..| |done|].
  - simpl. intros old' Ho. by simplify_eq.
  - simpl. rewrite (holds_accepted _ _ _ _ H Hg). by split.
Qed.

(** Tasks that answer cancel requests. *)
Definition is_cancel t : bool :=
  match t with ReadCancels _ _ _ | SetCanceling _ _ _ => true | _ => false end.
(** Every other section keeps the invariant, whatever else is held. *)
Lemma holds_resume pr written t held sh sh' out t' :
  is_cancel t = false → resume pr written t sh = Some (sh', out, t') →
  holds (option_list (pending t) ++ held) (server sh) →
  holds (option_list (pending t') ++ unwritten written t (server sh) ++ held) (server sh').
Proof.
  intros Hc H Hinv.
  destruct t as [|q|h|h|now h|now h|h|h f|h e res|h e res|h e res req|h|h todo infos
                |h todo infos|k|f|m|r]; try done; cbn [resume] in H.
  - unfold receive_section in H. by destruct (goal_requests _) as [|[q|er] rest]; simplify_eq/=.
  - unfold insert_section in H.
    destruct (receive_new_goal [q] _) as [[[s h] l]|] eqn:E; simplify_eq/=; [|done].
    apply (holds_call pr (ReceiveNewGoal [q]) held (server sh)); [done| |done]. simpl. by rewrite E.
  - destruct (flush_finisehd_goals pr _) as [s|] eqn:E; simplify_eq/=. by eapply holds_flush.
  - by simplify_eq/=.
  - destruct (accept_goal now true h _) as [[s o] r] eqn:E; simplify_eq/=.
    assert (pending (outcome (G:=G) r (Publish (Respond (SendGoalResponse (R:=R) (F:=F) (req_id h) true now)))) = None)
      as -> by by destruct r.
    apply (holds_call pr (AcceptGoal now true h) held (server sh)); [done| |done]. simpl. by rewrite E.
  - destruct (reject_goal now true h _) as [[s o] r] eqn:E; simplify_eq/=.
    assert (pending (outcome (G:=G) r (Send (SendGoalResponse (R:=R) (F:=F) (req_id h) false now))) = None)
      as -> by by destruct r.
    apply (holds_call pr (RejectGoal now true h) held (server sh)); [done| |done]. simpl. by rewrite E.
  - destruct (start_executing_goal h _) as [[s o] r] eqn:E; simplify_eq/=.
    assert (pending (outcome (G:=G) (R:=R) (F:=F) (ReqId:=ReqId) r (Publish ReturnNext)) = None) as -> by by destruct r.
    apply (holds_call pr (StartExecutingGoal h) held (server sh)); [done| |done]. simpl. by rewrite E.
  - destruct (publish_feedback written h f _) as [[s o] r] eqn:E; simplify_eq/=.
    apply (holds_call pr (PublishFeedback written h f) held (server sh)); [done| |done]. simpl. by rewrite E.
  - simplify_eq/=. unfold buffer_section. by destruct (result_requests _ !! _).
  - unfold stream_section in H. destruct (request_stream _) as [|[[req g']|e'] rest]; simplify_eq/=; [|done].
    destruct (_ =? _)%N; simplify_eq/=; [done|]. by eapply holds_same.
  - unfold end_section in H. cbn [unwritten].
    destruct (goals (server sh) !! h_goal_id (exe_inner h)) as [[st a x]|] eqn:E;
      [|simplify_eq/=; by destruct written].
    destruct st, written; simplify_eq/=; try done; (eapply holds_end; [done|exact E|done..|by destruct e]).
  - unfold abort_section in H.
    destruct (goals (server sh) !! h_goal_id h) as [[st a x]|] eqn:E; [|by simplify_eq/=].
    destruct st; simplify_eq/=; try done; (eapply holds_end; [done|exact E|done..]).
  - simplify_eq/=. by destruct k.
  - simplify_eq/=. by apply holds_mark.
  - by simplify_eq/=.
Qed.

(** *** Any number of tasks *)
Definition pending_goals w : list GoalId := omap pending (tasks w).
(** No cancel response is under way. *)
Definition uncanceled ev : Prop :=
  match ev with Spawn t => is_cancel t = false | _ => True end.
Definition unwritten_goal ev w : list GoalId :=
  match ev with
  | Run i written =>
      match tasks w !! i with Some t => unwritten written t (server (shared w)) | None => [] end
  | _ => []
  end.
(** The states that are reached without cancel responses, with the goals whose
    results could not be written on the way. *)
Inductive reachable_world pr : World G R F ReqId → list GoalId → Prop :=
| reachable_world_new : reachable_world pr World_new []
| reachable_world_step ev w w' lost :
    reachable_world pr w lost → uncanceled ev → event_step pr ev w = Some w' →
    reachable_world pr w' (unwritten_goal ev w ++ lost).
(** No task turns into a cancel response. *)
Lemma resume_calm pr written t sh sh' out t' :
  is_cancel t = false → resume pr written t sh = Some (sh', out, t') → is_cancel t' = false.
Proof.
  intros Hc H.
  destruct t as [|q|h|h|now h|now h|h|h f|h e res|h e res|h e res req|h|h todo infos
                |h todo infos|k|f|m|r]; try done; cbn [resume] in H.
  - unfold receive_section in H. by destruct (goal_requests _) as [|[q|er] rest]; simplify_eq/=.
  - unfold insert_section in H. by destruct (receive_new_goal [q] _) as [[[s h] l]|]; simplify_eq/=.
  - by destruct (flush_finisehd_goals pr _); simplify_eq/=.
  - by simplify_eq/=.
  - destruct (accept_goal now true h _) as [[s o] r]; simplify_eq/=. by destruct r.
  - destruct (reject_goal now true h _) as [[s o] r]; simplify_eq/=. by destruct r.
  - destruct (start_executing_goal h _) as [[s o] r]; simplify_eq/=. by destruct r.
  - by destruct (publish_feedback written h f _) as [[s o] r]; simplify_eq/=.
  - simplify_eq/=. unfold buffer_section. by destruct (result_requests _ !! _).
  - unfold stream_section in H. destruct (request_stream _) as [|[[req g']|e'] rest]; simplify_eq/=;
      [|done]. by destruct (_ =? _)%N; simplify_eq/=.
  - unfold end_section in H.
    destruct (goals _ !! _) as [[[] a x]|]; simplify_eq/=; try done; by destruct written.
  - unfold abort_section in H. by destruct (goals _ !! _) as [[[] a x]|]; simplify_eq/=.
  - simplify_eq/=. by destruct k.
  - by simplify_eq/=.
  - by simplify_eq/=.
Qed.
Lemma initial_pending t : initial t = true → pending t = None.
Proof. by destruct t. Qed.
Lemma holds_new : holds [] (server (World_new (R:=R) (F:=F)).(shared)).
Proof.
  split; [by apply NoDup_nil_2|]. intros g. unfold goal_ok. simpl.
  rewrite lookup_empty. split; [|done]. split; [set_solver|by intros (?&?&?)].
Qed.
Lemma reachable_world_inv pr w lost :
  reachable_world pr w lost →
  holds (pending_goals w ++ lost) (server (shared w)) ∧ Forall (λ t, is_cancel t = false) (tasks w).
Proof.
  induction 1 as [|ev w w' lost _ [Hinv Hc] Hd Hs]; [split; [exact holds_new|constructor]|].
  destruct ev as [i written|t|r|r]; cbn [event_step unwritten_goal] in *.
  - destruct (tasks w !! i) as [t|] eqn:Hi; [|done]. simpl in Hs.
    destruct (resume pr written t (shared w)) as [[[sh out] t']|] eqn:Hr; [|done]. simpl in Hs. simplify_eq.
    assert (is_cancel t = false) as Ht by by eapply (Forall_lookup_1 _ _ _ _ Hc).
    split; [|apply Forall_insert; [done|by eapply resume_calm]].
    destruct (omap_insert_perm pending (tasks w) i t t' Hi) as [H1 H2].
    eapply holds_same; [done|done| |eapply (holds_resume _ _ _ (omap pending (delete i (tasks w)) ++ lost));
      [exact Ht|exact Hr|]].
    + unfold pending_goals. cbn [tasks]. rewrite H2, <-app_assoc. apply Permutation_app_head.
      by rewrite !(assoc_L (++)), (Permutation_app_comm (unwritten _ _ _)).
    + eapply holds_same; [done..| |exact Hinv]. unfold pending_goals. by rewrite H1, app_assoc.
  - destruct (initial t) eqn:Ht; simplify_eq/=. split; [|apply Forall_app; by repeat constructor].
    unfold pending_goals. simpl. rewrite omap_app. simpl. by rewrite (initial_pending t Ht), app_nil_r.
  - by simplify_eq/=.
  - by simplify_eq/=.
Qed.
End invariant.

Section theorems.
Context {G R F ReqId : Type}.
Abbreviation Server := (AsyncActionServer G ReqId).
Abbreviation Task := (task G R F ReqId).
Implicit Types (t : Task) (sh : Shared G ReqId) (w : World G R F ReqId) (ev : event G R F ReqId).

(** C8: the goal state machine holds under every interleaving. Whatever calls
    run at the same time and however their sections interleave, every step moves
    every goal by at most one transition of the goal state machine, keeping its
    payload -- but for the second section of a cancel response, which sets the
    goals it looked up before to canceling, whatever has become of them since. *)
Theorem interleaved_goal_machine pr ev w w' :
  event_step pr ev w = Some w' →
  ∀ g, let old := goals (server (shared w)) !! g in let new := goals (server (shared w')) !! g in
  goal_step pr old new ∨
  ∃ i written h info todo infos ag, ev = Run i written ∧
    tasks w !! i = Some (SetCanceling h (info :: todo) infos) ∧
    old = Some ag ∧ new = Some (set_status Canceling ag).
Proof.
  intros H g. destruct ev as [i written|t|r|r]; cbn [event_step] in H.
  - destruct (tasks w !! i) as [t|] eqn:Hi; [|done]. simpl in H.
    destruct (resume pr written t (shared w)) as [[[sh out] t']|] eqn:Hr; simplify_eq/=.
    apply (resume_goal _ _ _ _ _ _ _ g) in Hr. inversion Hr as [? ? Hs|h info todo infos ag Ht]; subst.
    + by left.
    + right. do 7 eexists. by split_and!.
  - destruct (initial t); simplify_eq/=. left. constructor.
  - simplify_eq/=. left. constructor.
  - simplify_eq/=. left. constructor.
Qed.

(** C9: the list of finished goals under every interleaving. As long as no
    cancel response is under way, at every moment the goals on the list, those that
    some call has ended and not yet listed, and those whose result could not be
    written, which are never listed, are, without repetition, exactly the ended
    goals; so a flush at any moment never fails its assertion, and removes the
    listed goals, all of them ended, and no others: a goal whose result could not
    be written stays. *)
Theorem interleaved_flush pr w lost :
  reachable_world pr w lost →
  let s := server (shared w) in
  NoDup (finished_goals s ++ pending_goals w ++ lost) ∧
  (∀ g, g ∈ finished_goals s ++ pending_goals w ++ lost ↔
        ∃ ag, goals s !! g = Some ag ∧ looks_done (status ag) = true) ∧
  ∃ s', flush_finisehd_goals pr s = Some s' ∧ finished_goals s' = [] ∧
    (∀ g, goals s' !! g = if decide (g ∈ finished_goals s) then None else goals s !! g) ∧
    ∀ g, g ∈ lost → is_Some (goals s' !! g).
Proof.
  intros [H _]%reachable_world_inv. simpl. split; [apply H|]. split; [intros g; by apply holds_ended|].
  destruct (holds_flushes pr _ _ H) as [s' Hs']. exists s'. split; [done|].
  destruct (holds_flush _ _ _ _ H Hs') as (_&Hf&Hl). split_and!; [done..|]. intros g Hg.
  destruct (proj1 (holds_ended _ _ g H)) as (ag&Hag&_); [set_solver|]. rewrite Hl.
  rewrite decide_False; [by exists ag|]. intros Hin. destruct H as [Hnd _]. simpl in Hnd.
  apply NoDup_app in Hnd as (_&Hdisj&_). apply (Hdisj g Hin). set_solver.
Qed.

(** *** A lost request *)
(** No event brings a request for [g], or an error of the stream. *)
Definition brings_none (g : GoalId) ev : Prop :=
  match ev with ResultRequest (Ok (_, g')) => g' ≠ g | ResultRequest (Err _) => False | _ => True end.
Definition none_for (g : GoalId) (stream : list (result unit (ReqId * GoalId))) : Prop :=
  ∀ r, r ∈ stream → ∃ req g', r = Ok (req, g') ∧ g' ≠ g.
Lemma resume_stream pr written t sh sh' out t' g :
  resume pr written t sh = Some (sh', out, t') → none_for g (request_stream sh) →
  none_for g (request_stream sh').
Proof.
  intros H Hn. assert (request_stream sh' = request_stream sh ∨
    ∃ r, request_stream sh = r :: request_stream sh') as [->|(r&Hr)].
  { destruct t as [|q|h|h|now h|now h|h|h f|h e res|h e res|h e res req|h|h todo infos
                  |h todo infos|k|f|m|r]; cbn [resume] in H.
    - unfold receive_section in H. destruct (goal_requests _); simplify_eq/=. by left.
    - unfold insert_section in H.
      destruct (receive_new_goal [q] _) as [[[s h] l]|]; simplify_eq/=; by left.
    - destruct (flush_finisehd_goals pr _); simplify_eq/=. by left.
    - simplify_eq/=. by left.
    - destruct (accept_goal now true h _) as [[s o] r]; simplify_eq/=. by left.
    - destruct (reject_goal now true h _) as [[s o] r]; simplify_eq/=. by left.
    - destruct (start_executing_goal h _) as [[s o] r]; simplify_eq/=. by left.
    - destruct (publish_feedback written h f _) as [[s o] r]; simplify_eq/=. by left.
    - simplify_eq/=. by left.
    - unfold stream_section in H. right.
      destruct (request_stream sh) as [|[[req g']|e'] rest]; simplify_eq/=; [|by eexists].
      destruct (_ =? _)%N; simplify_eq/=; by eexists.
    - destruct (end_section _ _ _ _ _ _) as [[s o] t]; simplify_eq/=. by left.
    - destruct (abort_section _ _) as [s t]; simplify_eq/=. by left.
    - simplify_eq/=. by left.
    - destruct (cancel_section _ _ _ _) as [s t]; simplify_eq/=. by left.
    - simplify_eq/=. by left.
    - simplify_eq/=. by left.
    - simplify_eq/=. by left.
    - done. }
  - done.
  - rewrite Hr in Hn. intros r' Hin. apply Hn. by right.
Qed.
Lemma waits_forever pr evs w w' j h e res :
  tasks w !! j = Some (AwaitRequest h e res) →
  none_for (h_goal_id (exe_inner h)) (request_stream (shared w)) →
  Forall (brings_none (h_goal_id (exe_inner h))) evs →
  run_events pr evs w = Some w' →
  tasks w' !! j = Some (AwaitRequest h e res).
Proof.
  intros Hj Hn Hev. revert w Hj Hn. induction Hev as [|ev evs Hb _ IH]; intros w Hj Hn H; simpl in H.
  { by simplify_eq. }
  destruct (event_step pr ev w) as [w1|] eqn:Hs; [|done]. simpl in H.
  apply (IH w1); [..|done].
  - destruct ev as [i written|t|r|r]; cbn [event_step] in Hs.
    + destruct (tasks w !! i) as [t|] eqn:Hi; [|done]. simpl in Hs.
      destruct (resume pr written t (shared w)) as [[[sh out] t']|] eqn:Hr; simplify_eq/=.
      destruct (decide (i = j)) as [->|Hne]; [|by rewrite list_lookup_insert_ne].
      simplify_eq. cbn [resume] in Hr. unfold stream_section in Hr.
      rewrite list_lookup_insert_eq by by eapply lookup_lt_Some.
      destruct (request_stream (shared w)) as [|r rest]; [done|].
      destruct (Hn r ltac:(by left)) as (req&g'&->&Hg').
      rewrite (proj2 (N.eqb_neq _ _) Hg') in Hr. by simplify_eq/=.
    + destruct (initial t); simplify_eq/=. rewrite lookup_app_l; [done|]. by eapply lookup_lt_Some.
    + by simplify_eq/=.
    + by simplify_eq/=.
  - destruct ev as [i written|t|r|r]; cbn [event_step] in Hs.
    + destruct (tasks w !! i) as [t|]; [|done]. simpl in Hs.
      destruct (resume pr written t (shared w)) as [[[sh out] t']|] eqn:Hr; simplify_eq/=.
      by eapply resume_stream.
    + by destruct (initial t); simplify_eq/=.
    + by simplify_eq/=.
    + simplify_eq/=. intros r' [Hin|Hin]%elem_of_app; [by apply Hn|].
      apply list_elem_of_singleton in Hin as ->. destruct r as [[req g']|]; [|done]. eauto.
Qed.

(** C10: two results awaited at the same time. When two calls of
    [send_result_response] wait for requests and the next one is for the second
    call's goal, it depends on which call the executor runs first: if the second
    takes the request, it goes on to answer it; if the first does, it puts the
    request into the buffer, which the second call has looked at before and never
    looks at again: unless the client asks once more, the second call never
    returns, whatever else happens, although its request has arrived. *)
Theorem result_request_lost pr w i j h h' e e' res res' req rest :
  let g := h_goal_id (exe_inner h') in
  i ≠ j → h_goal_id (exe_inner h) ≠ g →
  tasks w !! i = Some (AwaitRequest h e res) → tasks w !! j = Some (AwaitRequest h' e' res') →
  request_stream (shared w) = Ok (req, g) :: rest → none_for g rest →
  (∃ w1, event_step pr (Run j true) w = Some w1 ∧ tasks w1 !! j = Some (EndGoal h' e' res' req)) ∧
  ∃ w1, event_step pr (Run i true) w = Some w1 ∧
    result_requests (server (shared w1)) !! g = Some req ∧
    ∀ evs w2, Forall (brings_none g) evs → run_events pr evs w1 = Some w2 →
      tasks w2 !! j = Some (AwaitRequest h' e' res').
Proof.
  intros g Hij Hg Hi Hj Hstream Hrest. split.
  - eexists. split.
    + cbn [event_step]. rewrite Hj. simpl. unfold stream_section. rewrite Hstream.
      fold g. rewrite N.eqb_refl. reflexivity.
    + simpl. apply list_lookup_insert_eq. by eapply lookup_lt_Some.
  - eexists. split; [|split].
    + cbn [event_step]. rewrite Hi. simpl. unfold stream_section. rewrite Hstream.
      rewrite (proj2 (N.eqb_neq g _)) by done. reflexivity.
    + simpl. by rewrite lookup_insert_eq.
    + intros evs w2 Hev. eapply waits_forever; [|exact Hrest|exact Hev].
      simpl. by rewrite list_lookup_insert_ne.
Qed.

(** One step of a run. *)
Lemma run_step pr i written t w sh out t' evs r :
  tasks w !! i = Some t → resume pr written t (shared w) = Some (sh, out, t') →
  run_events pr evs {| shared := sh; tasks := <[i:=t']> (tasks w) |} = r →
  run_events pr (Run i written :: evs) w = r.
Proof. intros Hi Hr Hrun. cbn [run_events event_step]. rewrite Hi. simpl. by rewrite Hr. Qed.
Ltac look := cbn [tasks]; repeat first
  [ rewrite list_lookup_insert_eq by (rewrite ?length_insert; done)
  | rewrite list_lookup_insert_ne by done ]; done.

(** C11: canceling against ending. An application that answers a cancel request
    only for goals that can be canceled can still make the next flush panic in
    debug builds: the response looks its goals up in one section and sets them
    to canceling in another, and between the two another call may end the goal
    and put it on the list of finished goals. The client has been sent the
    goal's end and is then told that it is being canceled. *)
Theorem cancel_race_panics w i j h h' e res req g ag st hk :
  i ≠ j → h_goal_id (exe_inner h') = g →
  goals (server (shared w)) !! g = Some ag → cancelable (status ag) = true →
  accepted_time ag = Some st → finished_goals (server (shared w)) = [] →
  tasks w !! i = Some (ReadCancels h [g] []) → tasks w !! j = Some (EndGoal h' e res req) →
  ∃ w1, run_events Debug ([Run i true; Run i true] ++ [Run j true; Run j true; Run j true] ++ [Run i true]) w
          = Some w1 ∧
    tasks w1 !! j = Some (Returned (Ok tt)) ∧
    status <$> goals (server (shared w1)) !! g = Some Canceling ∧
    resume (R:=R) (F:=F) Debug true (GetGoal hk) (shared w1) = None.
Proof.
  intros Hij Hg Hag Hc Hst Hf Hi Hj.
  assert (i < length (tasks w)) as Hil by by eapply lookup_lt_Some.
  assert (j < length (tasks w)) as Hjl by by eapply lookup_lt_Some.
  assert (canceling_goals [g] (server (shared w)) = [{| goal_id := g; stamp := st |}]) as Hinfos.
  { unfold canceling_goals. simpl. rewrite Hag. simpl. by rewrite Hst. }
  eexists. split.
  - cbn [app]. eapply run_step; [exact Hi|reflexivity|]. cbn [read_section app].
    rewrite Hinfos. eapply run_step; [look|reflexivity|]. cbn [read_section].
    eapply run_step; [look| |].
    { cbn [resume shared]. unfold end_section. rewrite Hg, Hag.
      instantiate (1 := Publish (MarkNext g)). destruct (status ag); try done; reflexivity. }
    eapply run_step; [look|reflexivity|]. eapply run_step; [look|reflexivity|].
    eapply run_step; [look|reflexivity|]. reflexivity.
  - split; [look|]. cbn [shared server with_server with_goals mark_goal_finished goals].
    unfold cancel_each. simpl. rewrite lookup_alter_eq, lookup_insert_eq. split; [done|].
    unfold flush_finisehd_goals. simpl. rewrite Hf. simpl. by rewrite lookup_alter_eq, lookup_insert_eq.
Qed.
End theorems.

(** ** Without interference *)
Section alone.
Context {G R F ReqId : Type}.
Abbreviation Server := (AsyncActionServer G ReqId).
Implicit Types (sh : Shared G ReqId) (t : task G R F ReqId).

Definition unit_result {A} (r : result GoalError A) : result GoalError unit :=
  match r with Ok _ => Ok tt | Err e => Err e end.
(** What a run leaves: the server, the messages, the result. *)
Definition alone pr fuel t sh :
    option (Server * list (message R F ReqId) * result GoalError unit) :=
  '(sh, out, r) ← run_alone pr fuel t sh; Some (server sh, out, r).
Lemma alone_step pr fuel t sh sh' out t' :
  resume pr true t sh = Some (sh', out, t') →
  alone pr (S fuel) t sh = '(s, out', r) ← alone pr fuel t' sh'; Some (s, out ++ out', r).
Proof.
  intros H. unfold alone. cbn [run_alone].
  assert (∀ r, t ≠ Returned r) as Ht by (intros r ->; done).
  destruct t; try (by exfalso; eapply Ht); rewrite H; cbn [mbind option_bind];
    by destruct (run_alone pr fuel t' sh') as [[[? ?] ?]|].
Qed.
Lemma alone_returned pr fuel (r : result GoalError unit) sh : alone pr fuel (Returned r) sh = Some (server sh, [], r).
Proof. by destruct fuel. Qed.
Lemma alone_marks pr n g sh :
  alone pr (S (S n)) (Publish (MarkNext g)) sh =
  Some (mark_goal_finished g (server sh), [publish_statuses (server sh)], Ok tt).
Proof. do 2 (erewrite alone_step by reflexivity). by rewrite alone_returned. Qed.
Lemma alone_responds pr n m sh :
  alone pr (S (S n)) (Publish (Respond m)) sh =
  Some (server sh, [publish_statuses (server sh); m], Ok tt).
Proof. do 2 (erewrite alone_step by reflexivity). by rewrite alone_returned. Qed.

Lemma alone_end pr n h e res req sh :
  alone pr (S (S (S n))) (EndGoal h e res req) sh =
  Some match goals (server sh) !! h_goal_id (exe_inner h) with
       | None => (server sh, [], Err NoSuchGoal)
       | Some ag =>
           match status ag with
           | Accepted | Executing | Canceling =>
               let s' := with_goals (<[h_goal_id (exe_inner h) := set_status (end_status e) ag]>
                                       (goals (server sh))) (server sh) in
               (mark_goal_finished (h_goal_id (exe_inner h)) s',
                [SendResult req (end_status e) res; publish_statuses s'], Ok tt)
           | _ => (server sh, [], Err WrongGoalState)
           end
       end.
Proof.
  pose proof (alone_step pr (S (S n)) (EndGoal h e res req) sh) as H. cbn [resume] in H.
  unfold end_section in H.
  destruct (goals (server sh) !! h_goal_id (exe_inner h)) as [[[] a x]|];
    rewrite (H _ _ _ eq_refl); rewrite ?alone_returned, ?alone_marks; done.
Qed.
Lemma alone_awaits pr n h e res stream sh :
  length stream < n → request_stream sh = stream →
  alone pr (S (S (S n))) (AwaitRequest h e res) sh =
  '(s, r) ← await_result_request (h_goal_id (exe_inner h)) stream (server sh);
  match r with
  | Err er => Some (s, [], Err er)
  | Ok req => alone pr 3 (EndGoal h e res req) (with_server s sh)
  end.
Proof.
  revert n sh. induction stream as [|[[req g]|er] stream IH]; intros n sh Hn Hs.
  - unfold alone. cbn [run_alone resume]. unfold stream_section. by rewrite Hs.
  - pose proof (alone_step pr (S (S n)) (AwaitRequest h e res) sh) as H. cbn [resume] in H.
    unfold stream_section in H. rewrite Hs in H. cbn [await_result_request].
    destruct n as [|n]; [simpl in Hn; lia|].
    destruct (g =? _)%N; rewrite (H _ _ _ eq_refl); clear H.
    + rewrite alone_end. cbn [mbind option_bind server with_server]. rewrite !alone_end. simpl.
      by destruct (goals (server sh) !! _) as [[[] a x]|].
    + rewrite IH; [|simpl in Hn; lia|done]. cbn [server].
      destruct (await_result_request _ _ _) as [[s [req'|er]]|]; [|done..]. simpl.
      rewrite !alone_end. simpl. by destruct (goals s !! _) as [[[] a x]|].
  - pose proof (alone_step pr (S (S n)) (AwaitRequest h e res) sh) as H. cbn [resume] in H.
    unfold stream_section in H. rewrite Hs in H. rewrite (H _ _ _ eq_refl), alone_returned. done.
Qed.
Lemma alone_reads pr n h gs infos sh :
  alone pr (length gs + S n) (ReadCancels h gs infos) sh =
  alone pr n (SetCanceling h (infos ++ canceling_goals gs (server sh)) (infos ++ canceling_goals gs (server sh))) sh.
Proof.
  revert infos. induction gs as [|g gs IH]; intros infos.
  - cbn [length Nat.add]. erewrite alone_step by reflexivity. cbn [read_section].
    unfold canceling_goals. cbn [omap list_omap]. rewrite app_nil_r.
    by destruct (alone pr n _ sh) as [[[? ?] ?]|].
  - cbn [length Nat.add]. erewrite alone_step by reflexivity. cbn [read_section]. rewrite IH.
    assert (∀ l, canceling_goals [g] (server sh) ++ canceling_goals l (server sh) =
                 canceling_goals (g :: l) (server sh)) as Hc.
    { intros l. unfold canceling_goals. by rewrite <-omap_app. }
    rewrite <-!app_assoc, Hc. by destruct (alone pr n _ sh) as [[[? ?] ?]|].
Qed.
Lemma alone_sets pr n h todo infos sh :
  alone pr (length todo + S (S (S n))) (SetCanceling h todo infos) sh =
  let s := with_goals (cancel_each todo (goals (server sh))) (server sh) in
  Some (s, [publish_statuses s; SendCancelResponse (cancel_req_id h) (cancel_response infos)], Ok tt).
Proof.
  revert sh. induction todo as [|i todo IH]; intros sh; cbn [length Nat.add];
    erewrite alone_step by reflexivity.
  - rewrite alone_responds. by destruct sh as [[]].
  - rewrite IH. by destruct sh as [[]].
Qed.

(** A call that nothing interferes with is the run of its sections: it
    leaves the state, the messages and the result of the definition in
    ActionServer, and where that waits for more requests, so does the run. *)
Lemma sections_compose pr sh :
  (∀ now h, alone pr 3 (Accept now h) sh =
     let '(s, out, r) := accept_goal now true h (server sh) in Some (s, out, unit_result r)) ∧
  (∀ now h, alone pr 2 (Reject now h) sh = Some (reject_goal now true h (server sh))) ∧
  (∀ h, alone pr 2 (Start h) sh =
     let '(s, out, r) := start_executing_goal h (server sh) in Some (s, out, unit_result r)) ∧
  (∀ h, alone pr 3 (Abort h) sh = Some (abort_goal h (server sh))) ∧
  (∀ h e res, alone pr (length (request_stream sh) + 5) (SendResponse h e res) sh =
     send_result_response (request_stream sh) true h e res (server sh)) ∧
  (∀ h gs, ∃ fuel, ∀ n, alone pr (fuel + n) (ReadCancels h gs []) sh =
     Some (respond_to_cancel_requests true h gs (server sh))).
Proof.
  split_and!.
  - intros now h. pose proof (alone_step pr 2 (Accept now h) sh) as H. cbn [resume] in H.
    unfold accept_goal in *.
    destruct (goals (server sh) !! h_goal_id (new_inner h)) as [[[] a x]|];
      rewrite (H _ _ _ eq_refl); cbn [outcome]; rewrite ?alone_returned, ?alone_responds; done.
  - intros now h. pose proof (alone_step pr 1 (Reject now h) sh) as H. cbn [resume] in H.
    unfold reject_goal in *.
    destruct (goals (server sh) !! h_goal_id (new_inner h)) as [[[] a x]|];
      rewrite (H _ _ _ eq_refl); done.
  - intros h. pose proof (alone_step pr 1 (Start h) sh) as H. cbn [resume] in H.
    unfold start_executing_goal in *.
    destruct (goals (server sh) !! h_goal_id (acc_inner h)) as [[[] a x]|];
      rewrite (H _ _ _ eq_refl); done.
  - intros h. pose proof (alone_step pr 2 (Abort h) sh) as H. cbn [resume] in H.
    unfold abort_section in H. unfold abort_goal.
    destruct (goals (server sh) !! h_goal_id h) as [[[] a x]|];
      rewrite (H _ _ _ eq_refl); rewrite ?alone_returned, ?alone_marks; done.
  - intros h e res. rewrite Nat.add_comm. cbn [Nat.add].
    erewrite alone_step by reflexivity. unfold buffer_section, send_result_response, find_result_request.
    destruct (result_requests (server sh) !! h_goal_id (exe_inner h)) as [req|].
    + rewrite alone_end. simpl. by destruct (goals (server sh) !! _) as [[[] a x]|].
    + rewrite (alone_awaits pr _ h e res (request_stream sh)) by (done || lia).
      destruct (await_result_request _ _ _) as [[s [req|er]]|]; [|done..]. simpl.
      rewrite alone_end. simpl. by destruct (goals s !! _) as [[[] a x]|].
  - intros h gs. exists (length gs + S (length (canceling_goals gs (server sh)) + 3)). intros n.
    replace (length gs + S (length (canceling_goals gs (server sh)) + 3) + n)
      with (length gs + S (length (canceling_goals gs (server sh)) + S (S (S n)))) by lia.
    rewrite alone_reads, app_nil_l, alone_sets. reflexivity.
Qed.
End alone.

(** ** Runs *)
(** The goals lost on the way of a run. *)
Fixpoint lost_goals {G R F ReqId : Type} pr (evs : list (event G R F ReqId)) (w : World G R F ReqId)
    (lost : list GoalId) : list GoalId :=
  match evs with
  | [] => lost
  | ev :: evs =>
      match event_step pr ev w with
      | Some w' => lost_goals pr evs w' (unwritten_goal ev w ++ lost)
      | None => lost
      end
  end.
Lemma run_reachable {G R F ReqId : Type} pr evs (w w' : World G R F ReqId) lost :
  reachable_world pr w lost → Forall uncanceled evs → run_events pr evs w = Some w' →
  reachable_world pr w' (lost_goals pr evs w lost).
Proof.
  intros Hw Hevs. revert w lost Hw. induction Hevs as [|ev evs Hev _ IH]; intros w lost Hw H; simpl in H |- *.
  { by simplify_eq. }
  destruct (event_step pr ev w) as [w1|] eqn:Hs; [|done]. eapply IH; [|exact H].
  by eapply reachable_world_step.
Qed.

Abbreviation N_event := (event N N N N).
Definition inner (g : N) : InnerGoalHandle := {| h_goal_id := g |}.
Definition goal_handle (g r : N) : NewGoalHandle := {| new_inner := inner g; req_id := r |}.
Definition executing (g : N) : ExecutingGoalHandle := {| exe_inner := inner g |}.
(** Goals 1 and 2 arrive, are accepted and started. *)
Definition start_both : list N_event :=
  [GoalRequest (Ok (11, {| sg_goal_id := 1; sg_goal := 100 |}));
   GoalRequest (Ok (12, {| sg_goal_id := 2; sg_goal := 200 |}));
   Spawn ReceiveGoal; Spawn ReceiveGoal; Run 1 true; Run 0 true; Run 0 true; Run 1 true;
   Spawn (Accept (Time_from_nanos 5) (goal_handle 1 11)); Spawn (Accept (Time_from_nanos 6) (goal_handle 2 12));
   Run 2 true; Run 3 true; Run 3 true; Run 2 true; Run 2 true; Run 3 true;
   Spawn (Start {| acc_inner := inner 1 |}); Spawn (Start {| acc_inner := inner 2 |});
   Run 5 true; Run 4 true; Run 4 true; Run 5 true]%N.
(** Goal 1 is aborted and listed, goal 2 has its result and is not listed yet; or
    its result cannot be written. *)
Definition end_both (written : bool) : list N_event :=
  [ResultRequest (Ok (22, 2)); Spawn (Abort (inner 1)); Spawn (SendResponse (executing 2) EndSucceeded 7);
   Run 6 true; Run 7 true; Run 7 true; Run 7 written; Run 6 true; Run 6 true]%N.
Definition both_ended (written : bool) : World N N N N :=
  default World_new (run_events Debug (start_both ++ end_both written) World_new).
Definition both_started : World N N N N := default World_new (run_events Debug start_both World_new).

Lemma both_ended_reachable written :
  reachable_world Debug (both_ended written) (if written then [] else [2%N]).
Proof.
  assert (run_events Debug (start_both ++ end_both written) World_new = Some (both_ended written)) as H
    by (destruct written; vm_compute; reflexivity).
  apply (run_reachable Debug _ _ _ []) in H; [|constructor|].
  - by destruct written.
  - destruct written; repeat (constructor; [first [exact I|reflexivity]|]); constructor.
Qed.
Example interleaved_flush_witness :
  (finished_goals (server (shared (both_ended true))) = [1%N] ∧
   pending_goals (both_ended true) = [2%N] ∧
   ∃ s', flush_finisehd_goals Debug (server (shared (both_ended true))) = Some s' ∧
     goals s' !! 1%N = None ∧ status <$> goals s' !! 2%N = Some Succeeded) ∧
  pending_goals (both_ended false) = [] ∧
  ∃ s', flush_finisehd_goals Debug (server (shared (both_ended false))) = Some s' ∧
    is_Some (goals s' !! 2%N).
Proof.
  destruct (interleaved_flush Debug _ _ (both_ended_reachable true)) as (_&_&s'&Hs'&_&Hl&_).
  destruct (interleaved_flush Debug _ _ (both_ended_reachable false)) as (_&_&s2&Hs2&_&_&Hl2).
  split; [split; [vm_compute; reflexivity|]; split; [vm_compute; reflexivity|]|
          split; [vm_compute; reflexivity|]].
  - exists s'. split; [exact Hs'|]. rewrite !Hl. split; vm_compute; reflexivity.
  - exists s2. split; [exact Hs2|]. apply Hl2. left.
Defined.

(** Both calls wait; then the request for goal 2 arrives. *)
Definition both_await : World N N N N := default World_new (run_events Debug
  [Spawn (SendResponse (executing 1) EndSucceeded 7); Spawn (SendResponse (executing 2) EndAborted 8);
   Run 6 true; Run 7 true; ResultRequest (Ok (22, 2))]%N both_started).
Example result_request_lost_witness :
  ∃ w1, event_step Debug (Run 6 true) both_await = Some w1 ∧
    result_requests (server (shared w1)) !! 2%N = Some 22%N ∧
    ∀ evs w2, Forall (brings_none 2) evs → run_events Debug evs w1 = Some w2 →
      tasks w2 !! 7 = Some (AwaitRequest (executing 2) EndAborted 8%N).
Proof.
  refine (proj2 (result_request_lost Debug both_await 6 7 (executing 1) (executing 2)
    EndSucceeded EndAborted 7%N 8%N 22%N [] _ _ _ _ _ _)); [done|done| | | |];
    try (vm_compute; reflexivity). intros r Hr. by apply not_elem_of_nil in Hr.
Defined.

(** A cancel response for goal 1 and the end of goal 1. *)
Definition cancel_and_end : World N N N N := default World_new (run_events Debug
  [Spawn (SendResponse (executing 1) EndSucceeded 7); ResultRequest (Ok (21, 1)); Run 6 true; Run 6 true;
   Spawn (ReadCancels {| cancel_req_id := 31; cancel_goals := [1] |} [1] [])]%N both_started).
Example cancel_race_panics_witness :
  ∃ w1, run_events Debug [Run 7 true; Run 7 true; Run 6 true; Run 6 true; Run 6 true; Run 7 true]
          cancel_and_end = Some w1 ∧
    status <$> goals (server (shared w1)) !! 1%N = Some Canceling ∧
    resume (R:=N) (F:=N) Debug true (GetGoal (goal_handle 1 11)) (shared w1) = None.
Proof.
  destruct (cancel_race_panics cancel_and_end 7 6 {| cancel_req_id := 31%N; cancel_goals := [1%N] |}
    (executing 1) EndSucceeded 7%N 21%N 1%N
    {| status := Executing; accepted_time := Some (Time_from_nanos 5); goal := 100%N |}
    (Time_from_nanos 5) (goal_handle 1 11)) as (w1&Hrun&_&Hstatus&Hpanic);
    [done|done|vm_compute; reflexivity..|].
  exists w1. split; [exact Hrun|]. split; [exact Hstatus|exact Hpanic].
Defined.

Example interleaved_goal_machine_witness :
  ∃ w1, event_step Debug (Run 7 true) cancel_and_end = Some w1 ∧
  ∀ g, let old := goals (server (shared cancel_and_end)) !! g in let new := goals (server (shared w1)) !! g in
    goal_step Debug old new ∨
    ∃ i written h info todo infos ag, Run 7 true = (Run i written : N_event) ∧
      tasks cancel_and_end !! i = Some (SetCanceling h (info :: todo) infos) ∧
      old = Some ag ∧ new = Some (set_status Canceling ag).
Proof.
  eexists. split; [vm_compute; reflexivity|].
  apply (interleaved_goal_machine Debug (Run 7 true)). vm_compute. reflexivity.
Defined.
