(* ===== verification/GraphCache.v ===== *)
(** * The Zenoh graph cache (zenoh_backend/graph_cache.rs, context.rs)

    The cache of live entities with its event subscribers, the context queries
    and waiters on top of it, and the context's configuration from the
    environment. *)
From S2P Require Import Prelude KeyExpr.

(** ** Data *)

Record GraphEntity := {
  ge_kind : EntityKind;
  ge_node_name : str;
  ge_name : option str;
  ge_type_name : option str;
}.
#[export] Instance GraphEntity_eq_dec : EqDecision GraphEntity.
Proof. solve_decision. Defined.
Inductive GraphEvent := EntityDeclared (e : GraphEntity) | EntityUndeclared (e : GraphEntity).
#[export] Instance GraphEvent_eq_dec : EqDecision GraphEvent.
Proof. solve_decision. Defined.

Definition join_fqn (ns name : str) : str :=
  if str_is_empty ns || str_eqb ns [slash] then slash :: name else ns ++ slash :: name.

Definition entity_of_parsed (e : ParsedEntity) : GraphEntity :=
  {| ge_kind := kind e; ge_node_name := join_fqn (namespace e) (node_name e);
     ge_name := topic_name e; ge_type_name := type_name e |}.

(** The cache.  A subscriber is the identity of its channel; [next_chan] is the
    first identity not in use.  What is sent into the channels is an output of
    the operations, a list of channels with the event sent. *)
Record GraphCache := {
  entities : gmap str ParsedEntity;
  subscribers : list N;
  next_chan : N;
}.
Definition GraphCache_default : GraphCache :=
  {| entities := ∅; subscribers := []; next_chan := 0 |}.
Definition sends : Type := list (N * GraphEvent).

(** ** Operations

    [closed] tells which receivers have been dropped when the operation runs. *)

Definition broadcast (closed : N → bool) (event : GraphEvent) (c : GraphCache) :
    GraphCache * sends :=
  let subs := List.filter (λ s, negb (closed s)) (subscribers c) in
  ({| entities := entities c; subscribers := subs; next_chan := next_chan c |},
   (λ s, (s, event)) <$> subs).

Definition apply_put (closed : N → bool) (key : str) (c : GraphCache) : GraphCache * sends :=
  match parse_liveliness_key key with
  | Some entity =>
      broadcast closed (EntityDeclared (entity_of_parsed entity))
        {| entities := <[key := entity]> (entities c);
           subscribers := subscribers c; next_chan := next_chan c |}
  | None => (c, [])
  end.

Definition apply_delete (closed : N → bool) (key : str) (c : GraphCache) : GraphCache * sends :=
  let removed := entities c !! key in
  let c' := {| entities := delete key (entities c);
               subscribers := subscribers c; next_chan := next_chan c |} in
  match removed with
  | Some entity => broadcast closed (EntityUndeclared (entity_of_parsed entity)) c'
  | None => (c', [])
  end.

Definition subscribe (c : GraphCache) : GraphCache * N :=
  ({| entities := entities c; subscribers := subscribers c ++ [next_chan c];
      next_chan := (next_chan c + 1)%N |}, next_chan c).

Definition values (c : GraphCache) : list ParsedEntity := (map_to_list (entities c)).*2.

Definition on_topic (k : EntityKind) (topic : str) (e : ParsedEntity) : bool :=
  bool_decide (kind e = k) && bool_decide (topic_name e = Some topic).

Definition count_kind_on_topic (k : EntityKind) (topic : str) (c : GraphCache) : nat :=
  length (List.filter (on_topic k topic) (values c)).
Definition publisher_count (topic : str) (c : GraphCache) : nat :=
  count_kind_on_topic Publisher topic c.
Definition subscription_count (topic : str) (c : GraphCache) : nat :=
  count_kind_on_topic Subscription topic c.
Definition service_server_count (service : str) (c : GraphCache) : nat :=
  count_kind_on_topic ServiceServer service c.

Definition node_names (c : GraphCache) : list str :=
  dedup (merge_sort str_le
    ((λ e, join_fqn (namespace e) (node_name e)) <$>
       List.filter (λ e, bool_decide (kind e = Node)) (values c))).

Definition len (c : GraphCache) : nat := size (entities c).
Definition is_empty (c : GraphCache) : bool := len c =? 0.

(** The liveliness subscriber's callback in [Context::with_options], and the
    subscriptions that other tasks make in between. *)
Inductive Sample := Put (key : str) | Delete (key : str).
Inductive op := OnSample (s : Sample) | Subscribe.

Definition on_sample (closed : N → bool) (s : Sample) (c : GraphCache) : GraphCache * sends :=
  match s with
  | Put key => apply_put closed key c
  | Delete key => apply_delete closed key c
  end.
Definition step (closed : N → bool) (o : op) (c : GraphCache) : GraphCache * sends :=
  match o with
  | OnSample s => on_sample closed s c
  | Subscribe => (fst (subscribe c), [])
  end.
Fixpoint run (closed : N → bool) (os : list op) (c : GraphCache) : GraphCache * sends :=
  match os with
  | [] => (c, [])
  | o :: os =>
      let '(c1, out1) := step closed o c in
      let '(c2, out2) := run closed os c1 in (c2, out1 ++ out2)
  end.

(** ** [Context] *)

(** What a receiver reads: the events sent into its channel. *)
Definition received (chan : N) (out : sends) : list GraphEvent :=
  (List.filter (λ p, (p.1 =? chan)%N) out).*2.

(** The loop of [Context::wait_for]: [true] when it returns on one of the
    received events, [false] while it waits for the next. *)
Fixpoint wait_loop (k : EntityKind) (name : str) (evs : list GraphEvent) : bool :=
  match evs with
  | [] => false
  | EntityDeclared e :: evs =>
      if bool_decide (ge_kind e = k) && bool_decide (ge_name e = Some name) then true
      else wait_loop k name evs
  | EntityUndeclared _ :: evs => wait_loop k name evs
  end.

(** [Context::wait_for] when [os1] happens between its subscription and its
    check, and [os2] after the check. *)
Definition wait_for (closed : N → bool) (k : EntityKind) (name : str)
    (os1 os2 : list op) (c : GraphCache) : bool :=
  let '(c0, stream) := subscribe c in
  let '(c1, out1) := run closed os1 c0 in
  if 0 <? count_kind_on_topic k name c1 then true else
  let '(c2, out2) := run closed os2 c1 in
  wait_loop k name (received stream (out1 ++ out2)).
Definition wait_for_publisher closed (topic : str) := wait_for closed Publisher topic.
Definition wait_for_subscription closed (topic : str) := wait_for closed Subscription topic.

(** [Context::new_node]: the id of the new node and the counter after it. *)
Definition new_node_id (next_node_id : N) : N * N :=
  (next_node_id, ((next_node_id + 1) mod 2 ^ 64)%N).

(** ** Configuration

    [Config] and its operations belong to Zenoh. *)
Section config.
Context {Config ConfigError : Type}.
Context (insert_json5 : str → str → Config → result ConfigError Config).
Context (from_file : str → result ConfigError Config) (Config_default : Config).

Inductive config_error :=
| FileFailed (uri : str) (e : ConfigError)
| NotKeyValue (entry : str)
| OverrideFailed (key : str) (e : ConfigError).

Definition apply_override (config : Config) (entry : str) : result config_error Config :=
  match split_once 61 entry with
  | None => Err (NotKeyValue entry)
  | Some (key, value) =>
      map_err (OverrideFailed (trim key)) (insert_json5 (trim key) (trim value) config)
  end.
Fixpoint apply_override_list (config : Config) (es : list str) : result config_error Config :=
  match es with
  | [] => Ok config
  | e :: es => config' ← apply_override config e; apply_override_list config' es
  end.
Definition apply_config_overrides (config : Config) (overrides : str) :
    result config_error Config :=
  apply_override_list config
    (List.filter (λ s, negb (str_is_empty s)) (trim <$> split_on 59 overrides)).

(** [default_config]; [None] is the panic of its [expect]s. *)
Definition default_config : option Config :=
  let insert k v c := match insert_json5 (lit k) (lit v) c with
                      | Ok c' => Some c' | Err _ => None end in
  let q := String.String (Ascii.Ascii false true false false false true false false) "" in
  c ← insert "mode" (q +:+ "peer" +:+ q) Config_default;
  c ← insert "listen/endpoints" ("[" +:+ q +:+ "tcp/127.0.0.1:0" +:+ q +:+ "]") c;
  insert "scouting/multicast/enabled" "false" c.

Definition config_from_env (uri_var overrides_var : option str) :
    option (result config_error Config) :=
  config ← match uri_var with
           | Some uri =>
               if negb (str_is_empty (trim uri))
               then Some (map_err (FileFailed uri) (from_file (trim uri)))
               else Ok <$> default_config
           | None => Ok <$> default_config
           end;
  Some (config ← config;
        match overrides_var with
        | Some overrides => apply_config_overrides config overrides
        | None => Ok config
        end).
End config.

(** ** The specification: the set of live tokens *)

Definition live_step (live : gset str) (o : op) : gset str :=
  match o with
  | OnSample (Put key) => {[key]} ∪ live
  | OnSample (Delete key) => live ∖ {[key]}
  | Subscribe => live
  end.
Definition live_tokens (os : list op) : gset str := fold_left live_step os ∅.

(** The live tokens that announce an entity of kind [k] on [topic]. *)
Definition token_on_topic (k : EntityKind) (topic key : str) : bool :=
  match parse_liveliness_key key with Some e => on_topic k topic e | None => false end.
Definition live_on_topic (k : EntityKind) (topic : str) (live : gset str) : gset str :=
  filter (λ key, token_on_topic k topic key = true) live.

(** ** Lemmas *)

(** The cache holds the parse of every live token, and nothing else. *)
Definition cache_of (live : gset str) (c : GraphCache) : Prop :=
  ∀ key, entities c !! key =
    if bool_decide (key ∈ live) then parse_liveliness_key key else None.

Lemma entities_broadcast closed ev c : entities (fst (broadcast closed ev c)) = entities c.
Proof. done. Qed.

Lemma cache_of_step closed o live c :
  cache_of live c → cache_of (live_step live o) (fst (step closed o c)).
Proof.
  intros Hc. destruct o as [[key|key]|]; simpl; [..|done]; intros k; specialize (Hc k).
  - unfold apply_put. destruct (parse_liveliness_key key) as [e|] eqn:E; simpl.
    + destruct (decide (k = key)) as [->|Hk].
      * rewrite lookup_insert_eq, bool_decide_eq_true_2 by set_solver. done.
      * rewrite lookup_insert_ne, Hc by done. by repeat case_bool_decide; set_solver.
    + rewrite Hc. destruct (decide (k = key)) as [->|Hk].
      * by rewrite E; repeat case_bool_decide.
      * by repeat case_bool_decide; set_solver.
  - unfold apply_delete.
    assert (delete key (entities c) !! k =
            if bool_decide (k ∈ live ∖ {[key]}) then parse_liveliness_key k else None).
    { destruct (decide (k = key)) as [->|Hk].
      - rewrite lookup_delete_eq, bool_decide_eq_false_2 by set_solver. done.
      - rewrite lookup_delete_ne, Hc by done. by repeat case_bool_decide; set_solver. }
    by destruct (entities c !! key).
Qed.

Lemma fst_run_cons closed o os c :
  fst (run closed (o :: os) c) = fst (run closed os (fst (step closed o c))).
Proof. simpl. destruct (step _ _ _) as [c1 ?]. simpl. by destruct (run _ _ _). Qed.

Lemma snd_run_cons closed o os c :
  snd (run closed (o :: os) c) =
  snd (step closed o c) ++ snd (run closed os (fst (step closed o c))).
Proof. simpl. destruct (step _ _ _) as [c1 ?]. simpl. by destruct (run _ _ _). Qed.

Lemma cache_of_run closed os live c :
  cache_of live c → cache_of (fold_left live_step os live) (fst (run closed os c)).
Proof.
  revert live c. induction os as [|o os IH]; intros live c Hc; [done|].
  rewrite fst_run_cons. by apply IH, cache_of_step.
Qed.

Lemma cache_of_default : cache_of ∅ GraphCache_default.
Proof. intros k. by rewrite bool_decide_eq_false_2 by set_solver. Qed.

Lemma cache_of_live closed os :
  cache_of (live_tokens os) (fst (run closed os GraphCache_default)).
Proof. apply cache_of_run, cache_of_default. Qed.

Lemma count_live k topic live c :
  cache_of live c → count_kind_on_topic k topic c = size (live_on_topic k topic live).
Proof.
  intros Hc. unfold count_kind_on_topic, values. rewrite length_filter_values, <- size_dom.
  f_equal. apply set_eq. intros key. unfold live_on_topic, token_on_topic.
  rewrite elem_of_dom, elem_of_filter. split.
  - intros [e He]. apply map_lookup_filter_Some in He as [He Ht]. rewrite Hc in He.
    case_bool_decide; [|done]. by rewrite He.
  - intros [Ht Hl]. specialize (Hc key). rewrite bool_decide_eq_true_2 in Hc by done.
    destruct (parse_liveliness_key key) as [e|]; [|done].
    exists e. by apply map_lookup_filter_Some.
Qed.

Lemma count_positive k topic c :
  0 < count_kind_on_topic k topic c ↔
  ∃ key e, entities c !! key = Some e ∧ on_topic k topic e = true.
Proof.
  unfold count_kind_on_topic, values. rewrite length_filter_pos. split.
  - intros (e&He&Ht). apply list_elem_of_fmap in He as ([key ?]&->&He).
    apply elem_of_map_to_list in He. eauto.
  - intros (key&e&He&Ht). exists e. split; [|done].
    apply list_elem_of_fmap. exists (key, e). split; [done|]. by apply elem_of_map_to_list.
Qed.

Lemma wait_loop_app k name l l' :
  wait_loop k name (l ++ l') = wait_loop k name l || wait_loop k name l'.
Proof.
  induction l as [|[e|e] l IH]; simpl; [done|..]; [|done].
  by destruct (_ && _).
Qed.

Lemma received_app chan l l' : received chan (l ++ l') = received chan l ++ received chan l'.
Proof. unfold received. by rewrite List.filter_app, fmap_app. Qed.

(** A [Put] that declares an entity of kind [k] on [name]. *)
Definition declares (k : EntityKind) (name : str) (o : op) : bool :=
  match o with OnSample (Put key) => token_on_topic k name key | _ => false end.

Lemma wait_loop_broadcast closed k name ev chan c :
  chan ∈ subscribers c → closed chan = false →
  wait_loop k name (received chan (snd (broadcast closed ev c))) = wait_loop k name [ev].
Proof.
  intros Hin Hc. unfold broadcast, received. simpl snd.
  assert (∀ subs, chan ∈ List.filter (λ s, negb (closed s)) subs ∨ chan ∉ subs →
    wait_loop k name (List.filter (λ p : N * GraphEvent, (p.1 =? chan)%N)
      ((λ s, (s, ev)) <$> List.filter (λ s, negb (closed s)) subs)).*2 =
    if bool_decide (chan ∈ subs) then wait_loop k name [ev] else false) as H.
  { induction subs as [|s subs IH]; intros Hs; [done|].
    assert (chan ∈ List.filter (λ s, negb (closed s)) subs ∨ chan ∉ subs) as Hs'.
    { destruct (decide (chan ∈ subs)) as [Hi|]; [left|by right].
      rewrite list_elem_of_In in *. apply filter_In. by rewrite Hc. }
    specialize (IH Hs'). cbn [List.filter].
    destruct (closed s) eqn:E; cbn [negb].
    - rewrite IH. rewrite (bool_decide_ext (chan ∈ s :: subs) (chan ∈ subs)); [done|].
      split; [|set_solver]. intros [->|?]%elem_of_cons; [congruence|done].
    - rewrite fmap_cons. cbn [List.filter fst].
      destruct (N.eqb_spec s chan) as [->|Hne].
      + rewrite fmap_cons. cbn [snd].
        match goal with |- wait_loop _ _ (ev :: ?l) = _ =>
          change (ev :: l) with ([ev] ++ l) end.
        rewrite wait_loop_app, IH.
        rewrite (bool_decide_eq_true_2 (chan ∈ chan :: subs)) by set_solver.
        case_bool_decide; [apply orb_diag|apply orb_false_r].
      + rewrite IH. by rewrite (bool_decide_ext (chan ∈ s :: subs) (chan ∈ subs)) by set_solver. }
  rewrite H; [by rewrite bool_decide_eq_true_2|].
  left. rewrite list_elem_of_In in *. apply filter_In. by rewrite Hc.
Qed.

Lemma subscribers_step closed o chan c :
  chan ∈ subscribers c → closed chan = false → chan ∈ subscribers (fst (step closed o c)).
Proof.
  intros Hin Hc.
  assert (∀ ev c', subscribers c' = subscribers c →
            chan ∈ subscribers (fst (broadcast closed ev c'))) as Hb.
  { intros ev c' E. simpl. rewrite E, list_elem_of_In, filter_In in *.
    by rewrite Hc. }
  destruct o as [[key|key]|]; simpl; unfold apply_put, apply_delete;
    [destruct (parse_liveliness_key key); [by apply Hb|done]
    |destruct (entities c !! key); [by apply Hb|done]
    |set_solver].
Qed.

(** One step delivers a matching declaration to a subscribed channel exactly
    when it is one. *)
Lemma wait_loop_step closed k name o chan c :
  chan ∈ subscribers c → closed chan = false →
  wait_loop k name (received chan (snd (step closed o c))) = declares k name o.
Proof.
  intros Hin Hc. destruct o as [[key|key]|]; simpl; [..|done].
  - unfold apply_put, token_on_topic. destruct (parse_liveliness_key key) as [e|]; [|done].
    rewrite wait_loop_broadcast by done. cbn. unfold on_topic. simpl. by destruct (_ && _).
  - unfold apply_delete. destruct (entities c !! key); [|done].
    by rewrite wait_loop_broadcast.
Qed.

Lemma wait_loop_run closed k name os chan c :
  chan ∈ subscribers c → closed chan = false →
  wait_loop k name (received chan (snd (run closed os c))) = existsb (declares k name) os.
Proof.
  revert c. induction os as [|o os IH]; intros c Hin Hc; [done|].
  rewrite snd_run_cons, received_app, wait_loop_app, wait_loop_step by done.
  rewrite IH by (done || by apply subscribers_step). done.
Qed.

Lemma wait_for_declares closed k name os1 os2 c :
  closed (next_chan c) = false →
  wait_for closed k name os1 os2 c =
  (0 <? count_kind_on_topic k name (fst (run closed os1 (fst (subscribe c)))))
  || existsb (declares k name) (os1 ++ os2).
Proof.
  intros Hc. unfold wait_for. destruct (subscribe c) as [c0 stream] eqn:Es.
  assert (stream ∈ subscribers c0 ∧ closed stream = false) as [Hin Hcl].
  { unfold subscribe in Es. simplify_eq/=. split; [set_solver|done]. }
  simpl fst. destruct (run closed os1 c0) as [c1 out1] eqn:E1.
  assert (stream ∈ subscribers c1) as Hin1.
  { change c1 with (fst (c1, out1)). rewrite <- E1. clear -Hin Hcl.
    revert c0 Hin. induction os1 as [|o os1 IH]; intros c0 Hin; [done|].
    rewrite fst_run_cons. by apply IH, subscribers_step. }
  pose proof (wait_loop_run closed k name os1 stream c0 Hin Hcl) as H1.
  rewrite E1 in H1. simpl in *.
  destruct (0 <? _); [done|]. destruct (run closed os2 c1) as [c2 out2] eqn:E2.
  pose proof (wait_loop_run closed k name os2 stream c1 Hin1 Hcl) as H2.
  rewrite E2 in H2. simpl in *.
  by rewrite received_app, wait_loop_app, existsb_app, H1, H2.
Qed.

(** Without a declaration, no entity appears. *)
Lemma count_zero_run closed k name os c :
  existsb (declares k name) os = false →
  0 < count_kind_on_topic k name (fst (run closed os c)) →
  0 < count_kind_on_topic k name c.
Proof.
  revert c. induction os as [|o os IH]; intros c; [done|].
  rewrite fst_run_cons. intros [Ho Hos]%orb_false_iff Hpos.
  apply (IH _ Hos) in Hpos. revert Hpos. rewrite !count_positive.
  destruct o as [[key|key]|]; simpl in *; [..|done].
  - unfold apply_put, token_on_topic in *.
    destruct (parse_liveliness_key key) as [e|]; [|done].
    intros (k'&e'&He&Ht). simpl in He.
    apply lookup_insert_Some in He as [[-> <-]|[_ He]]; [congruence|eauto].
  - intros (k'&e'&He&Ht). exists k', e'. split; [|done].
    unfold apply_delete in He. destruct (entities c !! key); simpl in He;
      by apply lookup_delete_Some in He as [_ He].
Qed.

Lemma fst_run_app closed os os' c :
  fst (run closed (os ++ os') c) = fst (run closed os' (fst (run closed os c))).
Proof.
  revert c. induction os as [|o os IH]; intros c; [done|].
  change ((o :: os) ++ os') with (o :: (os ++ os')). by rewrite !fst_run_cons, IH.
Qed.

(** The events of a sequence of operations, from the live tokens alone. *)
Definition spec_event (live : gset str) (o : op) : list GraphEvent :=
  match o with
  | OnSample (Put key) =>
      match parse_liveliness_key key with
      | Some e => [EntityDeclared (entity_of_parsed e)]
      | None => []
      end
  | OnSample (Delete key) =>
      if bool_decide (key ∈ live) then
        match parse_liveliness_key key with
        | Some e => [EntityUndeclared (entity_of_parsed e)]
        | None => []
        end
      else []
  | Subscribe => []
  end.
Fixpoint spec_events (live : gset str) (os : list op) : list GraphEvent :=
  match os with
  | [] => []
  | o :: os => spec_event live o ++ spec_events (live_step live o) os
  end.

(** Channels are distinct and allocated below [next_chan]. *)
Definition wf_cache (c : GraphCache) : Prop :=
  NoDup (subscribers c) ∧ ∀ s, s ∈ subscribers c → (s < next_chan c)%N.

Lemma wf_cache_step closed o c : wf_cache c → wf_cache (fst (step closed o c)).
Proof.
  intros [Hnd Hlt].
  assert (∀ ev c', subscribers c' = subscribers c → next_chan c' = next_chan c →
            wf_cache (fst (broadcast closed ev c'))) as Hb.
  { intros ev c' E1 E2. split; simpl; rewrite E1.
    - apply NoDup_ListNoDup, List.NoDup_filter. by apply NoDup_ListNoDup.
    - intros s. rewrite E2, list_elem_of_In, filter_In, <- list_elem_of_In.
      intros [? _]. by apply Hlt. }
  destruct o as [[key|key]|]; simpl; unfold apply_put, apply_delete;
    [destruct (parse_liveliness_key key); [by apply Hb|done]
    |destruct (entities c !! key); [by apply Hb|done]|].
  split; simpl.
  - apply NoDup_app. split; [done|]. split; [|apply NoDup_singleton].
    intros s Hs ->%list_elem_of_singleton. specialize (Hlt _ Hs). lia.
  - intros s [Hs| ->%list_elem_of_singleton]%elem_of_app; [specialize (Hlt _ Hs)|]; lia.
Qed.

Lemma received_broadcast closed ev chan c :
  NoDup (subscribers c) → chan ∈ subscribers c → closed chan = false →
  received chan (snd (broadcast closed ev c)) = [ev].
Proof.
  intros Hnd Hin Hc. simpl snd. revert Hnd Hin.
  induction (subscribers c) as [|s subs IH]; intros Hnd Hin; [set_solver|].
  apply NoDup_cons in Hnd as [Hs Hnd]. cbn [List.filter].
  apply elem_of_cons in Hin as [<-|Hin].
  - rewrite Hc. cbn [negb]. rewrite fmap_cons. unfold received. cbn [List.filter fst].
    rewrite N.eqb_refl, fmap_cons. cbn [snd]. f_equal.
    clear IH Hnd. induction subs as [|t subs IH]; [done|]. cbn [List.filter].
    apply not_elem_of_cons in Hs as [Hne Hs].
    destruct (closed t); cbn [negb]; [by apply IH|]. rewrite fmap_cons. cbn [List.filter fst].
    destruct (N.eqb_spec t chan); [congruence|]. by apply IH.
  - destruct (closed s); cbn [negb]; [by apply IH|]. rewrite fmap_cons.
    unfold received. cbn [List.filter fst].
    destruct (N.eqb_spec s chan); [congruence|]. by apply IH.
Qed.

Lemma received_step closed o live chan c :
  cache_of live c → wf_cache c → chan ∈ subscribers c → closed chan = false →
  received chan (snd (step closed o c)) = spec_event live o.
Proof.
  intros Hc [Hnd _] Hin Hcl. destruct o as [[key|key]|]; simpl; [..|done].
  - unfold apply_put. destruct (parse_liveliness_key key) as [e|]; [|done].
    by apply received_broadcast.
  - unfold apply_delete. rewrite (Hc key). case_bool_decide; [|done].
    destruct (parse_liveliness_key key) as [e|]; [|done]. by apply received_broadcast.
Qed.

Lemma received_run closed os live chan c :
  cache_of live c → wf_cache c → chan ∈ subscribers c → closed chan = false →
  received chan (snd (run closed os c)) = spec_events live os.
Proof.
  revert live c. induction os as [|o os IH]; intros live c Hc Hwf Hin Hcl; [done|].
  rewrite snd_run_cons, received_app, (received_step _ _ live) by done. simpl. f_equal.
  apply IH; [by apply cache_of_step|by apply wf_cache_step|by apply subscribers_step|done].
Qed.

Lemma wf_cache_run closed os c : wf_cache c → wf_cache (fst (run closed os c)).
Proof.
  revert c. induction os as [|o os IH]; intros c Hc; [done|].
  rewrite fst_run_cons. by apply IH, wf_cache_step.
Qed.

(** ** Properties *)

(** C2: the cache refines the set of live tokens: after any sequence of samples
    it holds exactly the parses of the well-formed tokens put and not deleted
    since, and every count query returns the number of live tokens that
    announce such an entity. *)
Theorem graph_cache_refines closed os :
  let c := fst (run closed os GraphCache_default) in
  (∀ key, entities c !! key =
     if bool_decide (key ∈ live_tokens os) then parse_liveliness_key key else None) ∧
  (∀ k topic, count_kind_on_topic k topic c = size (live_on_topic k topic (live_tokens os))).
Proof.
  simpl. split; [apply cache_of_live|]. intros k topic. apply count_live, cache_of_live.
Qed.

(** [node_names] lists, sorted and without repetition, exactly the fully
    qualified names of the nodes whose tokens are live. *)
Lemma node_names_spec closed os :
  let names := node_names (fst (run closed os GraphCache_default)) in
  Sorted str_le names ∧ NoDup names ∧
  ∀ name, name ∈ names ↔
    ∃ key e, key ∈ live_tokens os ∧ parse_liveliness_key key = Some e ∧ kind e = Node ∧
             name = join_fqn (namespace e) (node_name e).
Proof.
  simpl. set (c := fst _). pose proof (cache_of_live closed os : cache_of _ c) as Hc.
  unfold node_names. set (l := _ <$> _).
  pose proof (Sorted_merge_sort str_le l) as Hs.
  apply Sorted_StronglySorted in Hs; [|apply _].
  pose proof (dedup_sorted_NoDup str_le _ Hs) as Hnd.
  split; [|split; [apply Hnd|]].
  - apply StronglySorted_Sorted, Hnd.
  - intros name. rewrite elem_of_dedup, (merge_sort_Permutation str_le l).
    unfold l, values. rewrite list_elem_of_fmap. split.
    + intros (e&->&He). rewrite list_elem_of_In, filter_In, <- list_elem_of_In in He.
      destruct He as [He Hk%bool_decide_eq_true].
      apply list_elem_of_fmap in He as ([key ?]&->&He).
      apply elem_of_map_to_list in He. rewrite Hc in He. case_bool_decide; [|done]. eauto 10.
    + intros (key&e&Hl&He&Hk&->). exists e. split; [done|].
      rewrite list_elem_of_In, filter_In, <- list_elem_of_In. split; [|by apply bool_decide_eq_true].
      apply list_elem_of_fmap. exists (key, e). split; [done|].
      apply elem_of_map_to_list. rewrite Hc. by rewrite bool_decide_eq_true_2.
Qed.

(** A graph event stream that is kept open receives every later change of
    the graph exactly once and in order, whatever other streams are created or
    dropped in between; puts of ill-formed tokens and deletes of tokens that are
    not live produce nothing. *)
Lemma graph_event_stream_spec closed os os' :
  let c := fst (run closed os GraphCache_default) in
  closed (next_chan c) = false →
  received (snd (subscribe c)) (snd (run closed os' (fst (subscribe c)))) =
  spec_events (live_tokens os) os'.
Proof.
  simpl. set (c := fst _). intros Hcl.
  assert (wf_cache c) as Hwf.
  { apply wf_cache_run. split; [by apply NoDup_nil_2|set_solver]. }
  apply (received_run closed os' (live_tokens os) (next_chan c)
           (fst (subscribe c))); [..|done].
  - exact (cache_of_live closed os).
  - exact (wf_cache_step closed Subscribe c Hwf).
  - simpl. set_solver.
Qed.

Definition example_node_key : str := lit "@ros2_lv/0/zz/0/0/NN/%/%/talker".
Definition example_pub_key : str :=
  lit "@ros2_lv/0/zz/0/1/MP/%/%/talker/%chatter/std_msgs::msg::dds_::String_/RIHS01_x/::,7:,:,:,,".

Lemma graph_event_stream_spec_witness :
  length (received 0 (snd (run (λ _, false)
    [OnSample (Put example_pub_key); OnSample (Put (lit "junk"));
     OnSample (Delete example_node_key); OnSample (Delete example_node_key)]
    (fst (subscribe (fst (run (λ _, false) [OnSample (Put example_node_key)]
                            GraphCache_default)))))))
  = 2.
Proof.
  pose proof (graph_event_stream_spec (λ _, false) [OnSample (Put example_node_key)]
    [OnSample (Put example_pub_key); OnSample (Put (lit "junk"));
     OnSample (Delete example_node_key); OnSample (Delete example_node_key)] eq_refl) as H.
  etransitivity; [exact (f_equal length H)|]. vm_compute. reflexivity.
Defined.

(** [wait_for] loses no wake-up.  It returns exactly when a matching entity
    is cached at its check or a matching token is put at any moment after its
    subscription; in particular it has returned whenever such an entity is
    present at any moment after the check, however the samples interleave. *)
Lemma wait_for_no_lost_wakeup closed k name os1 os2 c :
  closed (next_chan c) = false →
  (wait_for closed k name os1 os2 c = true ↔
   0 < count_kind_on_topic k name (fst (run closed os1 (fst (subscribe c)))) ∨
   ∃ o, o ∈ os1 ++ os2 ∧ declares k name o = true) ∧
  (∀ p q, os2 = p ++ q →
     0 < count_kind_on_topic k name (fst (run closed (os1 ++ p) (fst (subscribe c)))) →
     wait_for closed k name os1 os2 c = true).
Proof.
  intros Hcl. rewrite wait_for_declares by done. split.
  - rewrite orb_true_iff, Nat.ltb_lt, existsb_exists.
    by setoid_rewrite list_elem_of_In.
  - intros p q -> Hpos. apply orb_true_iff. rewrite fst_run_app in Hpos.
    destruct (existsb (declares k name) p) eqn:Ep.
    + right. by rewrite !existsb_app, Ep, orb_true_r.
    + left. apply Nat.ltb_lt. by eapply count_zero_run.
Qed.

Lemma wait_for_no_lost_wakeup_witness :
  wait_for (λ _, false) Publisher (lit "/chatter")
    [] [OnSample (Put example_pub_key); OnSample (Delete example_pub_key)]
    GraphCache_default = true.
Proof.
  refine (proj2 (wait_for_no_lost_wakeup (λ _, false) Publisher (lit "/chatter") []
    [OnSample (Put example_pub_key); OnSample (Delete example_pub_key)]
    GraphCache_default eq_refl) [OnSample (Put example_pub_key)]
    [OnSample (Delete example_pub_key)] eq_refl _).
  vm_compute. lia.
Defined.
