(* ===== verification/TypeDescription.v ===== *)
(** * Type descriptions and hashes (zenoh_backend/type_description.rs,
    zenoh_backend/type_hash.rs)

    The canonical JSON document of a type description, the REP-2016 hash of it,
    and the table of known hashes that a Zenoh node puts into its keys. SHA-256
    is third-party: a parameter. *)
From S2P Require Import Prelude.
#[local] Open Scope N_scope.

Definition quote : char := 34.
Definition backslash : char := 92.

(** An ASCII literal of the source that holds double quotes; they are written
    here as single quotes. *)
Definition jlit (s : string) : str := (λ c, if c =? 39 then quote else c) <$> lit s.

(** ** type_description.rs *)

Definition NOT_SET : N := 0.
Definition NESTED_TYPE : N := 1.
Definition INT8 : N := 2.
Definition UINT8 : N := 3.
Definition INT16 : N := 4.
Definition UINT16 : N := 5.
Definition INT32 : N := 6.
Definition UINT32 : N := 7.
Definition INT64 : N := 8.
Definition UINT64 : N := 9.
Definition FLOAT : N := 10.
Definition DOUBLE : N := 11.
Definition LONG_DOUBLE : N := 12.
Definition CHAR : N := 13.
Definition WCHAR : N := 14.
Definition BOOLEAN : N := 15.
Definition BYTE : N := 16.
Definition STRING : N := 17.
Definition WSTRING : N := 18.
Definition FIXED_STRING : N := 19.
Definition FIXED_WSTRING : N := 20.
Definition BOUNDED_STRING : N := 21.
Definition BOUNDED_WSTRING : N := 22.
Definition ARRAY_OFFSET : N := 48.
Definition BOUNDED_SEQUENCE_OFFSET : N := 96.
Definition UNBOUNDED_SEQUENCE_OFFSET : N := 144.

Record FieldType := {
  type_id : N;
  capacity : N;
  string_capacity : N;
  nested_type_name : str;
}.
#[export] Instance FieldType_eq_dec : EqDecision FieldType.
Proof. solve_decision. Defined.

Definition scalar (id : N) : FieldType :=
  {| type_id := id; capacity := 0; string_capacity := 0; nested_type_name := [] |}.
(** The addition of two [u8]s: [None] is the overflow panic of a debug build. *)
Definition array (pr : profile) (base_type_id cap : N) : option FieldType :=
  id ← arith_u pr 8 (Z.of_N (base_type_id + ARRAY_OFFSET));
  Some {| type_id := Z.to_N id; capacity := cap; string_capacity := 0;
          nested_type_name := [] |}.
Definition nested (name : str) : FieldType :=
  {| type_id := NESTED_TYPE; capacity := 0; string_capacity := 0; nested_type_name := name |}.
Definition nested_bounded_sequence (name : str) (cap : N) : FieldType :=
  {| type_id := NESTED_TYPE + BOUNDED_SEQUENCE_OFFSET; capacity := cap; string_capacity := 0;
     nested_type_name := name |}.

Record Field := { name : str; field_type : FieldType; default_value : str }.
#[export] Instance Field_eq_dec : EqDecision Field.
Proof. solve_decision. Defined.
Definition Field_new (n : str) (ft : FieldType) : Field :=
  {| name := n; field_type := ft; default_value := [] |}.

Record IndividualTypeDescription := { type_name : str; fields : list Field }.
#[export] Instance IndividualTypeDescription_eq_dec : EqDecision IndividualTypeDescription.
Proof. solve_decision. Defined.
Definition IndividualTypeDescription_new (n : str) (fs : list Field) :=
  {| type_name := n; fields := fs |}.

Record TypeDescription := {
  type_description : IndividualTypeDescription;
  referenced_type_descriptions : list IndividualTypeDescription;
}.
Definition TypeDescription_new (t : IndividualTypeDescription)
    (refs : list IndividualTypeDescription) : TypeDescription :=
  {| type_description := t; referenced_type_descriptions := refs |}.

(** *** Canonical JSON writers

    Each gives what it pushes onto [out]. *)

(** [char::encode_utf16]. *)
Definition encode_utf16 (c : char) : list N :=
  if c <? 65536 then [c]
  else [55296 + N.shiftr (c - 65536) 10; 56320 + N.land (c - 65536) 1023].
Definition hex_digit (d : N) : char := if d <? 10 then 48 + d else 87 + d.
(** [{:04x}] of a [u16], [{:02x}] of a [u8]. *)
Definition hex4 (n : N) : str :=
  [hex_digit (n / 4096 mod 16); hex_digit (n / 256 mod 16); hex_digit (n / 16 mod 16);
   hex_digit (n mod 16)].
Definition hex2 (n : N) : str := [hex_digit (n / 16 mod 16); hex_digit (n mod 16)].

Definition write_char (c : char) : str :=
  if c =? quote then [backslash; quote]
  else if c =? backslash then [backslash; backslash]
  else if c =? 10 then lit "\n"
  else if c =? 13 then lit "\r"
  else if c =? 9 then lit "\t"
  else if c =? 8 then lit "\b"
  else if c =? 12 then lit "\f"
  else if c <? 32 then lit "\u" ++ hex4 c
  else if c <? 128 then [c]
  else u ← encode_utf16 c; lit "\u" ++ hex4 u.
Definition write_json_string (s : str) : str := quote :: (s ≫= write_char) ++ [quote].

(** The loops with a comma before every element but the first. *)
Definition write_list {A} (w : A → str) (l : list A) : str :=
  concat (imap (λ i a, (if decide (0 < i)%nat then lit ", " else []) ++ w a) l).

Definition write_field_type (ft : FieldType) : str :=
  jlit "{'type_id': " ++ show_N (type_id ft) ++
  jlit ", 'capacity': " ++ show_N (capacity ft) ++
  jlit ", 'string_capacity': " ++ show_N (string_capacity ft) ++
  jlit ", 'nested_type_name': " ++ write_json_string (nested_type_name ft) ++ lit "}".
Definition write_field (f : Field) : str :=
  jlit "{'name': " ++ write_json_string (name f) ++
  jlit ", 'type': " ++ write_field_type (field_type f) ++ lit "}".
Definition write_itd (itd : IndividualTypeDescription) : str :=
  jlit "{'type_name': " ++ write_json_string (type_name itd) ++
  jlit ", 'fields': [" ++ write_list write_field (fields itd) ++ lit "]}".

(** [sort_by], which is stable: an element goes before the elements after it
    that are not smaller. *)
Fixpoint insert_by_name (x : IndividualTypeDescription) (l : list IndividualTypeDescription) :=
  match l with
  | [] => [x]
  | y :: l' => if str_leb (type_name x) (type_name y) then x :: l else y :: insert_by_name x l'
  end.
Definition sort_by_name (l : list IndividualTypeDescription) := foldr insert_by_name [] l.

Definition hashable_json (self : TypeDescription) : str :=
  let refs := sort_by_name (referenced_type_descriptions self) in
  jlit "{'type_description': " ++ write_itd (type_description self) ++
  jlit ", 'referenced_type_descriptions': [" ++ write_list write_itd refs ++ lit "]}".

(** [Sha256::digest] of the bytes of a string: 32 bytes. *)
Class Sha256 := { digest : str → list N }.
Class Sha256Laws `{Sha256} := {
  digest_length s : length (digest s) = 32%nat;
  digest_bytes s : Forall (λ b, b < 256) (digest s);
}.

Definition rihs01 `{Sha256} (self : TypeDescription) : str :=
  lit "RIHS01_" ++ (digest (hashable_json self) ≫= hex2).

Definition service_type_description (service_name : str)
    (request response event : IndividualTypeDescription)
    (referenced : list IndividualTypeDescription) : TypeDescription :=
  let top := IndividualTypeDescription_new service_name
    [Field_new (lit "request_message") (nested (service_name ++ lit "_Request"));
     Field_new (lit "response_message") (nested (service_name ++ lit "_Response"));
     Field_new (lit "event_message") (nested (service_name ++ lit "_Event"))] in
  TypeDescription_new top ([request; response; event] ++ referenced).

(** ** type_hash.rs *)

Definition WILDCARD : str := lit "*".
Definition PLACEHOLDER_HASH : str :=
  lit "RIHS01_0000000000000000000000000000000000000000000000000000000000000000".

Definition scalars : list (str * str * N) :=
  [(lit "std_msgs::msg::dds_::Bool_", lit "std_msgs/msg/Bool", BOOLEAN);
   (lit "std_msgs::msg::dds_::Float32_", lit "std_msgs/msg/Float32", FLOAT);
   (lit "std_msgs::msg::dds_::Float64_", lit "std_msgs/msg/Float64", DOUBLE);
   (lit "std_msgs::msg::dds_::Int32_", lit "std_msgs/msg/Int32", INT32);
   (lit "std_msgs::msg::dds_::Int64_", lit "std_msgs/msg/Int64", INT64);
   (lit "std_msgs::msg::dds_::UInt32_", lit "std_msgs/msg/UInt32", UINT32);
   (lit "std_msgs::msg::dds_::UInt64_", lit "std_msgs/msg/UInt64", UINT64)].
Definition scalar_description (ros : str) (tid : N) : TypeDescription :=
  TypeDescription_new
    (IndividualTypeDescription_new ros [Field_new (lit "data") (scalar tid)]) [].
Definition STD_MSGS_SCALAR_HASHES `{Sha256} : gmap str str :=
  list_to_map ((λ '(dds, ros, tid), (dds, rihs01 (scalar_description ros tid))) <$> scalars).

Definition known_type_hash `{Sha256} (dds_type_name : str) : option str :=
  if str_eqb dds_type_name (lit "std_msgs::msg::dds_::String_") then
    Some (lit "RIHS01_df668c740482bbd48fb39d76a70dfd4bd59db1288021743503259e948f6b1a18")
  else if str_eqb dds_type_name (lit "example_interfaces::srv::dds_::AddTwoInts_") then
    Some (lit "RIHS01_e118de6bf5eeb66a2491b5bda11202e7b68f198d6f67922cf30364858239c81a")
  else STD_MSGS_SCALAR_HASHES !! dds_type_name.
Definition sender_hash `{Sha256} (dds_type_name : str) : str :=
  default PLACEHOLDER_HASH (known_type_hash dds_type_name).

(** ** A reader of JSON strings

    The escapes of RFC 8259, the reference for the writer. *)

Definition is_scalar (c : char) : Prop := c < 55296 ∨ 57344 <= c < 1114112.

Definition unhex (d : char) : option N :=
  if is_ascii_digit d then Some (d - 48)
  else if (97 <=? d) && (d <=? 102) then Some (d - 87) else None.
Definition read_hex4 (s : str) : option (N * str) :=
  match s with
  | a :: b :: c :: d :: r =>
      a ← unhex a; b ← unhex b; c ← unhex c; d ← unhex d;
      Some (4096 * a + 256 * b + 16 * c + d, r)
  | _ => None
  end.
Definition short_escapes : list (char * char) :=
  [(quote, quote); (backslash, backslash); (110, 10); (114, 13); (116, 9); (98, 8); (102, 12)].
Definition read_unicode (s : str) : option (char * str) :=
  '(u, r) ← read_hex4 s;
  if (55296 <=? u) && (u <? 56320) then
    match r with
    | b :: x :: r =>
        if (b =? backslash) && (x =? 117) then
          '(lo, r) ← read_hex4 r; Some (65536 + 1024 * (u - 55296) + (lo - 56320), r)
        else None
    | _ => None
    end
  else Some (u, r).
Definition read_char (s : str) : option (char * str) :=
  match s with
  | c :: r =>
      if c =? quote then None
      else if c =? backslash then
        match r with
        | e :: r =>
            if e =? 117 then read_unicode r
            else match List.find (λ p, p.1 =? e) short_escapes with
                 | Some (_, c) => Some (c, r)
                 | None => None
                 end
        | [] => None
        end
      else Some (c, r)
  | [] => None
  end.

(** ** Lemmas *)

Lemma unhex_hex_digit d : d < 16 → unhex (hex_digit d) = Some d.
Proof.
  intros H. unfold unhex, hex_digit, is_ascii_digit.
  destruct (N.ltb_spec d 10).
  - rewrite (proj2 (N.leb_le _ _)), (proj2 (N.leb_le _ _)) by lia. simpl. f_equal. lia.
  - rewrite (proj2 (N.leb_gt (87 + d) 57)) by lia. rewrite andb_false_r.
    rewrite !(proj2 (N.leb_le _ _)) by lia. simpl. f_equal. lia.
Qed.

Lemma read_write_hex4 n r : n < 65536 → read_hex4 (hex4 n ++ r) = Some (n, r).
Proof.
  intros H. unfold hex4. cbn [app read_hex4].
  rewrite !unhex_hex_digit by (apply N.mod_lt; done). simpl. f_equal. f_equal. lia.
Qed.

Lemma hex2_inj a b : a < 256 → b < 256 → hex2 a = hex2 b → a = b.
Proof.
  unfold hex2. intros Ha Hb [= E1 E2].
  apply (f_equal unhex) in E1, E2.
  rewrite !unhex_hex_digit in E1, E2 by (apply N.mod_lt; done). simplify_eq. lia.
Qed.

Lemma read_unicode_spec c r :
  is_scalar c → 128 <= c ∨ c < 32 →
  ∃ r', (u ← encode_utf16 c; lit "\u" ++ hex4 u) ++ r = backslash :: 117 :: r' ∧
        read_unicode r' = Some (c, r).
Proof.
  intros Hc _. unfold encode_utf16. destruct (N.ltb_spec c 65536).
  - exists (hex4 c ++ r). split; [reflexivity|]. unfold read_unicode.
    rewrite read_write_hex4 by done. simpl.
    destruct (N.leb_spec 55296 c), (N.ltb_spec c 56320); try done. destruct Hc; lia.
  - exists (hex4 (55296 + N.shiftr (c - 65536) 10) ++ lit "\u" ++
            hex4 (56320 + N.land (c - 65536) 1023) ++ r).
    split; [reflexivity|]. unfold read_unicode. rewrite N.shiftr_div_pow2. change (2 ^ 10) with 1024.
    change 1023 with (N.ones 10). rewrite N.land_ones. change (2 ^ 10) with 1024.
    assert (c < 1114112) by (destruct Hc; lia).
    rewrite read_write_hex4 by lia. cbn -[read_hex4 hex4 N.div N.modulo N.add N.mul N.sub].
    rewrite (proj2 (N.leb_le _ _)), (proj2 (N.ltb_lt _ _)) by lia.
    cbn -[read_hex4 hex4 N.div N.modulo N.add N.mul N.sub].
    rewrite read_write_hex4 by lia. cbn -[N.div N.modulo N.add N.mul N.sub]. f_equal. f_equal. lia.
Qed.

(** The reader gives back every character written. *)
Lemma read_write_char c r : is_scalar c → read_char (write_char c ++ r) = Some (c, r).
Proof.
  intros Hc. unfold write_char.
  do 7 (match goal with |- context [if c =? ?k then _ else _] =>
          destruct (N.eqb_spec c k) as [->|?]; [reflexivity|] end).
  destruct (N.ltb_spec c 32).
  { destruct (read_unicode_spec c r Hc ltac:(by right)) as (r'&E&Hr). revert E Hr.
    unfold encode_utf16. rewrite (proj2 (N.ltb_lt c 65536)) by lia.
    cbn [mbind list_bind]. rewrite app_nil_r. intros -> Hr. exact Hr. }
  destruct (N.ltb_spec c 128).
  { simpl. rewrite !(proj2 (N.eqb_neq _ _)) by done. done. }
  destruct (read_unicode_spec c r Hc ltac:(by left)) as (r'&->&Hr). exact Hr.
Qed.

(** *** The writers are prefix codes

    What is written determines, up to [canon], what was written and what
    follows it. *)
Class PrefixCode {A B} (P : A → Prop) (canon : A → B) (w : A → str) :=
  prefix_code x y r r' : P x → P y → w x ++ r = w y ++ r' → canon x = canon y ∧ r = r'.

Lemma read_chars_inj s s' r r' :
  Forall is_scalar s → Forall is_scalar s' →
  (s ≫= write_char) ++ quote :: r = (s' ≫= write_char) ++ quote :: r' → s = s' ∧ r = r'.
Proof.
  intros Hs. revert s'. induction Hs as [|c s Hc Hs IH]; intros s0 [|c' s' Hc' Hs'] E.
  - by simplify_eq/=.
  - apply (f_equal read_char) in E. cbn [mbind list_bind] in E.
    by rewrite <- (assoc_L (++)), read_write_char in E.
  - apply (f_equal read_char) in E. cbn [mbind list_bind] in E.
    by rewrite <- (assoc_L (++)), read_write_char in E.
  - cbn [mbind list_bind] in E. rewrite <- !(assoc_L (++)) in E.
    apply (f_equal read_char) in E. rewrite !read_write_char in E by done.
    injection E as -> E. by apply IH in E as [-> ->].
Qed.
#[export] Instance json_string_code : PrefixCode (Forall is_scalar) id write_json_string.
Proof.
  intros s s' r r' Hs Hs' E. unfold write_json_string in E. cbn [app] in E.
  injection E as E. rewrite <- !(assoc_L (++)) in E. by apply read_chars_inj.
Qed.

Lemma show_N_code t n m r r' :
  starts_with_char (λ c, negb (is_ascii_digit c)) t = true →
  show_N n ++ t ++ r = show_N m ++ t ++ r' → n = m ∧ r = r'.
Proof.
  destruct t as [|c t]; [done|]. intros Hc%negb_true_iff E%(f_equal (split_once c)).
  cbn [app] in E. rewrite !split_once_app in E by by apply show_N_not_in.
  injection E as E Er. apply app_inv_head in Er. by apply show_N_inj in E.
Qed.

(** The scalar values of every string of a description. *)
Definition wf_field_type (ft : FieldType) : Prop := Forall is_scalar (nested_type_name ft).
Definition wf_field (f : Field) : Prop := Forall is_scalar (name f) ∧ wf_field_type (field_type f).
Definition wf_itd (t : IndividualTypeDescription) : Prop :=
  Forall is_scalar (type_name t) ∧ Forall wf_field (fields t).
Definition wf_td (t : TypeDescription) : Prop :=
  wf_itd (type_description t) ∧ Forall wf_itd (referenced_type_descriptions t).

#[export] Instance is_scalar_dec c : Decision (is_scalar c).
Proof. unfold is_scalar. apply _. Defined.
#[export] Instance wf_field_dec f : Decision (wf_field f).
Proof. unfold wf_field, wf_field_type. apply _. Defined.
#[export] Instance wf_itd_dec t : Decision (wf_itd t).
Proof. unfold wf_itd. apply _. Defined.
#[export] Instance wf_td_dec t : Decision (wf_td t).
Proof. unfold wf_td. apply _. Defined.

(** What the document keeps: everything but the default values and the order of
    the referenced types. *)
Definition strip_field (f : Field) : Field := Field_new (name f) (field_type f).
Definition strip_itd (t : IndividualTypeDescription) : IndividualTypeDescription :=
  IndividualTypeDescription_new (type_name t) (strip_field <$> fields t).
Definition canonical (t : TypeDescription) : TypeDescription :=
  TypeDescription_new (strip_itd (type_description t))
    (strip_itd <$> sort_by_name (referenced_type_descriptions t)).

(** Strips equal pieces and codes from the front of two equal texts. *)
Ltac strip_text E :=
  rewrite <- ?(assoc_L (++)) in E;
  repeat first
    [ apply app_inv_head in E
    | apply show_N_code in E as [? E]; [|reflexivity]
    | apply prefix_code in E as [? E]; [|done..] ].

#[export] Instance field_type_code : PrefixCode wf_field_type id write_field_type.
Proof.
  intros [] [] r r' H H' E. unfold wf_field_type, write_field_type in *.
  cbn [type_id capacity string_capacity nested_type_name] in *.
  strip_text E. by simplify_eq/=.
Qed.
#[export] Instance field_code : PrefixCode wf_field strip_field write_field.
Proof.
  intros [] [] r r' [Hn Ht] [Hn' Ht'] E. unfold write_field in E.
  cbn [name field_type] in *.
  strip_text E. by simplify_eq/=.
Qed.

(** *** Lists of written elements *)

Lemma write_list_cons {A} (w : A → str) x l :
  write_list w (x :: l) = w x ++ concat ((λ y, lit ", " ++ w y) <$> l).
Proof.
  unfold write_list. cbn [imap concat]. rewrite decide_False by lia. cbn [app]. do 2 f_equal.
  rewrite <- imap_const. apply imap_ext. intros i y _. cbn [const compose].
  by rewrite decide_True by lia.
Qed.

Section list_code.
Context {A B : Type} {P : A → Prop} {canon : A → B} {w : A → str} `{!PrefixCode P canon w}.
Context (Hw : ∀ x, ∃ t, w x = 123 :: t).

Lemma tail_code l l' r r' :
  Forall P l → Forall P l' →
  concat ((λ y, lit ", " ++ w y) <$> l) ++ lit "]}" ++ r =
  concat ((λ y, lit ", " ++ w y) <$> l') ++ lit "]}" ++ r' → canon <$> l = canon <$> l' ∧ r = r'.
Proof.
  intros Hl. revert l'. induction Hl as [|x l Hx Hl IH]; intros l0 [|y l' Hy Hl'] E;
    [by simplify_eq/=|discriminate E|discriminate E|].
  cbn [fmap list_fmap concat] in E |- *. rewrite <- !(assoc_L (++)) in E.
  apply app_inv_head, prefix_code in E as [-> E]; [|done..]. by apply IH in E as [-> ->].
Qed.
Lemma list_code l l' r r' :
  Forall P l → Forall P l' →
  write_list w l ++ lit "]}" ++ r = write_list w l' ++ lit "]}" ++ r' →
  canon <$> l = canon <$> l' ∧ r = r'.
Proof.
  intros [|x k Hx Hk] [|y k' Hy Hk'] E; rewrite ?write_list_cons in E.
  - by simplify_eq/=.
  - by destruct (Hw y) as [t Et]; rewrite Et in E.
  - by destruct (Hw x) as [t Et]; rewrite Et in E.
  - rewrite <- !(assoc_L (++)) in E. apply prefix_code in E as [Ex E]; [|done..].
    apply tail_code in E as [E ->]; [|done..]. by rewrite !fmap_cons, Ex, E.
Qed.
End list_code.

Lemma write_field_brace f : ∃ t, write_field f = 123 :: t.
Proof. eexists. reflexivity. Qed.
Lemma write_itd_brace t : ∃ s, write_itd t = 123 :: s.
Proof. eexists. reflexivity. Qed.

#[export] Instance itd_code : PrefixCode wf_itd strip_itd write_itd.
Proof.
  intros [n fs] [n' fs'] r r' [Hn Hf] [Hn' Hf'] E. unfold write_itd in E.
  cbn [type_name fields] in *. strip_text E.
  apply (list_code write_field_brace) in E as [E ->]; [|done..].
  unfold strip_itd. simpl. by simplify_eq/=; rewrite E.
Qed.

(** *** Sorting *)

Definition name_le (a b : IndividualTypeDescription) : Prop :=
  str_le (type_name a) (type_name b).

Lemma insert_by_name_perm x l : insert_by_name x l ≡ₚ x :: l.
Proof.
  induction l as [|y l IH]; [done|]. simpl. destruct (str_leb _ _); [done|].
  rewrite IH. apply Permutation_swap.
Qed.
Lemma sort_by_name_perm l : sort_by_name l ≡ₚ l.
Proof. induction l as [|x l IH]; [done|]. simpl. by rewrite insert_by_name_perm, IH. Qed.

Lemma insert_by_name_sorted x l :
  StronglySorted name_le l → StronglySorted name_le (insert_by_name x l).
Proof.
  induction 1 as [|y l Hl IH Hy]; simpl; [by repeat constructor|].
  destruct (str_leb _ _) eqn:E.
  - constructor; [by constructor|]. constructor; [done|].
    eapply Forall_impl; [exact Hy|]. intros z Hz. unfold name_le in *. by etrans.
  - constructor; [done|]. rewrite insert_by_name_perm. constructor; [|done].
    destruct (total str_le (type_name x) (type_name y)) as [H|H]; [|done].
    unfold str_le in H. congruence.
Qed.
Lemma sort_by_name_sorted l : StronglySorted name_le (sort_by_name l).
Proof. induction l; simpl; [constructor|]. by apply insert_by_name_sorted. Qed.

Lemma strip_write_itd t : write_itd (strip_itd t) = write_itd t.
Proof.
  unfold write_itd, write_list. simpl. by rewrite imap_fmap.
Qed.
Lemma strip_sort l : strip_itd <$> sort_by_name l = sort_by_name (strip_itd <$> l).
Proof.
  induction l as [|x l IH]; [done|].
  change (strip_itd <$> insert_by_name x (sort_by_name l) =
          insert_by_name (strip_itd x) (sort_by_name (strip_itd <$> l))).
  rewrite <- IH. generalize (sort_by_name l). intros k. induction k as [|y k IHk]; [done|]. simpl.
  destruct (str_leb _ _); [done|]. by rewrite fmap_cons, IHk.
Qed.
(** With distinct names the order of the referenced types does not matter. *)
Lemma sort_by_name_unique l l' :
  NoDup (type_name <$> l) → l ≡ₚ l' → sort_by_name l = sort_by_name l'.
Proof.
  intros Hnd Hp. eapply StronglySorted_unique_strong; try apply sort_by_name_sorted.
  2: by rewrite !sort_by_name_perm.
  intros x y Hx Hy Hxy Hyx. rewrite sort_by_name_perm in Hx, Hy. rewrite <- Hp in Hy.
  pose proof (anti_symm str_le _ _ Hxy Hyx) as E.
  apply list_elem_of_lookup in Hx as [i Hx], Hy as [j Hy].
  assert (i = j) as ->; [|by simplify_eq].
  eapply (NoDup_lookup _ i j); [exact Hnd|by rewrite list_lookup_fmap, Hx|].
  by rewrite list_lookup_fmap, Hy, E.
Qed.

(** ** Properties *)

Lemma write_list_strip l : write_list write_itd (strip_itd <$> l) = write_list write_itd l.
Proof.
  unfold write_list. rewrite imap_fmap. f_equal. apply imap_ext. intros i t _.
  cbn [compose]. by rewrite strip_write_itd.
Qed.

Lemma hashable_json_inj t t' :
  wf_td t → wf_td t' → hashable_json t = hashable_json t' → canonical t = canonical t'.
Proof.
  intros [Ht Hr] [Ht' Hr'] E. unfold hashable_json in E. cbv zeta in E.
  apply (f_equal (λ s, s ++ [])) in E. strip_text E.
  apply (list_code write_itd_brace) in E as [E _]; [|by rewrite sort_by_name_perm..].
  unfold canonical. by f_equal.
Qed.

Lemma hashable_json_canonical t t' : canonical t = canonical t' → hashable_json t = hashable_json t'.
Proof.
  intros E. injection E as E1 E2 E3. unfold hashable_json. cbv zeta.
  rewrite <- (strip_write_itd (type_description t)), <- (strip_write_itd (type_description t')).
  rewrite <- (write_list_strip (sort_by_name (referenced_type_descriptions t))), E3, write_list_strip.
  unfold strip_itd. by rewrite E1, E2.
Qed.
Lemma hashable_json_iff t t' :
  wf_td t → wf_td t' → hashable_json t = hashable_json t' ↔ canonical t = canonical t'.
Proof. split; [by apply hashable_json_inj|apply hashable_json_canonical]. Qed.

(** Canonically equal descriptions describe the same types; with distinct names
    of the referenced types, the converse holds. *)
Lemma canonical_perm t t' :
  canonical t = canonical t' →
  strip_itd (type_description t) = strip_itd (type_description t') ∧
  strip_itd <$> referenced_type_descriptions t ≡ₚ strip_itd <$> referenced_type_descriptions t'.
Proof.
  intros E. injection E as E1 E2 E3. rewrite <- (sort_by_name_perm (referenced_type_descriptions t)).
  rewrite <- (sort_by_name_perm (referenced_type_descriptions t')), E3.
  split; [|done]. unfold strip_itd. by rewrite E1, E2.
Qed.
Lemma perm_canonical t t' :
  NoDup (type_name <$> referenced_type_descriptions t) →
  strip_itd (type_description t) = strip_itd (type_description t') →
  strip_itd <$> referenced_type_descriptions t ≡ₚ strip_itd <$> referenced_type_descriptions t' →
  canonical t = canonical t'.
Proof.
  intros Hnd E1 E2. unfold canonical. rewrite E1, !strip_sort. f_equal.
  apply sort_by_name_unique; [by rewrite <- list_fmap_compose|done].
Qed.

Section hash.
Context `{SL : Sha256Laws}.

Lemma hex_digit_alphanumeric d :
  d < 16 → is_ascii_alphanumeric (hex_digit d) || (hex_digit d =? underscore) = true.
Proof.
  intros Hd. pose proof (proj1 (forallb_forall (λ d, is_ascii_alphanumeric (hex_digit d) ||
    (hex_digit d =? underscore)) (N.of_nat <$> seq 0 16)) eq_refl d) as Hall.
  apply Hall, list_elem_of_In, list_elem_of_fmap. exists (N.to_nat d).
  rewrite elem_of_seq. lia.
Qed.

Lemma hex_bytes_inj l l' :
  Forall (λ b, b < 256) l → Forall (λ b, b < 256) l' → (l ≫= hex2) = (l' ≫= hex2) → l = l'.
Proof.
  intros Hl. revert l'. induction Hl as [|b l Hb Hl IH]; intros l0 [|b' l' Hb' Hl'] E; [done..|].
  cbn [mbind list_bind] in E. apply app_inj_1 in E as [E1 E2]; [|done].
  f_equal; [by apply hex2_inj|by apply IH].
Qed.

(** A hash: its prefix, 71 characters, and only letters, digits and underscores. *)
Lemma rihs01_format t :
  starts_with (lit "RIHS01_") (rihs01 t) = true ∧ length (rihs01 t) = 71%nat ∧
  forallb (λ c, is_ascii_alphanumeric c || (c =? underscore)) (rihs01 t) = true.
Proof.
  split; [reflexivity|]. unfold rihs01. rewrite length_app, forallb_app.
  pose proof (digest_length (hashable_json t)) as Hl.
  pose proof (digest_bytes (hashable_json t)) as Hb.
  assert (∀ l, length (l ≫= hex2) = 2 * length l)%nat as Hlen.
  { induction l as [|b l IH]; [done|]. cbn [mbind list_bind]. rewrite length_app, IH. simpl. lia. }
  split; [by rewrite Hlen, Hl|]. apply andb_true_iff. split; [reflexivity|].
  clear Hl. induction Hb as [|b l Hb _ IH]; [done|]. cbn [mbind list_bind].
  rewrite forallb_app, IH. unfold hex2. cbn [forallb].
  by rewrite !hex_digit_alphanumeric by (apply N.mod_lt; done).
Qed.

Lemma rihs01_digest t t' :
  rihs01 t = rihs01 t' ↔ digest (hashable_json t) = digest (hashable_json t').
Proof.
  split; [|unfold rihs01; by intros ->].
  intros E. by apply app_inv_head, hex_bytes_inj in E; try apply digest_bytes.
Qed.

(** Two texts that SHA-256 does not tell apart. *)
Definition sha256_collision (x y : str) : Prop := x ≠ y ∧ digest x = digest y.

(** C26: two type descriptions of valid strings have the same hash exactly when
    they are canonically equal or their hashed texts are a SHA-256 collision.
    Canonically equal means: the same type and, after the sort by name, the same
    list of referenced types, where a type is its name and its fields' names and
    types in order, and default values do not count. Canonically equal
    descriptions refer to the same types up to order; when the names of the
    referenced types are all different, that is enough, so the order in which they
    are given does not count either. *)
Theorem rihs01_iff t t' :
  wf_td t → wf_td t' →
  (rihs01 t = rihs01 t' ↔
   canonical t = canonical t' ∨ sha256_collision (hashable_json t) (hashable_json t')) ∧
  (canonical t = canonical t' →
   strip_itd (type_description t) = strip_itd (type_description t') ∧
   strip_itd <$> referenced_type_descriptions t ≡ₚ strip_itd <$> referenced_type_descriptions t') ∧
  (NoDup (type_name <$> referenced_type_descriptions t) →
   strip_itd (type_description t) = strip_itd (type_description t') →
   strip_itd <$> referenced_type_descriptions t ≡ₚ strip_itd <$> referenced_type_descriptions t' →
   canonical t = canonical t').
Proof.
  intros Ht Ht'. split_and!.
  - rewrite <-hashable_json_iff, rihs01_digest by done. unfold sha256_collision. split.
    + intros E. destruct (decide (hashable_json t = hashable_json t')); auto.
    + by intros [->|[_ E]].
  - apply canonical_perm.
  - apply perm_canonical.
Qed.
End hash.

(** A stand-in for SHA-256: 32 bytes that depend on the whole text. *)
Definition toy_digest (s : str) : list N :=
  (λ i, foldl (λ a c, (31 * a + c + N.of_nat i) mod 256) 7 s) <$> seq 0 32.
#[local] Instance toy_sha : Sha256 := {| digest := toy_digest |}.
#[local] Instance toy_sha_laws : Sha256Laws.
Proof.
  split.
  - intros s. change (digest s) with (toy_digest s). unfold toy_digest.
    by rewrite length_fmap, length_seq.
  - intros s. change (digest s) with (toy_digest s). unfold toy_digest.
    apply Forall_fmap, Forall_forall. intros i _. simpl.
    induction s as [|c s _] using rev_ind; [done|]. rewrite foldl_app. simpl. by apply N.mod_lt.
Defined.

Definition point_itd : IndividualTypeDescription :=
  IndividualTypeDescription_new (lit "geometry_msgs/msg/Point")
    [{| name := lit "x"; field_type := scalar DOUBLE; default_value := lit "0.5" |};
     Field_new (lit "y") (scalar DOUBLE)].
Definition color_itd : IndividualTypeDescription :=
  IndividualTypeDescription_new (lit "std_msgs/msg/ColorRGBA") [Field_new (lit "r") (scalar FLOAT)].
Definition marker_itd : IndividualTypeDescription :=
  IndividualTypeDescription_new (lit "demo/msg/Marker")
    [Field_new (lit "at") (nested (lit "geometry_msgs/msg/Point"));
     Field_new (lit "color") (nested (lit "std_msgs/msg/ColorRGBA"))].

Lemma rihs01_iff_witness :
  hashable_json (scalar_description (lit "std_msgs/msg/String") STRING) =
    jlit "{'type_description': {'type_name': 'std_msgs/msg/String', 'fields': [{'name': 'data', 'type': {'type_id': 17, 'capacity': 0, 'string_capacity': 0, 'nested_type_name': ''}}]}, 'referenced_type_descriptions': []}" ∧
  rihs01 (TypeDescription_new marker_itd [color_itd; point_itd]) =
    rihs01 (TypeDescription_new marker_itd [strip_itd point_itd; color_itd]) ∧
  rihs01 (TypeDescription_new marker_itd [color_itd]) ≠
    rihs01 (TypeDescription_new marker_itd [point_itd]).
Proof.
  split; [vm_compute; reflexivity|].
  destruct (rihs01_iff (TypeDescription_new marker_itd [color_itd; point_itd])
    (TypeDescription_new marker_itd [strip_itd point_itd; color_itd])) as (H1 & _ & H2);
    [apply (bool_decide_unpack _); vm_compute; exact I..|].
  destruct (rihs01_iff (TypeDescription_new marker_itd [color_itd])
    (TypeDescription_new marker_itd [point_itd])) as (H3 & _ & _);
    [apply (bool_decide_unpack _); vm_compute; exact I..|].
  split.
  - apply H1. left. apply H2; [|reflexivity|apply Permutation_swap].
    apply (bool_decide_unpack _); vm_compute; exact I.
  - intros [Hc|[_ Hd]]%H3; [vm_compute in Hc; discriminate Hc|].
    vm_compute in Hd. discriminate Hd.
Defined.
