(* ===== verification/Discovery.v ===== *)
(** * ROS 2 discovery of a DDS node (entities_info.rs, gid.rs, the node registry
    of context.rs, the endpoint bookkeeping, status events and match waits of
    node.rs)

    What a context publishes about its nodes, which remote endpoints a node's
    own endpoints are matched with, how discovery events reach the node's
    listeners, and the future that waits for a match. A [GUID] is RustDDS's, a
    type with its byte conversions; the channels are [async_channel]'s, bounded
    queues whose receiver is woken by a message or by the close it waits for. *)
From S2P Require Import Prelude Names.

(** ** gid.rs *)

(** A [Gid] is its bytes; [Ord] is the lexicographic order [str_le]. *)
Abbreviation Gid := (list N) (only parsing).
Definition GID_LENGTH (iron : bool) : nat := if iron then 16 else 24.

Section gid_conversions.
Context {GUID : Type} (to_bytes : GUID → list N) (from_bytes : list N → GUID).
(** [Gid::from(guid)]: the GUID's bytes, zero where it has none. *)
Definition Gid_from (iron : bool) (guid : GUID) : Gid :=
  (λ i, default 0%N (to_bytes guid !! i)) <$> seq 0 (GID_LENGTH iron).
(** [GUID::from(gid)]: the first sixteen bytes. *)
Definition GUID_from (gid : Gid) : GUID := from_bytes (take 16 gid).
End gid_conversions.

(** ** entities_info.rs *)

Record NodeEntitiesInfo := {
  nei_name : NodeName;
  reader_gid_seq : list Gid;
  writer_gid_seq : list Gid;
}.
Definition NodeEntitiesInfo_new (name : NodeName) : NodeEntitiesInfo :=
  {| nei_name := name; reader_gid_seq := []; writer_gid_seq := [] |}.
Definition nei_fully_qualified_name (n : NodeEntitiesInfo) : str :=
  fully_qualified_name (nei_name n).
Definition push_new (gid : Gid) (l : list Gid) : list Gid :=
  if bool_decide (gid ∈ l) then l else l ++ [gid].
Definition nei_add_writer (gid : Gid) (n : NodeEntitiesInfo) : NodeEntitiesInfo :=
  {| nei_name := nei_name n; reader_gid_seq := reader_gid_seq n;
     writer_gid_seq := push_new gid (writer_gid_seq n) |}.
Definition nei_add_reader (gid : Gid) (n : NodeEntitiesInfo) : NodeEntitiesInfo :=
  {| nei_name := nei_name n; reader_gid_seq := push_new gid (reader_gid_seq n);
     writer_gid_seq := writer_gid_seq n |}.

(** [repr::NodeEntitiesInfo], the message. *)
Record NodeEntitiesInfoRepr := {
  node_namespace : str;
  node_name : str;
  r_reader_gid_seq : list Gid;
  r_writer_gid_seq : list Gid;
}.
Definition NodeEntitiesInfo_try_from (r : NodeEntitiesInfoRepr) :
    result NameError NodeEntitiesInfo :=
  name ← NodeName_new (node_namespace r) (node_name r);
  Ok {| nei_name := name; reader_gid_seq := r_reader_gid_seq r;
        writer_gid_seq := r_writer_gid_seq r |}.
Definition NodeEntitiesInfoRepr_from (n : NodeEntitiesInfo) : NodeEntitiesInfoRepr :=
  {| node_namespace := namespace (nei_name n); node_name := base_name (nei_name n);
     r_reader_gid_seq := reader_gid_seq n; r_writer_gid_seq := writer_gid_seq n |}.

Record ParticipantEntitiesInfo := {
  pei_gid : Gid;
  node_entities_info_seq : list NodeEntitiesInfo;
}.

(** ** context.rs: the nodes of a participant *)

Record ContextInner := {
  participant_gid : Gid;
  node_writer_gid : Gid;
  local_nodes : gmap str NodeEntitiesInfo;
  published : list ParticipantEntitiesInfo; (* what [node_writer] has sent *)
}.
(** The order of a [HashMap]'s values is not specified. *)
Definition participant_entities_info (c : ContextInner) : ParticipantEntitiesInfo :=
  {| pei_gid := participant_gid c;
     node_entities_info_seq := (map_to_list (local_nodes c)).*2 |}.
Definition broadcast_node_infos (c : ContextInner) : ContextInner :=
  {| participant_gid := participant_gid c; node_writer_gid := node_writer_gid c;
     local_nodes := local_nodes c; published := published c ++ [participant_entities_info c] |}.
Definition with_local_nodes (m : gmap str NodeEntitiesInfo) (c : ContextInner) : ContextInner :=
  {| participant_gid := participant_gid c; node_writer_gid := node_writer_gid c;
     local_nodes := m; published := published c |}.
Definition update_node (node_info : NodeEntitiesInfo) (c : ContextInner) : ContextInner :=
  let node_info := nei_add_writer (node_writer_gid c) node_info in
  broadcast_node_infos
    (with_local_nodes (<[nei_fully_qualified_name node_info := node_info]> (local_nodes c)) c).
Definition remove_node (node_fqn : str) (c : ContextInner) : ContextInner :=
  broadcast_node_infos (with_local_nodes (delete node_fqn (local_nodes c)) c).
Definition ContextInner_drop (c : ContextInner) : ContextInner :=
  broadcast_node_infos (with_local_nodes ∅ c).

(** ** node.rs: the endpoints of a node *)

Record Node := {
  n_name : NodeName;
  readers : gset Gid;
  writers : gset Gid;
  suppress_updates : bool;
  parameter_events_gid : Gid;
  rosout_gid : option Gid;
}.
(** The elements of a [BTreeSet<Gid>], in its order. *)
Definition in_order (s : gset Gid) : list Gid := merge_sort str_le (elements s).

Definition generate_node_info (n : Node) : NodeEntitiesInfo :=
  let node_info := NodeEntitiesInfo_new (n_name n) in
  let node_info := nei_add_writer (parameter_events_gid n) node_info in
  let node_info := match rosout_gid n with
                   | Some row => nei_add_writer row node_info
                   | None => node_info
                   end in
  let node_info := fold_left (λ i r, nei_add_reader r i) (in_order (readers n)) node_info in
  fold_left (λ i w, nei_add_writer w i) (in_order (writers n)) node_info.

Definition suppress_node_info_updates (suppress : bool) (n : Node) (c : ContextInner) :
    Node * ContextInner :=
  let n := {| n_name := n_name n; readers := readers n; writers := writers n;
              suppress_updates := suppress; parameter_events_gid := parameter_events_gid n;
              rosout_gid := rosout_gid n |} in
  (n, if suppress then c else update_node (generate_node_info n) c).
Definition add_reader (reader : Gid) (n : Node) (c : ContextInner) : Node * ContextInner :=
  let n := {| n_name := n_name n; readers := {[ reader ]} ∪ readers n; writers := writers n;
              suppress_updates := suppress_updates n;
              parameter_events_gid := parameter_events_gid n; rosout_gid := rosout_gid n |} in
  (n, if suppress_updates n then c else update_node (generate_node_info n) c).
Definition add_writer (writer : Gid) (n : Node) (c : ContextInner) : Node * ContextInner :=
  let n := {| n_name := n_name n; readers := readers n; writers := {[ writer ]} ∪ writers n;
              suppress_updates := suppress_updates n;
              parameter_events_gid := parameter_events_gid n; rosout_gid := rosout_gid n |} in
  (n, if suppress_updates n then c else update_node (generate_node_info n) c).
Definition Node_drop (n : Node) (c : ContextInner) : ContextInner :=
  remove_node (fully_qualified_name (n_name n)) c.

(** [Node::new] after the parameter events writer [pw]: the log writer and
    reader when the options ask for them (and creating them succeeds), and
    whether the declared parameters validate. A node that fails is dropped. *)
Definition Node_new (name : NodeName) (pw : Gid) (rosout_writer rosout_reader : option Gid)
    (parameters_ok : bool) (c : ContextInner) : option Node * ContextInner :=
  let n := {| n_name := name; readers := ∅; writers := ∅; suppress_updates := false;
              parameter_events_gid := pw; rosout_gid := None |} in
  let '(n, c) := suppress_node_info_updates true n c in
  let '(n, c) := match rosout_writer with
                 | Some w =>
                     let '(n, c) := add_writer w n c in
                     ({| n_name := n_name n; readers := readers n; writers := writers n;
                         suppress_updates := suppress_updates n;
                         parameter_events_gid := parameter_events_gid n;
                         rosout_gid := Some w |}, c)
                 | None => (n, c)
                 end in
  let '(n, c) := match rosout_reader with Some r => add_reader r n c | None => (n, c) end in
  if parameters_ok
  then let '(n, c) := suppress_node_info_updates false n c in (Some n, c)
  else (None, Node_drop n c).

(** The life of a context's nodes, known by handles. *)
Inductive node_op :=
| NewNode (handle : N) (name : NodeName) (pw : Gid) (rosout_writer rosout_reader : option Gid)
    (parameters_ok : bool)
| CreateReader (handle : N) (gid : Gid)
| CreateWriter (handle : N) (gid : Gid)
| DropNode (handle : N).
Definition exec_node_op (o : node_op) (s : gmap N Node * ContextInner) :
    gmap N Node * ContextInner :=
  let '(live, c) := s in
  match o with
  | NewNode h name pw row ror ok =>
      match Node_new name pw row ror ok c with
      | (Some n, c) => (<[h := n]> live, c)
      | (None, c) => (live, c)
      end
  | CreateReader h g =>
      match live !! h with
      | Some n => let '(n, c) := add_reader g n c in (<[h := n]> live, c)
      | None => s
      end
  | CreateWriter h g =>
      match live !! h with
      | Some n => let '(n, c) := add_writer g n c in (<[h := n]> live, c)
      | None => s
      end
  | DropNode h =>
      match live !! h with
      | Some n => (delete h live, Node_drop n c)
      | None => s
      end
  end.

(** ** node.rs: matched endpoints *)

Section endpoints.
(** RustDDS's [GUID], and the rest of the discovery events. *)
Context {GUID : Type} `{Countable GUID}.
Context {Other : Type}.

(** [DomainParticipantStatusEvent]: the variants the Spinner handles. *)
Inductive DomainParticipantStatusEvent :=
| RemoteReaderMatched (local_writer remote_reader : GUID)
| RemoteWriterMatched (local_reader remote_writer : GUID)
| ReaderLost (guid : GUID)
| WriterLost (guid : GUID)
| OtherStatus (e : Other).
Inductive NodeEvent := DDS (e : DomainParticipantStatusEvent) | ROS (p : ParticipantEntitiesInfo).

Abbreviation matches := (gmap GUID (gset GUID)) (only parsing).
Record Tables := {
  readers_to_remote_writers : matches;
  writers_to_remote_readers : matches;
  external_nodes : gmap Gid (list NodeEntitiesInfo);
}.

Definition add_match (local remote : GUID) (m : matches) : matches :=
  match m !! local with
  | Some s => <[local := {[ remote ]} ∪ s]> m
  | None => <[local := {[ remote ]}]> m
  end.
Definition lose (guid : GUID) (m : matches) : matches := (λ s, s ∖ {[ guid ]}) <$> m.

(** The Spinner's arms for the discovery streams, before they notify. *)
Definition on_dds_status (e : DomainParticipantStatusEvent) (t : Tables) : Tables :=
  match e with
  | RemoteReaderMatched local_writer remote_reader =>
      {| readers_to_remote_writers := readers_to_remote_writers t;
         writers_to_remote_readers :=
           add_match local_writer remote_reader (writers_to_remote_readers t);
         external_nodes := external_nodes t |}
  | RemoteWriterMatched local_reader remote_writer =>
      {| readers_to_remote_writers :=
           add_match local_reader remote_writer (readers_to_remote_writers t);
         writers_to_remote_readers := writers_to_remote_readers t;
         external_nodes := external_nodes t |}
  | ReaderLost guid =>
      {| readers_to_remote_writers := readers_to_remote_writers t;
         writers_to_remote_readers := lose guid (writers_to_remote_readers t);
         external_nodes := external_nodes t |}
  | WriterLost guid =>
      {| readers_to_remote_writers := lose guid (readers_to_remote_writers t);
         writers_to_remote_readers := writers_to_remote_readers t;
         external_nodes := external_nodes t |}
  | OtherStatus _ => t
  end.
Definition on_event (e : NodeEvent) (t : Tables) : Tables :=
  match e with
  | DDS e => on_dds_status e t
  | ROS p =>
      {| readers_to_remote_writers := readers_to_remote_writers t;
         writers_to_remote_readers := writers_to_remote_readers t;
         external_nodes := <[pei_gid p := node_entities_info_seq p]> (external_nodes t) |}
  end.
Definition Tables_new : Tables :=
  {| readers_to_remote_writers := ∅; writers_to_remote_readers := ∅; external_nodes := ∅ |}.

Definition count (local : GUID) (m : matches) : nat :=
  match m !! local with Some s => size s | None => 0 end.
Definition get_publisher_count (subscription_guid : GUID) (t : Tables) : nat :=
  count subscription_guid (readers_to_remote_writers t).
Definition get_subscription_count (publisher_guid : GUID) (t : Tables) : nat :=
  count publisher_guid (writers_to_remote_readers t).
(** [MatchWait::matched]. *)
Definition matched (local : GUID) (m : matches) : bool :=
  match m !! local with Some remotes => negb (bool_decide (remotes = ∅)) | None => false end.

(** ** node.rs: the status channels *)

(** Outcomes of [Sender::try_send]. *)
Inductive SendOutcome := Sent | Full | Closed.
Definition is_closed (o : SendOutcome) : bool := match o with Closed => true | _ => false end.
(** [Vec::swap_remove]; [None] is its panic. *)
Definition swap_remove {A : Type} (i : nat) (l : list A) : option (list A) :=
  match last l with
  | Some x => if (i <? length l)%nat then Some (take (length l - 1) (<[i := x]> l)) else None
  | None => None
  end.
(** [send_status_event]: [try_send] says what sending to a channel does to the
    channels' state [S] and its outcome; senders are handles [C]. *)
Fixpoint send_each {C S : Type} (try_send : C → S → S * SendOutcome) (i : nat)
    (senders : list C) (closed : list nat) (s : S) : list nat * S :=
  match senders with
  | [] => (closed, s)
  | c :: senders =>
      let '(s, o) := try_send c s in
      send_each try_send (Datatypes.S i) senders
        (if is_closed o then closed ++ [i] else closed) s
  end.
Fixpoint remove_each {C : Type} (is_ : list nat) (senders : list C) : option (list C) :=
  match is_ with
  | [] => Some senders
  | i :: is_ => senders ← swap_remove i senders; remove_each is_ senders
  end.
Definition send_status_event {C S : Type} (try_send : C → S → S * SendOutcome)
    (senders : list C) (s : S) : option (list C) * S :=
  let '(closed, s) := send_each try_send 0 senders [] s in
  (remove_each (rev closed) senders, s).

(** ** node.rs: [MatchWait], against the Spinner *)

Definition CHANNEL_CAPACITY : nat := 8.

(** Where the Spinner is in an iteration of its loop: between recording an
    event in the tables and announcing it. *)
Inductive SpinnerPc := Idle | Announcing (e : NodeEvent) | Stopped.
(** Where the waiter is: suspended, or inside [poll] (draining the stream, or
    about to look at the matches), or resolved. *)
Inductive WaiterPc := Suspended | Draining | Looking | Resolved.
Record WaitState := {
  ws_matches : matches;      (* the table the waiter looks at *)
  spinner : SpinnerPc;
  queue : list NodeEvent;    (* the waiter's channel *)
  closed : bool;             (* all senders are gone *)
  stream : bool;             (* [status_event_stream] is [Some] *)
  waker : bool;              (* the channel holds the waiter's waker *)
  scheduled : bool;          (* the executor is to poll the waiter *)
  waiter : WaiterPc;
}.
(** [MatchWait::new], first awaited: the executor polls it. *)
Definition MatchWait_new (m : matches) (pc : SpinnerPc) : WaitState :=
  {| ws_matches := m; spinner := pc; queue := []; closed := false; stream := true;
     waker := false; scheduled := true; waiter := Suspended |}.

(** Waking uses the waker up. *)
Definition wake (s : WaitState) : bool := waker s || scheduled s.

Section match_wait.
(** How an event changes the table the waiter looks at: [wait_for_writer] and
    [wait_for_reader] look at different tables of [on_event]. *)
Variable record_ : NodeEvent → matches → matches.
Variable local : GUID.

Inductive spinner_step : WaitState → WaitState → Prop :=
(** The Spinner takes an event and records it. *)
| step_record s e :
    spinner s = Idle →
    spinner_step s {| ws_matches := record_ e (ws_matches s); spinner := Announcing e;
                      queue := queue s; closed := closed s; stream := stream s;
                      waker := waker s; scheduled := scheduled s; waiter := waiter s |}
(** It announces it: [try_send] appends and wakes, or finds the channel full. *)
| step_announce s e :
    spinner s = Announcing e → length (queue s) < CHANNEL_CAPACITY →
    spinner_step s {| ws_matches := ws_matches s; spinner := Idle; queue := queue s ++ [e];
                      closed := closed s; stream := stream s; waker := false;
                      scheduled := wake s; waiter := waiter s |}
| step_announce_full s e :
    spinner s = Announcing e → CHANNEL_CAPACITY <= length (queue s) →
    spinner_step s {| ws_matches := ws_matches s; spinner := Idle; queue := queue s;
                      closed := closed s; stream := stream s; waker := waker s;
                      scheduled := scheduled s; waiter := waiter s |}
(** The Spinner ends; when the node is gone too, the channel closes and wakes. *)
| step_stop s :
    spinner s = Idle →
    spinner_step s {| ws_matches := ws_matches s; spinner := Stopped; queue := queue s;
                      closed := closed s; stream := stream s; waker := waker s;
                      scheduled := scheduled s; waiter := waiter s |}
| step_close s :
    spinner s = Stopped →
    spinner_step s {| ws_matches := ws_matches s; spinner := Stopped; queue := queue s;
                      closed := true; stream := stream s; waker := false;
                      scheduled := wake s; waiter := waiter s |}.

Inductive waiter_step : WaitState → WaitState → Prop :=
(** [poll] starts. *)
| step_poll s :
    waiter s = Suspended → scheduled s = true →
    waiter_step s {| ws_matches := ws_matches s; spinner := spinner s; queue := queue s;
                     closed := closed s; stream := stream s; waker := waker s;
                     scheduled := false; waiter := if stream s then Draining else Looking |}
(** [poll_next] is ready with an event, which is dropped. *)
| step_drain s e q :
    waiter s = Draining → queue s = e :: q →
    waiter_step s {| ws_matches := ws_matches s; spinner := spinner s; queue := q;
                     closed := closed s; stream := stream s; waker := waker s;
                     scheduled := scheduled s; waiter := Draining |}
(** It is pending: the waker stays with the channel. *)
| step_pending s :
    waiter s = Draining → queue s = [] → closed s = false →
    waiter_step s {| ws_matches := ws_matches s; spinner := spinner s; queue := [];
                     closed := closed s; stream := stream s; waker := true;
                     scheduled := scheduled s; waiter := Looking |}
(** It is at the end: the stream is given up. *)
| step_closed s :
    waiter s = Draining → queue s = [] → closed s = true →
    waiter_step s {| ws_matches := ws_matches s; spinner := spinner s; queue := [];
                     closed := closed s; stream := false; waker := waker s;
                     scheduled := scheduled s; waiter := Looking |}
(** The matches decide. *)
| step_look s :
    waiter s = Looking →
    waiter_step s {| ws_matches := ws_matches s; spinner := spinner s; queue := queue s;
                     closed := closed s; stream := stream s; waker := waker s;
                     scheduled := scheduled s;
                     waiter := if matched local (ws_matches s) then Resolved else Suspended |}.

(** The executor may poll the wait again for another reason: it can be a part
    of a larger future. *)
Inductive other_step : WaitState → WaitState → Prop :=
| step_schedule s :
    other_step s {| ws_matches := ws_matches s; spinner := spinner s; queue := queue s;
                    closed := closed s; stream := stream s; waker := waker s;
                    scheduled := true; waiter := waiter s |}.

Definition wait_step (s s' : WaitState) : Prop :=
  spinner_step s s' ∨ waiter_step s s' ∨ other_step s s'.
End match_wait.
End endpoints.

(** ** Lemmas on lists *)

Lemma elem_of_push_new g x l : x ∈ push_new g l ↔ x = g ∨ x ∈ l.
Proof. unfold push_new. case_bool_decide; set_solver. Qed.
Lemma NoDup_push_new g l : NoDup l → NoDup (push_new g l).
Proof.
  unfold push_new. case_bool_decide; [done|]. intros Hl. apply NoDup_app.
  split_and!; [done|set_solver|apply NoDup_singleton].
Qed.
Lemma elem_of_in_order (s : gset Gid) x : x ∈ in_order s ↔ x ∈ s.
Proof. unfold in_order. rewrite merge_sort_Permutation. apply elem_of_elements. Qed.

(** [swap_remove] at the head of a suffix removes it and permutes the rest. *)
Lemma swap_remove_app {A} (pre : list A) x suf :
  ∃ suf', swap_remove (length pre) (pre ++ x :: suf) = Some (pre ++ suf') ∧ suf' ≡ₚ suf.
Proof.
  unfold swap_remove. destruct suf as [|y suf _] using rev_ind.
  - exists []. rewrite last_snoc, length_app. simpl.
    destruct (length pre <? length pre + 1)%nat eqn:Hl; [|apply Nat.ltb_ge in Hl; lia].
    replace (length pre + 1 - 1)%nat with (length pre + 0)%nat by lia.
    rewrite <-(Nat.add_0_r (length pre)) at 2. rewrite insert_app_r. simpl.
    by rewrite Nat.add_0_r, take_app_length, app_nil_r.
  - exists (y :: suf). rewrite app_comm_cons, app_assoc, last_snoc, !length_app. simpl.
    destruct (length pre <? _)%nat eqn:Hl; [|apply Nat.ltb_ge in Hl; lia].
    rewrite <-app_assoc. simpl. rewrite <-(Nat.add_0_r (length pre)) at 2.
    rewrite insert_app_r. simpl. rewrite app_comm_cons, app_assoc.
    rewrite take_app_length'; [|rewrite length_app; simpl; lia].
    split; [done|]. apply Permutation_cons_append.
Qed.

(** Removing marked positions from the last to the first. *)
Fixpoint marked (i : nat) (marks : list bool) : list nat :=
  match marks with
  | [] => []
  | b :: marks => (if b then [i] else []) ++ marked (S i) marks
  end.
Fixpoint unmarked {A} (l : list A) (marks : list bool) : list A :=
  match l, marks with
  | x :: l, b :: marks => (if b then [] else [x]) ++ unmarked l marks
  | _, _ => []
  end.
Lemma remove_each_app {C} (is1 is2 : list nat) (l : list C) :
  remove_each (is1 ++ is2) l = (l ← remove_each is1 l; remove_each is2 l).
Proof.
  revert l. induction is1 as [|i is1 IH]; intros l; [done|]. simpl.
  destruct (swap_remove i l); simpl; [apply IH|done].
Qed.
Lemma remove_marked {C} (pre l : list C) (marks : list bool) :
  length marks = length l →
  ∃ l', remove_each (rev (marked (length pre) marks)) (pre ++ l) = Some (pre ++ l') ∧
    l' ≡ₚ unmarked l marks.
Proof.
  revert pre marks. induction l as [|x l IH]; intros pre [|b marks] Hl; simplify_eq/=.
  { exists []. done. }
  destruct (IH (pre ++ [x]) marks Hl) as (l' & Hr & Hp).
  rewrite length_app, <-app_assoc in Hr. simpl in Hr. rewrite Nat.add_1_r in Hr.
  rewrite rev_app_distr, remove_each_app, Hr. simpl. rewrite <-app_assoc. simpl.
  destruct b; simpl.
  - destruct (swap_remove_app pre x l') as (l'' & -> & Hp'). simpl. exists l''. split; [done|].
    by rewrite Hp'.
  - exists (x :: l'). split; [done|]. by rewrite Hp.
Qed.

(** ** Status events *)

(** What each sender's [try_send] answers, in order, and the state after all. *)
Fixpoint outcomes {C S : Type} (try_send : C → S → S * SendOutcome) (senders : list C) (s : S) :
    list SendOutcome * S :=
  match senders with
  | [] => ([], s)
  | c :: senders =>
      let '(s, o) := try_send c s in
      let '(os, s) := outcomes try_send senders s in
      (o :: os, s)
  end.
Lemma length_outcomes {C S} (try_send : C → S → S * SendOutcome) senders s :
  length (outcomes try_send senders s).1 = length senders.
Proof.
  revert s. induction senders as [|c senders IH]; intros s; [done|]. simpl.
  destruct (try_send c s) as [s' o]. specialize (IH s').
  destruct (outcomes try_send senders s'). simpl in *. by f_equal.
Qed.
Lemma send_each_outcomes {C S} (try_send : C → S → S * SendOutcome) i senders closed s :
  send_each try_send i senders closed s =
    (closed ++ marked i (is_closed <$> (outcomes try_send senders s).1),
     (outcomes try_send senders s).2).
Proof.
  revert i closed s. induction senders as [|c senders IH]; intros i closed s; simpl.
  { by rewrite app_nil_r. }
  destruct (try_send c s) as [s' o]. rewrite IH. destruct (outcomes try_send senders s'). simpl.
  destruct (is_closed o); simpl; [|done]. by rewrite <-app_assoc.
Qed.
Lemma unmarked_zip {C} (l : list C) (os : list SendOutcome) :
  unmarked l (is_closed <$> os) =
  omap (λ '(c, o), if is_closed o then None else Some c) (zip l os).
Proof.
  revert os. induction l as [|c l IH]; intros [|o os]; try done. simpl. rewrite IH.
  by destruct (is_closed o).
Qed.

Lemma send_status_event_kept {C S} (try_send : C → S → S * SendOutcome) senders s :
  ∃ kept, send_status_event try_send senders s =
      (Some kept, (outcomes try_send senders s).2) ∧
    kept ≡ₚ omap (λ '(c, o), if is_closed o then None else Some c)
              (zip senders (outcomes try_send senders s).1).
Proof.
  unfold send_status_event. rewrite send_each_outcomes. simpl.
  destruct (remove_marked [] senders (is_closed <$> (outcomes try_send senders s).1))
    as (l & Hr & Hp); [by rewrite length_fmap, length_outcomes|].
  simpl in Hr. rewrite Hr. exists l. split; [done|]. by rewrite <-unmarked_zip.
Qed.

(** Announcing a discovery event offers it to every listener once, in
    order, never panics while cleaning up, and afterwards keeps exactly the
    senders whose channel was not closed, full ones included. *)
Lemma send_status_event_spec {C S} (try_send : C → S → S * SendOutcome) senders s :
  ∃ kept, send_status_event try_send senders s =
      (Some kept, (outcomes try_send senders s).2) ∧
    kept ≡ₚ omap (λ '(c, o), if is_closed o then None else Some c)
              (zip senders (outcomes try_send senders s).1).
Proof. apply send_status_event_kept. Qed.

(** ** Matched endpoints *)

Section tables.
Context {GUID : Type} `{Countable GUID} {Other : Type}.
Abbreviation NodeEvent := (NodeEvent (GUID:=GUID) (Other:=Other)).
Implicit Types (evs : list NodeEvent) (local remote : GUID).

(** The tables after a Spinner's events. *)
Definition after_events evs : Tables (GUID:=GUID) := foldl (λ t e, on_event e t) Tables_new evs.
Definition remotes local (m : gmap GUID (gset GUID)) : gset GUID := default ∅ (m !! local).

Lemma remotes_add_match local remote l m :
  remotes l (add_match local remote m) =
    if decide (l = local) then {[ remote ]} ∪ remotes l m else remotes l m.
Proof.
  unfold remotes, add_match. destruct (decide (l = local)) as [->|Hl].
  - destruct (m !! local) as [s|] eqn:Hs; rewrite lookup_insert_eq; simpl; [done|set_solver].
  - destruct (m !! local) as [s|] eqn:Hs; by rewrite lookup_insert_ne.
Qed.
Lemma remotes_lose guid l m : remotes l (lose guid m) = remotes l m ∖ {[ guid ]}.
Proof. unfold remotes, lose. rewrite lookup_fmap. destruct (m !! l); simpl; set_solver. Qed.

(** An event of the history that was the last word on a pair. *)
Definition holds_since (found lost : NodeEvent) evs : Prop :=
  ∃ pre post, evs = pre ++ found :: post ∧ lost ∉ post.
Lemma holds_since_snoc found lost evs e :
  found ≠ lost →
  holds_since found lost (evs ++ [e]) ↔ e = found ∨ (e ≠ lost ∧ holds_since found lost evs).
Proof.
  intros Hne. split.
  - intros (pre & post & He & Hpost). destruct post as [|x post _] using rev_ind.
    + apply app_inj_tail in He as [_ ->]. by left.
    + rewrite app_comm_cons, app_assoc in He. apply app_inj_tail in He as [-> <-]. right.
      split; [set_solver|]. exists pre, post. split; [done|set_solver].
  - intros [->|[He (pre & post & -> & Hpost)]].
    + exists evs, []. split; [done|set_solver].
    + exists pre, (post ++ [e]). rewrite <-app_assoc. split; [done|set_solver].
Qed.
Lemma after_events_snoc evs e : after_events (evs ++ [e]) = on_event e (after_events evs).
Proof. unfold after_events. by rewrite foldl_app. Qed.

Lemma remote_readers_spec evs local remote :
  remote ∈ remotes local (writers_to_remote_readers (after_events evs)) ↔
  holds_since (DDS (RemoteReaderMatched local remote)) (DDS (ReaderLost remote)) evs.
Proof.
  induction evs as [|e evs IH] using rev_ind.
  { split; [set_solver|]. by intros ([|] & ? & ? & ?). }
  rewrite after_events_snoc, holds_since_snoc by done.
  destruct e as [[w r|r w|g|g|x]|p]; simpl; rewrite ?remotes_add_match, ?remotes_lose.
  - destruct (decide (local = w)) as [->|]; [|naive_solver].
    rewrite elem_of_union, elem_of_singleton, IH. naive_solver.
  - naive_solver.
  - rewrite elem_of_difference, elem_of_singleton, IH. naive_solver.
  - naive_solver.
  - naive_solver.
  - naive_solver.
Qed.
Lemma remote_writers_spec evs local remote :
  remote ∈ remotes local (readers_to_remote_writers (after_events evs)) ↔
  holds_since (DDS (RemoteWriterMatched local remote)) (DDS (WriterLost remote)) evs.
Proof.
  induction evs as [|e evs IH] using rev_ind.
  { split; [set_solver|]. by intros ([|] & ? & ? & ?). }
  rewrite after_events_snoc, holds_since_snoc by done.
  destruct e as [[w r|r w|g|g|x]|p]; simpl; rewrite ?remotes_add_match, ?remotes_lose.
  - naive_solver.
  - destruct (decide (local = r)) as [->|]; [|naive_solver].
    rewrite elem_of_union, elem_of_singleton, IH. naive_solver.
  - naive_solver.
  - rewrite elem_of_difference, elem_of_singleton, IH. naive_solver.
  - naive_solver.
  - naive_solver.
Qed.
Lemma count_remotes local (m : gmap GUID (gset GUID)) : count local m = size (remotes local m).
Proof. unfold count, remotes. destruct (m !! local); [done|]. symmetry. apply size_empty. Qed.
Lemma matched_remotes local (m : gmap GUID (gset GUID)) :
  matched local m = true ↔ remotes local m ≠ ∅.
Proof.
  unfold matched, remotes. destruct (m !! local) as [s|]; simpl; [|done].
  case_bool_decide; simpl; naive_solver.
Qed.

(** After any sequence of discovery events, a node's publisher has as many
    subscriptions (and its subscription as many publishers) as there are
    distinct remote endpoints whose match was announced and that were not
    reported lost since. *)
Lemma match_counts evs local :
  (∃ X : gset GUID, get_subscription_count local (after_events evs) = size X ∧
     (matched local (writers_to_remote_readers (after_events evs)) = true ↔ X ≠ ∅) ∧
     ∀ remote, remote ∈ X ↔
       holds_since (DDS (RemoteReaderMatched local remote)) (DDS (ReaderLost remote)) evs) ∧
  (∃ X : gset GUID, get_publisher_count local (after_events evs) = size X ∧
     (matched local (readers_to_remote_writers (after_events evs)) = true ↔ X ≠ ∅) ∧
     ∀ remote, remote ∈ X ↔
       holds_since (DDS (RemoteWriterMatched local remote)) (DDS (WriterLost remote)) evs).
Proof.
  split.
  - exists (remotes local (writers_to_remote_readers (after_events evs))).
    split; [apply count_remotes|]. split; [apply matched_remotes|]. intros. apply remote_readers_spec.
  - exists (remotes local (readers_to_remote_writers (after_events evs))).
    split; [apply count_remotes|]. split; [apply matched_remotes|]. intros. apply remote_writers_spec.
Qed.
End tables.

(** ** The match wait *)

Section match_wait_spec.
Context {GUID : Type} `{Countable GUID} {Other : Type}.
Abbreviation NodeEvent := (NodeEvent (GUID:=GUID) (Other:=Other)).
Abbreviation WaitState := (WaitState (GUID:=GUID) (Other:=Other)).
Variable record_ : NodeEvent → gmap GUID (gset GUID) → gmap GUID (gset GUID).
Variable local : GUID.
Implicit Types s : WaitState.

(** Not inside the draining loop and not done. *)
Definition resting s : Prop := waiter s = Suspended ∨ waiter s = Looking.
Record wait_inv s : Prop := {
  inv_queue : resting s → queue s ≠ [] → scheduled s = true;
  inv_waker : waker s = true → queue s = [];
  inv_woken : resting s → scheduled s = false → waker s = true ∨ stream s = false;
  inv_matched : waiter s = Suspended → matched local (ws_matches s) = true →
    scheduled s = false → ∃ e, spinner s = Announcing e;
  inv_stream : stream s = false → spinner s = Stopped ∧ queue s = [];
  inv_closed : closed s = true → spinner s = Stopped;
}.

Lemma wait_inv_new m pc : wait_inv (MatchWait_new m pc).
Proof. by split. Qed.
Lemma spinner_step_inv s s' : wait_inv s → spinner_step record_ s s' → wait_inv s'.
Proof.
  intros [H1 H2 H3 H4 H5 H6] Hstep. unfold resting, wake in *.
  destruct Hstep as [s e Hpc|s e Hpc Hq|s e Hpc Hq|s Hpc|s Hpc]; split; unfold resting, wake;
    simpl in *.
  - done.
  - done.
  - done.
  - eauto.
  - intros Hs. destruct (H5 Hs). congruence.
  - intros Hc. specialize (H6 Hc). congruence.
  - intros Hr _. destruct (scheduled s) eqn:Hsch; [by rewrite orb_true_r|].
    destruct (H3 Hr eq_refl) as [->|Hs]; [done|]. destruct (H5 Hs). congruence.
  - done.
  - intros Hr Hsch. apply orb_false_iff in Hsch as [Hw Hsch].
    destruct (H3 Hr Hsch); [congruence|by right].
  - intros Hr _ Hsch. apply orb_false_iff in Hsch as [Hw Hsch].
    destruct (H3 (or_introl Hr) Hsch) as [|Hs]; [congruence|]. destruct (H5 Hs). congruence.
  - intros Hs. destruct (H5 Hs). congruence.
  - intros Hc. specialize (H6 Hc). congruence.
  - done.
  - done.
  - done.
  - intros Hr _ Hsch. rewrite H1 in Hsch; [done|by left|]. intros Hnil. by rewrite Hnil in Hq; inversion Hq.
  - intros Hs. destruct (H5 Hs). congruence.
  - intros Hc. specialize (H6 Hc). congruence.
  - done.
  - done.
  - done.
  - intros Hr Hm Hsch. destruct (H4 Hr Hm Hsch). congruence.
  - intros Hs. split; [done|by apply H5].
  - done.
  - intros Hr Hq. rewrite H1 by done. apply orb_true_r.
  - done.
  - intros Hr Hsch. apply orb_false_iff in Hsch as [Hw Hsch].
    destruct (H3 Hr Hsch); [congruence|by right].
  - intros Hr Hm Hsch. apply orb_false_iff in Hsch as [Hw Hsch].
    destruct (H4 Hr Hm Hsch). congruence.
  - intros Hs. split; [done|by apply H5].
  - done.
Qed.
Lemma waiter_step_inv s s' : wait_inv s → waiter_step local s s' → wait_inv s'.
Proof.
  intros [H1 H2 H3 H4 H5 H6] Hstep. unfold resting in *.
  destruct Hstep as [s Hw Hsch|s e q Hw Hq|s Hw Hq Hc|s Hw Hq Hc|s Hw]; split; unfold resting;
    simpl in *; try done.
  - destruct (stream s) eqn:Hs; [by intros []|]. intros _ Hn. by destruct (H5 eq_refl).
  - destruct (stream s) eqn:Hs; [by intros []|]. by right.
  - destruct (stream s); done.
  - by intros [].
  - intros Hk. specialize (H2 Hk). congruence.
  - by intros [].
  - intros Hs. destruct (H5 Hs). congruence.
  - by left.
  - intros Hs. by split; [apply H5|].
  - by right.
  - intros _. split; [by apply H6|done].
  - intros _ Hq. apply H1; [by right|done].
  - intros _ Hsch. apply H3; [by right|done].
  - destruct (matched local (ws_matches s)); done.
Qed.
Lemma other_step_inv s s' : wait_inv s → other_step s s' → wait_inv s'.
Proof. intros [H1 H2 H3 H4 H5 H6] Hstep. destruct Hstep. by split. Qed.
Lemma wait_inv_steps s s' : rtc (wait_step record_ local) s s' → wait_inv s → wait_inv s'.
Proof.
  induction 1 as [|s1 s2 s3 [Hs|[Hs|Hs]] _ IH]; [done|..]; intros Hinv; apply IH.
  - by eapply spinner_step_inv.
  - by eapply waiter_step_inv.
  - by eapply other_step_inv.
Qed.
Lemma wait_inv_reachable m pc s : rtc (wait_step record_ local) (MatchWait_new m pc) s → wait_inv s.
Proof. intros Hr. eapply wait_inv_steps; [done|]. apply wait_inv_new. Qed.

(** The polls left, when the match is there. *)
Definition polls_left s : nat :=
  match waiter s with
  | Suspended => if scheduled s then 3 + length (queue s) else 0
  | Draining => 2 + length (queue s)
  | Looking => 1
  | Resolved => 0
  end.
Definition runnable s : Prop := waiter s ≠ Suspended ∨ scheduled s = true.
Lemma waiter_step_matched s s' :
  matched local (ws_matches s) = true → waiter_step local s s' →
  ws_matches s' = ws_matches s ∧ runnable s' ∧ polls_left s' < polls_left s.
Proof.
  intros Hm Hstep. unfold runnable, polls_left.
  destruct Hstep as [s Hw Hsch|s e q Hw Hq|s Hw Hq Hc|s Hw Hq Hc|s Hw]; simpl; rewrite Hw.
  - rewrite Hsch. split; [done|]. destruct (stream s); split; (by left) || lia.
  - rewrite Hq. split; [done|]. split; [by left|simpl; lia].
  - split; [done|]. split; [by left|lia].
  - split; [done|]. split; [by left|lia].
  - rewrite Hm. split; [done|]. split; [by left|lia].
Qed.
Lemma waiter_progress s : runnable s → waiter s = Resolved ∨ ∃ s', waiter_step local s s'.
Proof.
  intros Hr. destruct (waiter s) eqn:Hw; [| | |by left]; right.
  - destruct Hr as [|Hsch]; [done|]. eexists. by apply step_poll.
  - destruct (queue s) as [|e q] eqn:Hq; [|eexists; by eapply step_drain].
    destruct (closed s) eqn:Hc; eexists; [by apply step_closed|by apply step_pending].
  - eexists. by apply step_look.
Qed.
Lemma waiter_steps_matched n s s' :
  matched local (ws_matches s) = true → runnable s → nsteps (waiter_step local) n s s' →
  n + polls_left s' <= polls_left s ∧ runnable s' ∧ matched local (ws_matches s') = true.
Proof.
  intros Hm Hr Hn. induction Hn as [s|n s1 s2 s3 Hs _ IH]; [split; [lia|done]|].
  destruct (waiter_step_matched _ _ Hm Hs) as (Hm' & Hr' & Hlt). rewrite <-Hm' in Hm.
  destruct (IH Hm Hr') as (? & ? & ?). split; [lia|done].
Qed.

(** C1: A wait for a match cannot lose its wake-up, although the channel that
    wakes it is bounded and drops what does not fit. In every state the Spinner
    and the waiter can reach by interleaving their steps, whatever else makes the
    executor poll the wait, if the awaited match
    is recorded and the wait has not resolved, then either the waiter runs or is
    scheduled to run, and then it resolves within its own steps, at most three
    more than the events in its channel; or it sleeps, the Spinner is still
    announcing an event, and announcing it schedules the waiter. *)
Theorem match_wait_no_lost_wakeup m pc s :
  rtc (wait_step record_ local) (MatchWait_new m pc) s →
  matched local (ws_matches s) = true → waiter s ≠ Resolved →
  (runnable s ∧
   (∀ n s', nsteps (waiter_step local) n s s' → n <= 3 + length (queue s)) ∧
   (∀ s', rtc (waiter_step local) s s' →
      waiter s' = Resolved ∨ ∃ s'', waiter_step local s' s'')) ∨
  (waiter s = Suspended ∧ scheduled s = false ∧ (∃ e, spinner s = Announcing e) ∧
   ∀ s', spinner_step record_ s s' → scheduled s' = true).
Proof.
  intros Hreach Hm Hres. pose proof (wait_inv_reachable _ _ _ Hreach) as Hinv.
  assert (runnable s ∨ (waiter s = Suspended ∧ scheduled s = false)) as [Hr|[Hw Hsch]].
  { unfold runnable. destruct (waiter s) eqn:Hw; try (by left; left).
    destruct (scheduled s) eqn:?; [by left; right|by right]. }
  - left. split; [done|]. split.
    + intros n s' Hn. destruct (waiter_steps_matched _ _ _ Hm Hr Hn) as [Hle _].
      revert Hle. unfold polls_left at 2. destruct (waiter s), (scheduled s); simpl; lia.
    + intros s' [n Hn]%rtc_nsteps. apply waiter_progress.
      by destruct (waiter_steps_matched _ _ _ Hm Hr Hn) as (_ & Hr' & _).
  - right. destruct (inv_matched _ Hinv Hw Hm Hsch) as [e He].
    split_and!; [done..|by eexists|]. intros s' Hstep.
    assert (waker s = true) as Hk.
    { destruct (inv_woken _ Hinv (or_introl Hw) Hsch) as [|Hs]; [done|].
      destruct (inv_stream _ Hinv Hs). congruence. }
    pose proof (inv_waker _ Hinv Hk) as Hq.
    destruct Hstep as [s e' Hpc|s e' Hpc Hl|s e' Hpc Hl|s Hpc|s Hpc]; simpl; unfold wake;
      try congruence; [by rewrite Hk|]. rewrite Hq in Hl. simpl in Hl. unfold CHANNEL_CAPACITY in Hl. lia.
Qed.
End match_wait_spec.

(** ** The published node information *)

(** A context that has just been made. *)
Definition fresh_context (c : ContextInner) : Prop := local_nodes c = ∅ ∧ published c = [].
(** The nodes' names are kept apart by the application, as ROS 2 asks. *)
Definition valid_node_op (o : node_op) (live : gmap N Node) : Prop :=
  match o with
  | NewNode h name _ _ _ _ => live !! h = None ∧
      ∀ h' n, live !! h' = Some n → fully_qualified_name (n_name n) ≠ fully_qualified_name name
  | _ => True
  end.
Inductive node_life : gmap N Node * ContextInner → Prop :=
| life_start c : fresh_context c → node_life (∅, c)
| life_op o s : node_life s → valid_node_op o s.1 → node_life (exec_node_op o s).

(** What the context says of a node. *)
Definition advertised (c : ContextInner) (n : Node) : NodeEntitiesInfo :=
  nei_add_writer (node_writer_gid c) (generate_node_info n).
Definition node_fqn (n : Node) : str := fully_qualified_name (n_name n).

Lemma fold_add_reader l i :
  let j := fold_left (λ i r, nei_add_reader r i) l i in
  nei_name j = nei_name i ∧ writer_gid_seq j = writer_gid_seq i ∧
  (∀ g, g ∈ reader_gid_seq j ↔ g ∈ l ∨ g ∈ reader_gid_seq i) ∧
  (NoDup (reader_gid_seq i) → NoDup (reader_gid_seq j)).
Proof.
  revert i. induction l as [|x l IH]; intros i; simpl; [split_and!; [..|set_solver|]; done|].
  destruct (IH (nei_add_reader x i)) as (H1 & H2 & H3 & H4). simpl in *.
  split_and!; [done..| |auto using NoDup_push_new].
  intros g. rewrite H3, elem_of_push_new, elem_of_cons. naive_solver.
Qed.
Lemma fold_add_writer l i :
  let j := fold_left (λ i w, nei_add_writer w i) l i in
  nei_name j = nei_name i ∧ reader_gid_seq j = reader_gid_seq i ∧
  (∀ g, g ∈ writer_gid_seq j ↔ g ∈ l ∨ g ∈ writer_gid_seq i) ∧
  (NoDup (writer_gid_seq i) → NoDup (writer_gid_seq j)).
Proof.
  revert i. induction l as [|x l IH]; intros i; simpl; [split_and!; [..|set_solver|]; done|].
  destruct (IH (nei_add_writer x i)) as (H1 & H2 & H3 & H4). simpl in *.
  split_and!; [done..| |auto using NoDup_push_new].
  intros g. rewrite H3, elem_of_push_new, elem_of_cons. naive_solver.
Qed.
Lemma advertised_spec c n :
  nei_name (advertised c n) = n_name n ∧
  NoDup (reader_gid_seq (advertised c n)) ∧ NoDup (writer_gid_seq (advertised c n)) ∧
  (∀ g, g ∈ reader_gid_seq (advertised c n) ↔ g ∈ readers n) ∧
  (∀ g, g ∈ writer_gid_seq (advertised c n) ↔
     g ∈ writers n ∨ g = parameter_events_gid n ∨ rosout_gid n = Some g ∨ g = node_writer_gid c).
Proof.
  unfold advertised, generate_node_info. simpl.
  set (i0 := nei_add_writer (parameter_events_gid n) (NodeEntitiesInfo_new (n_name n))).
  set (i1 := match rosout_gid n with Some row => nei_add_writer row i0 | None => i0 end).
  assert (nei_name i1 = n_name n ∧ reader_gid_seq i1 = [] ∧ NoDup (writer_gid_seq i1) ∧
    ∀ g, g ∈ writer_gid_seq i1 ↔ g = parameter_events_gid n ∨ rosout_gid n = Some g)
    as (N1 & N2 & N3 & N4).
  { unfold i1, i0. destruct (rosout_gid n) as [row|]; simpl.
    - split_and!; [done..|apply NoDup_push_new, NoDup_push_new; constructor|].
      intros g. rewrite !elem_of_push_new. set_solver.
    - split_and!; [done..|apply NoDup_push_new; constructor|].
      intros g. rewrite elem_of_push_new. set_solver. }
  clearbody i1. clear i0.
  destruct (fold_add_reader (in_order (readers n)) i1) as (R1 & R2 & R3 & R4).
  set (i2 := fold_left _ _ i1) in *. clearbody i2.
  destruct (fold_add_writer (in_order (writers n)) i2) as (W1 & W2 & W3 & W4).
  set (i3 := fold_left _ _ i2) in *. clearbody i3. simpl.
  split_and!; [congruence|rewrite W2; apply R4; rewrite N2; constructor
    |apply NoDup_push_new, W4; by rewrite R2|..]; intros g.
  - rewrite W2, R3, N2, elem_of_in_order. set_solver.
  - rewrite elem_of_push_new, W3, R2, N4, elem_of_in_order. naive_solver.
Qed.

(** The registry is the advertised information of the live nodes, by name. *)
Record life_inv (live : gmap N Node) (c : ContextInner) : Prop := {
  life_nodes f i : local_nodes c !! f = Some i ↔
    ∃ h n, live !! h = Some n ∧ node_fqn n = f ∧ i = advertised c n;
  life_names h1 h2 n1 n2 : live !! h1 = Some n1 → live !! h2 = Some n2 →
    node_fqn n1 = node_fqn n2 → h1 = h2;
  life_awake h n : live !! h = Some n → suppress_updates n = false;
  life_published : match last (published c) with
                   | Some pei => pei = participant_entities_info c
                   | None => live = ∅
                   end;
}.

(** Putting a node's current information, under a handle that has its name or
    under a new handle and name. *)
Lemma life_inv_update live c h n :
  life_inv live c → suppress_updates n = false →
  (∀ h' n', live !! h' = Some n' → node_fqn n' = node_fqn n → h' = h) →
  (∀ n', live !! h = Some n' → node_fqn n' = node_fqn n) →
  life_inv (<[h := n]> live) (update_node (generate_node_info n) c).
Proof.
  intros [H1 H2 H3 H4] Hsup Hname Hold.
  assert (nei_fully_qualified_name (advertised c n) = node_fqn n) as Hkey.
  { unfold nei_fully_qualified_name. by rewrite (proj1 (advertised_spec c n)). }
  split.
  - intros f i. simpl. change (nei_add_writer (node_writer_gid c) (generate_node_info n))
      with (advertised c n). rewrite Hkey. split.
    + intros [[<- <-]|[Hf Hi]]%lookup_insert_Some.
      * exists h, n. by rewrite lookup_insert_eq.
      * apply H1 in Hi as (h' & n' & Hn' & <- & ->). exists h', n'.
        rewrite lookup_insert_ne; [done|]. intros <-. by apply Hf; rewrite (Hold _ Hn').
    + intros (h' & n' & [[<- <-]|[Hh Hn']]%lookup_insert_Some & <- & ->).
      * apply lookup_insert_eq.
      * rewrite lookup_insert_ne; [apply H1; eauto|]. intros Hf. apply Hh.
        symmetry. by apply (Hname _ n').
  - intros h1 h2 n1 n2 [[<- <-]|[Hh1 Hn1]]%lookup_insert_Some
      [[<- <-]|[Hh2 Hn2]]%lookup_insert_Some Hf; [done|..].
    + symmetry. by apply (Hname _ n2).
    + by apply (Hname _ n1).
    + by eapply H2.
  - intros h' n' [[<- <-]|[Hh Hn']]%lookup_insert_Some; eauto.
  - simpl. by rewrite last_snoc.
Qed.
Lemma life_inv_remove live c f :
  life_inv live c → (∀ h n, live !! h = Some n → node_fqn n ≠ f) →
  life_inv live (remove_node f c).
Proof.
  intros [H1 H2 H3 H4] Hf. split; [|done..|simpl; by rewrite last_snoc].
  intros f' i. simpl. rewrite lookup_delete_Some, H1. split; [naive_solver|].
  intros (h & n & Hn & <- & ->). split; [|eauto]. intros ->. by eapply Hf.
Qed.
Lemma life_inv_drop live c h n :
  life_inv live c → live !! h = Some n → life_inv (delete h live) (Node_drop n c).
Proof.
  intros [H1 H2 H3 H4] Hn. split.
  - intros f i. simpl. rewrite lookup_delete_Some, H1. split.
    + intros (Hf & h' & n' & Hn' & <- & ->). exists h', n'. split; [|done].
      apply lookup_delete_Some. split; [|done]. intros <-. by simplify_eq.
    + intros (h' & n' & [Hh Hn']%lookup_delete_Some & <- & ->). split; [|eauto].
      intros Hf. apply Hh. by eapply H2.
  - intros h1 h2 n1 n2 [_ ?]%lookup_delete_Some [_ ?]%lookup_delete_Some. eauto.
  - intros h' n' [_ ?]%lookup_delete_Some. eauto.
  - simpl. by rewrite last_snoc.
Qed.

Lemma Node_new_spec name pw row ror ok c :
  ∃ n, n_name n = name ∧ suppress_updates n = false ∧ rosout_gid n = row ∧
    parameter_events_gid n = pw ∧ readers n = list_to_set (option_list ror) ∧
    writers n = list_to_set (option_list row) ∧
    Node_new name pw row ror ok c =
      if ok then (Some n, update_node (generate_node_info n) c)
      else (None, remove_node (fully_qualified_name name) c).
Proof.
  exists {| n_name := name; readers := list_to_set (option_list ror);
            writers := list_to_set (option_list row); suppress_updates := false;
            parameter_events_gid := pw; rosout_gid := row |}.
  by destruct row, ror, ok.
Qed.

Lemma exec_life_inv o live c :
  life_inv live c → valid_node_op o live →
  life_inv (exec_node_op o (live, c)).1 (exec_node_op o (live, c)).2.
Proof.
  intros Hinv Hv. destruct o as [h name pw row ror ok|h g|h g|h]; simpl in *.
  - destruct Hv as [Hh Hname].
    destruct (Node_new_spec name pw row ror ok c) as (n & Hn & Hs & _ & _ & _ & _ & ->).
    destruct ok; simpl; [|by apply life_inv_remove].
    apply life_inv_update; [done..| |].
    + intros h' n' Hn' Hf. exfalso. apply (Hname _ _ Hn'). unfold node_fqn in Hf. congruence.
    + intros n' Hn'. congruence.
  - destruct (live !! h) as [n|] eqn:Hn; [|done]. unfold add_reader. simpl.
    rewrite (life_awake _ _ Hinv _ _ Hn). simpl. apply life_inv_update; [done..| |].
    + intros h' n' Hn' Hf. by eapply (life_names _ _ Hinv).
    + intros n' Hn'. by simplify_eq.
  - destruct (live !! h) as [n|] eqn:Hn; [|done]. unfold add_writer. simpl.
    rewrite (life_awake _ _ Hinv _ _ Hn). simpl. apply life_inv_update; [done..| |].
    + intros h' n' Hn' Hf. by eapply (life_names _ _ Hinv).
    + intros n' Hn'. by simplify_eq.
  - destruct (live !! h) as [n|] eqn:Hn; [|done]. simpl. by apply life_inv_drop.
Qed.
Lemma node_life_inv s : node_life s → life_inv s.1 s.2.
Proof.
  induction 1 as [c [Hn Hp]|o [live c] _ IH Hv]; [|by apply exec_life_inv].
  split; simpl; [|done..|by rewrite Hp].
  intros f i. rewrite Hn. split; [done|]. by intros (h & n & ? & _).
Qed.

(** C18: At any time of a context whose live nodes have different names, what it
    last published describes exactly its live nodes: one entry per node, with
    the node's name, its readers, and as writers those it created, its parameter
    events and log writers and the context's discovery writer, without
    repetition. *)
Theorem published_nodes_current live c pei :
  node_life (live, c) → last (published c) = Some pei →
  (∀ i, i ∈ node_entities_info_seq pei ↔ ∃ h n, live !! h = Some n ∧ i = advertised c n) ∧
  NoDup (nei_fully_qualified_name <$> node_entities_info_seq pei) ∧
  ∀ h n, live !! h = Some n →
    nei_name (advertised c n) = n_name n ∧
    NoDup (reader_gid_seq (advertised c n)) ∧ NoDup (writer_gid_seq (advertised c n)) ∧
    (∀ g, g ∈ reader_gid_seq (advertised c n) ↔ g ∈ readers n) ∧
    (∀ g, g ∈ writer_gid_seq (advertised c n) ↔
       g ∈ writers n ∨ g = parameter_events_gid n ∨ rosout_gid n = Some g ∨
       g = node_writer_gid c).
Proof.
  intros Hlife%node_life_inv Hlast. simpl in Hlife.
  pose proof (life_published _ _ Hlife) as Hp. rewrite Hlast in Hp. subst pei. simpl.
  split; [|split; [|intros; apply advertised_spec]].
  - intros i. rewrite list_elem_of_fmap. split.
    + intros ([f j] & -> & Hin%elem_of_map_to_list).
      apply (life_nodes _ _ Hlife) in Hin as (h & n & ? & _ & ->). eauto.
    + intros (h & n & Hn & ->). exists (node_fqn n, advertised c n). split; [done|].
      apply elem_of_map_to_list, (life_nodes _ _ Hlife). eauto.
  - assert (nei_fully_qualified_name <$> (map_to_list (local_nodes c)).*2 =
      (map_to_list (local_nodes c)).*1) as ->; [|apply NoDup_fst_map_to_list].
    rewrite <-list_fmap_compose. apply list_fmap_ext. intros k [f i] Hk. simpl.
    apply list_elem_of_lookup_2, elem_of_map_to_list, (life_nodes _ _ Hlife) in Hk
      as (h & n & _ & <- & ->).
    unfold nei_fully_qualified_name. by rewrite (proj1 (advertised_spec c n)).
Qed.

(** *** Messages *)
Lemma NodeEntitiesInfo_repr_roundtrip n :
  wf_node_name (nei_name n) →
  NodeEntitiesInfo_try_from (NodeEntitiesInfoRepr_from n) = Ok n.
Proof.
  intros Hwf. unfold NodeEntitiesInfo_try_from. simpl.
  assert (NodeName_new (namespace (nei_name n)) (base_name (nei_name n)) = Ok (nei_name n)) as ->.
  { by apply NodeName_new_ok. }
  by destruct n.
Qed.

(** *** gid.rs *)
Section gid.
Context {GUID : Type} (to_bytes : GUID → list N) (from_bytes : list N → GUID).
Hypothesis to_bytes_length : ∀ g, length (to_bytes g) = 16.
Hypothesis from_to_bytes : ∀ g, from_bytes (to_bytes g) = g.

Lemma take_map_seq (l : list N) n :
  length l <= n → take (length l) ((λ i, default 0%N (l !! i)) <$> seq 0 n) = l.
Proof.
  intros Hn. apply list_eq_same_length with (length l).
  - done.
  - rewrite length_take, length_fmap, length_seq. lia.
  - intros i x y Hi. rewrite lookup_take_lt, list_lookup_fmap, lookup_seq_lt by lia. simpl.
    intros [= <-] Hy. by rewrite Hy.
Qed.
(** A GUID survives in either size of GID. *)
Lemma gid_roundtrip iron g : GUID_from from_bytes (Gid_from to_bytes iron g) = g.
Proof.
  unfold GUID_from, Gid_from. rewrite <-(to_bytes_length g), take_map_seq; [done|].
  rewrite to_bytes_length. destruct iron; simpl; lia.
Qed.
End gid.

(** ** Concrete runs *)

Definition toy_name : NodeName := {| namespace := lit "/"; base_name := lit "talker" |}.
Definition toy_context : ContextInner :=
  {| participant_gid := [0%N]; node_writer_gid := [1%N]; local_nodes := ∅; published := [] |}.
Definition toy_life : gmap N Node * ContextInner :=
  exec_node_op (CreateReader 0 [4%N])
    (exec_node_op (NewNode 0 toy_name [2%N] (Some [3%N]) None true) (∅, toy_context)).
Lemma published_nodes_current_witness :
  ∃ pei i, last (published toy_life.2) = Some pei ∧ i ∈ node_entities_info_seq pei ∧
    nei_name i = toy_name ∧ reader_gid_seq i = [[4%N]].
Proof.
  destruct (last (published toy_life.2)) as [pei|] eqn:Hlast; [|discriminate Hlast].
  destruct (published_nodes_current toy_life.1 toy_life.2 pei) as (Hin & _ & _).
  - unfold toy_life at 1 2. rewrite <-surjective_pairing.
    apply life_op; [|done]. apply life_op; [by apply life_start|].
    split; [done|]. intros h n Hn. discriminate Hn.
  - exact Hlast.
  - destruct (toy_life.1 !! 0%N) as [n|] eqn:Hn; [|discriminate Hn].
    exists pei, (advertised toy_life.2 n). split; [done|]. split; [by apply Hin; exists 0%N, n|].
    revert Hn. vm_compute. by intros [= <-].
Defined.

(** The waiter sleeps, a match is recorded while its channel has room: it is
    scheduled by the announcement. *)
Definition toy_sleeping : WaitState (GUID:=N) (Other:=N) :=
  {| ws_matches := {[ 1%N := {[ 2%N ]} ]}; spinner := Announcing (DDS (RemoteReaderMatched 1%N 2%N));
     queue := []; closed := false; stream := true; waker := true; scheduled := false;
     waiter := Suspended |}.
Definition toy_record (e : NodeEvent (GUID:=N) (Other:=N)) (m : gmap N (gset N)) : gmap N (gset N) :=
  writers_to_remote_readers (on_event e
    {| readers_to_remote_writers := ∅; writers_to_remote_readers := m; external_nodes := ∅ |}).
Lemma toy_sleeping_reachable :
  rtc (wait_step toy_record 1%N) (MatchWait_new ∅ Idle) toy_sleeping.
Proof.
  eapply rtc_l; [right; left; by apply step_poll|].
  eapply rtc_l; [right; left; by apply step_pending|].
  eapply rtc_l; [right; left; by apply step_look|].
  eapply rtc_l; [left; by apply (step_record _ _ (DDS (RemoteReaderMatched 1%N 2%N)))|].
  apply rtc_refl.
Qed.
Definition toy_announced : WaitState (GUID:=N) (Other:=N) :=
  {| ws_matches := {[ 1%N := {[ 2%N ]} ]}; spinner := Idle;
     queue := [DDS (RemoteReaderMatched 1%N 2%N)]; closed := false; stream := true;
     waker := false; scheduled := true; waiter := Suspended |}.
Lemma match_wait_no_lost_wakeup_witness :
  spinner_step toy_record toy_sleeping toy_announced ∧ scheduled toy_announced = true.
Proof.
  assert (spinner_step toy_record toy_sleeping toy_announced) as Hstep.
  { apply (step_announce _ toy_sleeping); [done|]. apply Nat.ltb_lt. reflexivity. }
  split; [exact Hstep|].
  destruct (match_wait_no_lost_wakeup toy_record 1%N ∅ Idle toy_sleeping toy_sleeping_reachable
    ltac:(reflexivity) ltac:(discriminate)) as [[[Hr|Hr] _]|(_ & _ & _ & Hs)].
  - by destruct Hr.
  - discriminate Hr.
  - exact (Hs _ Hstep).
Defined.
