(* ===== verification/DdsMatch.v ===== *)
(** * Waiting for matched endpoints (node.rs, pubsub.rs, service/client.rs)

    What publishers, subscriptions and clients ask of their node about the remote
    endpoints matched with theirs: counts, and waits. [wait_for_service] awaits
    two waits at once, each with a channel of its own that the Spinner announces
    events on; it is modelled together with the Spinner, and each of the two is
    simulated by Discovery's [MatchWait]. *)
From S2P Require Import Prelude Discovery.

Section match_.
Context {GUID : Type} `{Countable GUID} {Other : Type}.
Abbreviation NodeEvent := (NodeEvent (GUID:=GUID) (Other:=Other)).
Abbreviation Tables := (Tables (GUID:=GUID)).
Abbreviation WaitState := (WaitState (GUID:=GUID) (Other:=Other)).

(** ** node.rs *)

(** [status_receiver]: a new sender joins the others; [None] is the panic when
    there is no Spinner. [bounded] makes a channel. *)
Definition status_receiver {C : Type} (have_spinner : bool) (bounded : nat → C) (senders : list C) :
    option (list C * C) :=
  if have_spinner then Some (senders ++ [bounded CHANNEL_CAPACITY], bounded CHANNEL_CAPACITY)
  else None.
(** [wait_for_writer] and [wait_for_reader]: the local endpoint that waits, and
    its wait. *)
Definition wait_for_writer (have_spinner : bool) (reader : GUID) (t : Tables) (pc : SpinnerPc) :
    option (GUID * WaitState) :=
  if have_spinner then Some (reader, MatchWait_new (readers_to_remote_writers t) pc) else None.
Definition wait_for_reader (have_spinner : bool) (writer : GUID) (t : Tables) (pc : SpinnerPc) :
    option (GUID * WaitState) :=
  if have_spinner then Some (writer, MatchWait_new (writers_to_remote_readers t) pc) else None.

(** ** service/client.rs: [Client::wait_for_service]

    [futures::join!] polls the two waits in order, skipping one that is done, as
    often as the task is woken, and ends when both are. The call borrows the node,
    whose senders keep the channels open. *)
Inductive side := Requests | Responses.
#[export] Instance side_eq_dec : EqDecision side.
Proof. solve_decision. Defined.
(** A wait's channel, and whether it is done; then its receiver is gone. *)
Record half := { h_queue : list NodeEvent; h_waker : bool; h_done : bool }.
Definition other_side (s : side) : side :=
  match s with Requests => Responses | Responses => Requests end.
(** The Spinner records an event in the tables and then announces it on the two
    channels in turn; halfway, the second channel is left. Which one comes first
    may change from event to event: [send_status_event] fills the place of a
    sender whose channel was closed with the last sender of the array. *)
Inductive Spinning :=
  AtRest | Recorded (e : NodeEvent) | Halfway (left : side) (e : NodeEvent) | Ended.
(** The task: not being polled; polling a wait, which drains its channel or is
    about to look at the matches; at its end. *)
Inductive JoinPc := Asleep | At (s : side) (looking : bool) | Finished.
Record JoinState := {
  j_tables : Tables;
  j_spinning : Spinning;
  j_half : side → half;
  j_scheduled : bool;
  j_pc : JoinPc;
}.

(** The client's writer and reader. *)
Variables request_sender response_receiver : GUID.
Definition guid_at (s : side) : GUID :=
  match s with Requests => request_sender | Responses => response_receiver end.
Definition table_at (s : side) (t : Tables) : gmap GUID (gset GUID) :=
  match s with
  | Requests => writers_to_remote_readers t
  | Responses => readers_to_remote_writers t
  end.
Definition matched_at (s : side) (t : Tables) : bool := matched (guid_at s) (table_at s t).

Definition set_half (s : side) (h : half) (f : side → half) : side → half :=
  λ s', if decide (s' = s) then h else f s'.
(** Where the poll goes on: with the first wait, the second, or to its end. *)
Definition poll_end (f : side → half) : JoinPc :=
  if h_done (f Requests) && h_done (f Responses) then Finished else Asleep.
Definition poll_second (f : side → half) : JoinPc :=
  if h_done (f Responses) then poll_end f else At Responses false.
Definition poll_first (f : side → half) : JoinPc :=
  if h_done (f Requests) then poll_second f else At Requests false.
Definition poll_after (s : side) (f : side → half) : JoinPc :=
  match s with Requests => poll_second f | Responses => poll_end f end.

(** One step of the task; [None] when it is not run. *)
Definition join_step (j : JoinState) : option JoinState :=
  match j_pc j with
  | Asleep =>
      if j_scheduled j then
        Some {| j_tables := j_tables j; j_spinning := j_spinning j; j_half := j_half j;
                j_scheduled := false; j_pc := poll_first (j_half j) |}
      else None
  | At s false =>
      let h := j_half j s in
      Some match h_queue h with
           | _ :: q =>
               {| j_tables := j_tables j; j_spinning := j_spinning j;
                  j_half := set_half s {| h_queue := q; h_waker := h_waker h; h_done := h_done h |}
                              (j_half j);
                  j_scheduled := j_scheduled j; j_pc := At s false |}
           | [] =>
               {| j_tables := j_tables j; j_spinning := j_spinning j;
                  j_half := set_half s {| h_queue := []; h_waker := true; h_done := h_done h |}
                              (j_half j);
                  j_scheduled := j_scheduled j; j_pc := At s true |}
           end
  | At s true =>
      let h := j_half j s in
      let f := if matched_at s (j_tables j)
               then set_half s {| h_queue := h_queue h; h_waker := h_waker h; h_done := true |}
                      (j_half j)
               else j_half j in
      Some {| j_tables := j_tables j; j_spinning := j_spinning j; j_half := f;
              j_scheduled := j_scheduled j; j_pc := poll_after s f |}
  | Finished => None
  end.

(** What else happens: the Spinner records an event, announces it on either channel
    first and then on the other ([try_send] appends and wakes, or finds the channel
    full or closed), or ends; something else wakes the task. *)
Inductive action := RecordEvent (e : NodeEvent) | AnnounceOn (s : side) | EndSpin | WakeTask.
Definition announce (s : side) (e : NodeEvent) (next : Spinning) (j : JoinState) : JoinState :=
  let h := j_half j s in
  if h_done h || (CHANNEL_CAPACITY <=? length (h_queue h)) then
    {| j_tables := j_tables j; j_spinning := next; j_half := j_half j;
       j_scheduled := j_scheduled j; j_pc := j_pc j |}
  else
    {| j_tables := j_tables j; j_spinning := next;
       j_half := set_half s {| h_queue := h_queue h ++ [e]; h_waker := false; h_done := h_done h |}
                   (j_half j);
       j_scheduled := h_waker h || j_scheduled j; j_pc := j_pc j |}.
Definition act (a : action) (j : JoinState) : option JoinState :=
  match a, j_spinning j with
  | RecordEvent e, AtRest =>
      Some {| j_tables := on_event e (j_tables j); j_spinning := Recorded e; j_half := j_half j;
              j_scheduled := j_scheduled j; j_pc := j_pc j |}
  | AnnounceOn s, Recorded e => Some (announce s e (Halfway (other_side s) e) j)
  | AnnounceOn s, Halfway s' e => if decide (s = s') then Some (announce s e AtRest j) else None
  | EndSpin, AtRest =>
      Some {| j_tables := j_tables j; j_spinning := Ended; j_half := j_half j;
              j_scheduled := j_scheduled j; j_pc := j_pc j |}
  | WakeTask, _ =>
      Some {| j_tables := j_tables j; j_spinning := j_spinning j; j_half := j_half j;
              j_scheduled := true; j_pc := j_pc j |}
  | _, _ => None
  end.
(** [wait_for_service] makes its two waits before it polls them; events may
    already be in the first channel. [None] is the panic of [status_receiver]. *)
Definition wait_for_service (have_spinner : bool) (t : Tables) (sp : Spinning) (q : list NodeEvent) :
    option JoinState :=
  if have_spinner then
    Some {| j_tables := t; j_spinning := sp;
            j_half := λ s, {| h_queue := match s with Requests => q | Responses => [] end;
                              h_waker := false; h_done := false |};
            j_scheduled := true; j_pc := Asleep |}
  else None.
Definition moves (j j' : JoinState) : Prop :=
  join_step j = Some j' ∨ ∃ a, act a j = Some j'.
(** The task alone, for [n] steps. *)
Fixpoint join_steps (n : nat) (j : JoinState) : option JoinState :=
  match n with O => Some j | S n => j ← join_step j; join_steps n j end.

(** ** Each wait is a [MatchWait] *)
Implicit Types (j : JoinState) (s : side).

Definition record_at s (e : NodeEvent) (m : gmap GUID (gset GUID)) : gmap GUID (gset GUID) :=
  table_at s (on_event e {| readers_to_remote_writers := m; writers_to_remote_readers := m;
                            external_nodes := ∅ |}).
Lemma table_at_event s e t : table_at s (on_event e t) = record_at s e (table_at s t).
Proof. by destruct s, e as [[]|]. Qed.

Definition spinning_at s (sp : Spinning) : SpinnerPc (GUID:=GUID) (Other:=Other) :=
  match sp with
  | AtRest => Idle
  | Recorded e => Announcing e
  | Halfway s' e => if decide (s' = s) then Announcing e else Idle
  | Ended => Stopped
  end.
(** The poll under way has still to come to this wait. *)
Definition to_be_polled s (pc : JoinPc) : bool :=
  match s, pc with Responses, At Requests _ => true | _, _ => false end.
Definition wait_of s j : WaitState :=
  {| ws_matches := table_at s (j_tables j); spinner := spinning_at s (j_spinning j);
     queue := h_queue (j_half j s); closed := false; stream := true; waker := h_waker (j_half j s);
     scheduled := j_scheduled j || to_be_polled s (j_pc j);
     waiter := if h_done (j_half j s) then Resolved
               else match j_pc j with
                    | At s' looking =>
                        if decide (s' = s) then if looking then Looking else Draining else Suspended
                    | _ => Suspended
                    end |}.
Abbreviation wait_steps s := (rtc (wait_step (record_at s) (guid_at s))).

Lemma wait_spurious s (x : WaitState) :
  wait_steps s x {| ws_matches := ws_matches x; spinner := spinner x; queue := queue x;
                    closed := closed x; stream := stream x; waker := waker x; scheduled := true;
                    waiter := waiter x |}.
Proof. apply rtc_once. right. right. constructor. Qed.

(** A done wait stays done. *)
Lemma moves_done s j j' : moves j j' → h_done (j_half j s) = true → h_done (j_half j' s) = true.
Proof.
  intros [H'|[a H']] Hd.
  - unfold join_step in H'. destruct (j_pc j) as [|s' [|]|]; simplify_eq/=.
    + by destruct (j_scheduled j); simplify_eq/=.
    + destruct (matched_at _ _); simpl; [|done]. unfold set_half. by destruct (decide _).
    + destruct (h_queue _); simpl; unfold set_half; by destruct (decide _); subst.
  - unfold act, announce in H'. destruct a, (j_spinning j); try case_decide; simplify_eq/=; try done;
      destruct (_ || _); simpl; unfold set_half; try done; by destruct (decide _); subst.
Qed.

Lemma spinning_left s e : spinning_at s (Halfway s e) = Announcing e.
Proof. simpl. by rewrite decide_True. Qed.
Lemma spinning_announced s s' e : s' ≠ s → spinning_at s (Halfway s' e) = Idle.
Proof. intros. simpl. by rewrite decide_False. Qed.
Lemma other_side_ne s : other_side s ≠ s.
Proof. by destruct s. Qed.
Lemma other_side_eq s s' : s' ≠ s → other_side s' = s.
Proof. by destruct s, s'. Qed.
#[local] Arguments spinning_at : simpl never.
Lemma wait_same s x y : x = y → wait_steps s x y.
Proof. intros ->. apply rtc_refl. Qed.
(** The Spinner's part for the other wait, and wake-ups. *)
Lemma wait_of_woken s j sp f b :
  spinning_at s sp = spinning_at s (j_spinning j) →
  h_queue (f s) = h_queue (j_half j s) → h_waker (f s) = h_waker (j_half j s) →
  h_done (f s) = h_done (j_half j s) →
  wait_steps s (wait_of s j)
    (wait_of s {| j_tables := j_tables j; j_spinning := sp; j_half := f;
                  j_scheduled := b || j_scheduled j; j_pc := j_pc j |}).
Proof.
  intros Hsp Hq Hw Hd. destruct b.
  - etrans; [apply wait_spurious|]. apply wait_same. unfold wait_of. simpl. by rewrite Hsp, Hq, Hw, Hd.
  - apply wait_same. unfold wait_of. simpl. by rewrite Hsp, Hq, Hw, Hd.
Qed.
Lemma wait_of_announced s e sp j :
  spinning_at s (j_spinning j) = Announcing e → spinning_at s sp = Idle →
  h_done (j_half j s) = false → wait_steps s (wait_of s j) (wait_of s (announce s e sp j)).
Proof.
  intros Hsp Hidle Hd. unfold announce. rewrite Hd, orb_false_l. apply rtc_once. left.
  destruct (CHANNEL_CAPACITY <=? length (h_queue (j_half j s))) eqn:E.
  - apply Nat.leb_le in E. pose proof (step_announce_full (record_at s) (wait_of s j) e) as Hstep.
    simpl in Hstep. specialize (Hstep Hsp E). unfold wait_of in *. simpl in *. by rewrite Hidle.
  - apply Nat.leb_gt in E. pose proof (step_announce (record_at s) (wait_of s j) e) as Hstep.
    simpl in Hstep. specialize (Hstep Hsp E). unfold wait_of, wake, set_half in *. simpl in *.
    rewrite Hidle, decide_True by done. simpl. rewrite Hd in Hstep |- *. by rewrite <-orb_assoc.
Qed.
Lemma announce_other s s' e sp j :
  s' ≠ s → spinning_at s sp = spinning_at s (j_spinning j) →
  wait_steps s (wait_of s j) (wait_of s (announce s' e sp j)).
Proof.
  intros Hne Hsp. unfold announce. destruct (_ || _); [by apply (wait_of_woken s j sp _ false)|].
  apply wait_of_woken; [done|..]; unfold set_half; by rewrite decide_False.
Qed.
Lemma wait_of_act s a j j' :
  act a j = Some j' → h_done (j_half j' s) = false → wait_steps s (wait_of s j) (wait_of s j').
Proof.
  intros H' Hd'. assert (h_done (j_half j s) = false) as Hd.
  { destruct (h_done (j_half j s)) eqn:E; [|done].
    rewrite (moves_done s j j') in Hd'; [done|right; eauto|done]. }
  unfold act in H'. destruct a as [e|s'| |], (j_spinning j) as [|e'|s'' e'|] eqn:Hsp;
    try case_decide; simplify_eq/=.
  - apply rtc_once. left. pose proof (step_record (record_at s) (wait_of s j) e) as Hstep.
    unfold wait_of in *. simpl in *. rewrite Hsp, table_at_event in *. by apply Hstep.
  - destruct (decide (s' = s)) as [->|Hne]; [apply wait_of_announced|apply announce_other];
      rewrite ?Hsp; try done; [apply spinning_announced, other_side_ne|].
    by rewrite (other_side_eq s s'), spinning_left.
  - destruct (decide (s'' = s)) as [->|Hne]; [apply wait_of_announced|apply announce_other];
      rewrite ?Hsp; try done; [apply spinning_left|]. by rewrite spinning_announced.
  - apply rtc_once. left. pose proof (step_stop (record_at s) (wait_of s j)) as Hstep.
    unfold wait_of in *. simpl in *. rewrite Hsp in *. by apply Hstep.
  - apply (wait_of_woken s j _ _ true); by rewrite ?Hsp.
  - apply (wait_of_woken s j _ _ true); by rewrite ?Hsp.
  - apply (wait_of_woken s j _ _ true); by rewrite ?Hsp.
  - apply (wait_of_woken s j _ _ true); by rewrite ?Hsp.
Qed.

(** A poll comes to the wait; the task may be woken again meanwhile. *)
Lemma wait_of_polled s j f b :
  h_done (j_half j s) = false → f s = j_half j s →
  j_scheduled j || to_be_polled s (j_pc j) = true → (∀ l, j_pc j ≠ At s l) →
  wait_steps s (wait_of s j)
    (wait_of s {| j_tables := j_tables j; j_spinning := j_spinning j; j_half := f;
                  j_scheduled := b; j_pc := At s false |}).
Proof.
  intros Hd Hf Hs Hpc. pose proof (step_poll (guid_at s) (wait_of s j)) as Hstep.
  unfold wait_of in *. simpl in *. rewrite Hf, Hd, Hs in *. rewrite decide_True by done.
  assert (to_be_polled s (At s false) = false) as -> by by destruct s. rewrite orb_false_r.
  eapply rtc_l; [right; left; apply Hstep; [|done]|].
  { destruct (j_pc j) as [|s' l|]; [done| |done]. rewrite decide_False; [done|]. intros ->.
    by destruct (Hpc l). }
  destruct b; [apply wait_spurious|apply rtc_refl].
Qed.
Lemma wait_of_step s j j' :
  join_step j = Some j' → h_done (j_half j' s) = false → wait_steps s (wait_of s j) (wait_of s j').
Proof.
  intros H' Hd'. assert (h_done (j_half j s) = false) as Hd.
  { destruct (h_done (j_half j s)) eqn:E; [|done].
    rewrite (moves_done s j j') in Hd'; [done|by left|done]. }
  unfold join_step in H'. destruct (j_pc j) as [|s' []|] eqn:Hpc; [..|done].
  - destruct (j_scheduled j) eqn:Hs; simplify_eq/=. destruct s.
    + unfold poll_first. rewrite Hd. apply wait_of_polled; [done..|by rewrite Hs|by rewrite Hpc].
    + unfold poll_first, poll_second. destruct (h_done (j_half j Requests)).
      * rewrite Hd. apply wait_of_polled; [done..|by rewrite Hs|by rewrite Hpc].
      * apply wait_same. unfold wait_of. simpl. by rewrite Hs, Hpc, Hd.
  - destruct (decide (s' = s)) as [->|Hne].
    + destruct (matched_at s (j_tables j)) eqn:Hm; simplify_eq/=;
        [unfold set_half in Hd'; by rewrite decide_True in Hd'|].
      pose proof (step_look (guid_at s) (wait_of s j)) as Hstep. unfold matched_at in Hm.
      unfold wait_of in *. simpl in *. rewrite Hpc, Hd, Hm, decide_True in * by done.
      apply rtc_once. right. left. specialize (Hstep eq_refl). destruct s; simpl in *.
      * unfold poll_second, poll_end in *. rewrite Hd. destruct (h_done (j_half j Responses)); exact Hstep.
      * unfold poll_end. rewrite Hd, andb_false_r. exact Hstep.
    + set (f := if matched_at s' (j_tables j) then _ else _) in H'. simplify_eq/=.
      assert (f s = j_half j s) as Hf.
      { unfold f, set_half. destruct (matched_at _ _); [|done]. by rewrite decide_False by congruence. }
      destruct s, s'; try done; simpl.
      * unfold poll_end. rewrite Hf, Hd. simpl. apply wait_same. unfold wait_of. simpl.
        by rewrite Hf, Hpc.
      * unfold poll_second. rewrite Hf, Hd. apply wait_of_polled; [done..| |by rewrite Hpc].
        rewrite Hpc. apply orb_true_r.
  - destruct (decide (s' = s)) as [->|Hne].
    + apply rtc_once. right. left. destruct (h_queue (j_half j s)) as [|e q] eqn:Hq; simplify_eq/=.
      * pose proof (step_pending (guid_at s) (wait_of s j)) as Hstep.
        unfold wait_of, set_half in *. simpl in *. rewrite Hpc, Hd, Hq in *.
        rewrite decide_True in Hstep by done. destruct s; by apply Hstep.
      * pose proof (step_drain (guid_at s) (wait_of s j) e q) as Hstep.
        unfold wait_of, set_half in *. simpl in *. rewrite Hpc, Hd, Hq in *.
        rewrite decide_True in Hstep by done. destruct s; by apply Hstep.
    + apply wait_same. destruct (h_queue (j_half j s')); simplify_eq/=; unfold wait_of, set_half;
        simpl; rewrite Hpc; by destruct s, s'.
Qed.

(** ** Every state of the call *)
Definition all_done j : Prop := ∀ s, h_done (j_half j s) = true.
Record join_inv j : Prop := {
  join_waits s : h_done (j_half j s) = false → wait_inv (guid_at s) (wait_of s j);
  join_asleep : j_pc j = Asleep → ¬ all_done j;
  join_finished : j_pc j = Finished → all_done j;
}.
Lemma all_done_iff f :
  (∀ s, h_done (f s) = true) ↔ h_done (f Requests) && h_done (f Responses) = true.
Proof. rewrite andb_true_iff. split; [auto|]. by intros [? ?] []. Qed.
Lemma join_inv_start t sp q j0 : wait_for_service true t sp q = Some j0 → join_inv j0.
Proof.
  intros [= <-]. split; [|by intros _ Hall; specialize (Hall Requests)|done].
  intros s _. by split.
Qed.
(** Where polling leads. *)
Lemma poll_pc s pc f :
  pc = poll_first f ∨ pc = poll_after s f →
  (pc = Asleep → ¬ ∀ s, h_done (f s) = true) ∧ (pc = Finished → ∀ s, h_done (f s) = true).
Proof.
  intros Hpc. rewrite !all_done_iff. unfold poll_first, poll_after, poll_second, poll_end in Hpc.
  destruct Hpc as [-> | ->], (h_done (f Requests)), (h_done (f Responses)), s; by split.
Qed.
Lemma join_inv_moves j j' : join_inv j → moves j j' → join_inv j'.
Proof.
  intros [Hw Hs Hf] Hmv.
  assert (∀ s, h_done (j_half j' s) = false → wait_inv (guid_at s) (wait_of s j')) as Hw'.
  { intros s Hd'. assert (h_done (j_half j s) = false) as Hd.
    { destruct (h_done (j_half j s)) eqn:E; [|done]. by rewrite (moves_done s j j') in Hd'. }
    eapply wait_inv_steps; [|by apply Hw].
    destruct Hmv as [H'|[a H']]; [by eapply wait_of_step|by eapply wait_of_act]. }
  destruct Hmv as [H'|[a H']].
  - unfold join_step in H'. destruct (j_pc j) as [|s []|] eqn:Hpc; [|..|done].
    + destruct (j_scheduled j); simplify_eq.
      destruct (poll_pc Requests _ (j_half j) (or_introl eq_refl)). by split.
    + set (f := if matched_at _ _ then _ else _) in H'. simplify_eq.
      destruct (poll_pc s _ f (or_intror eq_refl)). by split.
    + destruct (h_queue _); simplify_eq; by split.
  - assert (j_pc j' = j_pc j ∧ ∀ s, h_done (j_half j' s) = h_done (j_half j s)) as [Hpc Hd].
    { unfold act, announce in H'. destruct a, (j_spinning j); try case_decide; simplify_eq/=; try done;
        destruct (_ || _); simpl; unfold set_half; (split; [done|]); intros s1;
        try done; by destruct (decide _); subst. }
    split; [done|..]; rewrite Hpc; unfold all_done; setoid_rewrite Hd; auto.
Qed.
Lemma join_inv_reachable t sp q j0 j :
  wait_for_service true t sp q = Some j0 → rtc moves j0 j → join_inv j.
Proof.
  intros H0 Hr. apply join_inv_start in H0. induction Hr; [done|]. by eauto using join_inv_moves.
Qed.

(** ** The task's own steps end *)
Definition queued j : nat := length (h_queue (j_half j Requests)) + length (h_queue (j_half j Responses)).
Definition steps_left j : nat :=
  match j_pc j with
  | Asleep => if j_scheduled j then 6 + queued j else 0
  | At s looking =>
      (if j_scheduled j then 6 + queued j else 0) + (if looking then 1 else 2) +
      match s with Requests => queued j + 2 | Responses => length (h_queue (j_half j Responses)) end
  | Finished => 0
  end.
Lemma join_step_decreases j j' :
  join_step j = Some j' → j_tables j' = j_tables j ∧ steps_left j' < steps_left j.
Proof.
  unfold join_step, steps_left, queued. intros H'.
  destruct (j_pc j) as [|s []|] eqn:Hpc; [|..|done].
  - destruct (j_scheduled j); simplify_eq/=. split; [done|].
    unfold poll_first, poll_second, poll_end.
    destruct (h_done (j_half j Requests)), (h_done (j_half j Responses)); simpl; lia.
  - set (f := if matched_at s _ then _ else _) in H'.
    assert (∀ s', h_queue (f s') = h_queue (j_half j s')) as Hq.
    { intros s'. unfold f, set_half. destruct (matched_at _ _); [|done]. by destruct (decide _); subst. }
    simplify_eq/=. split; [done|]. rewrite !Hq.
    destruct s; simpl; unfold poll_second, poll_end;
      destruct (h_done (f Requests)), (h_done (f Responses)), (j_scheduled j); simpl; lia.
  - destruct (h_queue (j_half j s)) as [|e l] eqn:Hq; simplify_eq/=; (split; [done|]);
      unfold set_half; destruct s; simpl; rewrite Hq; destruct (j_scheduled j); simpl; lia.
Qed.
Lemma join_steps_end j :
  ∃ n j', n ≤ steps_left j ∧ join_steps n j = Some j' ∧ rtc moves j j' ∧ j_tables j' = j_tables j ∧
    (∀ s, h_done (j_half j s) = true → h_done (j_half j' s) = true) ∧ join_step j' = None.
Proof.
  remember (steps_left j) as k eqn:Hk. revert j Hk.
  induction k as [k IH] using lt_wf_ind. intros j ->. destruct (join_step j) as [j1|] eqn:E.
  - destruct (join_step_decreases _ _ E) as [Ht Hlt].
    destruct (IH _ Hlt j1 eq_refl) as (n & j' & Hn & Hsteps & Hr & Ht' & Hd & Hend).
    exists (S n), j'. simpl. rewrite E. split_and!; [lia|done| |congruence| |done].
    + eapply rtc_l; [by left|done].
    + intros s Hs. apply Hd. eapply moves_done; [by left|done].
  - exists 0, j. by split_and!; [lia|..].
Qed.
(** A wait that sleeps although its match is recorded is about to be woken. *)
Definition about_to_wake j : Prop :=
  ∀ a1 j1 a2 j2, act a1 j = Some j1 → act a2 j1 = Some j2 → j_scheduled j2 = true.
Lemma act_scheduled a j j' : act a j = Some j' → j_scheduled j = true → j_scheduled j' = true.
Proof.
  unfold act, announce. intros H' Hs. destruct a, (j_spinning j); try case_decide; simplify_eq/=; try done;
    destruct (_ || _); simpl; by rewrite ?Hs, ?orb_true_r.
Qed.
Lemma announce_wakes s e sp j :
  h_done (j_half j s) = false → h_queue (j_half j s) = [] → h_waker (j_half j s) = true →
  j_scheduled (announce s e sp j) = true.
Proof. intros Hd Hq Hw. unfold announce. by rewrite Hd, Hq, Hw. Qed.
Lemma announce_keeps s s' e sp j :
  s' ≠ s → j_spinning (announce s' e sp j) = sp ∧ j_half (announce s' e sp j) s = j_half j s.
Proof.
  intros Hne. unfold announce. destruct (_ || _); [done|]. simpl. split; [done|].
  unfold set_half. by rewrite decide_False.
Qed.
(** An event is recorded and not yet announced on both channels. *)
Definition announcing j : Prop :=
  ∃ e, j_spinning j = Recorded e ∨ ∃ s, j_spinning j = Halfway s e.
Lemma sleeping_about_to_wake s j :
  join_inv j → h_done (j_half j s) = false → matched_at s (j_tables j) = true →
  j_pc j = Asleep → j_scheduled j = false →
  announcing j ∧ about_to_wake j.
Proof.
  intros Hinv Hd Hm Hpc Hs. pose proof (join_waits _ Hinv s Hd) as Hw.
  assert (waiter (wait_of s j) = Suspended) as Hwait by (simpl; by rewrite Hd, Hpc).
  assert (scheduled (wait_of s j) = false) as Hsch by (simpl; rewrite Hs, Hpc; by destruct s).
  destruct (inv_matched _ _ Hw Hwait Hm Hsch) as [e He].
  destruct (inv_woken _ _ Hw (or_introl Hwait) Hsch) as [Hk|]; [|done].
  pose proof (inv_waker _ _ Hw Hk) as Hq. simpl in He, Hk, Hq.
  split; [unfold announcing; destruct (j_spinning j); naive_solver|].
  intros a1 j1 a2 j2 H1 H2. unfold act in H1. destruct (j_spinning j) as [|e'|s' e'|] eqn:Hsp;
    [done|..|done]; destruct a1 as [|s1| |]; simplify_eq/=;
    try by apply (act_scheduled _ _ _ H2).
  - destruct (decide (s1 = s)) as [->|Hne];
      [apply (act_scheduled _ _ _ H2); by apply announce_wakes|].
    destruct (announce_keeps s s1 e' (Halfway (other_side s1) e') j Hne) as [Hsp1 Hh].
    rewrite (other_side_eq s s1) in * by done. unfold act in H2. rewrite Hsp1 in H2.
    destruct a2; try case_decide; simplify_eq/=; [|done]. apply announce_wakes; by rewrite Hh.
  - case_decide; simplify_eq/=. apply (act_scheduled _ _ _ H2).
    destruct (decide (s' = s)) as [->|]; [by apply announce_wakes|].
    by rewrite spinning_announced in He.
Qed.

(** A wait is done only on a match. *)
Lemma join_step_done s j j' :
  join_step j = Some j' → h_done (j_half j' s) = true →
  h_done (j_half j s) = true ∨ matched_at s (j_tables j) = true.
Proof.
  unfold join_step. intros H' Hd. destruct (j_pc j) as [|s' []|]; [|..|done].
  - destruct (j_scheduled j); simplify_eq/=. by left.
  - destruct (matched_at s' (j_tables j)) eqn:Hm; simplify_eq/=; [|by left].
    unfold set_half in Hd. destruct (decide (s = s')) as [->|]; auto.
  - left. destruct (h_queue (j_half j s')); simplify_eq/=; unfold set_half in Hd;
      by destruct (decide _); subst.
Qed.
(** When the Spinner has ended, a wait without a match sleeps for ever. *)
Lemma join_sleeps_forever s j j' :
  join_inv j → j_spinning j = Ended → h_done (j_half j s) = false →
  matched_at s (j_tables j) = false → rtc moves j j' →
  j_pc j' ≠ Finished ∧ h_done (j_half j' s) = false.
Proof.
  intros Hinv Hsp Hd Hm Hr. induction Hr as [j|j j1 j2 Hmv _ IH].
  - split; [|done]. intros Hf. apply join_finished in Hf; [|done]. by rewrite Hf in Hd.
  - apply IH; [by eapply join_inv_moves|..].
    + destruct Hmv as [H'|[a H']].
      * unfold join_step in H'. destruct (j_pc j) as [|s' []|]; simplify_eq/=;
          [by destruct (j_scheduled j); simplify_eq/=|done|by destruct (h_queue _)].
      * unfold act in H'. rewrite Hsp in H'. by destruct a; try case_decide; simplify_eq/=.
    + destruct Hmv as [H'|[a H']].
      * destruct (h_done (j_half j1 s)) eqn:E; [|done].
        destruct (join_step_done _ _ _ H' E); congruence.
      * unfold act in H'. rewrite Hsp in H'. by destruct a; try case_decide; simplify_eq/=.
    + destruct Hmv as [H'|[a H']].
      * by rewrite (proj1 (join_step_decreases _ _ H')).
      * unfold act in H'. rewrite Hsp in H'. by destruct a; try case_decide; simplify_eq/=.
Qed.

(** C3: a call of [wait_for_service] cannot miss the service. In every state that
    it and the Spinner can reach, in whichever order the Spinner announces an event
    on the two channels, if each of its two waits is done or its match
    is recorded, then what is left of the task's own steps, a bounded number,
    leads to the end of the call, unless the Spinner is still announcing an event
    whose next announcements are sure to wake the task, which then is asleep. *)
Theorem wait_for_service_no_lost_wakeup t sp q j0 j :
  wait_for_service true t sp q = Some j0 → rtc moves j0 j →
  (∀ s, h_done (j_half j s) = true ∨ matched_at s (j_tables j) = true) →
  ∃ n j', n ≤ 10 + 2 * queued j ∧ join_steps n j = Some j' ∧
    (j_pc j' = Finished ∨
     (j_pc j' = Asleep ∧ j_scheduled j' = false ∧
      announcing j' ∧ about_to_wake j')).
Proof.
  intros H0 Hr Hall. destruct (join_steps_end j) as (n & j' & Hn & Hsteps & Hr' & Ht & Hd & Hend).
  exists n, j'. split_and!; [|done|].
  { revert Hn. unfold steps_left. destruct (j_pc j) as [|[] []|], (j_scheduled j); simpl;
      unfold queued; lia. }
  assert (join_inv j') as Hinv by (eapply (join_inv_reachable t sp q j0); [done|by etrans]).
  unfold join_step in Hend. destruct (j_pc j') as [|s []|] eqn:Hpc; [|done..|by left].
  destruct (j_scheduled j') eqn:Hs; [done|]. right. split; [done|]. split; [done|].
  assert (∃ s, h_done (j_half j' s) = false) as [s Hs'].
  { pose proof (join_asleep _ Hinv Hpc) as Hna. unfold all_done in Hna. rewrite all_done_iff in Hna.
    apply not_true_is_false, andb_false_iff in Hna. destruct Hna; eauto. }
  apply (sleeping_about_to_wake s); [done..| |done|done].
  destruct (Hall s) as [Hds|]; [|by rewrite Ht]. rewrite (Hd _ Hds) in Hs'. done.
Qed.

(** Moves as they come: [None] is a step of the task. *)
Fixpoint join_run (l : list (option action)) j : option JoinState :=
  match l with
  | [] => Some j
  | o :: l => j ← match o with None => join_step j | Some a => act a j end; join_run l j
  end.
Lemma join_run_moves l j j' : join_run l j = Some j' → rtc moves j j'.
Proof.
  revert j. induction l as [|o l IH]; intros j; simpl; [by intros [= ->]|].
  destruct (match o with None => join_step j | Some a => act a j end) as [j1|] eqn:E; [|done].
  intros Hl. eapply rtc_l; [|by apply IH]. destruct o as [a|]; [right; eauto|by left].
Qed.
End match_.

(** ** Witnesses *)

(** A client with writer 1 and reader 2 waits; the task looks and falls asleep.
    The service's reader 11 is matched and announced, first on the channel of the
    responses; the task wakes and finds it; then the service's writer 12 is
    matched, and not yet announced. *)
Definition toy_join : option (JoinState (GUID:=N) (Other:=N)) :=
  j ← wait_for_service true Tables_new AtRest [];
  join_run 1%N 2%N
    [None; None; None; None; None;
     Some (RecordEvent (DDS (RemoteReaderMatched 1%N 11%N))); Some (AnnounceOn Responses); None;
     Some (AnnounceOn Requests); None; None; None; None; None; None; None; None; None;
     Some (RecordEvent (DDS (RemoteWriterMatched 2%N 12%N)))] j.
Lemma wait_for_service_no_lost_wakeup_witness :
  ∃ j n j', toy_join = Some j ∧ j_pc j = Asleep ∧ h_done (j_half j Requests) = true ∧
    h_done (j_half j Responses) = false ∧ join_steps 1%N 2%N n j = Some j' ∧
    (j_pc j' = Finished ∨
     (j_pc j' = Asleep ∧ j_scheduled j' = false ∧
      announcing j' ∧ about_to_wake j')).
Proof.
  destruct (wait_for_service (GUID:=N) (Other:=N) true Tables_new AtRest []) as [j0|] eqn:E0; [|done].
  destruct toy_join as [j|] eqn:E; [|exfalso; revert E; vm_compute; discriminate].
  assert (rtc (moves 1%N 2%N) j0 j) as Hr.
  { unfold toy_join in E. rewrite E0 in E. by apply join_run_moves in E. }
  assert (j_pc j = Asleep ∧ h_done (j_half j Requests) = true ∧
          h_done (j_half j Responses) = false ∧
          matched_at 1%N 2%N Responses (j_tables j) = true) as (Hpc & Hd & Hd' & Hm).
  { revert E. vm_compute. by intros [= <-]. }
  destruct (wait_for_service_no_lost_wakeup 1%N 2%N _ _ _ _ j E0 Hr) as (n & j' & _ & Hn & Hj').
  { intros []; [by left|by right]. }
  exists j, n, j'. by split_and!.
Defined.
