(* ===== verification/DdsService.v ===== *)
(** * Services over DDS (service/wrappers.rs, service/client.rs, service/server.rs,
    service/request_id.rs, message_info.rs, and the response loops of
    action/client.rs)

    The wire wrappers of the three service mappings, the client and the server
    ends, and the loops that wait for the response to one request. RustDDS is a
    parameter: its GUIDs and sequence numbers ([Rustdds]), its CDR codec per
    message type ([CdrMessage]), its writers ([DataWriter]) and its readers
    ([SimpleDataReader]); what the code relies on are the laws of the classes
    [CdrMessageLaws] and [SimpleDataReaderLaws]. *)
From S2P Require Import Prelude ActionServer.
#[local] Open Scope Z_scope.

(** ** RustDDS *)

Inductive RepresentationIdentifier := CDR_BE | CDR_LE | OtherRep (b0 b1 : Z).
#[export] Instance RepresentationIdentifier_eq_dec : EqDecision RepresentationIdentifier.
Proof. solve_decision. Defined.

(** [ReadError]: the two variants the crate builds itself with RustDDS's macros
    [read_error_deserialization!] and [read_error_internal!], and the rest. *)
Inductive ReadError :=
| Deserialization (reason : string)
| Internal (reason : string)
| OtherReadError (code : N).

(** [GUID], [SequenceNumber] (an [i64]), [Timestamp] and [WriteError]. *)
Class Rustdds := {
  GUID : Type;
  GUID_eq_dec :: EqDecision GUID;
  to_bytes : GUID → list Z;
  from_bytes : list Z → GUID;
  SequenceNumber_UNKNOWN : Z;
  SequenceNumber_default : Z;
  high : Z → Z;
  low : Z → Z;
  from_high_low : Z → Z → Z;
  Timestamp : Type;
  Timestamp_ZERO : Timestamp;
  WriteError : Type → Type;
  forget_data : ∀ {D : Type}, WriteError D → WriteError unit;
}.

(** A message type's CDR codec: the bytes [to_writer_with_rep_id] appends, and
    the value and number of bytes [deserialize_from_cdr_with_rep_id] reads. *)
Class CdrMessage `{Rustdds} (M : Type) := {
  to_writer_with_rep_id : M → RepresentationIdentifier → result (WriteError unit) (list Z);
  deserialize_from_cdr_with_rep_id :
    list Z → RepresentationIdentifier → result ReadError (M * nat);
}.
(** A serialized value followed by anything reads back, and nothing more. *)
Class CdrMessageLaws `{Rustdds} (M : Type) `{!CdrMessage M} := {
  cdr_prefix (m : M) e bs rest :
    to_writer_with_rep_id m e = Ok bs →
    deserialize_from_cdr_with_rep_id (bs ++ rest) e = Ok (m, length bs);
}.

(** [Bytes::split_off(at)]: [self] becomes [[0, at)], the rest is returned. *)
Definition split_off (at_ : nat) (b : list Z) : list Z * list Z := (take at_ b, drop at_ b).

Section dds.
Context `{RD : Rustdds}.

(** ** service/request_id.rs, message_info.rs, service/mod.rs *)

Record SampleIdentity := { si_writer_guid : GUID; si_sequence_number : Z }.
Record RmwRequestId := { writer_guid : GUID; sequence_number : Z }.
#[export] Instance RmwRequestId_eq_dec : EqDecision RmwRequestId.
Proof. solve_decision. Defined.

Definition SampleIdentity_from (r : RmwRequestId) : SampleIdentity :=
  {| si_writer_guid := writer_guid r; si_sequence_number := sequence_number r |}.
Definition RmwRequestId_from (s : SampleIdentity) : RmwRequestId :=
  {| writer_guid := si_writer_guid s; sequence_number := si_sequence_number s |}.

Record MessageInfo := {
  received_timestamp : Timestamp;
  source_timestamp : option Timestamp;
  mi_sequence_number : Z;
  publisher : GUID;
  related_sample_identity : option SampleIdentity;
}.
Definition mi_writer_guid (mi : MessageInfo) : GUID := publisher mi.
Definition sample_identity (mi : MessageInfo) : SampleIdentity :=
  {| si_writer_guid := mi_writer_guid mi; si_sequence_number := mi_sequence_number mi |}.

(** What the accessors of RustDDS's [DeserializedCacheChange] return. *)
Record DeserializedCacheChange {V : Type} := {
  dcc_source_timestamp : option Timestamp;
  dcc_sequence_number : Z;
  dcc_writer_guid : GUID;
  dcc_related_sample_identity : option SampleIdentity;
  into_value : V;
}.
Arguments DeserializedCacheChange : clear implicits.

Definition MessageInfo_from {V : Type} (dcc : DeserializedCacheChange V) : MessageInfo :=
  {| received_timestamp := Timestamp_ZERO;
     source_timestamp := dcc_source_timestamp dcc;
     mi_sequence_number := dcc_sequence_number dcc;
     publisher := dcc_writer_guid dcc;
     related_sample_identity := dcc_related_sample_identity dcc |}.

Inductive ServiceMapping := Basic | Enhanced | Cyclone.
#[export] Instance ServiceMapping_eq_dec : EqDecision ServiceMapping.
Proof. solve_decision. Defined.

(** ** service/wrappers.rs: the headers *)

Record BasicRequestHeader := { request_id : SampleIdentity; instance_name : str }.
Definition BasicRequestHeader_new (r : SampleIdentity) : BasicRequestHeader :=
  {| request_id := r; instance_name := [] |}.

Record BasicReplyHeader := {
  related_request_id : SampleIdentity;
  remote_exception_code : Z;
}.
Definition BasicReplyHeader_new (r : SampleIdentity) : BasicReplyHeader :=
  {| related_request_id := r; remote_exception_code := 0 |}.

Record CycloneHeader := {
  guid_second_half : list Z;
  sequence_number_high : Z;
  sequence_number_low : Z;
}.
Definition CycloneHeader_new (r : RmwRequestId) : CycloneHeader :=
  let sn := sequence_number r in
  {| guid_second_half := drop 8 (to_bytes (writer_guid r));
     sequence_number_high := high sn;
     sequence_number_low := low sn |}.

Context `{!CdrMessage BasicRequestHeader, !CdrMessage BasicReplyHeader,
          !CdrMessage CycloneHeader}.

Definition cyclone_unwrap {R : Type} `{!CdrMessage R} (serialized_message : list Z)
    (guid : GUID) (encoding : RepresentationIdentifier) :
    result ReadError (RmwRequestId * R) :=
  let bytes := serialized_message in
  '(header, header_size) ←
    (deserialize_from_cdr_with_rep_id bytes encoding : result ReadError (CycloneHeader * nat));
  if (length bytes <? header_size)%nat then Err (Deserialization "Service message too short")
  else
    let '(bytes, _header_bytes) := split_off header_size bytes in
    '(response, _) ← deserialize_from_cdr_with_rep_id bytes encoding;
    Ok ({| writer_guid := guid;
           sequence_number :=
             from_high_low (sequence_number_high header) (sequence_number_low header) |},
        response).

(** ** The typed wrappers *)

Record RequestWrapper := { rq_serialized_message : list Z; rq_encoding : RepresentationIdentifier }.
Definition RequestWrapper_from_bytes_and_ri (input_bytes : list Z)
    (encoding : RepresentationIdentifier) : RequestWrapper :=
  {| rq_serialized_message := input_bytes; rq_encoding := encoding |}.
Definition RequestWrapper_bytes (w : RequestWrapper) : list Z := rq_serialized_message w.

(** The request id of the Enhanced mapping, computed alike by the typed and the
    raw wrapper. *)
Definition enhanced_request_id (mi : MessageInfo) : RmwRequestId :=
  let rmw_req_id :=
    RmwRequestId_from (default (sample_identity mi) (related_sample_identity mi)) in
  if bool_decide (sequence_number rmw_req_id = SequenceNumber_UNKNOWN)
  then {| writer_guid := writer_guid rmw_req_id;
          sequence_number := si_sequence_number (sample_identity mi) |}
  else rmw_req_id.

Definition RequestWrapper_unwrap {R : Type} `{!CdrMessage R} (service_mapping : ServiceMapping)
    (mi : MessageInfo) (w : RequestWrapper) : result ReadError (RmwRequestId * R) :=
  match service_mapping with
  | Basic =>
      let bytes := rq_serialized_message w in
      '(header, header_size) ←
        (deserialize_from_cdr_with_rep_id bytes (rq_encoding w)
          : result ReadError (BasicRequestHeader * nat));
      if (length bytes <? header_size)%nat then Err (Deserialization "Service request too short")
      else
        let '(bytes, _header_bytes) := split_off header_size bytes in
        '(request, _) ← deserialize_from_cdr_with_rep_id bytes (rq_encoding w);
        Ok (RmwRequestId_from (request_id header), request)
  | Enhanced =>
      '(request, _) ← deserialize_from_cdr_with_rep_id (rq_serialized_message w) (rq_encoding w);
      Ok (enhanced_request_id mi, request)
  | Cyclone => cyclone_unwrap (rq_serialized_message w) (mi_writer_guid mi) (rq_encoding w)
  end.

Definition RequestWrapper_new {R : Type} `{!CdrMessage R} (service_mapping : ServiceMapping)
    (r_id : RmwRequestId) (encoding : RepresentationIdentifier) (request : R) :
    result (WriteError unit) RequestWrapper :=
  header ← match service_mapping with
           | Basic =>
               to_writer_with_rep_id (BasicRequestHeader_new (SampleIdentity_from r_id)) encoding
           | Enhanced => Ok []
           | Cyclone => to_writer_with_rep_id (CycloneHeader_new r_id) encoding
           end;
  body ← to_writer_with_rep_id request encoding;
  Ok {| rq_serialized_message := header ++ body; rq_encoding := encoding |}.

Record ResponseWrapper := {
  rs_serialized_message : list Z;
  rs_encoding : RepresentationIdentifier;
}.
Definition ResponseWrapper_from_bytes_and_ri (input_bytes : list Z)
    (encoding : RepresentationIdentifier) : ResponseWrapper :=
  {| rs_serialized_message := input_bytes; rs_encoding := encoding |}.
Definition ResponseWrapper_bytes (w : ResponseWrapper) : list Z := rs_serialized_message w.

Definition ResponseWrapper_unwrap {R : Type} `{!CdrMessage R} (service_mapping : ServiceMapping)
    (mi : MessageInfo) (client_guid : GUID) (w : ResponseWrapper) :
    result ReadError (RmwRequestId * R) :=
  match service_mapping with
  | Basic =>
      let bytes := rs_serialized_message w in
      '(header, header_size) ←
        (deserialize_from_cdr_with_rep_id bytes (rs_encoding w)
          : result ReadError (BasicReplyHeader * nat));
      if (length bytes <? header_size)%nat then Err (Deserialization "Service response too short")
      else
        let '(bytes, _header_bytes) := split_off header_size bytes in
        '(response, _) ← deserialize_from_cdr_with_rep_id bytes (rs_encoding w);
        Ok (RmwRequestId_from (related_request_id header), response)
  | Enhanced =>
      '(response, _) ← deserialize_from_cdr_with_rep_id (rs_serialized_message w) (rs_encoding w);
      match related_sample_identity mi with
      | Some rsi => Ok (RmwRequestId_from rsi, response)
      | None => Err (Deserialization "ServiceMapping=Enhanced, but response message did not have related_sample_identity parameter!")
      end
  | Cyclone =>
      let client_guid_bytes :=
        take 8 (to_bytes client_guid) ++ drop 8 (to_bytes (mi_writer_guid mi)) in
      cyclone_unwrap (rs_serialized_message w) (from_bytes client_guid_bytes) (rs_encoding w)
  end.

Definition ResponseWrapper_new {R : Type} `{!CdrMessage R} (service_mapping : ServiceMapping)
    (r_id : RmwRequestId) (encoding : RepresentationIdentifier) (response : R) :
    result (WriteError unit) ResponseWrapper :=
  header ← match service_mapping with
           | Basic =>
               to_writer_with_rep_id (BasicReplyHeader_new (SampleIdentity_from r_id)) encoding
           | Enhanced => Ok []
           | Cyclone => to_writer_with_rep_id (CycloneHeader_new r_id) encoding
           end;
  body ← to_writer_with_rep_id response encoding;
  Ok {| rs_serialized_message := header ++ body; rs_encoding := encoding |}.

(** ** The raw wrappers, and the helpers of action/raw_server.rs *)

Definition encapsulation_header (encoding : RepresentationIdentifier) : list Z :=
  if bool_decide (encoding = CDR_BE) then [0; 0; 0; 0] else [0; 1; 0; 0].
Definition encapsulated (encoding : RepresentationIdentifier) (body : list Z) : list Z :=
  encapsulation_header encoding ++ body.

Record RawRequestWrapper := {
  rr_serialized_message : list Z;
  rr_encoding : RepresentationIdentifier;
}.
Definition RawRequestWrapper_from_bytes_and_ri (input_bytes : list Z)
    (encoding : RepresentationIdentifier) : RawRequestWrapper :=
  {| rr_serialized_message := input_bytes; rr_encoding := encoding |}.
Definition RawRequestWrapper_bytes (w : RawRequestWrapper) : list Z := rr_serialized_message w.
Definition unwrap_raw (mi : MessageInfo) (w : RawRequestWrapper) : RmwRequestId * list Z :=
  (enhanced_request_id mi, encapsulated (rr_encoding w) (rr_serialized_message w)).

Record RawResponseWrapper := { rp_serialized_message : list Z }.
Definition RawResponseWrapper_from_bytes_and_ri (input_bytes : list Z)
    (_ : RepresentationIdentifier) : RawResponseWrapper :=
  {| rp_serialized_message := input_bytes |}.
Definition RawResponseWrapper_bytes (w : RawResponseWrapper) : list Z := rp_serialized_message w.
(** [response.get(4..)] is [None] when the message has fewer than 4 bytes. *)
Definition new_raw (response : list Z) : RawResponseWrapper :=
  {| rp_serialized_message := if (4 <=? length response)%nat then drop 4 response else response |}.

Definition to_standalone_cdr {M : Type} `{!CdrMessage M} (message : M) :
    result (WriteError unit) (list Z) :=
  body ← to_writer_with_rep_id message CDR_LE;
  Ok ([0; 1; 0; 0] ++ body).
Definition rep_id (message : list Z) : result ReadError RepresentationIdentifier :=
  match message with
  | 0 :: 0 :: _ => Ok CDR_BE
  | 0 :: 1 :: _ => Ok CDR_LE
  | _ => Err (Deserialization "unsupported CDR encapsulation in a raw action message")
  end.
Definition strip_header (message : list Z) : result ReadError (list Z) :=
  if (length message <? 4)%nat
  then Err (Deserialization "a raw action message shorter than its CDR encapsulation header")
  else Ok (drop 4 message).
End dds.
Arguments DeserializedCacheChange {RD} V.

(** ** The adapters

    RustDDS's writers and readers of wrappers serialize through
    [ServiceSerializerAdapter] and [ServiceDeserializerAdapter], which pass bytes
    on. *)
Class Wrapper (RW : Type) := {
  from_bytes_and_ri : list Z → RepresentationIdentifier → RW;
  wrapper_bytes : RW → list Z;
}.
#[export] Instance RequestWrapper_wrapper : Wrapper RequestWrapper := {
  from_bytes_and_ri := RequestWrapper_from_bytes_and_ri; wrapper_bytes := RequestWrapper_bytes;
}.
#[export] Instance ResponseWrapper_wrapper : Wrapper ResponseWrapper := {
  from_bytes_and_ri := ResponseWrapper_from_bytes_and_ri; wrapper_bytes := ResponseWrapper_bytes;
}.
#[export] Instance RawRequestWrapper_wrapper : Wrapper RawRequestWrapper := {
  from_bytes_and_ri := RawRequestWrapper_from_bytes_and_ri;
  wrapper_bytes := RawRequestWrapper_bytes;
}.
#[export] Instance RawResponseWrapper_wrapper : Wrapper RawResponseWrapper := {
  from_bytes_and_ri := RawResponseWrapper_from_bytes_and_ri;
  wrapper_bytes := RawResponseWrapper_bytes;
}.
Section adapters.
Context `{RD : Rustdds} {RW : Type} `{!Wrapper RW}.
Definition REPR_IDS : list RepresentationIdentifier := [CDR_BE; CDR_LE].
Definition supported_encodings : list RepresentationIdentifier := REPR_IDS.
Definition decode_bytes (input_bytes : list Z) (encoding : RepresentationIdentifier) :
    result ReadError RW :=
  Ok (from_bytes_and_ri input_bytes encoding).
Definition transform_decoded (decoded : RW) : RW := decoded.
Definition output_encoding : RepresentationIdentifier := CDR_LE.
Definition adapter_to_bytes (value : RW) : result (WriteError unit) (list Z) :=
  Ok (wrapper_bytes value).
(** A value as the reader of a writer's sample gets it. *)
Definition through_wire (value : RW) : result ReadError RW :=
  match adapter_to_bytes value with
  | Ok bs => transform_decoded <$> decode_bytes bs output_encoding
  | Err _ => Err (Internal "not written")
  end.
End adapters.

(** ** RustDDS's readers and writers *)

Record WriteOptions `{RD : Rustdds} := {
  wo_source_timestamp : option Timestamp;
  wo_related_sample_identity : option SampleIdentity;
}.
(** A writer of values [V], in state [W]. *)
Class DataWriter `{RD : Rustdds} (W V : Type) := {
  write_with_options : W → V → WriteOptions → W * result (WriteError V) SampleIdentity;
  async_write_with_options : W → V → WriteOptions → W * result (WriteError V) SampleIdentity;
}.
(** Polling a future. *)
Inductive Poll (A : Type) := Ready (a : A) | Pending.
Arguments Ready {A} a.
Arguments Pending {A}.
(** A reader of values [V], in state [D]: taking one sample, and polling the
    next item of [as_async_stream] ([Ready None] is the end of the stream). *)
Class SimpleDataReader `{RD : Rustdds} (D V : Type) := {
  drain_read_notifications : D → D;
  try_take_one : D → D * result ReadError (option (DeserializedCacheChange V));
  poll_next : D → D * Poll (option (result ReadError (DeserializedCacheChange V)));
}.
(** The reader holds a queue of samples, hands them out in order, each once,
    and its stream does not end. *)
Class SimpleDataReaderLaws `{RD : Rustdds} (D V : Type) `{!SimpleDataReader D V} := {
  samples : D → list (result ReadError (DeserializedCacheChange V));
  samples_drain d : samples (drain_read_notifications d) = samples d;
  take_none d : samples d = [] →
    (try_take_one d).2 = Ok None ∧ samples (try_take_one d).1 = [];
  take_one d x l : samples d = x :: l →
    (try_take_one d).2 = Some <$> x ∧ samples (try_take_one d).1 = l;
  poll_none d : samples d = [] →
    (poll_next d).2 = Pending ∧ samples (poll_next d).1 = [];
  poll_one d x l : samples d = x :: l →
    (poll_next d).2 = Ready (Some x) ∧ samples (poll_next d).1 = l;
}.
(** A sample arrives at a reader, behind those that are there. *)
Class Delivers `{RD : Rustdds} (D V : Type) `{!SimpleDataReader D V} := {
  deliver : D → result ReadError (DeserializedCacheChange V) → D;
}.
(** With the history QoS KeepLast of a depth, a reader keeps the newest samples that
    it has not handed out, and drops the older ones. *)
Class DeliversLaws `{RD : Rustdds} (depth : nat) (D V : Type) `{!SimpleDataReader D V}
    `{!SimpleDataReaderLaws D V, !Delivers D V} := {
  samples_deliver d x : samples (deliver d x) = keep_last depth (samples d ++ [x]);
}.

Section endpoints.
Context `{RD : Rustdds, !CdrMessage BasicRequestHeader, !CdrMessage BasicReplyHeader,
          !CdrMessage CycloneHeader}.
(** The service's messages, and the states of the readers and writers. *)
Context {Req Resp : Type} `{!CdrMessage Req, !CdrMessage Resp}.
Context {W D WS DS WR DR : Type}.
Context `{!DataWriter W RequestWrapper, !SimpleDataReader D ResponseWrapper}.
Context `{!DataWriter WS ResponseWrapper, !SimpleDataReader DS RequestWrapper}.
Context `{!DataWriter WR RawResponseWrapper, !SimpleDataReader DR RawRequestWrapper}.

(** ** service/client.rs *)

Record Client := {
  service_mapping : ServiceMapping;
  request_sender : W;
  response_receiver : D;
  sequence_number_gen : Z;
  client_guid : GUID;
}.
Definition Client_new (mapping : ServiceMapping) (w : W) (guid : GUID) (d : D) : Client :=
  {| service_mapping := mapping; request_sender := w; response_receiver := d;
     sequence_number_gen := SequenceNumber_default; client_guid := guid |}.
Definition with_sender (w : W) (c : Client) : Client :=
  {| service_mapping := service_mapping c; request_sender := w;
     response_receiver := response_receiver c;
     sequence_number_gen := sequence_number_gen c; client_guid := client_guid c |}.
Definition with_receiver (d : D) (c : Client) : Client :=
  {| service_mapping := service_mapping c; request_sender := request_sender c;
     response_receiver := d;
     sequence_number_gen := sequence_number_gen c; client_guid := client_guid c |}.

(** [fetch_add] wraps; the second operation is a separate atomic load. *)
Definition increment_sequence_number (gen : Z) : Z := wrap_signed 64 (gen + 1).
Definition client_sequence_number (gen : Z) : Z := gen.

(** The request's wrapper, its write options and the generated id, which
    [send_request] and [async_send_request] share. *)
Definition build_request (now : Timestamp) (c : Client) (request : Req) :
    Client * RmwRequestId * result (WriteError unit) (RequestWrapper * WriteOptions) :=
  let c := {| service_mapping := service_mapping c; request_sender := request_sender c;
              response_receiver := response_receiver c;
              sequence_number_gen := increment_sequence_number (sequence_number_gen c);
              client_guid := client_guid c |} in
  let gen_rmw_req_id :=
    {| writer_guid := client_guid c;
       sequence_number := client_sequence_number (sequence_number_gen c) |} in
  (c, gen_rmw_req_id,
   req_wrapper ← RequestWrapper_new (service_mapping c) gen_rmw_req_id CDR_LE request;
   Ok (req_wrapper,
       {| wo_source_timestamp := Some now;
          wo_related_sample_identity :=
            if bool_decide (service_mapping c = Enhanced) then None
            else Some (SampleIdentity_from gen_rmw_req_id) |})).
Definition sent_id (mapping : ServiceMapping) (sent gen : RmwRequestId) : RmwRequestId :=
  match mapping with Enhanced => sent | Basic | Cyclone => gen end.

Definition send_request (now : Timestamp) (c : Client) (request : Req) :
    Client * result (WriteError unit) RmwRequestId :=
  let '(c, gen, built) := build_request now c request in
  match built with
  | Err e => (c, Err e)
  | Ok (w, opts) =>
      let '(s, r) := write_with_options (request_sender c) w opts in
      (with_sender s c,
       match r with
       | Err e => Err (forget_data e)
       | Ok sample => Ok (sent_id (service_mapping c) (RmwRequestId_from sample) gen)
       end)
  end.
Definition async_send_request (now : Timestamp) (c : Client) (request : Req) :
    Client * result (WriteError unit) RmwRequestId :=
  let '(c, gen, built) := build_request now c request in
  match built with
  | Err e => (c, Err e)
  | Ok (w, opts) =>
      let '(s, r) := async_write_with_options (request_sender c) w opts in
      (with_sender s c,
       match r with
       | Err e => Err (forget_data e)
       | Ok sample => Ok (sent_id (service_mapping c) (RmwRequestId_from sample) gen)
       end)
  end.

(** Unwrapping one received sample, as [receive_response] and
    [async_receive_response] do. *)
Definition unwrap_response (c : Client) (dcc : DeserializedCacheChange ResponseWrapper) :
    result ReadError (RmwRequestId * Resp) :=
  ResponseWrapper_unwrap (service_mapping c) (MessageInfo_from dcc) (client_guid c)
    (into_value dcc).

Definition receive_response (c : Client) :
    Client * result ReadError (option (RmwRequestId * Resp)) :=
  let '(d, taken) := try_take_one (drain_read_notifications (response_receiver c)) in
  (with_receiver d c,
   dcc_rw ← taken;
   match dcc_rw with
   | None => Ok None
   | Some dcc => res ← unwrap_response c dcc; Ok (Some res)
   end).

(** The loop; [None] is a poll that needs more [fuel]. *)
Fixpoint async_receive_response (fuel : nat) (id : RmwRequestId) (c : Client) :
    option (Client * Poll (result ReadError Resp)) :=
  match fuel with
  | O => None
  | S fuel =>
      let '(d, next) := poll_next (response_receiver c) in
      let c := with_receiver d c in
      match next with
      | Pending => Some (c, Pending)
      | Ready (Some (Err e)) => Some (c, Ready (Err e))
      | Ready (Some (Ok dcc)) =>
          match unwrap_response c dcc with
          | Err e => Some (c, Ready (Err e))
          | Ok (req_id, response) =>
              if bool_decide (req_id = id) then Some (c, Ready (Ok response))
              else async_receive_response fuel id c
          end
      | Ready None =>
          Some (c, Ready (Err (Internal "SimpleDataReader value stream unexpectedly ended!")))
      end
  end.

Inductive CallServiceError :=
| CallWriteError (e : WriteError unit)
| CallReadError (e : ReadError).
Definition async_call_service (fuel : nat) (now : Timestamp) (c : Client) (request : Req) :
    option (Client * Poll (result CallServiceError Resp)) :=
  match async_send_request now c request with
  | (c, Err e) => Some (c, Ready (Err (CallWriteError e)))
  | (c, Ok req_id) =>
      '(c, p) ← async_receive_response fuel req_id c;
      Some (c, match p with
               | Pending => Pending
               | Ready r => Ready (map_err CallReadError r)
               end)
  end.

(** ** action/client.rs: [receive_goal_response], [receive_cancel_response] and
    [receive_result] all are this loop over [receive_response]. *)
Fixpoint receive_matching_response (fuel : nat) (id : RmwRequestId) (c : Client) :
    option (Client * result ReadError (option Resp)) :=
  match fuel with
  | O => None
  | S fuel =>
      match receive_response c with
      | (c, Err e) => Some (c, Err e)
      | (c, Ok None) => Some (c, Ok None)
      | (c, Ok (Some (incoming, resp))) =>
          if bool_decide (incoming = id) then Some (c, Ok (Some resp))
          else receive_matching_response fuel id c
      end
  end.

(** ** service/server.rs *)

Record Server := {
  srv_service_mapping : ServiceMapping;
  request_receiver : DS;
  response_sender : WS;
}.
Definition receive_request (s : Server) :
    Server * result ReadError (option (RmwRequestId * Req)) :=
  let '(d, taken) := try_take_one (drain_read_notifications (request_receiver s)) in
  ({| srv_service_mapping := srv_service_mapping s; request_receiver := d;
      response_sender := response_sender s |},
   dcc_rw ← taken;
   match dcc_rw with
   | None => Ok None
   | Some dcc =>
       res ← RequestWrapper_unwrap (srv_service_mapping s) (MessageInfo_from dcc)
               (into_value dcc);
       Ok (Some res)
   end).
Definition async_receive_request (s : Server) :
    Server * Poll (result ReadError (RmwRequestId * Req)) :=
  let '(d, next) := poll_next (request_receiver s) in
  ({| srv_service_mapping := srv_service_mapping s; request_receiver := d;
      response_sender := response_sender s |},
   match next with
   | Pending => Pending
   | Ready (Some (Err e)) => Ready (Err e)
   | Ready (Some (Ok dcc)) =>
       Ready (RequestWrapper_unwrap (srv_service_mapping s) (MessageInfo_from dcc)
                (into_value dcc))
   | Ready None =>
       Ready (Err (Internal "SimpleDataReader value stream unexpectedly ended!"))
   end).
Definition send_response (now : Timestamp) (rmw_req_id : RmwRequestId) (response : Resp)
    (s : Server) : Server * result (WriteError unit) unit :=
  match ResponseWrapper_new (srv_service_mapping s) rmw_req_id CDR_LE response with
  | Err e => (s, Err e)
  | Ok resp_wrapper =>
      let '(w, r) := write_with_options (response_sender s) resp_wrapper
        {| wo_source_timestamp := Some now;
           wo_related_sample_identity := Some (SampleIdentity_from rmw_req_id) |} in
      ({| srv_service_mapping := srv_service_mapping s;
          request_receiver := request_receiver s; response_sender := w |},
       match r with Ok _ => Ok tt | Err e => Err (forget_data e) end)
  end.

(** The next item of [receive_request_stream]. *)
Definition next_request (s : Server) :
    Server * Poll (option (result ReadError (RmwRequestId * Req))) :=
  let '(d, next) := poll_next (request_receiver s) in
  ({| srv_service_mapping := srv_service_mapping s; request_receiver := d;
      response_sender := response_sender s |},
   match next with
   | Pending => Pending
   | Ready None => Ready None
   | Ready (Some dcc_r) =>
       Ready (Some (dcc ← dcc_r;
                    RequestWrapper_unwrap (srv_service_mapping s) (MessageInfo_from dcc)
                      (into_value dcc)))
   end).
Definition async_send_response (now : Timestamp) (rmw_req_id : RmwRequestId) (response : Resp)
    (s : Server) : Server * result (WriteError unit) unit :=
  match ResponseWrapper_new (srv_service_mapping s) rmw_req_id CDR_LE response with
  | Err e => (s, Err e)
  | Ok resp_wrapper =>
      let '(w, r) := async_write_with_options (response_sender s) resp_wrapper
        {| wo_source_timestamp := Some now;
           wo_related_sample_identity := Some (SampleIdentity_from rmw_req_id) |} in
      ({| srv_service_mapping := srv_service_mapping s;
          request_receiver := request_receiver s; response_sender := w |},
       match r with Ok _ => Ok tt | Err e => Err (forget_data e) end)
  end.

Record RawServer := { raw_request_receiver : DR; raw_response_sender : WR }.
Definition raw_receive_request (s : RawServer) :
    RawServer * result ReadError (option (RmwRequestId * list Z)) :=
  let '(d, taken) := try_take_one (drain_read_notifications (raw_request_receiver s)) in
  ({| raw_request_receiver := d; raw_response_sender := raw_response_sender s |},
   dcc_rw ← taken;
   match dcc_rw with
   | None => Ok None
   | Some dcc => Ok (Some (unwrap_raw (MessageInfo_from dcc) (into_value dcc)))
   end).
Definition raw_async_receive_request (s : RawServer) :
    RawServer * Poll (result ReadError (RmwRequestId * list Z)) :=
  let '(d, next) := poll_next (raw_request_receiver s) in
  ({| raw_request_receiver := d; raw_response_sender := raw_response_sender s |},
   match next with
   | Pending => Pending
   | Ready (Some (Err e)) => Ready (Err e)
   | Ready (Some (Ok dcc)) => Ready (Ok (unwrap_raw (MessageInfo_from dcc) (into_value dcc)))
   | Ready None =>
       Ready (Err (Internal "SimpleDataReader value stream unexpectedly ended!"))
   end).
Definition raw_send_response (now : Timestamp) (rmw_req_id : RmwRequestId)
    (response : list Z) (s : RawServer) : RawServer * result (WriteError unit) unit :=
  let '(w, r) := write_with_options (raw_response_sender s) (new_raw response)
    {| wo_source_timestamp := Some now;
       wo_related_sample_identity := Some (SampleIdentity_from rmw_req_id) |} in
  ({| raw_request_receiver := raw_request_receiver s; raw_response_sender := w |},
   match r with Ok _ => Ok tt | Err e => Err (forget_data e) end).

Definition raw_next_request (s : RawServer) :
    RawServer * Poll (option (result ReadError (RmwRequestId * list Z))) :=
  let '(d, next) := poll_next (raw_request_receiver s) in
  ({| raw_request_receiver := d; raw_response_sender := raw_response_sender s |},
   match next with
   | Pending => Pending
   | Ready None => Ready None
   | Ready (Some dcc_r) =>
       Ready (Some (dcc ← dcc_r; Ok (unwrap_raw (MessageInfo_from dcc) (into_value dcc))))
   end).
Definition raw_async_send_response (now : Timestamp) (rmw_req_id : RmwRequestId)
    (response : list Z) (s : RawServer) : RawServer * result (WriteError unit) unit :=
  let '(w, r) := async_write_with_options (raw_response_sender s) (new_raw response)
    {| wo_source_timestamp := Some now;
       wo_related_sample_identity := Some (SampleIdentity_from rmw_req_id) |} in
  ({| raw_request_receiver := raw_request_receiver s; raw_response_sender := w |},
   match r with Ok _ => Ok tt | Err e => Err (forget_data e) end).

(** ** Concurrent sends

    A send executes the increment and the load as two atomic operations on the
    shared counter; [run] is an interleaving of them, whose result lists the
    sequence number each load returned. *)
Inductive op := Increment (sender : nat) | Load (sender : nat).
Fixpoint run (tr : list op) (gen : Z) : list (nat * Z) :=
  match tr with
  | [] => []
  | Increment _ :: tr => run tr (increment_sequence_number gen)
  | Load t :: tr => (t, client_sequence_number gen) :: run tr gen
  end.
Definition is_increment (o : op) : bool := match o with Increment _ => true | _ => false end.
End endpoints.

(** ** Specification *)

Section spec.
Context `{RD : Rustdds, !CdrMessage BasicRequestHeader, !CdrMessage BasicReplyHeader,
          !CdrMessage CycloneHeader}.
Context {Req Resp : Type} `{!CdrMessage Req, !CdrMessage Resp}.
Context {W D WS DS : Type}.
Context `{!DataWriter W RequestWrapper, !SimpleDataReader D ResponseWrapper}.
Context `{!DataWriter WS ResponseWrapper, !SimpleDataReader DS RequestWrapper}.
Context `{!CdrMessageLaws Req, !CdrMessageLaws Resp, !CdrMessageLaws BasicRequestHeader,
          !CdrMessageLaws BasicReplyHeader, !CdrMessageLaws CycloneHeader}.
Context `{!SimpleDataReaderLaws D ResponseWrapper}.
Implicit Types (c : Client (W:=W) (D:=D)) (id : RmwRequestId) (mi : MessageInfo).
Implicit Types s : Server (WS:=WS) (DS:=DS).

(** What the samples a client still has to read unwrap to. *)
Definition responses c : list (result ReadError (RmwRequestId * Resp)) :=
  (λ x, x ≫= unwrap_response c) <$> samples (response_receiver c).
(** A response that answers another request. *)
Definition someone_elses id (x : result ReadError (RmwRequestId * Resp)) : Prop :=
  match x with Ok (i, _) => i ≠ id | Err _ => False end.
#[export] Instance someone_elses_dec id x : Decision (someone_elses id x).
Proof. destruct x as [[i r]|e]; simpl; apply _. Defined.
Definition ends_wait id (post : list (result ReadError (RmwRequestId * Resp))) : Prop :=
  match post with x :: _ => ¬ someone_elses id x | [] => True end.

(** The sample a reader receives for a written sample [sid] has its writer and
    sequence number, and carries the write options as inline QoS. *)
Definition delivered {V : Type} (sid : SampleIdentity) (opts : WriteOptions) (value : V)
    (dcc : DeserializedCacheChange V) : Prop :=
  dcc_writer_guid dcc = si_writer_guid sid ∧
  dcc_sequence_number dcc = si_sequence_number sid ∧
  dcc_related_sample_identity dcc = wo_related_sample_identity opts ∧
  dcc_source_timestamp dcc = wo_source_timestamp opts ∧
  into_value dcc = value.

(** ** Lemmas *)

(** The two steps of the header-carrying mappings on the bytes the wrappers
    build: the header is read, and the payload decoder then gets the header's
    own bytes. *)
Lemma cyclone_unwrap_header {R : Type} `{!CdrMessage R} (h : CycloneHeader) e hb body g :
  to_writer_with_rep_id h e = Ok hb →
  cyclone_unwrap (R:=R) (hb ++ body) g e =
    ('(r, _) ← deserialize_from_cdr_with_rep_id hb e;
     Ok ({| writer_guid := g;
            sequence_number := from_high_low (sequence_number_high h) (sequence_number_low h) |}, r)).
Proof.
  intros Hh. unfold cyclone_unwrap.
  rewrite (cdr_prefix _ _ _ _ Hh). simpl.
  by rewrite app_not_shorter, take_app_length.
Qed.
Lemma basic_request_unwrap_header {R : Type} `{!CdrMessage R} (h : BasicRequestHeader) e hb body mi :
  to_writer_with_rep_id h e = Ok hb →
  RequestWrapper_unwrap (R:=R) Basic mi
    {| rq_serialized_message := hb ++ body; rq_encoding := e |} =
    ('(r, _) ← deserialize_from_cdr_with_rep_id hb e;
     Ok (RmwRequestId_from (request_id h), r)).
Proof.
  intros Hh. simpl. rewrite (cdr_prefix _ _ _ _ Hh). simpl.
  by rewrite app_not_shorter, take_app_length.
Qed.
Lemma basic_response_unwrap_header {R : Type} `{!CdrMessage R} (h : BasicReplyHeader) e hb body mi g :
  to_writer_with_rep_id h e = Ok hb →
  ResponseWrapper_unwrap (R:=R) Basic mi g
    {| rs_serialized_message := hb ++ body; rs_encoding := e |} =
    ('(r, _) ← deserialize_from_cdr_with_rep_id hb e;
     Ok (RmwRequestId_from (related_request_id h), r)).
Proof.
  intros Hh. simpl. rewrite (cdr_prefix _ _ _ _ Hh). simpl.
  by rewrite app_not_shorter, take_app_length.
Qed.

Lemma cdr_exact {M : Type} `{!CdrMessage M, !CdrMessageLaws M} (m : M) e bs :
  to_writer_with_rep_id m e = Ok bs →
  deserialize_from_cdr_with_rep_id bs e = Ok (m, length bs).
Proof. intros Hm. rewrite <-(app_nil_r bs) at 1. by apply cdr_prefix. Qed.

Lemma RequestWrapper_new_header {R : Type} `{!CdrMessage R} mapping id e (r : R) w :
  RequestWrapper_new mapping id e r = Ok w →
  ∃ hb body, rq_serialized_message w = hb ++ body ∧ rq_encoding w = e ∧
    to_writer_with_rep_id r e = Ok body ∧
    match mapping with
    | Basic => to_writer_with_rep_id (BasicRequestHeader_new (SampleIdentity_from id)) e = Ok hb
    | Enhanced => hb = []
    | Cyclone => to_writer_with_rep_id (CycloneHeader_new id) e = Ok hb
    end.
Proof.
  unfold RequestWrapper_new. intros Hw.
  apply result_bind_Ok in Hw as (hb & Hh & (body & Hb & [= <-])%result_bind_Ok).
  exists hb, body. by destruct mapping; simplify_eq.
Qed.
Lemma ResponseWrapper_new_header {R : Type} `{!CdrMessage R} mapping id e (r : R) w :
  ResponseWrapper_new mapping id e r = Ok w →
  ∃ hb body, rs_serialized_message w = hb ++ body ∧ rs_encoding w = e ∧
    to_writer_with_rep_id r e = Ok body ∧
    match mapping with
    | Basic => to_writer_with_rep_id (BasicReplyHeader_new (SampleIdentity_from id)) e = Ok hb
    | Enhanced => hb = []
    | Cyclone => to_writer_with_rep_id (CycloneHeader_new id) e = Ok hb
    end.
Proof.
  unfold ResponseWrapper_new. intros Hw.
  apply result_bind_Ok in Hw as (hb & Hh & (body & Hb & [= <-])%result_bind_Ok).
  exists hb, body. by destruct mapping; simplify_eq.
Qed.

(** What a client or a typed server writes arrives as it was built. *)
Lemma wrapper_through_wire {R : Type} `{!CdrMessage R} mapping id (r : R) :
  (∀ w, RequestWrapper_new mapping id CDR_LE r = Ok w → through_wire w = Ok w) ∧
  (∀ w, ResponseWrapper_new mapping id CDR_LE r = Ok w → through_wire w = Ok w).
Proof.
  split; intros w H.
  - apply RequestWrapper_new_header in H as (? & ? & _ & He & _). destruct w. simpl in *. by subst.
  - apply ResponseWrapper_new_header in H as (? & ? & _ & He & _). destruct w. simpl in *. by subst.
Qed.

(** C36: Under the Basic and Cyclone mappings the payload a peer receives does
    not depend on the message sent: after reading the header, [unwrap] keeps
    the header's bytes (what [split_off] leaves in place) and decodes the
    request or response from them, so two different messages with one id unwrap
    alike. *)
Theorem header_mappings_ignore_payload mapping id e mi g :
  mapping ≠ Enhanced →
  (∀ (r1 r2 : Req) w1 w2,
     RequestWrapper_new mapping id e r1 = Ok w1 → RequestWrapper_new mapping id e r2 = Ok w2 →
     RequestWrapper_unwrap (R:=Req) mapping mi w1 = RequestWrapper_unwrap mapping mi w2) ∧
  (∀ (r1 r2 : Resp) w1 w2,
     ResponseWrapper_new mapping id e r1 = Ok w1 → ResponseWrapper_new mapping id e r2 = Ok w2 →
     ResponseWrapper_unwrap (R:=Resp) mapping mi g w1 = ResponseWrapper_unwrap mapping mi g w2).
Proof.
  intros Hm. split; intros r1 r2 [m1 e1] [m2 e2] H1 H2.
  - apply RequestWrapper_new_header in H1 as (hb1 & b1 & E1 & E1' & _ & Hh1).
    apply RequestWrapper_new_header in H2 as (hb2 & b2 & E2 & E2' & _ & Hh2). simpl in *; subst.
    destruct mapping; [|done|]; rewrite Hh1 in Hh2; injection Hh2 as <-.
    + by rewrite !(basic_request_unwrap_header _ _ _ _ _ Hh1).
    + simpl. by rewrite !(cyclone_unwrap_header _ _ _ _ _ Hh1).
  - apply ResponseWrapper_new_header in H1 as (hb1 & b1 & E1 & E1' & _ & Hh1).
    apply ResponseWrapper_new_header in H2 as (hb2 & b2 & E2 & E2' & _ & Hh2). simpl in *; subst.
    destruct mapping; [|done|]; rewrite Hh1 in Hh2; injection Hh2 as <-.
    + by rewrite !(basic_response_unwrap_header _ _ _ _ _ _ Hh1).
    + simpl. by rewrite !(cyclone_unwrap_header _ _ _ _ _ Hh1).
Qed.

(** *** The response loops *)
Lemma responses_after c d l :
  samples d = l →
  responses (with_receiver d c) = (λ x, x ≫= unwrap_response c) <$> l.
Proof. by intros <-. Qed.
Lemma responses_cons c x l :
  responses c = x :: l →
  ∃ y l', samples (response_receiver c) = y :: l' ∧ y ≫= unwrap_response c = x ∧
    (λ x, x ≫= unwrap_response c) <$> l' = l.
Proof.
  unfold responses. destruct (samples (response_receiver c)) as [|y l'] eqn:?; simpl; [done|].
  intros [= <- <-]. eauto.
Qed.
Lemma responses_nil c : responses c = [] → samples (response_receiver c) = [].
Proof. unfold responses. by destruct (samples _). Qed.

(** One call of [receive_response] takes the first response. *)
Lemma receive_response_spec c :
  ∃ d, receive_response c =
      (with_receiver d c,
       match responses c with [] => Ok None | x :: _ => Some <$> x end) ∧
    responses (with_receiver d c) = tail (responses c).
Proof.
  unfold receive_response.
  set (d0 := drain_read_notifications (response_receiver c)).
  assert (samples d0 = samples (response_receiver c)) as Hd by apply samples_drain.
  destruct (responses c) as [|x l] eqn:Hr.
  - apply responses_nil in Hr. rewrite Hr in Hd.
    apply take_none in Hd as [H1 H2]. destruct (try_take_one d0) as [d t]. simpl in *; subst.
    exists d. split; [done|]. by rewrite (responses_after c d [] H2).
  - apply responses_cons in Hr as (y & l' & Hs & <- & <-). rewrite Hs in Hd.
    apply take_one in Hd as [H1 H2]. destruct (try_take_one d0) as [d t]. simpl in *; subst.
    exists d. split; [|by apply responses_after]. destruct y as [dcc|]; simpl; [|done].
    by destruct (unwrap_response c dcc).
Qed.
(** One poll of the stream, likewise. *)
Lemma poll_response_spec c :
  match responses c with
  | [] => ∃ d, poll_next (response_receiver c) = (d, Pending) ∧
            responses (with_receiver d c) = []
  | x :: l => ∃ d y, poll_next (response_receiver c) = (d, Ready (Some y)) ∧
            y ≫= unwrap_response c = x ∧ responses (with_receiver d c) = l
  end.
Proof.
  destruct (responses c) as [|x l] eqn:Hr.
  - apply responses_nil, poll_none in Hr as [H1 H2].
    destruct (poll_next _) as [d t]. simpl in *; subst.
    exists d. split; [done|]. by rewrite (responses_after c d [] H2).
  - apply responses_cons in Hr as (y & l' & Hs & <- & <-).
    apply poll_one in Hs as [H1 H2]. destruct (poll_next _) as [d t]. simpl in *; subst.
    exists d, y. split_and!; [done..|by apply responses_after].
Qed.
Lemma length_responses c : length (responses c) = length (samples (response_receiver c)).
Proof. apply length_fmap. Qed.

(** C21: The waits for the response to [id] (the loop of
    [async_receive_response] and the loops of the action client's
    [receive_goal_response], [receive_cancel_response] and [receive_result])
    pass over exactly the responses to other requests that precede it and
    answer with the first sample that is not one of them: its value when it
    carries [id], its error when it is one, and "not yet" when there is none.
    A bound on the fuel by the samples at hand makes both loops return. The
    passed-over responses are consumed. *)
Theorem response_loops_spec fuel id c pre post :
  (length (samples (response_receiver c)) < fuel)%nat →
  responses c = pre ++ post → Forall (someone_elses id) pre → ends_wait id post →
  (∃ d, async_receive_response fuel id c =
      Some (with_receiver d c, match post with
                               | [] => Pending
                               | Ok (_, r) :: _ => Ready (Ok r)
                               | Err e :: _ => Ready (Err e)
                               end) ∧ responses (with_receiver d c) = tail post) ∧
  (∃ d, receive_matching_response fuel id c =
      Some (with_receiver d c, match post with
                               | [] => Ok None
                               | Ok (_, r) :: _ => Ok (Some r)
                               | Err e :: _ => Err e
                               end) ∧ responses (with_receiver d c) = tail post).
Proof.
  rewrite <-length_responses. intros Hf Hr Hpre Hpost. split.
  - revert c pre Hf Hr Hpre. induction fuel as [|fuel IH]; intros c pre Hf Hr Hpre; [lia|].
    pose proof (poll_response_spec c) as Hp. rewrite Hr in Hf, Hp. simpl.
    destruct Hpre as [|[[i r]|e] pre Hx Hpre]; [|simpl in *|done].
    + destruct post as [|x post]; simpl in *.
      { destruct Hp as (d & -> & Hd). eauto. }
      destruct Hp as (d & y & -> & Hy & Hd). exists d.
      destruct y as [dcc|e]; simpl in Hy; [|by subst x].
      change (unwrap_response (with_receiver d c) dcc) with (unwrap_response c dcc). rewrite Hy.
      destruct x as [[i r]|e]; [|done]. simpl in Hpost.
      apply dec_stable in Hpost as ->. by rewrite bool_decide_true.
    + destruct Hp as (d & y & -> & Hy & Hd).
      destruct y as [dcc|e]; [|done]. simpl in Hy.
      change (unwrap_response (with_receiver d c) dcc) with (unwrap_response c dcc). rewrite Hy.
      rewrite bool_decide_false by done.
      destruct (IH (with_receiver d c) pre) as (d' & -> & Hd'); [rewrite Hd; lia|done..|].
      eauto.
  - revert c pre Hf Hr Hpre. induction fuel as [|fuel IH]; intros c pre Hf Hr Hpre; [lia|].
    destruct (receive_response_spec c) as (d & Hp & Hd). rewrite Hr in Hf, Hp, Hd.
    simpl. rewrite Hp. destruct Hpre as [|[[i r]|e] pre Hx Hpre]; [|simpl in *|done].
    + destruct post as [|[[i r]|e] post]; simpl in *; [eauto| |eauto].
      apply dec_stable in Hpost as ->. rewrite bool_decide_true by done. eauto.
    + rewrite bool_decide_false by done.
      destruct (IH (with_receiver d c) pre) as (d' & -> & Hd'); [rewrite Hd; lia|done..|].
      eauto.
Qed.

(** A response overtaking the awaited one is lost: of two requests of one
    client, [b]'s response arrives before [a]'s; waiting for [a] consumes
    both, and [b]'s response is not there afterwards. *)
Lemma overtaken_response_lost fuel a b ra rb c :
  (2 < fuel)%nat → a ≠ b → responses c = [Ok (b, rb); Ok (a, ra)] →
  ∃ c1 c2, receive_matching_response fuel a c = Some (c1, Ok (Some ra)) ∧
    receive_matching_response fuel b c1 = Some (c2, Ok None).
Proof.
  intros Hf Hab Hr.
  destruct fuel as [|fuel]; [lia|].
  destruct (receive_response_spec c) as (d1 & Hp1 & Hd1). rewrite Hr in Hp1, Hd1.
  destruct fuel as [|fuel]; [lia|].
  destruct (receive_response_spec (with_receiver d1 c)) as (d2 & Hp2 & Hd2).
  rewrite Hd1 in Hp2, Hd2. simpl in Hp2, Hd2.
  destruct (receive_response_spec (with_receiver d2 (with_receiver d1 c))) as (d3 & Hp3 & Hd3).
  rewrite Hd2 in Hp3, Hd3.
  eexists _, _. split.
  - simpl. rewrite Hp1. simpl. rewrite bool_decide_false by congruence.
    rewrite Hp2, bool_decide_true by done. done.
  - simpl. by rewrite Hp3.
Qed.

(** *** Sending *)
Lemma send_request_ok now c (req : Req) c' id :
  send_request now c req = (c', Ok id) →
  ∃ w opts sid gen,
    build_request now c req = (with_sender (request_sender c) c', gen, Ok (w, opts)) ∧
    write_with_options (request_sender c) w opts = (request_sender c', Ok sid) ∧
    id = sent_id (service_mapping c) (RmwRequestId_from sid) gen.
Proof.
  unfold send_request. destruct (build_request now c req) as [[c1 gen] built] eqn:Hb.
  pose proof Hb as Hb'. unfold build_request in Hb'.
  injection Hb' as <- <- Hbuilt. simpl in *.
  destruct built as [[w opts]|e]; [|done].
  destruct (write_with_options _ w opts) as [s' r] eqn:Hw. destruct r as [sid|e]; [|done].
  intros [= <- <-]. by eexists w, opts, sid, _.
Qed.
Lemma send_response_ok now id (resp : Resp) s s' :
  send_response now id resp s = (s', Ok tt) →
  ∃ w sid, ResponseWrapper_new (srv_service_mapping s) id CDR_LE resp = Ok w ∧
    write_with_options (response_sender s) w
      {| wo_source_timestamp := Some now;
         wo_related_sample_identity := Some (SampleIdentity_from id) |} =
      (response_sender s', Ok sid).
Proof.
  unfold send_response.
  destruct (ResponseWrapper_new _ id CDR_LE resp) as [w|e] eqn:Hw; [|done].
  destruct (write_with_options _ w _) as [x r] eqn:Hx.
  destruct r as [sid|e]; [|done]. intros [= <-]. eauto.
Qed.
Lemma RmwRequestId_roundtrip id : RmwRequestId_from (SampleIdentity_from id) = id.
Proof. by destruct id. Qed.
Lemma enhanced_request_id_plain {V : Type} (dcc : DeserializedCacheChange V) :
  dcc_related_sample_identity dcc = None →
  enhanced_request_id (MessageInfo_from dcc) =
    {| writer_guid := dcc_writer_guid dcc; sequence_number := dcc_sequence_number dcc |}.
Proof.
  unfold enhanced_request_id. simpl. intros ->. simpl. by case_bool_decide.
Qed.

(** C20: A call over the Enhanced mapping, end to end. The request a client
    sends is received by the server with the very id [send_request] returned
    (the identity of the written sample) and the request sent; and the response
    the server then sends for that id unwraps, at the client, to that id and
    the response sent. *)
Theorem enhanced_call_roundtrip now c (req : Req) c' id s :
  service_mapping c = Enhanced → srv_service_mapping s = Enhanced →
  send_request now c req = (c', Ok id) →
  ∃ w opts sid,
    write_with_options (request_sender c) w opts = (request_sender c', Ok sid) ∧
    (∀ dcc, delivered sid opts
              (RequestWrapper_from_bytes_and_ri (RequestWrapper_bytes w) CDR_LE) dcc →
       RequestWrapper_unwrap (srv_service_mapping s) (MessageInfo_from dcc) (into_value dcc) =
         Ok (id, req)) ∧
    ∀ now2 (resp : Resp) s', send_response now2 id resp s = (s', Ok tt) →
      ∃ w2 opts2 sid2,
        write_with_options (response_sender s) w2 opts2 = (response_sender s', Ok sid2) ∧
        ∀ dcc, delivered sid2 opts2
                 (ResponseWrapper_from_bytes_and_ri (ResponseWrapper_bytes w2) CDR_LE) dcc →
          unwrap_response c' dcc = Ok (id, resp).
Proof.
  intros Hmap Hsmap (w & opts & sid & gen & Hb & Hw & ->)%send_request_ok.
  rewrite Hmap. unfold build_request in Hb. simpl in Hb. rewrite Hmap in Hb.
  apply pair_equal_spec in Hb as [[Hc Hgen]%pair_equal_spec Hnew].
  apply result_bind_Ok in Hnew as (w1 & Hreq & [= <- <-]).
  apply RequestWrapper_new_header in Hreq as (hb & body & Hm & He & Hs & ->).
  assert (service_mapping c' = Enhanced) as Hmap'.
  { change (service_mapping c') with (service_mapping (with_sender (request_sender c) c')).
    by rewrite <-Hc, <-Hmap. }
  eexists w1, _, sid. split; [done|]. split.
  - intros dcc (Hg & Hn & Hrel & _ & ->). rewrite Hsmap. simpl in *.
    unfold RequestWrapper_bytes. rewrite Hm. simpl. rewrite (cdr_exact _ _ _ Hs). simpl.
    rewrite (enhanced_request_id_plain _ Hrel), Hg, Hn. done.
  - intros now2 resp s' (w2 & sid2 & Hresp & Hw2)%send_response_ok.
    eexists w2, _, sid2. split; [done|]. intros dcc (_ & _ & Hrel & _ & Hv).
    unfold unwrap_response. rewrite Hv, Hmap'. rewrite Hsmap in Hresp.
    apply ResponseWrapper_new_header in Hresp as (hb & body2 & Hm2 & He2 & Hs2 & ->).
    simpl in *. unfold ResponseWrapper_bytes. rewrite Hm2. simpl. rewrite (cdr_exact _ _ _ Hs2). simpl.
    rewrite Hrel. done.
Qed.

(** The raw endpoints interoperate with the typed ones under the Enhanced
    mapping: a raw server is handed the same request id as a typed server and,
    as bytes, a standalone CDR message that declares its encoding and whose
    body is the request's; and a response given as a standalone CDR message
    unwraps at a typed client to the message it encodes. *)
Lemma raw_interoperates mi id g (req : Req) (resp : Resp) w bs :
  RequestWrapper_new Enhanced id CDR_LE req = Ok w →
  to_standalone_cdr resp = Ok bs →
  (∃ raw body, unwrap_raw mi (RawRequestWrapper_from_bytes_and_ri (RequestWrapper_bytes w) CDR_LE)
       = (enhanced_request_id mi, raw) ∧
     RequestWrapper_unwrap Enhanced mi
       (RequestWrapper_from_bytes_and_ri (RequestWrapper_bytes w) CDR_LE) =
       Ok (enhanced_request_id mi, req) ∧
     to_standalone_cdr req = Ok raw ∧ rep_id raw = Ok CDR_LE ∧ strip_header raw = Ok body ∧
     deserialize_from_cdr_with_rep_id body CDR_LE = Ok (req, length body)) ∧
  ResponseWrapper_unwrap Enhanced mi g
    (ResponseWrapper_from_bytes_and_ri (RawResponseWrapper_bytes (new_raw bs)) CDR_LE) =
    match related_sample_identity mi with
    | Some rsi => Ok (RmwRequestId_from rsi, resp)
    | None => Err (Deserialization "ServiceMapping=Enhanced, but response message did not have related_sample_identity parameter!")
    end.
Proof.
  intros Hw Hbs. split.
  - apply RequestWrapper_new_header in Hw as (hb & body & Hm & He & Hs & ->).
    unfold RequestWrapper_bytes. rewrite Hm. simpl. eexists _, body. split; [done|].
    rewrite (cdr_exact _ _ _ Hs). unfold to_standalone_cdr. by rewrite Hs.
  - unfold to_standalone_cdr in Hbs. apply result_bind_Ok in Hbs as (body & Hb & [= <-]).
    unfold RawResponseWrapper_bytes, new_raw. simpl. rewrite ?drop_0.
    by rewrite (cdr_exact _ _ _ Hb).
Qed.
End spec.

(** *** The server's end *)
Section server_spec.
Context `{RD : Rustdds, !CdrMessage BasicRequestHeader, !CdrMessage BasicReplyHeader,
          !CdrMessage CycloneHeader}.
Context {WS DS : Type}.
Context `{!DataWriter WS ResponseWrapper, !SimpleDataReader DS RequestWrapper}.
Context `{!SimpleDataReaderLaws DS RequestWrapper}.
Abbreviation Server := (Server (WS:=WS) (DS:=DS)).

(** The requests a server has not yet been given. *)
Definition requests {Req} `{!CdrMessage Req} (s : Server) :
    list (result ReadError (RmwRequestId * Req)) :=
  (λ x, dcc ← x; RequestWrapper_unwrap (srv_service_mapping s) (MessageInfo_from dcc)
                   (into_value dcc)) <$> samples (request_receiver s).
(** A response written for the request's id, by either way to write. *)
Definition written {Resp} `{!CdrMessage Resp}
    (write : WS → ResponseWrapper → WriteOptions → WS * result (WriteError ResponseWrapper) SampleIdentity)
    (now : Timestamp) (id : RmwRequestId) (resp : Resp) (w : ServiceMapping * WS) :
    ServiceMapping * WS :=
  match ResponseWrapper_new w.1 id CDR_LE resp with
  | Err _ => w
  | Ok v => (w.1, (write w.2 v
      {| wo_source_timestamp := Some now;
         wo_related_sample_identity := Some (SampleIdentity_from id) |}).1)
  end.

Lemma next_request_spec {Req} `{!CdrMessage Req} (s : Server) :
  (next_request (Req:=Req) s).2 =
    match requests s with [] => Pending | x :: _ => Ready (Some x) end ∧
  requests (Req:=Req) (next_request (Req:=Req) s).1 = tail (requests s) ∧
  srv_service_mapping (next_request (Req:=Req) s).1 = srv_service_mapping s ∧
  response_sender (next_request (Req:=Req) s).1 = response_sender s.
Proof.
  unfold next_request, requests. destruct (samples (request_receiver s)) as [|x l] eqn:Hd.
  - apply poll_none in Hd as [H1 H2]. destruct (poll_next _) as [d t]. simpl in *; subst.
    by rewrite H2.
  - apply poll_one in Hd as [H1 H2]. by destruct (poll_next _) as [d t]; simpl in *; subst.
Qed.
Lemma receive_request_spec {Req} `{!CdrMessage Req} (s : Server) :
  (receive_request (Req:=Req) s).2 =
    match requests s with [] => Ok None | x :: _ => Some <$> x end ∧
  requests (Req:=Req) (receive_request (Req:=Req) s).1 = tail (requests s) ∧
  srv_service_mapping (receive_request (Req:=Req) s).1 = srv_service_mapping s ∧
  response_sender (receive_request (Req:=Req) s).1 = response_sender s.
Proof.
  unfold receive_request, requests. rewrite <-(samples_drain (request_receiver s)).
  destruct (samples (drain_read_notifications _)) as [|x l] eqn:Hd.
  - apply take_none in Hd as [H1 H2]. destruct (try_take_one _) as [d p]. simpl in *; subst.
    by rewrite H2.
  - apply take_one in Hd as [H1 H2]. destruct (try_take_one _) as [d p]. simpl in *; subst.
    split_and!; [|done..]. destruct x as [dcc|]; simpl; [|done].
    by destruct (RequestWrapper_unwrap _ _ _).
Qed.
Lemma async_send_response_spec {Resp} `{!CdrMessage Resp} now id (resp : Resp) (s : Server) :
  let s' := (async_send_response now id resp s).1 in
  request_receiver s' = request_receiver s ∧ srv_service_mapping s' = srv_service_mapping s ∧
  (srv_service_mapping s', response_sender s') =
    written async_write_with_options now id resp (srv_service_mapping s, response_sender s).
Proof.
  unfold async_send_response, written. simpl. destruct (ResponseWrapper_new _ _ _ _); [|done].
  by destruct (async_write_with_options _ _ _).
Qed.
Lemma send_response_spec {Resp} `{!CdrMessage Resp} now id (resp : Resp) (s : Server) :
  let s' := (send_response now id resp s).1 in
  request_receiver s' = request_receiver s ∧ srv_service_mapping s' = srv_service_mapping s ∧
  (srv_service_mapping s', response_sender s') =
    written write_with_options now id resp (srv_service_mapping s, response_sender s).
Proof.
  unfold send_response, written. simpl. destruct (ResponseWrapper_new _ _ _ _); [|done].
  by destruct (write_with_options _ _ _).
Qed.
Lemma requests_same {Req} `{!CdrMessage Req} (s s' : Server) :
  request_receiver s' = request_receiver s → srv_service_mapping s' = srv_service_mapping s →
  requests (Req:=Req) s' = requests s.
Proof. unfold requests. by intros -> ->. Qed.
End server_spec.

(** *** Concurrent sends *)
Definition increments (tr : list op) : nat := length (List.filter is_increment tr).
Definition loads (tr : list op) : nat := length (List.filter (negb ∘ is_increment) tr).

Lemma run_app a b gen :
  in_i64 gen →
  ∃ r, run (a ++ b) gen = r ++ run b (wrap_signed 64 (gen + Z.of_nat (increments a))) ∧
    length r = loads a.
Proof.
  revert gen. induction a as [|[t|t] a IH]; intros gen Hg.
  - exists []. simpl. by rewrite Z.add_0_r, wrap_i64_id.
  - destruct (IH (increment_sequence_number gen) (wrap_i64_in _)) as (r & Hr & Hl).
    exists r. simpl. rewrite Hr. unfold increment_sequence_number.
    rewrite wrap_i64_add. split; [|done].
    change (increments (Increment t :: a)) with (S (increments a)).
    by replace (gen + 1 + Z.of_nat (increments a))
      with (gen + Z.of_nat (S (increments a))) by lia.
  - destruct (IH gen Hg) as (r & Hr & Hl). exists ((t, gen) :: r). simpl.
    rewrite Hr. split; [done|]. cbn. by f_equal.
Qed.

(** C35: In any interleaving of the atomic steps of concurrent sends, two sends
    generate the same sequence number exactly when no send increments the
    counter between their loads. Sends that follow one another have different
    ids; two sends that both increment before either loads have the same id,
    although no value of the counter was ever handed out twice. *)
Theorem concurrent_send_ids pre t1 mid t2 post gen :
  in_i64 gen → Z.of_nat (length mid) < 2 ^ 64 →
  ∃ r1 n1 r2 n2 r3,
    run (pre ++ Load t1 :: mid ++ Load t2 :: post) gen =
      r1 ++ (t1, n1) :: r2 ++ (t2, n2) :: r3 ∧
    length r1 = loads pre ∧ length r2 = loads mid ∧
    (n1 = n2 ↔ increments mid = 0%nat).
Proof.
  intros Hg Hm.
  destruct (run_app pre (Load t1 :: mid ++ Load t2 :: post) gen Hg) as (r1 & -> & Hl1).
  set (n1 := wrap_signed 64 (gen + Z.of_nat (increments pre))).
  assert (in_i64 n1) as Hn1 by apply wrap_i64_in.
  destruct (run_app mid (Load t2 :: post) n1 Hn1) as (r2 & Hr2 & Hl2).
  set (n2 := wrap_signed 64 (n1 + Z.of_nat (increments mid))) in *.
  exists r1, n1, r2, n2, (run post n2). split_and!; [|done..|].
  { simpl. by rewrite Hr2. }
  assert (increments mid <= length mid)%nat as Hi.
  { unfold increments. apply sublist_length, sublist_List_filter. }
  unfold n2. clearbody n1. clear n2 Hr2. revert Hn1 Hm.
  generalize dependent (increments mid). intros k Hk Hn1 Hm.
  assert (Z.of_nat k < 2 ^ 64) as Hk' by lia.
  unfold wrap_signed, in_i64, i64_min, i64_max in *.
  change (2 ^ 64) with 18446744073709551616 in *.
  change (2 ^ (64 - 1)) with 9223372036854775808. lia.
Qed.

(** ** A concrete instance, at which the theorems' hypotheses hold *)

#[local] Instance toy_rustdds : Rustdds := {|
  GUID := Z; to_bytes g := repeat g 16; from_bytes b := hd 0 b;
  SequenceNumber_UNKNOWN := - 2 ^ 32; SequenceNumber_default := 1;
  high z := z / 2 ^ 32; low z := z mod 2 ^ 32; from_high_low h l := h * 2 ^ 32 + l;
  Timestamp := N; Timestamp_ZERO := 0%N;
  WriteError _ := unit; forget_data _ _ := tt |}.
#[local] Instance toy_basic_request : CdrMessage BasicRequestHeader := {|
  to_writer_with_rep_id h _ :=
    if str_is_empty (instance_name h)
    then Ok [si_writer_guid (request_id h); si_sequence_number (request_id h)] else Err tt;
  deserialize_from_cdr_with_rep_id b _ :=
    match b with
    | g :: n :: _ => Ok (BasicRequestHeader_new {| si_writer_guid := g; si_sequence_number := n |}, 2%nat)
    | _ => Err (OtherReadError 0)
    end |}.
#[local] Instance toy_basic_reply : CdrMessage BasicReplyHeader := {|
  to_writer_with_rep_id h _ :=
    Ok [si_writer_guid (related_request_id h); si_sequence_number (related_request_id h);
        remote_exception_code h];
  deserialize_from_cdr_with_rep_id b _ :=
    match b with
    | g :: n :: x :: _ =>
        Ok ({| related_request_id := {| si_writer_guid := g; si_sequence_number := n |};
               remote_exception_code := x |}, 3%nat)
    | _ => Err (OtherReadError 0)
    end |}.
#[local] Instance toy_cyclone : CdrMessage CycloneHeader := {|
  to_writer_with_rep_id h _ :=
    if bool_decide (length (guid_second_half h) = 8%nat)
    then Ok (guid_second_half h ++ [sequence_number_high h; sequence_number_low h]) else Err tt;
  deserialize_from_cdr_with_rep_id b _ :=
    match drop 8 b with
    | x :: y :: _ => Ok ({| guid_second_half := take 8 b; sequence_number_high := x;
                            sequence_number_low := y |}, 10%nat)
    | _ => Err (OtherReadError 0)
    end |}.
#[local] Instance toy_message : CdrMessage Z := {|
  to_writer_with_rep_id m _ := Ok [m];
  deserialize_from_cdr_with_rep_id b _ :=
    match b with m :: _ => Ok (m, 1%nat) | [] => Err (OtherReadError 0) end |}.
#[local] Instance toy_basic_request_laws : CdrMessageLaws BasicRequestHeader.
Proof. by split; intros [[g n] [|x l]] e bs rest [= <-]. Qed.
#[local] Instance toy_basic_reply_laws : CdrMessageLaws BasicReplyHeader.
Proof. by split; intros [[g n] x] e bs rest [= <-]. Qed.
#[local] Instance toy_cyclone_laws : CdrMessageLaws CycloneHeader.
Proof.
  split; intros [l x y] e bs rest. simpl. case_bool_decide as Hl; [|done]. intros [= <-].
  rewrite <-app_assoc, drop_app_length', take_app_length' by done. simpl.
  by rewrite length_app, Hl.
Qed.
#[local] Instance toy_message_laws : CdrMessageLaws Z.
Proof. by split; intros m e bs rest [= <-]. Qed.
#[local] Instance toy_writer {V : Type} : DataWriter (list (V * WriteOptions)) V := {|
  write_with_options w v o := (w ++ [(v, o)], Ok {| si_writer_guid := 7; si_sequence_number := 1 |});
  async_write_with_options w v o :=
    (w ++ [(v, o)], Ok {| si_writer_guid := 7; si_sequence_number := 1 |}) |}.
#[local] Instance toy_reader {V : Type} :
    SimpleDataReader (list (result ReadError (DeserializedCacheChange V))) V := {|
  drain_read_notifications d := d;
  try_take_one d := match d with [] => ([], Ok None) | x :: d => (d, Some <$> x) end;
  poll_next d := match d with [] => ([], Pending) | x :: d => (d, Ready (Some x)) end |}.
#[local] Instance toy_reader_laws {V : Type} :
    SimpleDataReaderLaws (list (result ReadError (DeserializedCacheChange V))) V.
Proof.
  refine {| samples := λ d, d |}; [done|..]; first [by intros ? -> | by intros ? ? ? ->].
Defined.

#[local] Instance toy_delivers {V : Type} :
    Delivers (list (result ReadError (DeserializedCacheChange V))) V :=
  {| deliver d x := keep_last 10 (d ++ [x]) |}.
#[local] Instance toy_delivers_laws {V : Type} :
    DeliversLaws 10 (list (result ReadError (DeserializedCacheChange V))) V.
Proof. done. Qed.

(** Two different requests and responses under the Basic and the Cyclone
    mappings. *)
Definition toy_guid (g : Z) : @GUID toy_rustdds := g.
Definition toy_now : @Timestamp toy_rustdds := 0%N.
Definition toy_id : RmwRequestId := {| writer_guid := 7; sequence_number := 5 |}.
Definition toy_info : MessageInfo :=
  {| received_timestamp := 0%N; source_timestamp := None; mi_sequence_number := 9;
     publisher := 7; related_sample_identity := Some (SampleIdentity_from toy_id) |}.
Definition toy_wrapped (mapping : ServiceMapping) (m : Z) : RequestWrapper :=
  match RequestWrapper_new mapping toy_id CDR_LE m with
  | Ok w => w
  | Err _ => {| rq_serialized_message := []; rq_encoding := CDR_LE |}
  end.
Lemma header_mappings_ignore_payload_witness :
  toy_wrapped Basic 10 ≠ toy_wrapped Basic 20 ∧
  RequestWrapper_unwrap (R:=Z) Basic toy_info (toy_wrapped Basic 10) =
    RequestWrapper_unwrap Basic toy_info (toy_wrapped Basic 20) ∧
  RequestWrapper_unwrap (R:=Z) Cyclone toy_info (toy_wrapped Cyclone 10) =
    RequestWrapper_unwrap Cyclone toy_info (toy_wrapped Cyclone 20).
Proof.
  split; [discriminate|]. split.
  - apply (proj1 (header_mappings_ignore_payload (RD:=toy_rustdds) (Req:=Z) (Resp:=Z) Basic toy_id CDR_LE toy_info (toy_guid 0)
      ltac:(discriminate)) 10 20); reflexivity.
  - apply (proj1 (header_mappings_ignore_payload (RD:=toy_rustdds) (Req:=Z) (Resp:=Z) Cyclone toy_id CDR_LE toy_info (toy_guid 0)
      ltac:(discriminate)) 10 20); reflexivity.
Defined.

Definition toy_response (n m : Z) : DeserializedCacheChange ResponseWrapper :=
  {| dcc_source_timestamp := None; dcc_sequence_number := n; dcc_writer_guid := 8;
     dcc_related_sample_identity := Some {| si_writer_guid := toy_guid 7; si_sequence_number := n |};
     into_value := {| rs_serialized_message := [m]; rs_encoding := CDR_LE |} |}.
Definition toy_client (d : list (result ReadError (DeserializedCacheChange ResponseWrapper))) :=
  Client_new (RD:=toy_rustdds) Enhanced ([] : list (RequestWrapper * WriteOptions)) (toy_guid 7) d.
Lemma response_loops_spec_witness :
  ∃ d, async_receive_response (Resp:=Z) 4 toy_id
         (toy_client [Ok (toy_response 4 40); Ok (toy_response 5 50); Ok (toy_response 6 60)]) =
       Some (with_receiver d (toy_client
         [Ok (toy_response 4 40); Ok (toy_response 5 50); Ok (toy_response 6 60)]),
         Ready (Ok 50)).
Proof.
  destruct (proj1 (response_loops_spec (RD:=toy_rustdds) (Resp:=Z) 4 toy_id
    (toy_client [Ok (toy_response 4 40); Ok (toy_response 5 50); Ok (toy_response 6 60)])
    [Ok ({| writer_guid := toy_guid 7; sequence_number := 4 |}, 40)]
    [Ok (toy_id, 50); Ok ({| writer_guid := toy_guid 7; sequence_number := 6 |}, 60)]
    ltac:(apply Nat.ltb_lt; reflexivity) ltac:(reflexivity)
    ltac:(constructor; [discriminate | constructor])
    ltac:(simpl; intros H; by apply H))) as (d & Hd & _).
  exists d. exact Hd.
Defined.

Definition toy_server : Server
    (WS:=list (ResponseWrapper * WriteOptions))
    (DS:=list (result ReadError (DeserializedCacheChange RequestWrapper))) :=
  {| srv_service_mapping := Enhanced;
     request_receiver := []; response_sender := [] |}.
Lemma enhanced_call_roundtrip_witness :
  ∃ w opts sid,
    (write_with_options ([] : list (RequestWrapper * WriteOptions)) w opts).2 = Ok sid ∧
    ∀ dcc, delivered sid opts
             (RequestWrapper_from_bytes_and_ri (RequestWrapper_bytes w) CDR_LE) dcc →
       RequestWrapper_unwrap Enhanced (MessageInfo_from dcc) (into_value dcc) =
         Ok ({| writer_guid := toy_guid 7; sequence_number := 1 |}, 33).
Proof.
  assert (send_request (Req:=Z) toy_now (toy_client []) 33 =
    ((send_request toy_now (toy_client []) 33).1,
     Ok {| writer_guid := toy_guid 7; sequence_number := 1 |})) as Hsend by (cbn; reflexivity).
  destruct (enhanced_call_roundtrip (Resp:=Z) _ (toy_client []) _ _ _ toy_server eq_refl eq_refl Hsend)
    as (w & opts & sid & Hw & Hreq & _).
  exists w, opts, sid. split; [|exact Hreq].
  change (request_sender (toy_client [])) with ([] : list (RequestWrapper * WriteOptions)) in Hw.
  rewrite Hw. reflexivity.
Defined.

Lemma raw_interoperates_witness :
  ResponseWrapper_unwrap Enhanced toy_info (toy_guid 7)
    (ResponseWrapper_from_bytes_and_ri (RawResponseWrapper_bytes (new_raw [0; 1; 0; 0; 44])) CDR_LE)
  = Ok (toy_id, 44).
Proof.
  exact (proj2 (raw_interoperates (RD:=toy_rustdds) (Req:=Z) (Resp:=Z) toy_info toy_id (toy_guid 7) 33 44
    (toy_wrapped Enhanced 33) [0; 1; 0; 0; 44] eq_refl eq_refl)).
Defined.

(** Sender 1 and sender 2 both increment, then both load: one id for two
    requests. *)
Lemma concurrent_send_ids_witness :
  ∃ r1 n1 r2 n2 r3,
    run [Increment 1; Increment 2; Load 1; Load 2] 1 = r1 ++ (1%nat, n1) :: r2 ++ (2%nat, n2) :: r3 ∧
    n1 = n2.
Proof.
  destruct (concurrent_send_ids [Increment 1; Increment 2] 1 [] 2 [] 1
    ltac:(split; discriminate) ltac:(reflexivity)) as (r1 & n1 & r2 & n2 & r3 & Hr & _ & _ & Hn).
  exists r1, n1, r2, n2, r3. split; [exact Hr|]. by apply (proj2 Hn).
Defined.
