(* ===== verification/PubSub.v ===== *)
(** * Topics over DDS (pubsub.rs)

    Typed and raw publishers and subscriptions over RustDDS's writers and
    readers (the classes of DdsService.v), and what they ask of their node about
    matched endpoints (Discovery.v, DdsMatch.v). The [mio] registration glue is
    not modelled. *)
From S2P Require Import Prelude Discovery DdsMatch DdsService.
#[local] Open Scope Z_scope.

(** A CDR writer: [write] and [async_write] of a value with a source
    timestamp. *)
Class TopicWriter `{RD : Rustdds} (W V : Type) := {
  write : W → V → option Timestamp → W * result (WriteError V) unit;
  async_write : W → V → option Timestamp → W * result (WriteError V) unit;
}.

(** The entity behind an endpoint, which RustDDS numbers; a writer can be told to
    assert its liveliness. *)
Class DdsEntity `{RD : Rustdds} (E : Type) := { entity_guid : E → GUID }.
Class Liveliness `{RD : Rustdds} (W : Type) := {
  datawriter_assert_liveliness : W → result (WriteError unit) unit;
}.
(** A reader that decodes with a decoder of the caller's. *)
Class DecodingReader `{RD : Rustdds} (D V Decoder : Type) := {
  try_take_one_with : Decoder → D → D * result ReadError (option (DeserializedCacheChange V));
  poll_next_with : Decoder → D → D * Poll (option (result ReadError (DeserializedCacheChange V)));
}.

(** ** Raw samples *)
Record RawMessageWrapper := {
  rm_serialized_message : list Z;
  rm_encoding : RepresentationIdentifier;
}.
Definition RawMessageWrapper_from_bytes_and_ri (input_bytes : list Z)
    (encoding : RepresentationIdentifier) : RawMessageWrapper :=
  {| rm_serialized_message := input_bytes; rm_encoding := encoding |}.
Definition RawMessageWrapper_bytes (w : RawMessageWrapper) : list Z := rm_serialized_message w.
#[export] Instance RawMessageWrapper_wrapper : Wrapper RawMessageWrapper := {
  from_bytes_and_ri := RawMessageWrapper_from_bytes_and_ri;
  wrapper_bytes := RawMessageWrapper_bytes;
}.
Definition encapsulation_header (encoding : RepresentationIdentifier) : list Z :=
  if bool_decide (encoding = CDR_BE) then [0; 0; 0; 0] else [0; 1; 0; 0].
Definition new_raw (message : list Z) : RawMessageWrapper :=
  {| rm_serialized_message := if (4 <=? length message)%nat then drop 4 message else message;
     rm_encoding := CDR_LE |}.
Definition unwrap_raw (w : RawMessageWrapper) : list Z :=
  encapsulation_header (rm_encoding w) ++ rm_serialized_message w.

Section pubsub.
Context `{RD : Rustdds}.
Context {M W D WR DR : Type}.
Context `{!TopicWriter W M, !SimpleDataReader D M}.
Context `{!TopicWriter WR RawMessageWrapper, !SimpleDataReader DR RawMessageWrapper}.

Context {Decoder : Type} `{!DataWriter W M, !DecodingReader D M Decoder, !Liveliness W}.
Context `{!DdsEntity W, !DdsEntity D, !DdsEntity WR, !DdsEntity DR, !Countable GUID}.
Context {Other : Type}.
Abbreviation Tables := (Tables (GUID:=GUID)).
Abbreviation Wait := (GUID * WaitState (GUID:=GUID) (Other:=Other))%type.
(** [Gid::from] of a GUID; whether GIDs have the size of ROS 2 Iron and later. *)
Context (iron : bool).
Definition gid_from (g : GUID) : list N := Gid_from (λ g, Z.to_N <$> to_bytes g) iron g.

(** ** Publishers: the writer is their state *)
Definition publish (now : Timestamp) (message : M) (w : W) : W * result (WriteError M) unit :=
  write w message (Some now).
Definition async_publish (now : Timestamp) (message : M) (w : W) : W * result (WriteError M) unit :=
  async_write w message (Some now).
Definition async_publish_with_options (message : M) (wo : WriteOptions) (w : W) :
    W * result (WriteError M) SampleIdentity :=
  async_write_with_options w message wo.
Definition assert_liveliness (w : W) : result (WriteError unit) unit :=
  datawriter_assert_liveliness w.
Definition publisher_guid (w : W) : GUID := entity_guid w.
Definition publisher_gid (w : W) : list N := gid_from (publisher_guid w).
(** The counts and waits look at the tables of [my_node]. *)
Definition publisher_subscription_count (my_node : Tables) (w : W) : nat :=
  get_subscription_count (publisher_guid w) my_node.
Definition publisher_wait_for_subscription (have_spinner : bool) (my_node : Tables) (pc : SpinnerPc)
    (w : W) : option Wait := wait_for_reader have_spinner (publisher_guid w) my_node pc.
Definition raw_publish (now : Timestamp) (cdr_message : list Z) (w : WR) :
    WR * result (WriteError unit) unit :=
  let '(w, r) := write w (new_raw cdr_message) (Some now) in (w, map_err forget_data r).
Definition raw_async_publish (now : Timestamp) (cdr_message : list Z) (w : WR) :
    WR * result (WriteError unit) unit :=
  let '(w, r) := async_write w (new_raw cdr_message) (Some now) in (w, map_err forget_data r).

Definition raw_publisher_guid (w : WR) : GUID := entity_guid w.
Definition raw_publisher_gid (w : WR) : list N := gid_from (raw_publisher_guid w).
Definition raw_publisher_subscription_count (my_node : Tables) (w : WR) : nat :=
  get_subscription_count (raw_publisher_guid w) my_node.
Definition raw_publisher_wait_for_subscription (have_spinner : bool) (my_node : Tables)
    (pc : SpinnerPc) (w : WR) : option Wait :=
  wait_for_reader have_spinner (raw_publisher_guid w) my_node pc.

(** ** Subscriptions: the reader is their state *)
Definition dcc_to_value_and_messageinfo {V : Type} (dcc : DeserializedCacheChange V) :
    V * MessageInfo :=
  (into_value dcc, MessageInfo_from dcc).
Definition sub_take (d : D) : D * result ReadError (option (M * MessageInfo)) :=
  let '(d, ds) := try_take_one (drain_read_notifications d) in
  (d, option_map dcc_to_value_and_messageinfo <$> ds).
Definition sub_async_take (d : D) : D * Poll (result ReadError (M * MessageInfo)) :=
  let '(d, next) := poll_next d in
  (d, match next with
      | Pending => Pending
      | Ready (Some (Err e)) => Ready (Err e)
      | Ready (Some (Ok ds)) => Ready (Ok (dcc_to_value_and_messageinfo ds))
      | Ready None =>
          Ready (Err (Internal "async_take(): SimpleDataReader value stream unexpectedly ended!"))
      end).
(** The next item of [async_stream]. *)
Definition sub_next (d : D) : D * Poll (option (result ReadError (M * MessageInfo))) :=
  let '(d, next) := poll_next d in
  (d, match next with
      | Pending => Pending
      | Ready None => Ready None
      | Ready (Some r) => Ready (Some (dcc_to_value_and_messageinfo <$> r))
      end).
(** [CdrDeserializeSeedDecoder::new] makes the decoder of a seed. *)
Definition take_seed {S : Type} (decoder_of : S → Decoder) (seed : S) (d : D) :
    D * result ReadError (option (M * MessageInfo)) :=
  let '(d, ds) := try_take_one_with (decoder_of seed) (drain_read_notifications d) in
  (d, option_map dcc_to_value_and_messageinfo <$> ds).
(** The next item of [async_stream_seed]. *)
Definition sub_next_seed {S : Type} (decoder_of : S → Decoder) (seed : S) (d : D) :
    D * Poll (option (result ReadError (M * MessageInfo))) :=
  let '(d, next) := poll_next_with (decoder_of seed) d in
  (d, match next with
      | Pending => Pending
      | Ready None => Ready None
      | Ready (Some r) => Ready (Some (dcc_to_value_and_messageinfo <$> r))
      end).
Definition subscription_guid (d : D) : GUID := entity_guid d.
Definition subscription_gid (d : D) : list N := gid_from (subscription_guid d).
Definition subscription_publisher_count (my_node : Tables) (d : D) : nat :=
  get_publisher_count (subscription_guid d) my_node.
Definition subscription_wait_for_publisher (have_spinner : bool) (my_node : Tables) (pc : SpinnerPc)
    (d : D) : option Wait := wait_for_writer have_spinner (subscription_guid d) my_node pc.
Definition raw_of_dcc (dcc : DeserializedCacheChange RawMessageWrapper) : list Z * MessageInfo :=
  (unwrap_raw (into_value dcc), MessageInfo_from dcc).
Definition raw_take (d : DR) : DR * result ReadError (option (list Z * MessageInfo)) :=
  let '(d, dcc) := try_take_one (drain_read_notifications d) in
  (d, option_map raw_of_dcc <$> dcc).
Definition raw_async_take (d : DR) : DR * Poll (result ReadError (list Z * MessageInfo)) :=
  let '(d, next) := poll_next d in
  (d, match next with
      | Pending => Pending
      | Ready (Some (Err e)) => Ready (Err e)
      | Ready (Some (Ok dcc)) => Ready (Ok (raw_of_dcc dcc))
      | Ready None =>
          Ready (Err (Internal "async_take(): SimpleDataReader value stream unexpectedly ended!"))
      end).
Definition raw_subscription_guid (d : DR) : GUID := entity_guid d.
Definition raw_subscription_gid (d : DR) : list N := gid_from (raw_subscription_guid d).
Definition raw_subscription_wait_for_publisher (have_spinner : bool) (my_node : Tables)
    (pc : SpinnerPc) (d : DR) : option Wait :=
  wait_for_writer have_spinner (raw_subscription_guid d) my_node pc.
End pubsub.

(** ** Properties *)

(** What a raw subscription hands out for a sample a raw publisher wrote, which
    declares the encoding [CDR_LE]. *)
Definition republished `{RD : Rustdds} (message : list Z) : result ReadError (list Z) :=
  unwrap_raw <$> through_wire (new_raw message).

Lemma republished_value `{RD : Rustdds} message :
  republished message =
    Ok ([0; 1; 0; 0] ++ if (4 <=? length message)%nat then drop 4 message else message).
Proof. done. Qed.
(** The exact bytes survive exactly when the message starts with the
    little-endian header without options; a big-endian message comes back
    declared little-endian, and a short one with a header it did not have. *)
Lemma republished_exact `{RD : Rustdds} message :
  republished message = Ok message ↔ ∃ body, message = [0; 1; 0; 0] ++ body.
Proof.
  rewrite republished_value. split; [intros [= <-]; eauto|]. intros [body ->]. done.
Qed.

Section reading.
Context `{RD : Rustdds}.
Context {M D : Type} `{!SimpleDataReader D M, !SimpleDataReaderLaws D M}.
(** The messages a subscription still has to take. *)
Definition messages (d : D) : list (result ReadError (M * MessageInfo)) :=
  (λ x : result ReadError (DeserializedCacheChange M), dcc_to_value_and_messageinfo <$> x) <$>
    samples (V:=M) d.
(** [take] hands them out one by one, in order, without waiting. *)
Lemma sub_take_spec (d : D) :
  (sub_take d).2 = match messages d with [] => Ok None | x :: _ => Some <$> x end ∧
  messages (sub_take d).1 = tail (messages d).
Proof.
  unfold sub_take, messages. set (d0 := drain_read_notifications d).
  assert (samples d0 = samples d) as Hd by apply samples_drain.
  destruct (samples d) as [|x l].
  - apply take_none in Hd as [H1 H2]. destruct (try_take_one d0) as [d' t]. simpl in *; subst.
    by rewrite H2.
  - apply take_one in Hd as [H1 H2]. destruct (try_take_one d0) as [d' t]. simpl in *; subst.
    split; [by destruct x|done].
Qed.
(** So does the stream. *)
Lemma sub_next_spec (d : D) :
  (sub_next d).2 = match messages d with [] => Pending | x :: _ => Ready (Some x) end ∧
  messages (sub_next d).1 = tail (messages d).
Proof.
  unfold sub_next, messages. destruct (samples d) as [|x l] eqn:Hd.
  - apply poll_none in Hd as [H1 H2]. destruct (poll_next d) as [d' t]. simpl in *; subst.
    by rewrite H2.
  - apply poll_one in Hd as [H1 H2]. by destruct (poll_next d) as [d' t]; simpl in *; subst.
Qed.
End reading.
