(* ===== verification/ActionClient.v ===== *)
(** * The action client (action/client.rs, action.rs)

    An action client is three service clients and two subscriptions. Its
    operations send the fixed requests of the action protocol and pick, among
    what arrives, the answer to one request or the feedback on one goal. Random
    goal ids are arguments. *)
From S2P Require Import Prelude Names Time ActionServer DdsService PubSub.

(** ** action.rs: an action type, and the messages of the protocol *)

(** The names a type of actions has for its three messages; [Action] is the one
    the crate offers, for types [G], [R] and [F] (which it holds no values of). *)
Class ActionTypes (A : Type) := {
  goal_type_name : A → str;
  result_type_name : A → str;
  feedback_type_name : A → str;
}.
Record Action (G R F : Type) := {
  goal_typename : str;
  result_typename : str;
  feedback_typename : str;
}.
Arguments goal_typename {G R F}.
Arguments result_typename {G R F}.
Arguments feedback_typename {G R F}.
Definition Action_new (G R F : Type) (goal_typename result_typename feedback_typename : str) :
    Action G R F :=
  {| goal_typename := goal_typename; result_typename := result_typename;
     feedback_typename := feedback_typename |}.
#[export] Instance Action_types {G R F} : ActionTypes (Action G R F) := {
  goal_type_name := goal_typename;
  result_type_name := result_typename;
  feedback_type_name := feedback_typename;
}.

Record SendGoalRequest {G : Type} := { sg_goal_id : GoalId; sg_goal : G }.
Arguments SendGoalRequest : clear implicits.
Record SendGoalResponse := { accepted : bool; sg_stamp : Time }.
Record GetResultRequest := { gr_goal_id : GoalId }.
Record GetResultResponse {R : Type} := { gr_status : GoalStatusEnum; gr_result : R }.
Arguments GetResultResponse : clear implicits.
Record FeedbackMessage {F : Type} := { fb_goal_id : GoalId; fb_feedback : F }.
Arguments FeedbackMessage : clear implicits.

(** A future's value, changed when it is [Ok]. *)
Definition poll_map_ok {E A B} (f : A → B) (p : Poll (result E A)) : Poll (result E B) :=
  match p with Pending => Pending | Ready r => Ready (f <$> r) end.

Section client.
Context `{RD : Rustdds, !CdrMessage BasicRequestHeader, !CdrMessage BasicReplyHeader,
          !CdrMessage CycloneHeader}.
(** The action's types, the codecs of the protocol's messages, and the states
    of the readers and writers. *)
Context {G R F : Type}.
Context `{!CdrMessage (SendGoalRequest G), !CdrMessage SendGoalResponse,
          !CdrMessage CancelGoalRequest, !CdrMessage CancelGoalResponse,
          !CdrMessage GetResultRequest, !CdrMessage (GetResultResponse R)}.
Context {W D FD SD : Type}.
Context `{!DataWriter W RequestWrapper, !SimpleDataReader D ResponseWrapper}.
Context `{!SimpleDataReader FD (FeedbackMessage F), !SimpleDataReader SD GoalStatusArray}.
Abbreviation Client := (Client (W:=W) (D:=D)).

Record ActionClient := {
  my_goal_client : Client;
  my_cancel_client : Client;
  my_result_client : Client;
  my_feedback_subscription : FD;
  my_status_subscription : SD;
  my_action_name : Name;
}.

(** Each operation uses one of the five endpoints and is given that one. *)

(** *** Goals *)
Definition send_goal (now : Timestamp) (random : GoalId) (goal : G) (c : Client) :
    Client * result (WriteError unit) (RmwRequestId * GoalId) :=
  let '(c, r) := send_request now c {| sg_goal_id := random; sg_goal := goal |} in
  (c, (λ req_id, (req_id, random)) <$> r).
Definition receive_goal_response (fuel : nat) (req_id : RmwRequestId) (c : Client) :
    option (Client * result ReadError (option SendGoalResponse)) :=
  receive_matching_response fuel req_id c.
Definition async_send_goal (fuel : nat) (now : Timestamp) (random : GoalId) (goal : G)
    (c : Client) :
    option (Client * Poll (result CallServiceError (GoalId * SendGoalResponse))) :=
  match async_call_service fuel now c {| sg_goal_id := random; sg_goal := goal |} with
  | Some (c, p) => Some (c, poll_map_ok (pair random) p)
  | None => None
  end.

(** *** Cancellation *)
Definition cancel_goal_raw (now : Timestamp) (goal : GoalId) (timestamp : Time) (c : Client) :
    Client * result (WriteError unit) RmwRequestId :=
  send_request now c {| cr_goal_info := {| goal_id := goal; stamp := timestamp |} |}.
Definition cancel_goal (now : Timestamp) (goal : GoalId) (c : Client) :=
  cancel_goal_raw now goal Time_ZERO c.
Definition cancel_all_goals_before (now : Timestamp) (timestamp : Time) (c : Client) :=
  cancel_goal_raw now UUID_ZERO timestamp c.
Definition cancel_all_goals (now : Timestamp) (c : Client) :=
  cancel_goal_raw now UUID_ZERO Time_ZERO c.
Definition receive_cancel_response (fuel : nat) (cancel_request_id : RmwRequestId) (c : Client) :
    option (Client * result ReadError (option CancelGoalResponse)) :=
  receive_matching_response fuel cancel_request_id c.
Definition async_cancel_goal (fuel : nat) (now : Timestamp) (goal : GoalId) (timestamp : Time)
    (c : Client) : option (Client * Poll (result CallServiceError CancelGoalResponse)) :=
  async_call_service fuel now c {| cr_goal_info := {| goal_id := goal; stamp := timestamp |} |}.

(** *** Results *)
Definition request_result (now : Timestamp) (goal : GoalId) (c : Client) :
    Client * result (WriteError unit) RmwRequestId :=
  send_request now c {| gr_goal_id := goal |}.
Definition status_and_result (m : GetResultResponse R) : GoalStatusEnum * R :=
  (gr_status m, gr_result m).
Definition receive_result (fuel : nat) (result_request_id : RmwRequestId) (c : Client) :
    option (Client * result ReadError (option (GoalStatusEnum * R))) :=
  match receive_matching_response fuel result_request_id c with
  | Some (c, r) => Some (c, option_map status_and_result <$> r)
  | None => None
  end.
Definition async_request_result (fuel : nat) (now : Timestamp) (goal : GoalId) (c : Client) :
    option (Client * Poll (result CallServiceError (GoalStatusEnum * R))) :=
  match async_call_service fuel now c {| gr_goal_id := goal |} with
  | Some (c, p) => Some (c, poll_map_ok status_and_result p)
  | None => None
  end.

(** *** Feedback and status *)
Fixpoint receive_feedback (fuel : nat) (goal : GoalId) (d : FD) :
    option (FD * result ReadError (option F)) :=
  match fuel with
  | O => None
  | S fuel =>
      match sub_take d with
      | (d, Err e) => Some (d, Err e)
      | (d, Ok None) => Some (d, Ok None)
      | (d, Ok (Some (fb_msg, _))) =>
          if (fb_goal_id fb_msg =? goal)%N then Some (d, Ok (Some (fb_feedback fb_msg)))
          else receive_feedback fuel goal d
      end
  end.
(** The streams, as functions of what the subscription's stream yields. *)
Definition feedback_stream (expected : GoalId)
    (stream : list (result ReadError (FeedbackMessage F * MessageInfo))) :
    list (result ReadError F) :=
  omap (λ r, match r with
             | Err e => Some (Err e)
             | Ok (m, _) => if (fb_goal_id m =? expected)%N then Some (Ok (fb_feedback m)) else None
             end) stream.
Definition receive_status (d : SD) : SD * result ReadError (option GoalStatusArray) :=
  let '(d, r) := sub_take d in (d, option_map fst <$> r).
Definition async_receive_status (d : SD) : SD * Poll (result ReadError GoalStatusArray) :=
  let '(d, p) := sub_async_take d in
  (d, poll_map_ok fst p).
Definition all_statuses_stream
    (stream : list (result ReadError (GoalStatusArray * MessageInfo))) :
    list (result ReadError GoalStatusArray) :=
  (λ r : result ReadError (GoalStatusArray * MessageInfo), fst <$> r) <$> stream.
Definition status_stream (goal : GoalId)
    (stream : list (result ReadError (GoalStatusArray * MessageInfo))) :
    list (result ReadError GoalStatus) :=
  omap (λ r, match r with
             | Err e => Some (Err e)
             | Ok gsa =>
                 Ok <$> List.find (λ gs, (goal_id (gs_goal_info gs) =? goal)%N) (status_list gsa)
             end) (all_statuses_stream stream).

(** ** Properties *)

(** Feedback on another goal. *)
Definition other_feedback (goal : GoalId)
    (x : result ReadError (FeedbackMessage F * MessageInfo)) : Prop :=
  match x with Ok (m, _) => fb_goal_id m ≠ goal | Err _ => False end.
Context `{!SimpleDataReaderLaws FD (FeedbackMessage F)}.

(** [receive_feedback] passes over the feedback on other goals and stops at the
    first other message; enough fuel for the messages at hand makes it
    return. *)
Lemma receive_feedback_spec fuel goal (d : FD) pre post :
  length (messages d) < fuel → messages d = pre ++ post → Forall (other_feedback goal) pre →
  match post with x :: _ => ¬ other_feedback goal x | [] => True end →
  ∃ d', receive_feedback fuel goal d =
      Some (d', match post with
                | [] => Ok None
                | Ok (m, _) :: _ => Ok (Some (fb_feedback m))
                | Err e :: _ => Err e
                end) ∧ messages d' = tail post.
Proof.
  revert d pre. induction fuel as [|fuel IH]; intros d pre Hf Hm Hpre Hpost; [lia|].
  destruct (sub_take_spec d) as [H1 H2]. rewrite Hm in Hf, H1, H2. simpl.
  destruct (sub_take d) as [d' r]. simpl in H1, H2. subst r.
  destruct Hpre as [|[[m i]|e] pre Hx Hpre]; [|simpl in *|done].
  - destruct post as [|[[m i]|e] post]; simpl in *; [eauto| |eauto].
    destruct (fb_goal_id m =? goal)%N eqn:He; [eauto|].
    exfalso. apply Hpost. by apply N.eqb_neq.
  - apply N.eqb_neq in Hx as ->. destruct (IH d' pre) as (d2 & -> & H3); [rewrite H2; lia|done..|].
    eauto.
Qed.
(** The stream of one goal's feedback is what its messages say, in order. *)
Lemma feedback_stream_only goal stream f :
  Ok f ∈ feedback_stream goal stream ↔
  ∃ m i, Ok (m, i) ∈ stream ∧ fb_goal_id m = goal ∧ fb_feedback m = f.
Proof.
  unfold feedback_stream. rewrite list_elem_of_omap. split.
  - intros ([[m i]|e] & Hin & H); [|done]. destruct (fb_goal_id m =? goal)%N eqn:He; [|done].
    apply N.eqb_eq in He. simplify_eq. eauto 10.
  - intros (m & i & Hin & <- & <-). eexists. split; [done|]. simpl. by rewrite N.eqb_refl.
Qed.
End client.

(** What the three cancel operations select at the server: all goals that can
    be canceled; those accepted strictly before the stamp; the one goal. *)
Lemma cancel_all_goals_selects {G0 ReqId : Type} (s : AsyncActionServer G0 ReqId) req g :
  g ∈ cancel_goals (receive_cancel_request
    (req, {| cr_goal_info := {| goal_id := UUID_ZERO; stamp := Time_ZERO |} |}) s) ↔
  ∃ ag, goals s !! g = Some ag ∧ cancelable (status ag) = true.
Proof.
  simpl. rewrite list_elem_of_fmap. split.
  - intros ([g' ag] & -> & Hin). rewrite list_elem_of_In, !filter_In, <-list_elem_of_In in Hin.
    destruct Hin as [[Hin%(elem_of_entries N.le) Hc] _]. eauto.
  - intros (ag & Hg & Hc). exists (g, ag). split; [done|].
    rewrite list_elem_of_In, !filter_In, <-list_elem_of_In, (elem_of_entries N.le). done.
Qed.
