(* ===== verification/DdsAction.v ===== *)
(** * Action servers over DDS (action/server.rs's synchronous server,
    action/raw_server.rs)

    Both kinds of server are five endpoints: services for goals, cancellation and
    results, topics for feedback and status. The synchronous server hands out and
    takes typed messages; the raw one exchanges standalone CDR messages for the
    parts whose types it does not know. *)
From S2P Require Import Prelude Time ActionServer DdsService PubSub ActionClient.
#[local] Open Scope Z_scope.

Section dds_action.
Context `{RD : Rustdds, !CdrMessage BasicRequestHeader, !CdrMessage BasicReplyHeader,
          !CdrMessage CycloneHeader}.
Context {G R F : Type}.
Context `{!CdrMessage (SendGoalRequest G), !CdrMessage SendGoalResponse,
          !CdrMessage CancelGoalRequest, !CdrMessage CancelGoalResponse,
          !CdrMessage GetResultRequest, !CdrMessage (GetResultResponse R)}.
Context {WS DS WR DR WF WFR WST : Type}.
Context `{!DataWriter WS ResponseWrapper, !SimpleDataReader DS RequestWrapper}.
Context `{!DataWriter WR RawResponseWrapper, !SimpleDataReader DR RawRequestWrapper}.
Context `{!TopicWriter WF (FeedbackMessage F), !TopicWriter WFR RawMessageWrapper,
          !TopicWriter WST GoalStatusArray}.
Abbreviation Server := (Server (WS:=WS) (DS:=DS)).
Abbreviation RawServer := (RawServer (WR:=WR) (DR:=DR)).

(** ** [ActionServer]: each operation uses one endpoint and is given that one *)
Definition receive_goal (s : Server) :
    Server * result ReadError (option (RmwRequestId * SendGoalRequest G)) := receive_request s.
Definition send_goal_response (now : Timestamp) (req_id : RmwRequestId) (resp : SendGoalResponse)
    (s : Server) : Server * result (WriteError unit) unit := send_response now req_id resp s.
Definition receive_cancel_request (s : Server) :
    Server * result ReadError (option (RmwRequestId * CancelGoalRequest)) := receive_request s.
Definition send_cancel_response (now : Timestamp) (req_id : RmwRequestId)
    (resp : CancelGoalResponse) (s : Server) : Server * result (WriteError unit) unit :=
  send_response now req_id resp s.
Definition receive_result_request (s : Server) :
    Server * result ReadError (option (RmwRequestId * GetResultRequest)) := receive_request s.
Definition send_result (now : Timestamp) (result_request_id : RmwRequestId)
    (resp : GetResultResponse R) (s : Server) : Server * result (WriteError unit) unit :=
  send_response now result_request_id resp s.
Definition send_feedback (now : Timestamp) (goal_id : GoalId) (feedback : F) (w : WF) :
    WF * result (WriteError (FeedbackMessage F)) unit :=
  publish now {| fb_goal_id := goal_id; fb_feedback := feedback |} w.
Definition send_goal_statuses (now : Timestamp) (goal_statuses : GoalStatusArray) (w : WST) :
    WST * result (WriteError GoalStatusArray) unit := publish now goal_statuses w.

(** ** [RawActionServer] *)
Definition receive_goal_request (s : RawServer) :
    RawServer * Poll (result ReadError (RmwRequestId * list Z)) := raw_async_receive_request s.
Definition respond_goal (now : Timestamp) (req_id : RmwRequestId) (acc : bool) (stamp : Time)
    (s : RawServer) : RawServer * result (WriteError unit) unit :=
  match to_standalone_cdr {| accepted := acc; sg_stamp := stamp |} with
  | Err e => (s, Err e)
  | Ok response => raw_send_response now req_id response s
  end.
Definition raw_receive_cancel_request (s : Server) :
    Server * Poll (result ReadError (RmwRequestId * GoalInfo)) :=
  let '(s, p) := async_receive_request s in
  (s, poll_map_ok (λ '(req_id, request), (req_id, cr_goal_info request)) p).
Definition respond_cancel (now : Timestamp) (req_id : RmwRequestId)
    (response : CancelGoalResponse) (s : Server) : Server * result (WriteError unit) unit :=
  send_response now req_id response s.
Definition decode_result_request (bytes : list Z) : result ReadError GoalId :=
  body ← strip_header bytes;
  e ← rep_id bytes;
  '(request, _consumed) ←
    (deserialize_from_cdr_with_rep_id body e : result ReadError (GetResultRequest * nat));
  Ok (gr_goal_id request).
Definition raw_receive_result_request (s : RawServer) :
    RawServer * Poll (result ReadError (RmwRequestId * GoalId)) :=
  let '(s, p) := raw_async_receive_request s in
  (s, match p with
      | Pending => Pending
      | Ready r => Ready ('(req_id, bytes) ← r;
                          goal_id ← decode_result_request bytes; Ok (req_id, goal_id))
      end).
Definition respond_result_raw (now : Timestamp) (req_id : RmwRequestId) (cdr_response : list Z)
    (s : RawServer) : RawServer * result (WriteError unit) unit :=
  raw_send_response now req_id cdr_response s.
Definition publish_feedback_raw (now : Timestamp) (cdr_message : list Z) (w : WFR) :
    WFR * result (WriteError unit) unit := raw_publish now cdr_message w.
Definition publish_statuses (now : Timestamp) (statuses : GoalStatusArray) (w : WST) :
    WST * result (WriteError GoalStatusArray) unit := publish now statuses w.
End dds_action.

(** ** Specification: the raw server is the typed one up to encoding *)
Section agreement.
Context `{RD : Rustdds, !CdrMessage BasicRequestHeader, !CdrMessage BasicReplyHeader,
          !CdrMessage CycloneHeader}.
Context {G R F : Type}.
Context `{!CdrMessage (SendGoalRequest G), !CdrMessage SendGoalResponse,
          !CdrMessage GetResultRequest, !CdrMessage (GetResultResponse R),
          !CdrMessage (FeedbackMessage F)}.
Context {WS DS WR DR WF WFR : Type}.
Context `{!DataWriter WS ResponseWrapper, !SimpleDataReader DS RequestWrapper}.
Context `{!DataWriter WR RawResponseWrapper, !SimpleDataReader DR RawRequestWrapper}.
Context `{!TopicWriter WF (FeedbackMessage F), !TopicWriter WFR RawMessageWrapper}.
Context `{!SimpleDataReaderLaws DS RequestWrapper, !SimpleDataReaderLaws DR RawRequestWrapper}.

(** One received sample, as the typed and as the raw reader hold it. *)
Inductive same_sample :
    result ReadError (DeserializedCacheChange RequestWrapper) →
    result ReadError (DeserializedCacheChange RawRequestWrapper) → Prop :=
| same_error e : same_sample (Err e) (Err e)
| same_data (d : DeserializedCacheChange RequestWrapper)
    (d' : DeserializedCacheChange RawRequestWrapper) body e :
    e = CDR_LE ∨ e = CDR_BE →
    MessageInfo_from d = MessageInfo_from d' →
    into_value d = RequestWrapper_from_bytes_and_ri body e →
    into_value d' = RawRequestWrapper_from_bytes_and_ri body e →
    same_sample (Ok d) (Ok d').
Definition same_samples (d : DS) (d' : DR) : Prop :=
  Forall2 same_sample (samples (V:=RequestWrapper) d) (samples (V:=RawRequestWrapper) d').

(** Two writers that the application cannot tell apart: what they do depends on
    the bytes of the sample and the write options only. *)
Definition response_writers_agree (RW : WS → WR → Prop) : Prop :=
  ∀ w w' v v' o, RW w w' → ResponseWrapper_bytes v = RawResponseWrapper_bytes v' →
    RW (write_with_options w v o).1 (write_with_options w' v' o).1 ∧
    map_err forget_data (write_with_options w v o).2 =
      map_err forget_data (write_with_options w' v' o).2.
Definition feedback_writers_agree (RF : WF → WFR → Prop) : Prop :=
  ∀ w w' m v' t, RF w w' → to_writer_with_rep_id m CDR_LE = Ok (RawMessageWrapper_bytes v') →
    RF (write w m t).1 (write w' v' t).1 ∧
    map_err forget_data (write w m t).2 = map_err forget_data (write w' v' t).2.
Definition same_server (RW : WS → WR → Prop) (s : Server) (s' : RawServer) : Prop :=
  srv_service_mapping s = Enhanced ∧ same_samples (request_receiver s) (raw_request_receiver s') ∧
  RW (response_sender s) (raw_response_sender s').

(** What a caller with a codec makes of a standalone message. *)
Definition read_standalone {M : Type} `{!CdrMessage M} (raw : list Z) : result ReadError M :=
  body ← strip_header raw; e ← rep_id raw;
  '(m, _) ← deserialize_from_cdr_with_rep_id body e; Ok m.

(** ** Lemmas *)
Lemma read_encapsulated {M : Type} `{!CdrMessage M} e body :
  e = CDR_LE ∨ e = CDR_BE →
  read_standalone (M:=M) (encapsulated e body) =
    ('(m, _) ← deserialize_from_cdr_with_rep_id body e; Ok m).
Proof. by intros [-> | ->]. Qed.
Lemma decode_result_request_spec raw :
  decode_result_request raw = gr_goal_id <$> read_standalone (M:=GetResultRequest) raw.
Proof.
  unfold decode_result_request, read_standalone.
  destruct (strip_header raw); [|done]. destruct (rep_id raw); [|done]. simpl.
  by destruct (deserialize_from_cdr_with_rep_id _ _) as [[]|].
Qed.

(** Both kinds of server take the same request: the typed one decodes what the
    raw one hands out. *)
Lemma receive_agrees {M : Type} `{!CdrMessage M} RW s s' :
  same_server RW s s' →
  same_server RW (receive_request (Req:=M) s).1 (raw_async_receive_request s').1 ∧
  (receive_request (Req:=M) s).2 =
    match (raw_async_receive_request s').2 with
    | Pending => Ok None
    | Ready r => '(id, raw) ← r; m ← read_standalone raw; Ok (Some (id, m))
    end.
Proof.
  intros (Hm & Hs & Hw). unfold receive_request, raw_async_receive_request.
  set (d0 := drain_read_notifications (request_receiver s)).
  assert (samples d0 = samples (request_receiver s)) as Hd by apply samples_drain.
  unfold same_samples in Hs. rewrite <-Hd in Hs. inversion Hs as [Ht Hr|x y l l' Hxy Hl Ht Hr].
  - symmetry in Ht, Hr. apply take_none in Ht as [H1 H2]. apply poll_none in Hr as [H3 H4].
    destruct (try_take_one d0) as [d t], (poll_next _) as [d' t']. simpl in *; subst.
    split; [|done]. split_and!; [done| |done]. unfold same_samples; simpl. by rewrite H2, H4.
  - symmetry in Ht, Hr. apply take_one in Ht as [H1 H2]. apply poll_one in Hr as [H3 H4].
    destruct (try_take_one d0) as [d t], (poll_next _) as [d' t']. simpl in *; subst.
    split; [split_and!; [done| by unfold same_samples; simpl |done]|].
    destruct Hxy as [e|dt dr body e He Hi Hv Hv']; [done|]. simpl.
    rewrite Hm, Hv, Hv', <-Hi. simpl. rewrite read_encapsulated by done.
    by destruct (deserialize_from_cdr_with_rep_id body e) as [[]|].
Qed.

(** Both write the same sample for a response. *)
Lemma respond_agrees {M : Type} `{!CdrMessage M} RW now id (m : M) s s' :
  response_writers_agree RW → same_server RW s s' →
  match to_standalone_cdr m with
  | Err e => send_response now id m s = (s, Err e)
  | Ok raw =>
      same_server RW (send_response now id m s).1 (raw_send_response now id raw s').1 ∧
      (send_response now id m s).2 = (raw_send_response now id raw s').2
  end.
Proof.
  intros HW (Hm & Hs & Hw). unfold to_standalone_cdr, send_response, ResponseWrapper_new.
  rewrite Hm. simpl. destruct (to_writer_with_rep_id m CDR_LE) as [body|]; simpl; [|done].
  unfold raw_send_response. cbv zeta.
  set (o := {| wo_source_timestamp := _ |}). set (v := {| rs_serialized_message := _ |}).
  destruct (HW _ _ v (DdsService.new_raw (0 :: 1 :: 0 :: 0 :: body)) o Hw eq_refl) as [H1 H2].
  destruct (write_with_options _ v o) as [w r], (write_with_options _ _ o) as [w' r'].
  simpl in *. split; [done|]. destruct r, r'; simpl in H2; congruence.
Qed.

(** C34: A raw action server behaves as the typed one on the same endpoints,
    under the Enhanced mapping and with every sample in plain CDR. Goal and
    result requests arrive in the same order, with the same request id and the
    same errors, the raw caller reading from its bytes the message the typed
    caller is given; answering with the encoding of a message writes the same
    sample, with the same outcome, as answering with the message, and so does
    publishing feedback. The relation between the two servers is preserved by
    every operation. *)
Theorem raw_dds_action_server_agrees RW RF now s s' :
  response_writers_agree RW → feedback_writers_agree RF → same_server RW s s' →
  (* goals *)
  (same_server RW (receive_goal (G:=G) s).1 (receive_goal_request s').1 ∧
   (receive_goal (G:=G) s).2 =
     match (receive_goal_request s').2 with
     | Pending => Ok None
     | Ready r => '(id, raw) ← r; m ← read_standalone raw; Ok (Some (id, m))
     end) ∧
  (∀ id acc stamp,
     same_server RW
       (send_goal_response now id {| accepted := acc; sg_stamp := stamp |} s).1
       (respond_goal now id acc stamp s').1 ∧
     (send_goal_response now id {| accepted := acc; sg_stamp := stamp |} s).2 =
       (respond_goal now id acc stamp s').2) ∧
  (* results *)
  (same_server RW (receive_result_request s).1 (raw_receive_result_request s').1 ∧
   (receive_result_request s).2 =
     match (raw_receive_result_request s').2 with
     | Pending => Ok None
     | Ready r => (λ '(id, g), Some (id, {| gr_goal_id := g |})) <$> r
     end) ∧
  (∀ id (resp : GetResultResponse R) raw, to_standalone_cdr resp = Ok raw →
     same_server RW (send_result now id resp s).1 (respond_result_raw now id raw s').1 ∧
     (send_result now id resp s).2 = (respond_result_raw now id raw s').2) ∧
  (* feedback *)
  (∀ w w' id (fb : F) raw, RF w w' →
     to_standalone_cdr {| fb_goal_id := id; fb_feedback := fb |} = Ok raw →
     RF (send_feedback now id fb w).1 (publish_feedback_raw now raw w').1 ∧
     map_err forget_data (send_feedback now id fb w).2 = (publish_feedback_raw now raw w').2).
Proof.
  intros HW HF Hs. refine (conj _ (conj _ (conj _ (conj _ _)))).
  - by apply receive_agrees.
  - intros id acc stamp. pose proof (respond_agrees RW now id
      {| accepted := acc; sg_stamp := stamp |} s s' HW Hs) as H.
    unfold respond_goal, send_goal_response. destruct (to_standalone_cdr _); [done|].
    by rewrite H.
  - destruct (receive_agrees (M:=GetResultRequest) RW s s' Hs) as [H1 H2].
    unfold receive_result_request, raw_receive_result_request. rewrite H2. clear H2.
    destruct (raw_async_receive_request s') as [s1 [[[id raw]|e]|]]; (split; [exact H1|]); simpl;
      [|done..].
    rewrite decode_result_request_spec. by destruct (read_standalone raw) as [[]|].
  - intros id resp raw Hraw. pose proof (respond_agrees RW now id resp s s' HW Hs) as H.
    rewrite Hraw in H. exact H.
  - intros w w' id fb raw Hw (body & Hb & [= <-])%result_bind_Ok.
    unfold send_feedback, publish_feedback_raw, publish, raw_publish.
    destruct (HF w w' _ (new_raw (0 :: 1 :: 0 :: 0 :: body)) (Some now) Hw Hb) as [H1 H2].
    by destruct (write w' _ _).
Qed.
End agreement.

(** ** A concrete instance *)
#[local] Existing Instances toy_rustdds toy_basic_request toy_basic_reply toy_cyclone toy_message
  toy_writer toy_reader toy_reader_laws.
(** Messages encoded as a few words. *)
#[local] Instance toy_goal_request : CdrMessage (SendGoalRequest Z) := {|
  to_writer_with_rep_id m _ := Ok [Z.of_N (sg_goal_id m); sg_goal m];
  deserialize_from_cdr_with_rep_id b _ :=
    match b with
    | i :: g :: _ => Ok ({| sg_goal_id := Z.to_N i; sg_goal := g |}, 2%nat)
    | _ => Err (OtherReadError 0)
    end |}.
#[local] Instance toy_goal_response : CdrMessage SendGoalResponse := {|
  to_writer_with_rep_id m _ := Ok [Z.b2z (accepted m)];
  deserialize_from_cdr_with_rep_id b _ :=
    match b with
    | x :: _ => Ok ({| accepted := Z.odd x; sg_stamp := Time_ZERO |}, 1%nat)
    | _ => Err (OtherReadError 0)
    end |}.
#[local] Instance toy_result_request : CdrMessage GetResultRequest := {|
  to_writer_with_rep_id m _ := Ok [Z.of_N (gr_goal_id m)];
  deserialize_from_cdr_with_rep_id b _ :=
    match b with
    | i :: _ => Ok ({| gr_goal_id := Z.to_N i |}, 1%nat)
    | _ => Err (OtherReadError 0)
    end |}.
#[local] Instance toy_result_response : CdrMessage (GetResultResponse Z) := {|
  to_writer_with_rep_id m _ := Ok [status_code (gr_status m); gr_result m];
  deserialize_from_cdr_with_rep_id _ _ := Err (OtherReadError 0) |}.
#[local] Instance toy_feedback : CdrMessage (FeedbackMessage Z) := {|
  to_writer_with_rep_id m _ := Ok [Z.of_N (fb_goal_id m); fb_feedback m];
  deserialize_from_cdr_with_rep_id _ _ := Err (OtherReadError 0) |}.
(** Writers that keep the bodies they wrote. *)
#[local] Instance toy_bodies : DataWriter (list (list Z)) ResponseWrapper := {|
  write_with_options w v _ :=
    (w ++ [ResponseWrapper_bytes v], Ok {| si_writer_guid := 7; si_sequence_number := 1 |});
  async_write_with_options w v _ :=
    (w ++ [ResponseWrapper_bytes v], Ok {| si_writer_guid := 7; si_sequence_number := 1 |}) |}.
#[local] Instance toy_raw_bodies : DataWriter (list (list Z)) RawResponseWrapper := {|
  write_with_options w v _ :=
    (w ++ [RawResponseWrapper_bytes v], Ok {| si_writer_guid := 7; si_sequence_number := 1 |});
  async_write_with_options w v _ :=
    (w ++ [RawResponseWrapper_bytes v], Ok {| si_writer_guid := 7; si_sequence_number := 1 |}) |}.
#[local] Instance toy_feedback_writer : TopicWriter (list (list Z)) (FeedbackMessage Z) := {|
  write w m _ := (w ++ [[Z.of_N (fb_goal_id m); fb_feedback m]], Ok tt);
  async_write w m _ := (w ++ [[Z.of_N (fb_goal_id m); fb_feedback m]], Ok tt) |}.
#[local] Instance toy_raw_feedback_writer : TopicWriter (list (list Z)) RawMessageWrapper := {|
  write w m _ := (w ++ [RawMessageWrapper_bytes m], Ok tt);
  async_write w m _ := (w ++ [RawMessageWrapper_bytes m], Ok tt) |}.

Lemma toy_response_writers_agree : response_writers_agree (@eq (list (list Z))).
Proof. by intros w _ v v' o <- Hb; simpl; rewrite Hb. Qed.
Lemma toy_feedback_writers_agree : feedback_writers_agree (F:=Z) (@eq (list (list Z))).
Proof. intros w _ m v' t <- [= Hb]. by simpl; rewrite Hb. Qed.

Definition toy_sample {V : Type} (v : V) : DeserializedCacheChange V :=
  {| dcc_source_timestamp := None; dcc_sequence_number := 5; dcc_writer_guid := toy_guid 7;
     dcc_related_sample_identity := None; into_value := v |}.
Definition toy_typed_server (body : list Z) : Server (WS:=list (list Z))
    (DS:=list (result ReadError (DeserializedCacheChange RequestWrapper))) :=
  {| srv_service_mapping := Enhanced; response_sender := [];
     request_receiver := [Ok (toy_sample (RequestWrapper_from_bytes_and_ri body CDR_LE))] |}.
Definition toy_raw_server (body : list Z) : RawServer (WR:=list (list Z))
    (DR:=list (result ReadError (DeserializedCacheChange RawRequestWrapper))) :=
  {| raw_response_sender := [];
     raw_request_receiver := [Ok (toy_sample (RawRequestWrapper_from_bytes_and_ri body CDR_LE))] |}.
Lemma toy_same_server body :
  same_server (@eq (list (list Z))) (toy_typed_server body) (toy_raw_server body).
Proof.
  split_and!; [done| |done]. constructor; [|constructor].
  by eapply same_data; [left| | |].
Qed.

(** Goal 3 with payload 30 is sent to both servers. *)
Lemma raw_dds_action_server_agrees_witness :
  (receive_goal (G:=Z) (toy_typed_server [3; 30])).2 =
    ('(id, raw) ← Ok (toy_id, [0; 1; 0; 0; 3; 30]); m ← read_standalone raw; Ok (Some (id, m))) ∧
  (send_goal_response toy_now toy_id {| accepted := true; sg_stamp := Time_ZERO |}
     (toy_typed_server [3; 30])).2 =
    (respond_goal toy_now toy_id true Time_ZERO (toy_raw_server [3; 30])).2.
Proof.
  destruct (raw_dds_action_server_agrees (G:=Z) (R:=Z) (F:=Z) eq eq toy_now
    (toy_typed_server [3; 30]) (toy_raw_server [3; 30]) toy_response_writers_agree
    toy_feedback_writers_agree (toy_same_server _)) as ((_ & Hg) & Hr & _).
  split; [exact Hg | exact (proj2 (Hr toy_id true Time_ZERO))].
Defined.
