(* ===== verification/ZenohService.v ===== *)
(** * Services over Zenoh (zenoh_backend/service.rs, zenoh_backend/attachment.rs,
    zenoh_backend/cdr.rs)

    CDR payloads with their encapsulation header, the attachment that identifies
    a request, the client's call and the servers' table of pending queries.
    Third-party code is a parameter: the [zenoh-ext] serializer
    ([ZenohSerializer]), the [cdr-encoding] crate per message type
    ([CdrEncoding]), and the session, whose answers are arguments. *)
From S2P Require Import Prelude.
#[local] Open Scope Z_scope.

(** ** Third-party code *)

(** The error types of [cdr_encoding] and [zenoh]; the [ZSerializer] and
    [ZDeserializer] operations of [zenoh-ext] the attachment uses. *)
Class ZenohSerializer := {
  EncodingError : Type;
  ZenohError : Type;
  serialize_i64 : Z → list Z;
  serialize_gid : list Z → list Z;
  deserialize_i64 : list Z → option (Z * list Z);
  deserialize_gid : list Z → option (list Z * list Z);
}.
(** A Rust [[u8; 16]]. *)
Definition wf_gid (g : list Z) : Prop := length g = 16%nat ∧ Forall (λ b, 0 <= b < 256) g.
Class ZenohSerializerLaws `{ZenohSerializer} := {
  i64_roundtrip z rest : in_i64 z → deserialize_i64 (serialize_i64 z ++ rest) = Some (z, rest);
  gid_roundtrip g rest : wf_gid g → deserialize_gid (serialize_gid g ++ rest) = Some (g, rest);
  deserialize_gid_wf b g rest : deserialize_gid b = Some (g, rest) → wf_gid g;
  deserialize_i64_in b z rest : deserialize_i64 b = Some (z, rest) → in_i64 z;
}.
(** [cdr_encoding::to_vec] (little endian, the only use) and [from_bytes] for
    either byte order. *)
Class CdrEncoding `{ZenohSerializer} (M : Type) := {
  to_vec : M → result EncodingError (list Z);
  from_bytes : bool → list Z → result EncodingError (M * nat);
}.
Class CdrEncodingLaws `{ZenohSerializer} (M : Type) `{!CdrEncoding M} := {
  cdr_roundtrip (m : M) b : to_vec m = Ok b → from_bytes true b = Ok (m, length b);
}.

Section zenoh.
Context `{ZS : ZenohSerializer}.

(** ** zenoh_backend/cdr.rs *)

Definition CDR_LE_HEADER : list Z := [0; 1; 0; 0].
Inductive CdrError := Encoding (e : EncodingError) | MissingHeader.
Definition to_cdr {M : Type} `{!CdrEncoding M} (msg : M) : result CdrError (list Z) :=
  body ← map_err Encoding (to_vec msg);
  Ok (CDR_LE_HEADER ++ body).
Definition from_cdr {M : Type} `{!CdrEncoding M} (bytes : list Z) : result CdrError M :=
  if (length bytes <? 4)%nat then Err MissingHeader
  else
    let body := drop 4 bytes in
    let little_endian := bool_decide (Z.land (nth 1 bytes 0) 1 = 1) in
    '(msg, _) ← map_err Encoding (from_bytes little_endian body);
    Ok msg.

(** [Display], with those of the third-party errors. *)
Definition show_CdrError (show_encoding : EncodingError → str) (e : CdrError) : str :=
  match e with
  | Encoding e => lit "CDR encoding error: " ++ show_encoding e
  | MissingHeader => lit "CDR payload missing 4-byte encapsulation header"
  end.

(** ** zenoh_backend/attachment.rs *)

Record AttachmentData := {
  a_sequence_number : Z;
  a_source_timestamp : Z;
  a_source_gid : list Z;
}.
Inductive AttachmentError := MalformedAttachment.
Definition to_zbytes (a : AttachmentData) : list Z :=
  serialize_i64 (a_sequence_number a) ++ serialize_i64 (a_source_timestamp a) ++
  serialize_gid (a_source_gid a).
Definition from_zbytes (zbytes : list Z) : result AttachmentError AttachmentData :=
  '(sequence_number, d) ← ok_or MalformedAttachment (deserialize_i64 zbytes);
  '(source_timestamp, d) ← ok_or MalformedAttachment (deserialize_i64 d);
  '(source_gid, _) ← ok_or MalformedAttachment (deserialize_gid d);
  Ok {| a_sequence_number := sequence_number; a_source_timestamp := source_timestamp;
        a_source_gid := source_gid |}.

(** ** zenoh_backend/service.rs *)

Record RmwRequestId := { writer_gid : list Z; sequence_number : Z }.
Inductive ServiceError :=
| Cdr (e : CdrError)
| Zenoh (e : ZenohError)
| Malformed
| NoReply
| UnknownRequest.

Definition show_ServiceError (show_encoding : EncodingError → str) (show_zenoh : ZenohError → str)
    (e : ServiceError) : str :=
  match e with
  | Cdr e => lit "service: " ++ show_CdrError show_encoding e
  | Zenoh e => lit "service: zenoh error: " ++ show_zenoh e
  | Malformed => lit "service: malformed request/reply"
  | NoReply => lit "service: no reply received"
  | UnknownRequest => lit "service: unknown request id"
  end.

(** [u128::from_le_bytes]. *)
Fixpoint from_le_bytes (bs : list Z) : Z :=
  match bs with [] => 0 | b :: bs => b + 256 * from_le_bytes bs end.
Definition gid_key (gid : list Z) : Z := from_le_bytes gid.

(** A [zenoh::query::Query]: what its accessors return, and an identity. *)
Record Query := {
  query_id : N;
  payload : option (list Z);
  attachment : option (list Z);
  key_expr : str;
}.
(** What [query.reply(key, payload).attachment(a)] sends. *)
Record Reply := {
  r_query : Query;
  r_key : str;
  r_payload : list Z;
  r_attachment : list Z;
}.

Section service.
Context {Req Resp : Type} `{!CdrEncoding Req, !CdrEncoding Resp}.

(** *** Client *)
(** [timeout] is the override of the query's timeout, [client_token] the key of
    the liveliness token the client keeps alive. *)
Record Client := {
  selector : str;
  seq : Z;
  client_gid : list Z;
  timeout : option StdDuration;
  client_token : option str;
}.
Definition Client_new_with_timeout (sel : str) (gid : list Z) (token : option str)
    (timeout : option StdDuration) : Client :=
  {| selector := sel; seq := 0; client_gid := gid; timeout := timeout; client_token := token |}.
Definition Client_new (sel : str) (gid : list Z) (token : option str) : Client :=
  Client_new_with_timeout sel gid token None.
Definition set_seq (s : Z) (c : Client) : Client :=
  {| selector := selector c; seq := s; client_gid := client_gid c; timeout := timeout c;
     client_token := client_token c |}.

(** [fetch_add(1) + 1]: the counter wraps, the sum overflows with the profile
    ([None] is the panic). The counter does not move when serialization fails. *)
Definition request_bytes (pr : profile) (now_nanos : Z) (req : Req) (c : Client) :
    option (Client * result ServiceError (list Z * list Z)) :=
  match map_err Cdr (to_cdr req) with
  | Err e => Some (c, Err e)
  | Ok payload =>
      let c' := set_seq (wrap_signed 64 (seq c + 1)) c in
      s ← arith pr 64 (seq c + 1);
      Some (c', Ok (payload, to_zbytes {| a_sequence_number := s;
                                          a_source_timestamp := now_nanos;
                                          a_source_gid := client_gid c |}))
  end.
(** [reply.result()]: the sample's payload or the reply's error. *)
Definition decode_reply (reply : result unit (list Z)) : option (result ServiceError Resp) :=
  match reply with
  | Err _ => None
  | Ok bytes => Some (map_err Cdr (from_cdr bytes))
  end.
Fixpoint first_reply (replies : list (result unit (list Z))) : result ServiceError Resp :=
  match replies with
  | [] => Err NoReply
  | reply :: replies =>
      match decode_reply reply with
      | Some res => res
      | None => first_reply replies
      end
  end.
(** [get] is the session's query, of a selector, a payload, an attachment and a
    timeout: it answers with the replies that arrive until the channel closes. *)
Definition call (pr : profile) (now_nanos : Z)
    (get : str → list Z → list Z → option StdDuration →
           result ZenohError (list (result unit (list Z))))
    (req : Req) (c : Client) : option (Client * result ServiceError Resp) :=
  '(c', built) ← request_bytes pr now_nanos req c;
  Some (c', '(payload, attachment) ← built;
            replies ← map_err Zenoh (get (selector c) payload attachment (timeout c));
            first_reply replies).
(** The same, awaited: polls that find no reply yet are suspensions. *)
Inductive Arrival := Suspends | Arrives (reply : result unit (list Z)).
Fixpoint first_reply_async (arrivals : list Arrival) : result ServiceError Resp :=
  match arrivals with
  | [] => Err NoReply
  | Suspends :: arrivals => first_reply_async arrivals
  | Arrives reply :: arrivals =>
      match decode_reply reply with
      | Some res => res
      | None => first_reply_async arrivals
      end
  end.
Definition async_call (pr : profile) (now_nanos : Z)
    (get : str → list Z → list Z → option StdDuration → result ZenohError (list Arrival))
    (req : Req) (c : Client) : option (Client * result ServiceError Resp) :=
  '(c', built) ← request_bytes pr now_nanos req c;
  Some (c', '(payload, attachment) ← built;
            arrivals ← map_err Zenoh (get (selector c) payload attachment (timeout c));
            first_reply_async arrivals).

(** *** Server *)
Abbreviation Pending := (gmap (Z * Z) Query) (only parsing).

(** A [Server] or a [RawServer]: the key of its queryable, the queries received
    and not yet answered, on which the operations below work, and the key of its
    liveliness token. *)
Record Server := { queryable : str; pending : Pending; server_token : option str }.
Definition Server_new (q : str) (token : option str) : Server :=
  {| queryable := q; pending := ∅; server_token := token |}.

Definition accept (query : Query) (pending : Pending) :
    Pending * result ServiceError (RmwRequestId * Req) :=
  match (payload ← ok_or Malformed (payload query);
         req ← map_err Cdr (from_cdr payload);
         att ← ok_or Malformed (attachment query);
         a ← map_err (λ _, Malformed) (from_zbytes att);
         Ok (a, req))
  with
  | Err e => (pending, Err e)
  | Ok (a, req) =>
      (<[(gid_key (a_source_gid a), a_sequence_number a) := query]> pending,
       Ok ({| writer_gid := a_source_gid a; sequence_number := a_sequence_number a |}, req))
  end.
(** [received] is what the queryable's channel gives. *)
Definition try_receive_request (received : result unit (option Query)) (pending : Pending) :
    Pending * result ServiceError (option (RmwRequestId * Req)) :=
  match received with
  | Ok (Some query) => let '(p, r) := accept query pending in (p, Some <$> r)
  | Ok None => (pending, Ok None)
  | Err _ => (pending, Ok None)
  end.
Definition async_receive_request (received : result unit Query) (pending : Pending) :
    Pending * result ServiceError (RmwRequestId * Req) :=
  match received with
  | Err _ => (pending, Err NoReply)
  | Ok query => accept query pending
  end.
(** [replied] is the outcome of [reply(..).wait()]; the second component is the
    reply handed to Zenoh, if any. *)
Definition send_response (now_nanos : Z) (replied : result ZenohError unit)
    (id : RmwRequestId) (resp : Resp) (pending : Pending) :
    Pending * option Reply * result ServiceError unit :=
  let key := (gid_key (writer_gid id), sequence_number id) in
  match pending !! key with
  | None => (pending, None, Err UnknownRequest)
  | Some query =>
      match map_err Cdr (to_cdr resp) with
      | Err e => (delete key pending, None, Err e)
      | Ok payload =>
          (delete key pending,
           Some {| r_query := query; r_key := key_expr query; r_payload := payload;
                   r_attachment := to_zbytes {| a_sequence_number := sequence_number id;
                                                a_source_timestamp := now_nanos;
                                                a_source_gid := writer_gid id |} |},
           map_err Zenoh replied)
      end
  end.

(** *** RawServer *)
Definition raw_accept (query : Query) (pending : Pending) :
    Pending * result ServiceError (RmwRequestId * list Z) :=
  match (bytes ← ok_or Malformed (payload query);
         att ← ok_or Malformed (attachment query);
         a ← map_err (λ _, Malformed) (from_zbytes att);
         Ok (a, bytes))
  with
  | Err e => (pending, Err e)
  | Ok (a, bytes) =>
      (<[(gid_key (a_source_gid a), a_sequence_number a) := query]> pending,
       Ok ({| writer_gid := a_source_gid a; sequence_number := a_sequence_number a |}, bytes))
  end.
Definition raw_try_receive_request (received : result unit (option Query)) (pending : Pending) :
    Pending * result ServiceError (option (RmwRequestId * list Z)) :=
  match received with
  | Ok (Some query) => let '(p, r) := raw_accept query pending in (p, Some <$> r)
  | Ok None => (pending, Ok None)
  | Err _ => (pending, Ok None)
  end.
Definition raw_async_receive_request (received : result unit Query) (pending : Pending) :
    Pending * result ServiceError (RmwRequestId * list Z) :=
  match received with
  | Err _ => (pending, Err NoReply)
  | Ok query => raw_accept query pending
  end.
Definition raw_send_response (now_nanos : Z) (replied : result ZenohError unit)
    (id : RmwRequestId) (response : list Z) (pending : Pending) :
    Pending * option Reply * result ServiceError unit :=
  let key := (gid_key (writer_gid id), sequence_number id) in
  match pending !! key with
  | None => (pending, None, Err UnknownRequest)
  | Some query =>
      (delete key pending,
       Some {| r_query := query; r_key := key_expr query; r_payload := response;
               r_attachment := to_zbytes {| a_sequence_number := sequence_number id;
                                            a_source_timestamp := now_nanos;
                                            a_source_gid := writer_gid id |} |},
       map_err Zenoh replied)
  end.

(** *** A server's life

    The operations a typed and a raw server execute, and the state they leave:
    the pending queries and the replies sent. *)
Inductive server_op :=
| Receive (query : Query)
| Respond (now_nanos : Z) (replied : result ZenohError unit) (id : RmwRequestId) (resp : Resp)
| RawReceive (query : Query)
| RawRespond (now_nanos : Z) (replied : result ZenohError unit) (id : RmwRequestId)
    (response : list Z).
Definition exec (o : server_op) (s : Pending * list Reply) : Pending * list Reply :=
  let '(pending, replies) := s in
  match o with
  | Receive q => ((accept q pending).1, replies)
  | RawReceive q => ((raw_accept q pending).1, replies)
  | Respond now replied id resp =>
      let '(p, sent, _) := send_response now replied id resp pending in
      (p, replies ++ option_list sent)
  | RawRespond now replied id response =>
      let '(p, sent, _) := raw_send_response now replied id response pending in
      (p, replies ++ option_list sent)
  end.
Definition run (ops : list server_op) : Pending * list Reply :=
  foldl (λ s o, exec o s) (∅, []) ops.
Definition received_query (o : server_op) : option Query :=
  match o with Receive q | RawReceive q => Some q | _ => None end.
Definition wf_op (o : server_op) : Prop :=
  match o with
  | Respond now _ id _ | RawRespond now _ id _ =>
      in_i64 now ∧ wf_gid (writer_gid id) ∧ in_i64 (sequence_number id)
  | _ => True
  end.
End service.
End zenoh.

(** ** Properties *)

Section spec.
Context `{ZS : ZenohSerializer, !ZenohSerializerLaws}.
Context {Req Resp : Type} `{!CdrEncoding Req, !CdrEncoding Resp}.
Implicit Types (o : server_op (Resp:=Resp)) (q : Query).

(** What a query's own attachment says. *)
Definition identified q (a : AttachmentData) : Prop :=
  ∃ att, attachment q = Some att ∧ from_zbytes att = Ok a.
(** A reply goes to a received query, on its key, and repeats the sequence
    number and the client of that query's attachment. *)
Definition answers (received : list Query) (r : Reply) : Prop :=
  r_query r ∈ received ∧ r_key r = key_expr (r_query r) ∧
  ∃ a b, identified (r_query r) a ∧ from_zbytes (r_attachment r) = Ok b ∧
    a_sequence_number b = a_sequence_number a ∧ a_source_gid b = a_source_gid a.

(** *** Attachments and payloads *)
Lemma attachment_roundtrip a :
  in_i64 (a_sequence_number a) → in_i64 (a_source_timestamp a) → wf_gid (a_source_gid a) →
  from_zbytes (to_zbytes a) = Ok a.
Proof.
  intros Hs Ht Hg. unfold from_zbytes, to_zbytes.
  rewrite (i64_roundtrip _ _ Hs). simpl. rewrite (i64_roundtrip _ _ Ht). simpl.
  rewrite <-(app_nil_r (serialize_gid _)), (gid_roundtrip _ _ Hg). by destruct a.
Qed.
Lemma from_zbytes_wf b a :
  from_zbytes b = Ok a → in_i64 (a_sequence_number a) ∧ wf_gid (a_source_gid a).
Proof.
  unfold from_zbytes.
  destruct (deserialize_i64 b) as [[s d]|] eqn:Hs; simpl; [|done].
  destruct (deserialize_i64 d) as [[t d']|]; simpl; [|done].
  destruct (deserialize_gid d') as [[g e]|] eqn:Hg; simpl; [|done]. intros [= <-]. simpl.
  eauto using deserialize_i64_in, deserialize_gid_wf.
Qed.
Lemma from_to_cdr {M : Type} `{!CdrEncoding M, !CdrEncodingLaws M} (m : M) bs :
  to_cdr m = Ok bs → from_cdr bs = Ok m.
Proof.
  unfold to_cdr. destruct (to_vec m) as [body|] eqn:Hm; simpl; [|done]. intros [= <-].
  unfold from_cdr. simpl. rewrite ?drop_0. by rewrite (cdr_roundtrip _ _ Hm).
Qed.
Lemma from_le_bytes_inj a b :
  length a = length b → Forall (λ x, 0 <= x < 256) a → Forall (λ x, 0 <= x < 256) b →
  from_le_bytes a = from_le_bytes b → a = b.
Proof.
  revert b. induction a as [|x a IH]; intros [|y b] Hl Ha Hb He; simplify_eq/=; [done|].
  inversion Ha; inversion Hb; subst. assert (x = y ∧ from_le_bytes a = from_le_bytes b) as [-> ?] by lia.
  f_equal. by apply IH.
Qed.
Lemma gid_key_inj a b : wf_gid a → wf_gid b → gid_key a = gid_key b → a = b.
Proof. intros [??] [??] ?. by apply from_le_bytes_inj; [congruence|..]. Qed.

(** *** The two ways to accept and to answer, in one form *)
Lemma accept_cases q p :
  (accept (Req:=Req) q p).1 = p ∨
  ∃ a, identified q a ∧
    (accept (Req:=Req) q p).1 = <[(gid_key (a_source_gid a), a_sequence_number a) := q]> p.
Proof.
  unfold accept, identified. destruct (payload q) as [bs|]; simpl; [|by left].
  destruct (from_cdr bs) as [req|]; simpl; [|by left].
  destruct (attachment q) as [att|]; simpl; [|by left].
  destruct (from_zbytes att) as [a|] eqn:?; simpl; [|by left]. right. eauto.
Qed.
Lemma raw_accept_cases q p :
  (raw_accept q p).1 = p ∨
  ∃ a, identified q a ∧
    (raw_accept q p).1 = <[(gid_key (a_source_gid a), a_sequence_number a) := q]> p.
Proof.
  unfold raw_accept, identified. destruct (payload q) as [bs|]; simpl; [|by left].
  destruct (attachment q) as [att|]; simpl; [|by left].
  destruct (from_zbytes att) as [a|] eqn:?; simpl; [|by left]. right. eauto.
Qed.

Definition reply_ids (rs : list Reply) : list N := query_id ∘ r_query <$> rs.
(** The invariant of a server's life. *)
Record server_inv (received : list Query) (p : gmap (Z * Z) Query) (rs : list Reply) : Prop := {
  inv_pending k q : p !! k = Some q → q ∈ received ∧
    ∃ a, identified q a ∧ k = (gid_key (a_source_gid a), a_sequence_number a);
  inv_keys k1 k2 q1 q2 :
    p !! k1 = Some q1 → p !! k2 = Some q2 → query_id q1 = query_id q2 → k1 = k2;
  inv_fresh k q : p !! k = Some q → query_id q ∉ reply_ids rs;
  inv_once : NoDup (reply_ids rs);
  inv_replies : Forall (answers received) rs;
}.

Lemma answers_mono l l' r : l ⊆ l' → answers l r → answers l' r.
Proof. intros Hl (? & ? & ?). split_and!; auto. Qed.
Lemma server_inv_mono l l' p rs : l ⊆ l' → server_inv l p rs → server_inv l' p rs.
Proof.
  intros Hl [H1 H2 H3 H4 H5]. split; [|done..|].
  - intros k q Hq. destruct (H1 k q Hq). auto.
  - eapply Forall_impl; [done|]. intros r. by apply answers_mono.
Qed.
Lemma server_inv_ids l p rs i : server_inv l p rs → i ∈ reply_ids rs → i ∈ query_id <$> l.
Proof.
  intros Hinv (r & -> & Hr)%list_elem_of_fmap.
  pose proof (inv_replies _ _ _ Hinv) as Hall. rewrite Forall_forall in Hall.
  destruct (Hall r Hr) as (Hq & _). simpl. apply list_elem_of_fmap. eauto.
Qed.

Lemma receive_preserves l p rs q a :
  server_inv l p rs → query_id q ∉ query_id <$> l → identified q a →
  server_inv (l ++ [q]) (<[(gid_key (a_source_gid a), a_sequence_number a) := q]> p) rs.
Proof.
  intros Hinv Hnew Ha.
  assert (∀ k q', p !! k = Some q' → query_id q' ≠ query_id q) as Hne.
  { intros k q' [Hq' _]%(inv_pending _ _ _ Hinv) He. apply Hnew. rewrite <-He.
    apply list_elem_of_fmap. eauto. }
  assert (l ⊆ l ++ [q]) as Hsub by set_solver.
  split.
  - intros k q' [[<- <-]|[Hk Hq']]%lookup_insert_Some.
    + split; [set_solver|eauto].
    + destruct (inv_pending _ _ _ Hinv k q' Hq') as [? ?]. split; [set_solver|done].
  - intros k1 k2 q1 q2 [[<- <-]|[Hk1 Hq1]]%lookup_insert_Some
      [[<- <-]|[Hk2 Hq2]]%lookup_insert_Some He; [done|by apply Hne in Hq2|by apply Hne in Hq1|].
    by eapply inv_keys.
  - intros k q' [[<- <-]|[Hk Hq']]%lookup_insert_Some.
    + intros Hi. by apply Hnew, (server_inv_ids _ _ _ _ Hinv).
    + by eapply inv_fresh.
  - by eapply inv_once.
  - eapply Forall_impl; [by eapply inv_replies|]. intros r. by apply answers_mono.
Qed.
Lemma delete_preserves l p rs k : server_inv l p rs → server_inv l (delete k p) rs.
Proof.
  intros [H1 H2 H3 H4 H5]. split; [..|done|done].
  - intros k' q [_ Hq]%lookup_delete_Some. eauto.
  - intros k1 k2 q1 q2 [_ ?]%lookup_delete_Some [_ ?]%lookup_delete_Some. eauto.
  - intros k' q [_ Hq]%lookup_delete_Some. eauto.
Qed.
Lemma respond_preserves l p rs now id payload q :
  server_inv l p rs → in_i64 now → wf_gid (writer_gid id) → in_i64 (sequence_number id) →
  p !! (gid_key (writer_gid id), sequence_number id) = Some q →
  server_inv l (delete (gid_key (writer_gid id), sequence_number id) p)
    (rs ++ [{| r_query := q; r_key := key_expr q; r_payload := payload;
               r_attachment := to_zbytes {| a_sequence_number := sequence_number id;
                                            a_source_timestamp := now;
                                            a_source_gid := writer_gid id |} |}]).
Proof.
  intros Hinv Hnow Hg Hs Hq.
  destruct (inv_pending _ _ _ Hinv _ _ Hq) as (Hrec & a & Ha & Hkey).
  pose proof (delete_preserves l p rs (gid_key (writer_gid id), sequence_number id) Hinv) as Hdel.
  destruct Ha as (att & Hatt & Hfrom). pose proof (from_zbytes_wf _ _ Hfrom) as [_ Hga].
  injection Hkey as Hk1 Hk2. apply gid_key_inj in Hk1; [|done..].
  assert (reply_ids (rs ++ [{| r_query := q; r_key := key_expr q; r_payload := payload;
    r_attachment := to_zbytes {| a_sequence_number := sequence_number id;
      a_source_timestamp := now; a_source_gid := writer_gid id |} |}]) =
    reply_ids rs ++ [query_id q]) as Hids by (unfold reply_ids; by rewrite fmap_app).
  split; [by eapply inv_pending|by eapply inv_keys|rewrite Hids|rewrite Hids|].
  - intros k q' Hq' [Hin|Heq]%elem_of_app; [by eapply (inv_fresh _ _ _ Hdel)|].
    apply list_elem_of_singleton in Heq. apply lookup_delete_Some in Hq' as [Hk Hq'].
    apply Hk. by eapply (inv_keys _ _ _ Hinv).
  - apply NoDup_app. split_and!; [by eapply inv_once| |apply NoDup_singleton].
    intros i Hi ->%list_elem_of_singleton. by eapply (inv_fresh _ _ _ Hinv).
  - apply Forall_app. split; [by eapply inv_replies|]. constructor; [|done].
    split_and!; [done..|]. exists a, {| a_sequence_number := sequence_number id;
      a_source_timestamp := now; a_source_gid := writer_gid id |}.
    split_and!; [by exists att|by apply attachment_roundtrip|done..].
Qed.

Lemma exec_preserves l o p rs :
  server_inv l p rs → wf_op o →
  (∀ q, received_query o = Some q → query_id q ∉ query_id <$> l) →
  server_inv (l ++ option_list (received_query o)) (exec (Req:=Req) o (p, rs)).1
    (exec (Req:=Req) o (p, rs)).2.
Proof.
  intros Hinv Hwf Hnew. destruct o as [q|now replied id resp|q|now replied id resp]; simpl in *.
  - destruct (accept_cases q p) as [->|(a & Ha & ->)]; [|by apply receive_preserves; auto].
    eapply server_inv_mono; [|done]. set_solver.
  - rewrite app_nil_r. destruct Hwf as (? & ? & ?). unfold send_response.
    destruct (p !! _) as [q|] eqn:Hq; simpl; [|by rewrite app_nil_r].
    destruct (to_cdr resp); simpl; [by apply respond_preserves|].
    rewrite app_nil_r. by apply delete_preserves.
  - destruct (raw_accept_cases q p) as [->|(a & Ha & ->)]; [|by apply receive_preserves; auto].
    eapply server_inv_mono; [|done]. set_solver.
  - rewrite app_nil_r. destruct Hwf as (? & ? & ?). unfold raw_send_response.
    destruct (p !! _) as [q|] eqn:Hq; simpl; [by apply respond_preserves|by rewrite app_nil_r].
Qed.
Lemma run_inv (ops : list server_op) :
  Forall wf_op ops → NoDup (query_id <$> omap received_query ops) →
  server_inv (omap received_query ops) (run (Req:=Req) ops).1 (run (Req:=Req) ops).2.
Proof.
  induction ops as [|o ops IH] using rev_ind.
  { split; simpl; try set_solver; by constructor. }
  intros [Hwf [Ho _]%Forall_cons]%Forall_app.
  assert (omap received_query (ops ++ [o]) =
    omap received_query ops ++ option_list (received_query o)) as ->.
  { rewrite omap_app. simpl. by destruct (received_query o). }
  rewrite fmap_app, NoDup_app. intros (Hnd & Hdisj & _).
  unfold run. rewrite foldl_app. simpl. fold (run (Req:=Req) ops).
  specialize (IH Hwf Hnd). destruct (run (Req:=Req) ops) as [p rs].
  apply exec_preserves; [done..|]. intros q Hq Hin. apply (Hdisj _ Hin). rewrite Hq. simpl. set_solver.
Qed.

(** C17: Over any sequence of requests received and responses sent by a typed or
    a raw server, every reply goes to a query the server received, on that
    query's key expression, and its attachment repeats the sequence number and
    the client GID of that query; no query is replied to twice; and a query that
    has been replied to is not pending any more. *)
Theorem replies_answer_their_requests (ops : list server_op) :
  Forall wf_op ops → NoDup (query_id <$> omap received_query ops) →
  Forall (answers (omap received_query ops)) (run (Req:=Req) ops).2 ∧
  NoDup (query_id ∘ r_query <$> (run (Req:=Req) ops).2) ∧
  ∀ k q, (run (Req:=Req) ops).1 !! k = Some q →
    query_id q ∉ (query_id ∘ r_query <$> (run (Req:=Req) ops).2).
Proof.
  intros Hwf Hnd. pose proof (run_inv ops Hwf Hnd) as Hinv.
  split_and!; [by eapply inv_replies|by eapply inv_once|]. intros k q. by eapply inv_fresh.
Qed.

(** *** A call, end to end *)
Context `{!CdrEncodingLaws Req, !CdrEncodingLaws Resp}.

Lemma request_bytes_ok pr now (req : Req) c c' pl att :
  request_bytes pr now req c = Some (c', Ok (pl, att)) →
  to_cdr req = Ok pl ∧ client_gid c' = client_gid c ∧ in_i64 (seq c') ∧
  arith pr 64 (seq c + 1) = Some (seq c') ∧
  att = to_zbytes {| a_sequence_number := seq c'; a_source_timestamp := now;
                     a_source_gid := client_gid c |}.
Proof.
  unfold request_bytes. destruct (to_cdr req) as [b|]; simpl; [|done].
  destruct (arith pr 64 (seq c + 1)) as [s|] eqn:Hs; simpl; [|done].
  intros [= <- <- <-]. destruct (arith_i64_in _ _ _ Hs) as [-> ?]. done.
Qed.
(** Awaiting a call gives what blocking on it gives. *)
Definition replies_of (l : list Arrival) : list (result unit (list Z)) :=
  omap (λ a, match a with Suspends => None | Arrives r => Some r end) l.
Lemma first_reply_async_eq l : first_reply_async (Resp:=Resp) l = first_reply (replies_of l).
Proof. by induction l as [|[|r] l IH]; simpl; rewrite ?IH. Qed.
Lemma async_call_eq pr now get (req : Req) c :
  async_call (Resp:=Resp) pr now get req c =
    call pr now (λ k b a t, replies_of <$> get k b a t) req c.
Proof.
  unfold async_call, call. destruct (request_bytes pr now req c) as [[c' [[b a]|e]]|]; [|done..].
  simpl. destruct (get _ b a _) as [l|e]; simpl; [|done]. by rewrite first_reply_async_eq.
Qed.

Lemma first_reply_skips (errors : list unit) (replies : list (result unit (list Z))) :
  first_reply (Resp:=Resp) ((Err <$> errors) ++ replies) = first_reply replies.
Proof. by induction errors as [|u errors IH]. Qed.

(** A server accepts what a client sends, under the client's GID and number. *)
Lemma accept_request pr now (req : Req) c c' pl att q p :
  request_bytes pr now req c = Some (c', Ok (pl, att)) →
  wf_gid (client_gid c) → in_i64 now → payload q = Some pl → attachment q = Some att →
  accept q p = (<[(gid_key (client_gid c), seq c') := q]> p,
                Ok ({| writer_gid := client_gid c; sequence_number := seq c' |}, req)).
Proof.
  intros Hb Hg Hnow Hpl Hatt. apply request_bytes_ok in Hb as (Hreq & Hg' & Hs & Har & ->).
  unfold accept. rewrite Hpl, Hatt. simpl. rewrite (from_to_cdr _ _ Hreq). simpl.
  by rewrite attachment_roundtrip.
Qed.
(** The response to a pending request is what the call it answers returns. *)
Lemma response_returned now replied id (resp : Resp) bs q p errors later :
  p !! (gid_key (writer_gid id), sequence_number id) = Some q → to_cdr resp = Ok bs →
  ∃ r, send_response now replied id resp p =
      (delete (gid_key (writer_gid id), sequence_number id) p, Some r, map_err Zenoh replied) ∧
    r_query r = q ∧ first_reply ((Err <$> errors) ++ Ok (r_payload r) :: later) = Ok resp.
Proof.
  intros Hq Hbs. unfold send_response. rewrite Hq, Hbs. simpl.
  eexists. split; [done|]. split; [done|].
  rewrite first_reply_skips. simpl. by rewrite (from_to_cdr _ _ Hbs).
Qed.

(** C25: A service call, end to end. The query a client sends is accepted under
    the client's GID and its next sequence number, with the request sent; the
    response to that id goes to that very query, exactly once, and is what the
    call returns when it is the first reply that is not an error. *)
Theorem call_roundtrip pr now (req : Req) c c' pl att q p (resp : Resp) bs now2 replied
    errors later :
  request_bytes pr now req c = Some (c', Ok (pl, att)) →
  wf_gid (client_gid c) → in_i64 now →
  payload q = Some pl → attachment q = Some att → to_cdr resp = Ok bs →
  let id := {| writer_gid := client_gid c; sequence_number := seq c' |} in
  let key := (gid_key (client_gid c), seq c') in
  arith pr 64 (seq c + 1) = Some (seq c') ∧
  accept q p = (<[key := q]> p, Ok (id, req)) ∧
  ∃ r, send_response now2 replied id resp (<[key := q]> p) =
      (delete key (<[key := q]> p), Some r, map_err Zenoh replied) ∧
    r_query r = q ∧
    first_reply ((Err <$> errors) ++ Ok (r_payload r) :: later) = Ok resp ∧
    send_response now2 replied id resp (delete key (<[key := q]> p)) =
      (delete key (<[key := q]> p), None, Err UnknownRequest).
Proof.
  intros Hb Hg Hnow Hpl Hatt Hbs id key. split; [by apply request_bytes_ok in Hb as (_&_&_&?&_)|].
  split; [by eapply accept_request|].
  destruct (response_returned now2 replied id resp bs q (<[key := q]> p) errors later)
    as (r&Hsend&Hq&Hf); [apply lookup_insert_eq|done|].
  exists r. split_and!; [done..|]. unfold send_response. by rewrite lookup_delete_eq.
Qed.

(** The raw server agrees with the typed one on what the typed one accepts and
    sends. *)
Lemma raw_accept_typed q p p' id (req : Req) :
  accept q p = (p', Ok (id, req)) →
  ∃ bytes, payload q = Some bytes ∧ from_cdr bytes = Ok req ∧ raw_accept q p = (p', Ok (id, bytes)).
Proof.
  unfold accept, raw_accept. destruct (payload q) as [bs|]; simpl; [|done].
  destruct (from_cdr bs) as [r|] eqn:Hr; simpl; [|done].
  destruct (attachment q) as [att|]; simpl; [|done].
  destruct (from_zbytes att) as [a|]; simpl; [|done]. intros [= <- <- <-]. eauto.
Qed.
Lemma raw_send_typed now replied id (resp : Resp) bs p :
  to_cdr resp = Ok bs →
  raw_send_response now replied id bs p = send_response now replied id resp p.
Proof. intros Hbs. unfold raw_send_response, send_response. rewrite Hbs. by destruct (p !! _). Qed.
End spec.

(** ** A concrete instance, at which the theorems' hypotheses hold *)

(** Eight little-endian bytes, and a length byte before the sixteen of a GID. *)
Fixpoint toy_le (n : nat) (z : Z) : list Z :=
  match n with O => [] | S n => z mod 256 :: toy_le n (z / 256) end.
Definition toy_i64 (b : list Z) : option (Z * list Z) :=
  if (8 <=? length b)%nat && forallb (λ x, (0 <=? x) && (x <? 256)) (take 8 b)
  then Some (wrap_signed 64 (from_le_bytes (take 8 b)), drop 8 b) else None.
Definition toy_gid (b : list Z) : option (list Z * list Z) :=
  match b with
  | n :: b =>
      if (16 <=? length b)%nat && forallb (λ x, (0 <=? x) && (x <? 256)) (take 16 b)
      then Some (take 16 b, drop 16 b) else None
  | [] => None
  end.
#[local] Instance toy_serializer : ZenohSerializer := {|
  EncodingError := unit; ZenohError := unit;
  serialize_i64 z := toy_le 8 (z mod 2 ^ 64); serialize_gid g := 16 :: g;
  deserialize_i64 := toy_i64; deserialize_gid := toy_gid |}.
Lemma toy_le_length n z : length (toy_le n z) = n.
Proof. revert z. induction n as [|n IH]; intros z; simpl; auto. Qed.
Lemma toy_le_bytes n z : forallb (λ x, (0 <=? x) && (x <? 256)) (toy_le n z) = true.
Proof.
  revert z. induction n as [|n IH]; intros z; [done|]. simpl. rewrite IH.
  repeat (apply andb_true_intro; split); try done; lia.
Qed.
Lemma toy_le_value n z : 0 <= z < 256 ^ Z.of_nat n → from_le_bytes (toy_le n z) = z.
Proof.
  revert z. induction n as [|n IH]; intros z Hz; [simpl in *; lia|]. simpl.
  rewrite IH; [lia|]. rewrite Nat2Z.inj_succ, Z.pow_succ_r in Hz by lia. lia.
Qed.
Lemma toy_bytes_forall b : forallb (λ x, (0 <=? x) && (x <? 256)) b = true →
  Forall (λ x, 0 <= x < 256) b.
Proof.
  rewrite forallb_forall, Forall_forall. intros Hb x Hx.
  apply list_elem_of_In, Hb in Hx. lia.
Qed.
#[local] Instance toy_serializer_laws : ZenohSerializerLaws.
Proof.
  split.
  - intros z rest Hz. cbn [deserialize_i64 serialize_i64 toy_serializer]. unfold toy_i64.
    rewrite length_app, take_app_length', drop_app_length', toy_le_bytes, toy_le_length
      by first [apply toy_le_length | symmetry; apply toy_le_length]. rewrite toy_le_value by (simpl Z.of_nat; lia).
    cbn [andb Nat.leb Nat.add]. f_equal. f_equal. unfold wrap_signed, in_i64, i64_min, i64_max in *.
    change (2 ^ 64) with 18446744073709551616.
    change (2 ^ (64 - 1)) with 9223372036854775808. lia.
  - intros g rest [Hl Hg]. cbn [deserialize_gid serialize_gid toy_serializer toy_gid app].
    rewrite length_app, Hl, take_app_length', drop_app_length' by done.
    assert (forallb (λ x, (0 <=? x) && (x <? 256)) g = true) as ->; [|done].
    apply forallb_forall. intros x Hx%list_elem_of_In. rewrite Forall_forall in Hg.
    specialize (Hg x Hx). simpl in Hg. lia.
  - intros [|n b] g rest; [done|]. cbn [deserialize_gid toy_serializer toy_gid].
    destruct (16 <=? length b)%nat eqn:Hl; [|done]. destruct (forallb _ _) eqn:Hb; [|done].
    intros [= <- <-]. split; [|by apply toy_bytes_forall].
    rewrite length_take. apply Nat.leb_le in Hl. lia.
  - intros b z rest. cbn [deserialize_i64 toy_serializer]. unfold toy_i64.
    destruct (8 <=? length b)%nat; [|done]. destruct (forallb _ _); [|done].
    intros [= <- <-]. by destruct (arith_i64_in Release (from_le_bytes (take 8 b)) _ eq_refl).
Qed.
#[local] Instance toy_encoding : CdrEncoding Z := {|
  to_vec m := Ok [m];
  from_bytes _ b := match b with m :: _ => Ok (m, 1%nat) | [] => Err tt end |}.
#[local] Instance toy_encoding_laws : CdrEncodingLaws Z.
Proof. by split; intros m b [= <-]. Qed.

Definition toy_client_gid : list Z := repeat 3 16.
Definition toy_query (i : N) (n m : Z) : Query :=
  {| query_id := i; payload := Some (CDR_LE_HEADER ++ [m]);
     attachment := Some (to_zbytes {| a_sequence_number := n; a_source_timestamp := 5;
                                      a_source_gid := toy_client_gid |});
     key_expr := lit "0/add_two_ints" |}.
Definition toy_request (n : Z) : RmwRequestId :=
  {| writer_gid := toy_client_gid; sequence_number := n |}.
Lemma toy_wf_gid : wf_gid toy_client_gid.
Proof. split; [done|]. by repeat constructor. Qed.

(** Two requests, answered in the opposite order, the first of them twice. *)
Definition toy_life : list (server_op (Resp:=Z)) :=
  [Receive (toy_query 0 1 10); RawReceive (toy_query 1 2 20);
   Respond 6 (Ok tt) (toy_request 2) 200; RawRespond 7 (Ok tt) (toy_request 1) [100];
   Respond 8 (Ok tt) (toy_request 1) 300].
Lemma replies_answer_their_requests_witness :
  (query_id ∘ r_query <$> (run (Req:=Z) toy_life).2) = [1%N; 0%N] ∧
  Forall (answers (omap received_query toy_life)) (run (Req:=Z) toy_life).2.
Proof.
  split; [vm_compute; reflexivity|].
  refine (proj1 (replies_answer_their_requests (Req:=Z) toy_life _ _)).
  - repeat constructor; try exact toy_wf_gid; discriminate.
  - apply (bool_decide_unpack _). vm_compute. exact I.
Defined.

Lemma call_roundtrip_witness :
  ∃ r, send_response 9 (Ok tt) (toy_request 1) 70
      (<[(gid_key toy_client_gid, 1) := toy_query 0 1 10]> ∅) =
      (delete (gid_key toy_client_gid, 1) (<[(gid_key toy_client_gid, 1) := toy_query 0 1 10]> ∅),
       Some r, Ok tt) ∧
    first_reply [Err tt; Ok (r_payload r)] = Ok 70.
Proof.
  assert (request_bytes Debug 5 10 (Client_new [] toy_client_gid None) =
    Some (set_seq 1 (Client_new [] toy_client_gid None),
          Ok (CDR_LE_HEADER ++ [10],
              to_zbytes {| a_sequence_number := 1; a_source_timestamp := 5;
                           a_source_gid := toy_client_gid |}))) as Hreq by reflexivity.
  assert (to_cdr 70 = Ok (CDR_LE_HEADER ++ [70])) as Hresp by reflexivity.
  assert (in_i64 5) as H5 by (split; discriminate).
  destruct (call_roundtrip (Req:=Z) (Resp:=Z) _ _ _ _ _ _ _ (toy_query 0 1 10) ∅ 70
    (CDR_LE_HEADER ++ [70]) 9 (Ok tt) [tt] [] Hreq toy_wf_gid H5 eq_refl eq_refl Hresp)
    as (_ & _ & r & Hsend & _ & Hfirst & _).
  exists r. split; [exact Hsend | exact Hfirst].
Defined.
