(* ===== verification/ZenohPubSub.v ===== *)
(** * Topics over Zenoh (zenoh_backend/pubsub.rs)

    Publishers that number their messages, raw publishers, and subscriptions
    that read messages and their [MessageInfo] from samples. The clock reading,
    the outcome of a [put] and what the subscriber's channel gives are
    arguments; a [put] is returned as the sample it sends. *)
From S2P Require Import Prelude ZenohService.
#[local] Open Scope Z_scope.

(** [SystemTime::now().duration_since(UNIX_EPOCH)] is the argument; the cast to
    [i64] wraps. *)
Definition now_nanos (since_epoch : option StdDuration) : Z :=
  match since_epoch with
  | Some d => wrap_signed 64 (Z.of_N (as_nanos d))
  | None => 0
  end.

Record MessageInfo := {
  source_timestamp_nanos : Z;
  mi_sequence_number : Z;
  mi_source_gid : list Z;
}.
Definition MessageInfo_default : MessageInfo :=
  {| source_timestamp_nanos := 0; mi_sequence_number := 0; mi_source_gid := repeat 0 16 |}.

(** A [zenoh::sample::Sample]: what its accessors return. *)
Record Sample := {
  sample_key : str;
  sample_payload : list Z;
  sample_attachment : option (list Z);
}.

Section pubsub.
Context `{ZS : ZenohSerializer}.

Inductive PublishError := PublishCdr (e : CdrError) | PublishZenoh (e : ZenohError).
Inductive TakeError := TakeCdr (e : CdrError) | TakeAttachment | TakeClosed.
Definition show_PublishError (show_encoding : EncodingError → str) (show_zenoh : ZenohError → str)
    (e : PublishError) : str :=
  match e with
  | PublishCdr e => lit "publish: " ++ show_CdrError show_encoding e
  | PublishZenoh e => lit "publish: zenoh error: " ++ show_zenoh e
  end.
Definition show_TakeError (show_encoding : EncodingError → str) (e : TakeError) : str :=
  match e with
  | TakeCdr e => lit "take: " ++ show_CdrError show_encoding e
  | TakeAttachment => lit "take: malformed attachment"
  | TakeClosed => lit "take: subscriber closed"
  end.

(** ** Publishers

    [zenoh_publisher] is the key of the declared Zenoh publisher, [pub_token]
    that of the liveliness token the publisher keeps alive. *)
Record Publisher := {
  zenoh_publisher : str;
  pub_seq : Z;
  source_gid : list Z;
  pub_token : option str;
}.
Definition Publisher_new (zp : str) (gid : list Z) (token : option str) : Publisher :=
  {| zenoh_publisher := zp; pub_seq := 0; source_gid := gid; pub_token := token |}.
Definition set_pub_seq (s : Z) (p : Publisher) : Publisher :=
  {| zenoh_publisher := zenoh_publisher p; pub_seq := s; source_gid := source_gid p;
     pub_token := pub_token p |}.

(** [fetch_add(1) + 1] and the attachment with it, as in [encode],
    [RawPublisher::attachment] and [publish_raw]. *)
Definition next_attachment (pr : profile) (now : Z) (p : Publisher) :
    option (Publisher * list Z) :=
  let p' := set_pub_seq (wrap_signed 64 (pub_seq p + 1)) p in
  s ← arith pr 64 (pub_seq p + 1);
  Some (p', to_zbytes {| a_sequence_number := s; a_source_timestamp := now;
                         a_source_gid := source_gid p |}).

Definition encode {M} `{!CdrEncoding M} (pr : profile) (now : Z) (msg : M) (p : Publisher) :
    option (Publisher * result PublishError (list Z * list Z)) :=
  match map_err PublishCdr (to_cdr msg) with
  | Err e => Some (p, Err e)
  | Ok payload =>
      '(p', att) ← next_attachment pr now p;
      Some (p', Ok (payload, att))
  end.

(** [zenoh_publisher.put(payload).attachment(attachment)]: the sample given to
    Zenoh, and the outcome. *)
Definition put (p : Publisher) (payload att : list Z) (outcome : result ZenohError unit) :
    option Sample * result PublishError unit :=
  (Some {| sample_key := zenoh_publisher p; sample_payload := payload;
           sample_attachment := Some att |},
   map_err PublishZenoh outcome).

(** [publish] and [async_publish] differ in how they wait for the [put]. *)
Definition publish {M} `{!CdrEncoding M} (pr : profile) (now : Z)
    (outcome : result ZenohError unit) (msg : M) (p : Publisher) :
    option (Publisher * (option Sample * result PublishError unit)) :=
  '(p', r) ← encode pr now msg p;
  match r with
  | Err e => Some (p', (None, Err e))
  | Ok (payload, att) => Some (p', put p payload att outcome)
  end.

(** [Publisher::publish_raw]. *)
Definition publish_raw (pr : profile) (now : Z) (outcome : result ZenohError unit)
    (cdr_bytes : list Z) (p : Publisher) :
    option (Publisher * (option Sample * result PublishError unit)) :=
  '(p', att) ← next_attachment pr now p;
  Some (p', put p cdr_bytes att outcome).

(** A [RawPublisher] wraps a typeless publisher; its [publish] and
    [async_publish]. *)
Record RawPublisher := { raw_inner : Publisher }.
Definition RawPublisher_new (inner : Publisher) : RawPublisher := {| raw_inner := inner |}.
Definition raw_publish (pr : profile) (now : Z) (outcome : result ZenohError unit)
    (cdr_message : list Z) (p : RawPublisher) :
    option (RawPublisher * (option Sample * result PublishError unit)) :=
  '(p', att) ← next_attachment pr now (raw_inner p);
  Some (RawPublisher_new p', put (raw_inner p) cdr_message att outcome).

(** ** Subscriptions *)

(** The key of the Zenoh subscriber and of the liveliness token. *)
Record Subscription := { zenoh_subscriber : str; sub_token : option str }.
Definition Subscription_new (zs : str) (token : option str) : Subscription :=
  {| zenoh_subscriber := zs; sub_token := token |}.

Definition message_info_from (sample : Sample) : result TakeError MessageInfo :=
  match sample_attachment sample with
  | Some zbytes =>
      a ← map_err (λ _, TakeAttachment) (from_zbytes zbytes);
      Ok {| source_timestamp_nanos := a_source_timestamp a;
            mi_sequence_number := a_sequence_number a; mi_source_gid := a_source_gid a |}
  | None => Ok MessageInfo_default
  end.

Definition decode {M} `{!CdrEncoding M} (sample : Sample) : result TakeError (M * MessageInfo) :=
  msg ← map_err TakeCdr (from_cdr (sample_payload sample));
  info ← message_info_from sample;
  Ok (msg, info).

(** [recv_async] fails when the channel is closed; [try_recv] may find it empty. *)
Definition async_take {M} `{!CdrEncoding M} (received : result unit Sample) :
    result TakeError (M * MessageInfo) :=
  sample ← map_err (λ _, TakeClosed) received;
  decode sample.
Definition try_take {M} `{!CdrEncoding M} (received : result unit (option Sample)) :
    result TakeError (option (M * MessageInfo)) :=
  match received with
  | Ok (Some sample) => Some <$> decode sample
  | Ok None => Ok None
  | Err _ => Err TakeClosed
  end.
Definition take_raw_keyed (received : result unit Sample) :
    result TakeError (str * list Z * MessageInfo) :=
  sample ← map_err (λ _, TakeClosed) received;
  info ← message_info_from sample;
  Ok (sample_key sample, sample_payload sample, info).
Definition take_raw (received : result unit Sample) : result TakeError (list Z * MessageInfo) :=
  '(_, bytes, info) ← take_raw_keyed received;
  Ok (bytes, info).
(** The methods of [RawSubscription], which wraps a typeless subscription. *)
Definition raw_take_raw := take_raw.
Definition raw_take_raw_keyed := take_raw_keyed.

(** ** A publisher's life: its publications in order *)
Section life.
Context {M : Type} `{!CdrEncoding M}.

Inductive publication :=
| PublishMsg (since_epoch : option StdDuration) (outcome : result ZenohError unit) (msg : M)
| PublishRaw (since_epoch : option StdDuration) (outcome : result ZenohError unit)
    (cdr_bytes : list Z).

Definition exec (pr : profile) (o : publication) (p : Publisher) :
    option (Publisher * (option Sample * result PublishError unit)) :=
  match o with
  | PublishMsg t r msg => publish pr (now_nanos t) r msg p
  | PublishRaw t r bytes => publish_raw pr (now_nanos t) r bytes p
  end.
(** What each publication sent and returned. *)
Fixpoint run (pr : profile) (os : list publication) (p : Publisher) :
    option (Publisher * list (option Sample * result PublishError unit)) :=
  match os with
  | [] => Some (p, [])
  | o :: os =>
      '(p1, out) ← exec pr o p;
      '(p2, outs) ← run pr os p1;
      Some (p2, out :: outs)
  end.

(** *** What a subscriber should see *)

Definition pub_time (o : publication) : Z :=
  match o with PublishMsg t _ _ | PublishRaw t _ _ => now_nanos t end.
Definition pub_outcome (o : publication) : result ZenohError unit :=
  match o with PublishMsg _ r _ | PublishRaw _ r _ => r end.
(** The payload of a publication, when it can be serialized. *)
Definition pub_payload (o : publication) : result CdrError (list Z) :=
  match o with PublishMsg _ _ msg => to_cdr msg | PublishRaw _ _ bytes => Ok bytes end.

(** The publications that send something, numbered from [n + 1]. *)
Fixpoint numbered (n : Z) (os : list publication) : list (Z * publication) :=
  match os with
  | [] => []
  | o :: os =>
      if is_ok (pub_payload o) then (n + 1, o) :: numbered (n + 1) os else numbered n os
  end.
Definition info_of (p : Publisher) (no : Z * publication) : MessageInfo :=
  {| source_timestamp_nanos := pub_time no.2; mi_sequence_number := no.1;
     mi_source_gid := source_gid p |}.
(** The sample of a publication reads as it was written. *)
Definition reads_as (p : Publisher) (no : Z * publication) (s : Sample) : Prop :=
  (∃ b, pub_payload no.2 = Ok b ∧
        take_raw_keyed (Ok s) = Ok (zenoh_publisher p, b, info_of p no)) ∧
  ∀ t r msg, no.2 = PublishMsg t r msg →
    async_take (Ok s) = Ok (msg, info_of p no) ∧
    try_take (Ok (Some s)) = Ok (Some (msg, info_of p no)).
(** What a publication returns. *)
Definition pub_result (o : publication) : result PublishError unit :=
  match pub_payload o with
  | Err e => Err (PublishCdr e)
  | Ok _ => map_err PublishZenoh (pub_outcome o)
  end.
End life.
End pubsub.

(** ** Lemmas and properties *)

Section spec.
Context `{ZS : ZenohSerializer, !ZenohSerializerLaws}.
Context {M : Type} `{!CdrEncoding M, !CdrEncodingLaws M}.
Implicit Types (o : publication (M:=M)) (p : Publisher).

Lemma now_nanos_in t : in_i64 (now_nanos t).
Proof. destruct t; [apply wrap_i64_in|by split]. Qed.

(** What a publication gives to Zenoh. *)
Definition sample_of (p : Publisher) (no : Z * publication (M:=M)) (b : list Z) : Sample :=
  {| sample_key := zenoh_publisher p; sample_payload := b;
     sample_attachment := Some (to_zbytes {| a_sequence_number := no.1;
       a_source_timestamp := pub_time no.2; a_source_gid := source_gid p |}) |}.

Lemma next_attachment_ok pr now p :
  in_i64 (pub_seq p + 1) →
  next_attachment pr now p =
  Some (set_pub_seq (pub_seq p + 1) p,
        to_zbytes {| a_sequence_number := pub_seq p + 1; a_source_timestamp := now;
                     a_source_gid := source_gid p |}).
Proof. intros Hi. unfold next_attachment. by rewrite arith_i64, wrap_i64_id. Qed.

Lemma exec_ok pr o p :
  in_i64 (pub_seq p + 1) →
  exec pr o p = Some
    match pub_payload o with
    | Ok b => (set_pub_seq (pub_seq p + 1) p, (Some (sample_of p (pub_seq p + 1, o) b), pub_result o))
    | Err _ => (p, (None, pub_result o))
    end.
Proof.
  intros Hi. unfold pub_result. destruct o as [t r m|t r bs]; simpl.
  - unfold publish, encode. destruct (to_cdr m); simpl; [|done].
    by rewrite next_attachment_ok.
  - unfold publish_raw. by rewrite next_attachment_ok.
Qed.

Lemma sample_reads_as p n o b :
  wf_gid (source_gid p) → in_i64 n → pub_payload o = Ok b →
  reads_as p (n, o) (sample_of p (n, o) b).
Proof.
  intros Hg Hn Hb.
  assert (message_info_from (sample_of p (n, o) b) = Ok (info_of p (n, o))) as Hi.
  { unfold message_info_from. simpl. rewrite attachment_roundtrip; [done|done| |done].
    destruct o; apply now_nanos_in. }
  split.
  - exists b. split; [done|]. unfold take_raw_keyed. simpl. by rewrite Hi.
  - intros t r m [= ->]. unfold async_take, try_take, decode. simpl in Hb |- *.
    rewrite (from_to_cdr _ _ Hb). simpl. by rewrite Hi.
Qed.

(** C27: a publisher's life. Nothing panics while the counter is in range; every
    publication that can be serialized sends one sample, the others none; the
    samples carry consecutive sequence numbers, the publisher's GID and the
    times of their publications, and a subscription reads from each of them the
    message or the bytes published. *)
Theorem published_messages_read pr (os : list (publication (M:=M))) p :
  wf_gid (source_gid p) → in_i64 (pub_seq p) → in_i64 (pub_seq p + Z.of_nat (length os)) →
  ∃ outs, run pr os p =
      Some (set_pub_seq (pub_seq p + Z.of_nat (length (numbered (pub_seq p) os))) p, outs) ∧
    Forall2 (reads_as p) (numbered (pub_seq p) os) (omap fst outs) ∧
    snd <$> outs = pub_result <$> os.
Proof.
  intros Hg. revert p Hg. induction os as [|o os IH]; intros p Hg Hs Hl.
  { exists []. simpl. rewrite Z.add_0_r. by destruct p. }
  cbn [length] in Hl. rewrite Nat2Z.inj_succ in Hl.
  assert (in_i64 (pub_seq p + 1)) as Hs1 by (unfold in_i64 in *; lia).
  cbn [run numbered]. rewrite exec_ok by done.
  destruct (pub_payload o) as [b|e] eqn:Hb; cbn [is_ok mbind option_bind].
  - destruct (IH (set_pub_seq (pub_seq p + 1) p)) as (outs&->&Hr&Ho);
      [done|done|unfold in_i64 in *; simpl; lia|].
    cbn [mbind option_bind]. exists ((Some (sample_of p (pub_seq p + 1, o) b), pub_result o) :: outs).
    split_and!.
    + unfold set_pub_seq. simpl. do 3 f_equal. lia.
    + constructor; [by apply sample_reads_as|exact Hr].
    + by rewrite !fmap_cons, Ho.
  - destruct (IH p) as (outs&->&Hr&Ho); [done|done|unfold in_i64 in *; lia|].
    cbn [mbind option_bind]. exists ((None, pub_result o) :: outs). split_and!; [done|done|].
    by rewrite !fmap_cons, Ho.
Qed.
End spec.

(** *** A concrete life *)
#[local] Existing Instance toy_serializer.
#[local] Existing Instance toy_serializer_laws.
#[local] Existing Instance toy_encoding.
#[local] Existing Instance toy_encoding_laws.

Definition toy_publisher : Publisher := Publisher_new (lit "0/chatter/t/h") toy_client_gid None.
Definition toy_publications : list (publication (M:=Z)) :=
  [PublishMsg None (Ok tt) 42; PublishRaw None (Err tt) [0; 1; 0; 0; 9];
   PublishMsg (Some {| as_secs := 1; subsec_nanos := 5 |}) (Ok tt) 43].

Definition toy_reading (s : Sample) : option (Z * Z * Z) :=
  match async_take (M:=Z) (Ok s) with
  | Ok (m, i) => Some (m, mi_sequence_number i, source_timestamp_nanos i)
  | Err _ => None
  end.

Lemma published_messages_read_witness :
  option_map (λ r, map toy_reading (omap (M:=list) fst r.2))
    (run Debug toy_publications toy_publisher) =
  Some [Some (42, 1, 0); Some (9, 2, 0); Some (43, 3, 1000000005)] ∧
  is_Some (run Debug toy_publications toy_publisher).
Proof.
  split; [vm_compute; reflexivity|].
  assert (in_i64 (pub_seq toy_publisher)) as Hs by (split; vm_compute; discriminate).
  assert (in_i64 (pub_seq toy_publisher + Z.of_nat (length toy_publications))) as Hl
    by (split; vm_compute; discriminate).
  destruct (published_messages_read Debug toy_publications toy_publisher toy_wf_gid Hs Hl)
    as (outs&Hrun&_).
  exact (mk_is_Some _ _ Hrun).
Defined.
