(* ===== verification/ZenohAction.v ===== *)
(** * Actions over Zenoh (zenoh_backend/action.rs)

    An action is three services and two topics. The client's and the servers'
    operations are one call, reply, publication or reading of an endpoint, with
    the fixed messages of the action protocol around the application's. Random
    goal ids, clock readings and what the endpoints' channels give are arguments;
    an operation returns the endpoints' new state and what it hands to Zenoh. *)
From S2P Require Import Prelude Time ActionServer ZenohService ZenohPubSub.
#[local] Open Scope Z_scope.

(** ** The messages of the protocol *)

Record SendGoalRequest {G : Type} := { sg_goal_id : GoalId; sg_goal : G }.
Arguments SendGoalRequest : clear implicits.
Record SendGoalResponse := { accepted : bool; sg_stamp : Time }.
Record GetResultRequest := { gr_goal_id : GoalId }.
Record GetResultResponse {R : Type} := { gr_status : Z; gr_result : R }.
Arguments GetResultResponse : clear implicits.
Record FeedbackMessage {F : Type} := { fb_goal_id : GoalId; fb_feedback : F }.
Arguments FeedbackMessage : clear implicits.

(** [goal_status]. *)
Definition EXECUTING : Z := 2.
Definition SUCCEEDED : Z := 4.
Definition ABORTED : Z := 5.
Definition CANCELED : Z := 6.

(** The codecs of the messages of an action. *)
Class ActionCodecs `{ZenohSerializer} (G R F : Type) := {
  send_goal_request_cdr :: CdrEncoding (SendGoalRequest G);
  send_goal_response_cdr :: CdrEncoding SendGoalResponse;
  get_result_request_cdr :: CdrEncoding GetResultRequest;
  get_result_response_cdr :: CdrEncoding (GetResultResponse R);
  feedback_cdr :: CdrEncoding (FeedbackMessage F);
  cancel_request_cdr :: CdrEncoding CancelGoalRequest;
  cancel_response_cdr :: CdrEncoding CancelGoalResponse;
  status_cdr :: CdrEncoding GoalStatusArray;
}.
Class ActionCodecsLaws `{ZenohSerializer} (G R F : Type) `{!ActionCodecs G R F} := {
  send_goal_request_laws :: CdrEncodingLaws (SendGoalRequest G);
  send_goal_response_laws :: CdrEncodingLaws SendGoalResponse;
  get_result_request_laws :: CdrEncodingLaws GetResultRequest;
  get_result_response_laws :: CdrEncodingLaws (GetResultResponse R);
  feedback_laws :: CdrEncodingLaws (FeedbackMessage F);
  cancel_request_laws :: CdrEncodingLaws CancelGoalRequest;
  cancel_response_laws :: CdrEncodingLaws CancelGoalResponse;
  status_laws :: CdrEncodingLaws GoalStatusArray;
}.

(** The queries of a [Server] not yet answered. *)
#[local] Abbreviation Pending := (gmap (Z * Z) Query) (only parsing).

Section action.
Context `{ZS : ZenohSerializer}.
Context {G R F : Type} `{!ActionCodecs G R F}.

(** ** [ActionClient] *)

Record ActionClient := {
  ac_send_goal : Client;
  ac_get_result : Client;
  ac_feedback : Subscription;
  ac_cancel_goal : Client;
  ac_status : Subscription;
}.
Definition ActionClient_new (send_goal get_result : Client) (feedback : Subscription)
    (cancel_goal : Client) (status : Subscription) : ActionClient :=
  {| ac_send_goal := send_goal; ac_get_result := get_result; ac_feedback := feedback;
     ac_cancel_goal := cancel_goal; ac_status := status |}.

(** A session's query, as in [call]. *)
Definition Get : Type :=
  str → list Z → list Z → option StdDuration → result ZenohError (list (result unit (list Z))).

(** Each operation works on one endpoint and is given that one; [None] is the
    overflow panic of its counter. *)
Definition send_goal (pr : profile) (now : Z) (get : Get) (random : GoalId) (goal : G)
    (c : Client) : option (Client * result ServiceError (GoalId * bool)) :=
  match call (Resp:=SendGoalResponse) pr now get {| sg_goal_id := random; sg_goal := goal |} c with
  | None => None
  | Some (c, resp) => Some (c, (λ resp : SendGoalResponse, (random, accepted resp)) <$> resp)
  end.
Definition get_result (pr : profile) (now : Z) (get : Get) (goal_id : GoalId) (c : Client) :
    option (Client * result ServiceError (Z * R)) :=
  match call (Resp:=GetResultResponse R) pr now get {| gr_goal_id := goal_id |} c with
  | None => None
  | Some (c, resp) => Some (c, (λ resp : GetResultResponse R, (gr_status resp, gr_result resp)) <$> resp)
  end.
Definition take_feedback (received : result unit (option Sample)) : option (GoalId * F) :=
  match try_take (M:=FeedbackMessage F) received with
  | Ok (Some (msg, _)) => Some (fb_goal_id msg, fb_feedback msg)
  | _ => None
  end.
Definition cancel_goal (pr : profile) (now : Z) (get : Get) (goal_id : GoalId) (c : Client) :
    option (Client * result ServiceError CancelGoalResponse) :=
  call (Resp:=CancelGoalResponse) pr now get
    {| cr_goal_info := {| ActionServer.goal_id := goal_id; stamp := Time_ZERO |} |} c.
Definition cancel_all_goals (pr : profile) (now : Z) (get : Get) (c : Client) :
    option (Client * result ServiceError CancelGoalResponse) :=
  call (Resp:=CancelGoalResponse) pr now get
    {| cr_goal_info := {| ActionServer.goal_id := UUID_ZERO; stamp := Time_ZERO |} |} c.
Definition take_status (received : result unit (option Sample)) : option GoalStatusArray :=
  match try_take (M:=GoalStatusArray) received with
  | Ok (Some (msg, _)) => Some msg
  | _ => None
  end.

(** ** [ActionServer] *)

Record ActionServer := {
  as_send_goal : Server;
  as_get_result : Server;
  as_feedback : Publisher;
  as_cancel_goal : Server;
  as_status : Publisher;
}.
Definition ActionServer_new (send_goal get_result : Server) (feedback : Publisher)
    (cancel_goal : Server) (status : Publisher) : ActionServer :=
  {| as_send_goal := send_goal; as_get_result := get_result; as_feedback := feedback;
     as_cancel_goal := cancel_goal; as_status := status |}.

(** Again on one endpoint each; of a [Server] on its pending queries. *)
Definition try_receive_goal (received : result unit (option Query)) (p : Pending) :
    Pending * option (RmwRequestId * GoalId * G) :=
  let '(p, r) := try_receive_request (Req:=SendGoalRequest G) received p in
  (p, match r with
      | Ok (Some (id, req)) => Some (id, sg_goal_id req, sg_goal req)
      | _ => None
      end).
Definition respond_goal (now : Z) (replied : result ZenohError unit) (id : RmwRequestId)
    (acc : bool) (p : Pending) : Pending * option Reply * result ServiceError unit :=
  send_response now replied id {| accepted := acc; sg_stamp := Time_ZERO |} p.
Definition publish_feedback (pr : profile) (now : Z) (outcome : result ZenohError unit)
    (goal_id : GoalId) (feedback : F) (p : Publisher) :
    option (Publisher * (option Sample * result PublishError unit)) :=
  publish pr now outcome {| fb_goal_id := goal_id; fb_feedback := feedback |} p.
Definition try_receive_result_request (received : result unit (option Query)) (p : Pending) :
    Pending * option (RmwRequestId * GoalId) :=
  let '(p, r) := try_receive_request (Req:=GetResultRequest) received p in
  (p, match r with Ok (Some (id, req)) => Some (id, gr_goal_id req) | _ => None end).
Definition respond_result (now : Z) (replied : result ZenohError unit) (id : RmwRequestId)
    (status : Z) (result : R) (p : Pending) :
    Pending * option Reply * Prelude.result ServiceError unit :=
  send_response now replied id {| gr_status := status; gr_result := result |} p.
Definition try_receive_cancel (received : result unit (option Query)) (p : Pending) :
    Pending * option (RmwRequestId * GoalId) :=
  let '(p, r) := try_receive_request (Req:=CancelGoalRequest) received p in
  (p, match r with
      | Ok (Some (id, req)) => Some (id, ActionServer.goal_id (cr_goal_info req))
      | _ => None
      end).
Definition respond_cancel (now : Z) (replied : result ZenohError unit) (id : RmwRequestId)
    (code : CancelGoalResponseEnum) (canceling : list GoalInfo) (p : Pending) :
    Pending * option Reply * result ServiceError unit :=
  send_response now replied id {| return_code := code; goals_canceling := canceling |} p.
Definition publish_status (pr : profile) (now : Z) (outcome : result ZenohError unit)
    (statuses : list GoalStatus) (p : Publisher) :
    option (Publisher * (option Sample * result PublishError unit)) :=
  publish pr now outcome {| status_list := statuses |} p.

(** ** [RawActionServer] *)

Record RawActionServer := {
  ra_send_goal : Server;
  ra_get_result : Server;
  ra_feedback : RawPublisher;
  ra_cancel_goal : Server;
  ra_status : Publisher;
}.

Definition receive_goal_request (received : result unit Query) (p : Pending) :
    Pending * result ServiceError (RmwRequestId * list Z) :=
  raw_async_receive_request received p.
(** [r.ok().flatten()]. *)
Definition ok_flatten {E A} (r : result E (option A)) : option A :=
  match r with Ok o => o | Err _ => None end.
Definition try_receive_goal_request (received : result unit (option Query)) (p : Pending) :
    Pending * option (RmwRequestId * list Z) :=
  let '(p, r) := raw_try_receive_request received p in (p, ok_flatten r).
Definition raw_respond_goal (now : Z) (replied : result ZenohError unit) (id : RmwRequestId)
    (acc : bool) (stamp : Time) (p : Pending) :
    Pending * option Reply * result ServiceError unit :=
  match map_err Cdr (to_cdr {| accepted := acc; sg_stamp := stamp |}) with
  | Err e => (p, None, Err e)
  | Ok response => raw_send_response now replied id response p
  end.
Definition receive_cancel_request (received : result unit Query) (p : Pending) :
    Pending * result ServiceError (RmwRequestId * GoalInfo) :=
  let '(p, r) := async_receive_request (Req:=CancelGoalRequest) received p in
  (p, (λ '(id, request), (id, cr_goal_info request)) <$> r).
Definition try_receive_cancel_request (received : result unit (option Query)) (p : Pending) :
    Pending * option (RmwRequestId * GoalInfo) :=
  let '(p, r) := try_receive_request (Req:=CancelGoalRequest) received p in
  (p, match r with Ok (Some (id, request)) => Some (id, cr_goal_info request) | _ => None end).
Definition raw_respond_cancel (now : Z) (replied : result ZenohError unit) (id : RmwRequestId)
    (response : CancelGoalResponse) (p : Pending) :
    Pending * option Reply * result ServiceError unit :=
  send_response now replied id response p.
Definition receive_result_request (received : result unit Query) (p : Pending) :
    Pending * result ServiceError (RmwRequestId * GoalId) :=
  let '(p, r) := raw_async_receive_request received p in
  (p, match r with
      | Err e => Err e
      | Ok (id, bytes) =>
          request ← map_err Cdr (from_cdr (M:=GetResultRequest) bytes);
          Ok (id, gr_goal_id request)
      end).
Definition raw_try_receive_result_request (received : result unit (option Query)) (p : Pending) :
    Pending * option (RmwRequestId * GoalId) :=
  let '(p, r) := raw_try_receive_request received p in
  (p, match ok_flatten r with
      | Some (id, bytes) =>
          match from_cdr (M:=GetResultRequest) bytes with
          | Ok request => Some (id, gr_goal_id request)
          | Err _ => None
          end
      | None => None
      end).
Definition respond_result_raw (now : Z) (replied : result ZenohError unit) (id : RmwRequestId)
    (cdr_response : list Z) (p : Pending) : Pending * option Reply * result ServiceError unit :=
  raw_send_response now replied id cdr_response p.
Definition publish_feedback_raw (pr : profile) (now : Z) (outcome : result ZenohError unit)
    (cdr_message : list Z) (p : RawPublisher) :
    option (RawPublisher * (option Sample * result PublishError unit)) :=
  raw_publish pr now outcome cdr_message p.
Definition publish_statuses (pr : profile) (now : Z) (outcome : result ZenohError unit)
    (statuses : GoalStatusArray) (p : Publisher) :
    option (Publisher * (option Sample * result PublishError unit)) :=
  publish pr now outcome statuses p.
End action.

(** ** Lemmas and properties *)

(** [goal_status] numbers the two unsuccessful ends the other way round than
    [action_msgs]' [GoalStatusEnum], which the status topic uses. *)
Lemma goal_status_codes_differ :
  EXECUTING = status_code Executing ∧ SUCCEEDED = status_code Succeeded ∧
  ABORTED = status_code Canceled ∧ CANCELED = status_code Aborted.
Proof. done. Qed.

Section spec.
Context `{ZS : ZenohSerializer, !ZenohSerializerLaws}.
Context {G R F : Type} `{!ActionCodecs G R F, !ActionCodecsLaws G R F}.

(** A session with one server: the query goes to the server, which receives it
    and responds at once. *)
Definition served {A} (receive : result unit (option Query) → Pending → Pending * option (RmwRequestId * A))
    (respond : RmwRequestId → A → Pending → Pending * option Reply * result ServiceError unit)
    (i : N) (p : Pending) : Get :=
  λ sel pl att _,
    let q := {| query_id := i; payload := Some pl; attachment := Some att; key_expr := sel |} in
    match receive (Ok (Some q)) p with
    | (p, Some (id, a)) =>
        let '(_, reply, _) := respond id a p in
        Ok (option_list ((Ok ∘ r_payload) <$> reply))
    | (_, None) => Ok []
    end.

(** A call to a server that answers [resp] to what it is sent returns [resp]. *)
Lemma call_served {Req Resp A} `{!CdrEncoding Req, !CdrEncodingLaws Req}
    `{!CdrEncoding Resp, !CdrEncodingLaws Resp}
    (receive : result unit (option Query) → Pending → Pending * option (RmwRequestId * A)) respond
    (view : Req → A) (resp : Resp) pr now (req : Req) c i p now2 replied pl bs :
  (∀ q p p' id, accept q p = (p', Ok (id, req)) →
     receive (Ok (Some q)) p = (p', Some (id, view req))) →
  (∀ id p, respond id (view req) p = send_response now2 replied id resp p) →
  to_cdr req = Ok pl → to_cdr resp = Ok bs →
  wf_gid (client_gid c) → in_i64 now → in_i64 (seq c + 1) →
  call pr now (served receive respond i p) req c = Some (set_seq (seq c + 1) c, Ok resp).
Proof.
  intros Hrec Hresp Hpl Hbs Hg Hnow Hs. unfold call.
  set (att := to_zbytes {| a_sequence_number := seq c + 1; a_source_timestamp := now;
                           a_source_gid := client_gid c |}).
  assert (request_bytes pr now req c = Some (set_seq (seq c + 1) c, Ok (pl, att))) as Hb.
  { unfold request_bytes. rewrite Hpl. simpl. by rewrite arith_i64, wrap_i64_id. }
  rewrite Hb. cbn [mbind option_bind result_bind]. do 2 f_equal. unfold served.
  set (q := {| query_id := i; payload := _; attachment := _; key_expr := _ |}).
  rewrite (Hrec _ _ _ _ (accept_request pr now req c _ pl att q p Hb Hg Hnow eq_refl eq_refl)).
  rewrite Hresp. cbn [set_seq Client_new_with_timeout seq].
  destruct (response_returned now2 replied {| writer_gid := client_gid c;
    sequence_number := seq c + 1 |} resp bs q
    (<[(gid_key (client_gid c), seq c + 1) := q]> p) [] [] (lookup_insert_eq _ _ _) Hbs)
    as (r&->&_&Hf).
  exact Hf.
Qed.

(** The answers of an action server, by goal, by either kind of server. *)
Section answers.
Context (now2 : Z) (replied : result ZenohError unit) (i : N) (p : Pending).
Context (decide_goal : GoalId → G → bool) (result_of : GoalId → Z * R)
        (cancel : GoalId → CancelGoalResponse).

Definition goal_service : Get :=
  served (λ r p, let '(p, o) := try_receive_goal r p in
                 (p, (λ '(id, g, goal), (id, (g, goal))) <$> o))
    (λ id '(g, goal), respond_goal now2 replied id (decide_goal g goal)) i p.
Definition result_service : Get :=
  served try_receive_result_request
    (λ id g, respond_result now2 replied id (result_of g).1 (result_of g).2) i p.
Definition raw_result_service : Get :=
  served raw_try_receive_result_request
    (λ id g p, match to_cdr {| gr_status := (result_of g).1; gr_result := (result_of g).2 |} with
               | Ok bytes => respond_result_raw now2 replied id bytes p
               | Err e => (p, None, Err (Cdr e))
               end) i p.
Definition cancel_service : Get :=
  served try_receive_cancel
    (λ id g, respond_cancel now2 replied id (return_code (cancel g)) (goals_canceling (cancel g)))
    i p.
End answers.

(** C28: the calls of an action client, end to end. Whatever goal ids, goals,
    decisions and results: against a server that receives each query and responds
    at once, [send_goal] returns the goal's id and the server's decision about
    that goal, [get_result] the status and result for the goal asked for -- from a
    typed and from a raw server alike --, and the two cancel calls the server's
    response for the goal, or for the zero id that stands for all goals. Each call
    takes the next sequence number and nothing panics. *)
Theorem action_calls pr now now2 replied i p c g goal
    (decide_goal : GoalId → G → bool) (result_of : GoalId → Z * R)
    (cancel : GoalId → CancelGoalResponse) :
  wf_gid (client_gid c) → in_i64 now → in_i64 (seq c + 1) →
  (is_ok (to_cdr {| sg_goal_id := g; sg_goal := goal |}) →
   is_ok (to_cdr {| accepted := decide_goal g goal; sg_stamp := Time_ZERO |}) →
   send_goal pr now (goal_service now2 replied i p decide_goal) g goal c =
   Some (set_seq (seq c + 1) c, Ok (g, decide_goal g goal))) ∧
  (is_ok (to_cdr {| gr_goal_id := g |}) →
   is_ok (to_cdr {| gr_status := (result_of g).1; gr_result := (result_of g).2 |}) →
   get_result pr now (result_service now2 replied i p result_of) g c =
     Some (set_seq (seq c + 1) c, Ok (result_of g)) ∧
   get_result pr now (raw_result_service now2 replied i p result_of) g c =
     Some (set_seq (seq c + 1) c, Ok (result_of g))) ∧
  (∀ all : bool, let target := if all then UUID_ZERO else g in
   is_ok (to_cdr {| cr_goal_info := {| goal_id := target; stamp := Time_ZERO |} |}) →
   is_ok (to_cdr (cancel target)) →
   (if all then cancel_all_goals pr now (cancel_service now2 replied i p cancel) c
    else cancel_goal pr now (cancel_service now2 replied i p cancel) g c) =
   Some (set_seq (seq c + 1) c, Ok (cancel target))).
Proof.
  intros Hg Hnow Hs. split_and!.
  - intros H1 H2. destruct (to_cdr {| sg_goal_id := _ |}) as [pl|] eqn:Hpl; [|done].
    destruct (to_cdr {| accepted := _; sg_stamp := _ |}) as [bs|] eqn:Hbs; [|done].
    unfold send_goal, goal_service.
    erewrite (call_served _ _ (λ req : SendGoalRequest G, (sg_goal_id req, sg_goal req)));
      try done; [done|].
    intros q p0 p' id Ha. unfold try_receive_goal, try_receive_request. by rewrite Ha.
  - intros H1 H2. destruct (to_cdr {| gr_goal_id := _ |}) as [pl|] eqn:Hpl; [|done].
    destruct (to_cdr {| gr_status := _; gr_result := _ |}) as [bs|] eqn:Hbs; [|done].
    unfold get_result, result_service, raw_result_service.
    rewrite (call_served _ _ gr_goal_id {| gr_status := (result_of g).1;
               gr_result := (result_of g).2 |} pr now _ c i p now2 replied pl bs);
      try done; [|intros q p0 p' id Ha; unfold try_receive_result_request, try_receive_request;
                  by rewrite Ha].
    rewrite (call_served _ _ gr_goal_id {| gr_status := (result_of g).1;
               gr_result := (result_of g).2 |} pr now _ c i p now2 replied pl bs); try done.
    + simpl. by destruct (result_of g).
    + intros q p0 p' id Ha. apply raw_accept_typed in Ha as (b&_&Hb&Ha).
      unfold raw_try_receive_result_request, raw_try_receive_request. rewrite Ha. simpl.
      by rewrite Hb.
    + intros id p0. simpl. rewrite Hbs. by apply raw_send_typed.
  - intros all target H1 H2. subst target.
    destruct (to_cdr {| cr_goal_info := _ |}) as [pl|] eqn:Hpl; [|done].
    destruct (to_cdr (cancel _)) as [bs|] eqn:Hbs; [|done].
    assert (∀ q p0 p' id, accept q p0 = (p', Ok (id, {| cr_goal_info :=
        {| goal_id := if all then UUID_ZERO else g; stamp := Time_ZERO |} |})) →
      try_receive_cancel (Ok (Some q)) p0 = (p', Some (id, if all then UUID_ZERO else g))).
    { intros q p0 p' id Ha. unfold try_receive_cancel, try_receive_request. by rewrite Ha. }
    destruct all; unfold cancel_all_goals, cancel_goal, cancel_service;
      eapply (call_served _ _ (λ r, goal_id (cr_goal_info r))); try done;
      intros id p0; by destruct (cancel _).
Qed.

(** What the two servers make of a result request, and where they differ: the raw
    one keeps a query it cannot decode, so its client is never answered. *)
Lemma raw_result_request_cases received p :
  raw_try_receive_result_request received p =
  match (try_receive_result_request received p).2 with
  | Some x => ((try_receive_result_request received p).1, Some x)
  | None => ((raw_try_receive_request received p).1, None)
  end.
Proof.
  unfold raw_try_receive_result_request, try_receive_result_request, try_receive_request,
    raw_try_receive_request. destruct received as [[q|]|u]; [|done..].
  unfold accept, raw_accept. destruct (payload q) as [bs|]; [|done]. simpl.
  destruct (from_cdr bs) as [r|e] eqn:Hr; simpl;
    (destruct (attachment q) as [att|]; simpl; [|done]);
    (destruct (from_zbytes att) as [a|]; simpl; [|done]); by rewrite Hr.
Qed.

(** a raw action server is the typed one on bytes. It takes up a goal request
    whenever the typed one does, under the same request id, as bytes that decode
    to the goal; it reads the same result and cancel requests; and equal answers
    -- a goal response with the zero stamp, the CDR encoding of a result, a cancel
    response -- send the same replies and leave the same pending queries. *)
Lemma raw_action_server_agrees received p now replied id :
  (∀ p' rid g goal, try_receive_goal received p = (p', Some (rid, g, goal)) →
     ∃ bytes, try_receive_goal_request received p = (p', Some (rid, bytes)) ∧
              from_cdr bytes = Ok {| sg_goal_id := g; sg_goal := goal |}) ∧
  (raw_try_receive_result_request received p).2 = (try_receive_result_request received p).2 ∧
  (is_Some (try_receive_result_request received p).2 →
   raw_try_receive_result_request received p = try_receive_result_request received p) ∧
  prod_map (λ p, p) (fmap (M:=option) (prod_map (λ i, i) goal_id)) (try_receive_cancel_request received p) =
    try_receive_cancel received p ∧
  (∀ acc, is_ok (to_cdr {| accepted := acc; sg_stamp := Time_ZERO |}) →
     raw_respond_goal now replied id acc Time_ZERO p = respond_goal now replied id acc p) ∧
  (∀ status (result : R) bytes, to_cdr {| gr_status := status; gr_result := result |} = Ok bytes →
     respond_result_raw now replied id bytes p = respond_result now replied id status result p) ∧
  (∀ response, raw_respond_cancel now replied id response p =
     respond_cancel now replied id (return_code response) (goals_canceling response) p).
Proof.
  split_and!.
  - intros p' rid g goal. unfold try_receive_goal, try_receive_goal_request, try_receive_request,
      raw_try_receive_request. destruct received as [[q|]|u]; [|done..].
    destruct (accept q p) as [p1 [[i r]|e]] eqn:Ha; [|done]. intros [= <- <- <- <-].
    apply raw_accept_typed in Ha as (b&_&Hb&->). exists b. split; [done|]. by destruct r.
  - rewrite raw_result_request_cases. by destruct (try_receive_result_request received p) as [? []].
  - rewrite raw_result_request_cases. destruct (try_receive_result_request received p) as [? []];
      [done|by intros []].
  - unfold try_receive_cancel_request, try_receive_cancel, try_receive_request.
    destruct received as [[q|]|u]; [|done..]. by destruct (accept q p) as [p1 [[i r]|e]].
  - intros acc Hok. unfold raw_respond_goal, respond_goal.
    destruct (to_cdr _) as [bs|e] eqn:Hbs; [|done]. by apply raw_send_typed.
  - intros status result bytes Hbs. by apply raw_send_typed.
  - by intros [].
Qed.
End spec.

(** ** A concrete action, with integers for goals, results and feedback *)
#[local] Existing Instance toy_serializer.
#[local] Existing Instance toy_serializer_laws.

(** A codec for messages that are tuples [A]: one number for each. *)
Definition toy_codec {M A} `{Countable A} (f : M → A) (g : A → M) : CdrEncoding M := {|
  to_vec m := Ok [Zpos (countable.encode (f m))];
  from_bytes _ b :=
    match b with
    | Zpos n :: _ => match countable.decode n with Some a => Ok (g a, 1%nat) | None => Err tt end
    | _ => Err tt
    end |}.
Lemma toy_codec_laws {M A} `{Countable A} (f : M → A) (g : A → M) :
  (∀ m, g (f m) = m) → @CdrEncodingLaws _ M (toy_codec f g).
Proof. intros Hgf. split. intros m b [= <-]. simpl. by rewrite decode_encode, Hgf. Defined.

Definition of_info (i : GoalInfo) : N * Z := (goal_id i, nanos_since_epoch (stamp i)).
Definition to_info (x : N * Z) : GoalInfo :=
  {| goal_id := x.1; stamp := {| nanos_since_epoch := x.2 |} |}.
Lemma to_of_info i : to_info (of_info i) = i.
Proof. by destruct i as [? []]. Qed.
Definition to_status (c : Z) : GoalStatusEnum :=
  default Unknown (List.find (λ s, status_code s =? c)
    [Accepted; Executing; Canceling; Succeeded; Canceled; Aborted]).
Definition to_cancel (c : Z) : CancelGoalResponseEnum :=
  default NoError (List.find (λ s, cancel_code s =? c) [Rejected; UnknownGoal; GoalTerminated]).

#[local] Instance toy_codecs : ActionCodecs Z Z Z := {|
  send_goal_request_cdr := toy_codec (λ m : SendGoalRequest Z, (sg_goal_id m, sg_goal m))
    (λ x, {| sg_goal_id := x.1; sg_goal := x.2 |});
  send_goal_response_cdr := toy_codec (λ m, (accepted m, nanos_since_epoch (sg_stamp m)))
    (λ x, {| accepted := x.1; sg_stamp := {| nanos_since_epoch := x.2 |} |});
  get_result_request_cdr := toy_codec gr_goal_id (λ x, {| gr_goal_id := x |});
  get_result_response_cdr := toy_codec (λ m : GetResultResponse Z, (gr_status m, gr_result m))
    (λ x, {| gr_status := x.1; gr_result := x.2 |});
  feedback_cdr := toy_codec (λ m : FeedbackMessage Z, (fb_goal_id m, fb_feedback m))
    (λ x, {| fb_goal_id := x.1; fb_feedback := x.2 |});
  cancel_request_cdr := toy_codec (λ m, of_info (cr_goal_info m))
    (λ x, {| cr_goal_info := to_info x |});
  cancel_response_cdr :=
    toy_codec (λ m, (cancel_code (return_code m), map of_info (goals_canceling m)))
      (λ x, {| return_code := to_cancel x.1; goals_canceling := map to_info x.2 |});
  status_cdr :=
    toy_codec (λ m, map (λ s, (of_info (gs_goal_info s), status_code (gs_status s))) (status_list m))
      (λ l, {| status_list := map (λ x, {| gs_goal_info := to_info x.1;
                                           gs_status := to_status x.2 |}) l |});
|}.
#[local] Instance toy_codecs_laws : ActionCodecsLaws Z Z Z.
Proof.
  split; apply toy_codec_laws; try by intros [].
  - by intros [? []].
  - intros [i]. simpl. by rewrite to_of_info.
  - intros [c l]. simpl. rewrite map_map. f_equal; [by destruct c|].
    rewrite <- (map_id l) at 2. apply map_ext. apply to_of_info.
  - intros [l]. simpl. rewrite map_map. f_equal.
    rewrite <- (map_id l) at 2. apply map_ext. intros [i st]. simpl. rewrite to_of_info.
    by destruct st.
Defined.

Definition toy_client : Client := Client_new (lit "0/fib/_action/send_goal/t/h") toy_client_gid None.

Lemma action_calls_witness :
  send_goal Debug 5 (goal_service 6 (Ok tt) 0 ∅ (λ _ n, n <? 10)) 77 3 toy_client =
    Some (set_seq 1 toy_client, Ok (77%N, true)) ∧
  get_result Debug 5 (raw_result_service 6 (Ok tt) 0 ∅ (λ g, (SUCCEEDED, Z.of_N g))) 77 toy_client =
    Some (set_seq 1 toy_client, Ok (4, 77)).
Proof.
  assert (in_i64 5 ∧ in_i64 (seq toy_client + 1)) as [H5 H1] by (split; split; discriminate).
  destruct (action_calls Debug 5 6 (Ok tt) 0 ∅ toy_client 77 3 (λ _ n, n <? 10)
    (λ g, (SUCCEEDED, Z.of_N g)) (λ _, {| return_code := NoError; goals_canceling := [] |})
    toy_wf_gid H5 H1) as (Hgoal & Hresult & _).
  split; [exact (Hgoal I I)|exact (proj2 (Hresult I I))].
Defined.

(** A result request whose payload is too short to be CDR. *)
Definition short_query : Query :=
  {| query_id := 0; payload := Some [0; 1];
     attachment := Some (to_zbytes {| a_sequence_number := 1; a_source_timestamp := 5;
                                      a_source_gid := toy_client_gid |});
     key_expr := [] |}.

(** The raw server keeps it pending, though it gives it to nobody; the typed one
    drops it. *)
Lemma raw_result_request_leaks :
  raw_try_receive_result_request (Ok (Some short_query)) ∅ =
    (<[(gid_key toy_client_gid, 1) := short_query]> ∅, None) ∧
  try_receive_result_request (Ok (Some short_query)) ∅ = (∅, None).
Proof. split; reflexivity. Qed.

(** A goal request 77 for the number 3, and its answer by either server. *)
Definition goal_query : Query :=
  {| query_id := 0;
     payload := Some (CDR_LE_HEADER ++ [Zpos (countable.encode (77%N, 3))]);
     attachment := attachment short_query; key_expr := lit "0/k" |}.

Lemma raw_action_server_agrees_witness :
  try_receive_goal (Ok (Some goal_query)) ∅ =
    (<[(gid_key toy_client_gid, 1) := goal_query]> ∅, Some (toy_request 1, 77%N, 3)) ∧
  (∃ bytes, try_receive_goal_request (Ok (Some goal_query)) ∅ =
      (<[(gid_key toy_client_gid, 1) := goal_query]> ∅, Some (toy_request 1, bytes)) ∧
    from_cdr bytes = Ok {| sg_goal_id := 77; sg_goal := 3 |}) ∧
  raw_respond_goal 6 (Ok tt) (toy_request 1) true Time_ZERO
      (<[(gid_key toy_client_gid, 1) := goal_query]> ∅) =
    respond_goal 6 (Ok tt) (toy_request 1) true (<[(gid_key toy_client_gid, 1) := goal_query]> ∅).
Proof.
  assert (try_receive_goal (Ok (Some goal_query)) ∅ =
    (<[(gid_key toy_client_gid, 1) := goal_query]> ∅, Some (toy_request 1, 77%N, 3))) as Hgoal
    by reflexivity.
  split; [exact Hgoal|]. split.
  - exact (proj1 (raw_action_server_agrees (Ok (Some goal_query)) ∅ 6 (Ok tt) (toy_request 1))
             _ _ _ _ Hgoal).
  - exact (proj1 (proj2 (proj2 (proj2 (proj2 (raw_action_server_agrees (Ok None)
             (<[(gid_key toy_client_gid, 1) := goal_query]> ∅) 6 (Ok tt) (toy_request 1))))))
             true I).
Defined.
