(* ===== verification/ZenohNode.v ===== *)
(** * Zenoh nodes (zenoh_backend/node.rs, zenoh_backend/gid.rs, the session's
    part of zenoh_backend/context.rs)

    What a node declares when it makes publishers, subscriptions, services,
    actions and parameter servers: the data-plane keys its endpoints work on, and
    the liveliness tokens by which other contexts discover them. The Zenoh
    session and the XXH3 hash are third-party: classes. *)
From S2P Require Import Prelude Names KeyExpr Qos Params ParamStore TypeDescription.
From S2P Require Import GraphCache ZenohService ZenohPubSub ZenohAction.
#[local] Open Scope N_scope.

(** ** zenoh_backend/gid.rs *)

(** [xxh3_128] of the bytes of a string. *)
Class Xxh3 := { xxh3_128 : str → N }.

(** [u128::to_le_bytes]. *)
Fixpoint to_le_bytes (n : nat) (x : N) : list Z :=
  match n with
  | O => []
  | S n => Z.of_N (x mod 256) :: to_le_bytes n (x / 256)
  end.
Definition GID_LEN : nat := 16.
Definition gid_from_liveliness_key `{Xxh3} (liveliness_key : str) : list Z :=
  to_le_bytes GID_LEN (xxh3_128 liveliness_key).
Definition gid_hex (gid : list Z) : str := gid ≫= λ b, hex2 (Z.to_N b).

(** ** The session *)

(** What a node asks its session to declare; queryables are complete. *)
Inductive Declaration :=
| DeclarePublisher (key : str)
| DeclareSubscriber (key : str)
| DeclareQueryable (key : str)
| DeclareToken (key : str).

(** A session's id, and whether it accepts a declaration after those asked for
    before. *)
Class ZenohSession `{ZenohSerializer} := {
  session_zid : str;
  declare : list Declaration → Declaration → result ZenohError unit;
}.
(** The id is a hexadecimal number. *)
Class ZenohSessionLaws `{ZenohSession} := { session_zid_no_slash : slash ∉ session_zid }.

(** ** [Node] *)

Record Topic := { fully_qualified_topic : str; dds_type_name : str; topic_qos : QosProfile }.

Record Node := {
  context_domain_id : N;
  zn_node_name : NodeName;
  zn_node_id : N;
  zn_zid : str;
  node_token : option str;
}.

Section node.
Context `{ZS : ZenohSerializer, SS : !ZenohSession, SH : Sha256, XH : Xxh3}.

(** What changes: the counter of the node and the declarations asked for. *)
Record NodeState := { next_entity_id : N; asked_for : list Declaration }.

(** [zenoh::Error] is a boxed error: one of Zenoh's or of a name. *)
Inductive Error := ZenohErr (e : ZenohError) | NameErr (e : NameError).

(** The methods of [Node]: they may fail, and what they did before stays done. *)
Definition M : Type → Type := stateE NodeState Error.

Definition lift_name {A} (r : result NameError A) : M A := λ st, (st, map_err NameErr r).
(** [session.declare_...(key).wait()?]. *)
Definition declare_entity (d : Declaration) : M unit := λ st,
  ({| next_entity_id := next_entity_id st; asked_for := asked_for st ++ [d] |},
   map_err ZenohErr (declare (asked_for st) d)).
(** [next_entity_id.fetch_add(1)]. *)
Definition fetch_entity_id : M N := λ st,
  ({| next_entity_id := (next_entity_id st + 1) mod 2 ^ 64; asked_for := asked_for st |},
   Ok (next_entity_id st)).
(** [declare_liveliness]: a failure is only logged. *)
Definition declare_liveliness (key : str) : M (option str) := λ st,
  ({| next_entity_id := next_entity_id st; asked_for := asked_for st ++ [DeclareToken key] |},
   Ok match declare (asked_for st) (DeclareToken key) with
      | Ok _ => Some key
      | Err _ => None
      end).

(** [Node::new], which [Context::new_node] calls with the context's next id. *)
Definition Node_new (domain : N) (name : NodeName) (id : N) (history : list Declaration) :
    NodeState * result Error Node :=
  let ids := {| session_id := session_zid; ids_node_id := id; ids_entity_id := id;
                enclave := []; ids_namespace := Names.namespace name;
                ids_node_name := base_name name |} in
  (token ← declare_liveliness (node_liveliness_keyexpr domain ids);
   mret {| context_domain_id := domain; zn_node_name := name; zn_node_id := id;
           zn_zid := session_zid; node_token := token |})
  {| next_entity_id := 0; asked_for := history |}.

Definition fully_qualified_node_name (n : Node) : str := fully_qualified_name (zn_node_name n).

Definition create_topic (node : Node) (name : Name) (type_name : MessageTypeName)
    (qos : QosProfile) : Topic :=
  {| fully_qualified_topic := resolve_fqn name (zn_node_name node);
     dds_type_name := dds_msg_type type_name; topic_qos := qos |}.

(** *** Liveliness keys *)
Definition node_ids (node : Node) (entity_id : N) : EntityIds :=
  {| session_id := zn_zid node; ids_node_id := zn_node_id node; ids_entity_id := entity_id;
     enclave := []; ids_namespace := Names.namespace (zn_node_name node);
     ids_node_name := base_name (zn_node_name node) |}.
Definition liveliness_key (node : Node) (entity_id : N) (kind : EntityKind)
    (fqn dds_type hash : str) (qos : QosProfile) : str :=
  entity_liveliness_keyexpr (context_domain_id node) (node_ids node entity_id) kind
    fqn dds_type hash (encode_qos qos).
Definition entity_liveliness_key (node : Node) (entity_id : N) (kind : EntityKind)
    (topic : Topic) (hash : str) (qos : QosProfile) : str :=
  liveliness_key node entity_id kind (fully_qualified_topic topic) (dds_type_name topic) hash qos.

(** *** Topics *)
Definition create_publisher_with_type_hash (node : Node) (topic : Topic)
    (qos : option QosProfile) (hash : str) : M ZenohPubSub.Publisher :=
  let qos := default (topic_qos topic) qos in
  let key := topic_keyexpr (context_domain_id node) (fully_qualified_topic topic)
               (dds_type_name topic) hash in
  _ ← declare_entity (DeclarePublisher key);
  entity_id ← fetch_entity_id;
  let liveliness_key := entity_liveliness_key node entity_id KeyExpr.Publisher topic hash qos in
  let source_gid := gid_from_liveliness_key liveliness_key in
  token ← declare_liveliness liveliness_key;
  mret (Publisher_new key source_gid token).
Definition create_publisher (node : Node) (topic : Topic) (qos : option QosProfile) :
    M ZenohPubSub.Publisher :=
  create_publisher_with_type_hash node topic qos (sender_hash (dds_type_name topic)).
Definition create_raw_publisher (node : Node) (topic : Topic) (qos : option QosProfile) :
    M RawPublisher :=
  p ← create_publisher node topic qos; mret (RawPublisher_new p).
Definition create_raw_publisher_with_type_hash (node : Node) (topic : Topic)
    (qos : option QosProfile) (hash : str) : M RawPublisher :=
  p ← create_publisher_with_type_hash node topic qos hash; mret (RawPublisher_new p).

(** A raw subscription wraps a typeless one and adds nothing. *)
Definition create_subscription (node : Node) (topic : Topic) (qos : option QosProfile) :
    M ZenohPubSub.Subscription :=
  let qos := default (topic_qos topic) qos in
  let key := topic_keyexpr (context_domain_id node) (fully_qualified_topic topic)
               (dds_type_name topic) WILDCARD in
  _ ← declare_entity (DeclareSubscriber key);
  entity_id ← fetch_entity_id;
  let sub_hash := sender_hash (dds_type_name topic) in
  let liveliness_key :=
    entity_liveliness_key node entity_id KeyExpr.Subscription topic sub_hash qos in
  token ← declare_liveliness liveliness_key;
  mret (Subscription_new key token).
Definition create_raw_subscription := create_subscription.

(** *** Services *)
Definition create_client_inner (node : Node) (service : Name) (service_type : ServiceTypeName)
    (timeout : option StdDuration) : M Client :=
  let fqn := resolve_fqn service (zn_node_name node) in
  let dds_type := dds_service_type service_type in
  let hash := sender_hash dds_type in
  let selector := topic_keyexpr (context_domain_id node) fqn dds_type hash in
  entity_id ← fetch_entity_id;
  let liveliness_key :=
    liveliness_key node entity_id KeyExpr.ServiceClient fqn dds_type hash default_qos in
  let client_gid := gid_from_liveliness_key liveliness_key in
  token ← declare_liveliness liveliness_key;
  mret (Client_new_with_timeout selector client_gid token timeout).
Definition create_client (node : Node) (service : Name) (service_type : ServiceTypeName) :
    M Client :=
  create_client_inner node service service_type None.

(** [create_raw_server_with_type_hash]; [create_server] and [create_raw_server]
    are the same with the table's hash. *)
Definition create_raw_server_with_type_hash (node : Node) (service : Name)
    (service_type : ServiceTypeName) (hash : str) : M Server :=
  let fqn := resolve_fqn service (zn_node_name node) in
  let dds_type := dds_service_type service_type in
  let key := topic_keyexpr (context_domain_id node) fqn dds_type hash in
  _ ← declare_entity (DeclareQueryable key);
  entity_id ← fetch_entity_id;
  let liveliness_key :=
    liveliness_key node entity_id KeyExpr.ServiceServer fqn dds_type hash default_qos in
  token ← declare_liveliness liveliness_key;
  mret (Server_new key token).
Definition create_server (node : Node) (service : Name) (service_type : ServiceTypeName) :
    M Server :=
  create_raw_server_with_type_hash node service service_type
    (sender_hash (dds_service_type service_type)).
Definition create_raw_server (node : Node) (service : Name) (service_type : ServiceTypeName) :
    M Server :=
  create_raw_server_with_type_hash node service service_type
    (sender_hash (dds_service_type service_type)).

(** *** Actions *)
Definition GET_RESULT_TIMEOUT : StdDuration := {| as_secs := 60; subsec_nanos := 0 |}.
Definition sub_name (action_fqn : str) (sub : string) : M Name :=
  lift_name (action_sub_name action_fqn (lit sub)).

Definition create_action_client (node : Node) (action : Name) (action_type : ActionTypeName) :
    M ActionClient :=
  let fqn := resolve_fqn action (zn_node_name node) in
  name ← sub_name fqn "send_goal";
  send_goal ← create_client node name (dds_action_service action_type (lit "_SendGoal"));
  name ← sub_name fqn "get_result";
  get_result ← create_client_inner node name (dds_action_service action_type (lit "_GetResult"))
                 (Some GET_RESULT_TIMEOUT);
  name ← sub_name fqn "feedback";
  let feedback_topic :=
    create_topic node name (dds_action_topic action_type (lit "_FeedbackMessage")) default_qos in
  feedback ← create_subscription node feedback_topic None;
  name ← sub_name fqn "cancel_goal";
  cancel_goal ← create_client node name (ServiceTypeName_new (lit "action_msgs") (lit "CancelGoal"));
  name ← sub_name fqn "status";
  let status_topic := create_topic node name
    (MessageTypeName_new (lit "action_msgs") (lit "GoalStatusArray")) default_qos in
  status ← create_subscription node status_topic None;
  mret (ActionClient_new send_goal get_result feedback cancel_goal status).

Definition create_action_server (node : Node) (action : Name) (action_type : ActionTypeName) :
    M ActionServer :=
  let fqn := resolve_fqn action (zn_node_name node) in
  name ← sub_name fqn "send_goal";
  send_goal ← create_server node name (dds_action_service action_type (lit "_SendGoal"));
  name ← sub_name fqn "get_result";
  get_result ← create_server node name (dds_action_service action_type (lit "_GetResult"));
  name ← sub_name fqn "feedback";
  let feedback_topic :=
    create_topic node name (dds_action_topic action_type (lit "_FeedbackMessage")) default_qos in
  feedback ← create_publisher node feedback_topic None;
  name ← sub_name fqn "cancel_goal";
  cancel_goal ← create_server node name (ServiceTypeName_new (lit "action_msgs") (lit "CancelGoal"));
  name ← sub_name fqn "status";
  let status_topic := create_topic node name
    (MessageTypeName_new (lit "action_msgs") (lit "GoalStatusArray")) default_qos in
  status ← create_publisher node status_topic None;
  mret (ActionServer_new send_goal get_result feedback cancel_goal status).

Record ActionTypeHashes := {
  send_goal_hash : str;
  get_result_hash : str;
  feedback_message_hash : str;
}.
Definition create_raw_action_server_with_type_hashes (node : Node) (action : Name)
    (action_type : ActionTypeName) (hashes : ActionTypeHashes) : M RawActionServer :=
  let fqn := resolve_fqn action (zn_node_name node) in
  name ← sub_name fqn "send_goal";
  send_goal ← create_raw_server_with_type_hash node name
                (dds_action_service action_type (lit "_SendGoal")) (send_goal_hash hashes);
  name ← sub_name fqn "get_result";
  get_result ← create_raw_server_with_type_hash node name
                (dds_action_service action_type (lit "_GetResult")) (get_result_hash hashes);
  name ← sub_name fqn "feedback";
  let feedback_topic :=
    create_topic node name (dds_action_topic action_type (lit "_FeedbackMessage")) default_qos in
  feedback ← create_raw_publisher_with_type_hash node feedback_topic None
               (feedback_message_hash hashes);
  name ← sub_name fqn "cancel_goal";
  cancel_goal ← create_server node name (ServiceTypeName_new (lit "action_msgs") (lit "CancelGoal"));
  name ← sub_name fqn "status";
  let status_topic := create_topic node name
    (MessageTypeName_new (lit "action_msgs") (lit "GoalStatusArray")) default_qos in
  status ← create_publisher node status_topic None;
  mret {| ra_send_goal := send_goal; ra_get_result := get_result; ra_feedback := feedback;
          ra_cancel_goal := cancel_goal; ra_status := status |}.
Definition create_raw_action_server (node : Node) (action : Name) (action_type : ActionTypeName) :
    M RawActionServer :=
  create_raw_action_server_with_type_hashes node action action_type
    {| send_goal_hash :=
         sender_hash (dds_service_type (dds_action_service action_type (lit "_SendGoal")));
       get_result_hash :=
         sender_hash (dds_service_type (dds_action_service action_type (lit "_GetResult")));
       feedback_message_hash :=
         sender_hash (dds_msg_type (dds_action_topic action_type (lit "_FeedbackMessage"))) |}.

(** *** Parameters and logging *)

(** The endpoints of a [ParameterServer], beside the store that ParamStore models. *)
Record ParameterServices := {
  ps_get_parameters : Server;
  ps_get_parameter_types : Server;
  ps_set_parameters : Server;
  ps_set_parameters_atomically : Server;
  ps_list_parameters : Server;
  ps_describe_parameters : Server;
  ps_events : ZenohPubSub.Publisher;
}.
Definition param_type (ty : string) : ServiceTypeName :=
  ServiceTypeName_new (lit "rcl_interfaces") (lit ty).
Definition create_parameter_server {T} (node : Node) (initial_parameters : list RosParameter) :
    M (ParameterServer T * ParameterServices) :=
  let node_fqn := fully_qualified_node_name node in
  let svc base : M Name := lift_name (param_service_name node_fqn (lit base)) in
  name ← svc "get_parameters";
  get_parameters ← create_server node name (param_type "GetParameters");
  name ← svc "get_parameter_types";
  get_parameter_types ← create_server node name (param_type "GetParameterTypes");
  name ← svc "set_parameters";
  set_parameters ← create_server node name (param_type "SetParameters");
  name ← svc "set_parameters_atomically";
  set_parameters_atomically ← create_server node name (param_type "SetParametersAtomically");
  name ← svc "list_parameters";
  list_parameters ← create_server node name (param_type "ListParameters");
  name ← svc "describe_parameters";
  describe_parameters ← create_server node name (param_type "DescribeParameters");
  name ← lift_name (Name_new (lit "/") (lit "parameter_events"));
  let events_topic := create_topic node name
    (MessageTypeName_new (lit "rcl_interfaces") (lit "ParameterEvent")) default_qos in
  events ← create_publisher node events_topic None;
  mret (ParameterServer_new node_fqn initial_parameters,
        {| ps_get_parameters := get_parameters; ps_get_parameter_types := get_parameter_types;
           ps_set_parameters := set_parameters;
           ps_set_parameters_atomically := set_parameters_atomically;
           ps_list_parameters := list_parameters; ps_describe_parameters := describe_parameters;
           ps_events := events |}).

Record ParameterClient := {
  pc_get_parameters : Client;
  pc_get_parameter_types : Client;
  pc_set_parameters : Client;
  pc_list_parameters : Client;
  pc_describe_parameters : Client;
}.
Definition create_parameter_client (node : Node) (remote_node : NodeName) : M ParameterClient :=
  let remote_fqn := fully_qualified_name remote_node in
  let svc base : M Name := lift_name (param_service_name remote_fqn (lit base)) in
  name ← svc "get_parameters";
  get_parameters ← create_client node name (param_type "GetParameters");
  name ← svc "get_parameter_types";
  get_parameter_types ← create_client node name (param_type "GetParameterTypes");
  name ← svc "set_parameters";
  set_parameters ← create_client node name (param_type "SetParameters");
  name ← svc "list_parameters";
  list_parameters ← create_client node name (param_type "ListParameters");
  name ← svc "describe_parameters";
  describe_parameters ← create_client node name (param_type "DescribeParameters");
  mret {| pc_get_parameters := get_parameters; pc_get_parameter_types := get_parameter_types;
          pc_set_parameters := set_parameters; pc_list_parameters := list_parameters;
          pc_describe_parameters := describe_parameters |}.

Definition rosout_topic (node : Node) : M Topic :=
  name ← lift_name (Name_new (lit "/") (lit "rosout"));
  mret (create_topic node name (MessageTypeName_new (lit "rcl_interfaces") (lit "Log")) default_qos).
(** A [Logger] is a name and a publisher. *)
Definition create_logger (node : Node) : M (str * ZenohPubSub.Publisher) :=
  topic ← rosout_topic node;
  publisher ← create_publisher node topic None;
  mret (base_name (zn_node_name node), publisher).
Definition read_rosout (node : Node) : M ZenohPubSub.Subscription :=
  topic ← rosout_topic node; create_subscription node topic None.
End node.

(** ** Specification *)

(** What makes the keys of a node readable: [NodeName::new] and the session
    promise the name and the session id. *)
Definition wf_node (n : Node) : Prop :=
  context_domain_id n <= u16_max ∧ zn_node_id n <= u64_max ∧ slash ∉ zn_zid n ∧
  wf_node_name (zn_node_name n).
Definition wf_topic (t : Topic) : Prop :=
  percent ∉ fully_qualified_topic t ∧ fully_qualified_topic t ≠ [] ∧
  slash ∉ dds_type_name t ∧ wf_qos (topic_qos t).

Section requests.
Context `{ZS : ZenohSerializer, SS : !ZenohSession, SH : Sha256, XH : Xxh3}.

(** One entity an application asks a node for; [None] stands for the table's
    hash, by which the raw and the typed methods with and without a hash are all
    covered. *)
Inductive request :=
| RPublisher (topic : Topic) (qos : option QosProfile) (hash : option str)
| RSubscription (topic : Topic) (qos : option QosProfile)
| RClient (service : Name) (ty : ServiceTypeName) (timeout : option StdDuration)
| RServer (service : Name) (ty : ServiceTypeName) (hash : option str).

(** The token of the entity, when it could be declared. *)
Definition create (node : Node) (r : request) : M (option str) :=
  match r with
  | RPublisher t q None => p ← create_publisher node t q; mret (pub_token p)
  | RPublisher t q (Some h) => p ← create_publisher_with_type_hash node t q h; mret (pub_token p)
  | RSubscription t q => s ← create_subscription node t q; mret (sub_token s)
  | RClient n ty timeout => c ← create_client_inner node n ty timeout; mret (client_token c)
  | RServer n ty None => s ← create_server node n ty; mret (server_token s)
  | RServer n ty (Some h) =>
      s ← create_raw_server_with_type_hash node n ty h; mret (server_token s)
  end.

(** The entity as the application described it. *)
Record Described := {
  d_kind : EntityKind;
  d_name : str;
  d_type : str;
  d_hash : str;
  d_qos : QosProfile;
}.
Definition described (node : Node) (r : request) : Described :=
  match r with
  | RPublisher t q h =>
      {| d_kind := KeyExpr.Publisher; d_name := fully_qualified_topic t;
         d_type := dds_type_name t; d_hash := default (sender_hash (dds_type_name t)) h;
         d_qos := default (topic_qos t) q |}
  | RSubscription t q =>
      {| d_kind := KeyExpr.Subscription; d_name := fully_qualified_topic t;
         d_type := dds_type_name t; d_hash := sender_hash (dds_type_name t);
         d_qos := default (topic_qos t) q |}
  | RClient n ty _ =>
      {| d_kind := ServiceClient; d_name := resolve_fqn n (zn_node_name node);
         d_type := dds_service_type ty; d_hash := sender_hash (dds_service_type ty);
         d_qos := default_qos |}
  | RServer n ty h =>
      {| d_kind := ServiceServer; d_name := resolve_fqn n (zn_node_name node);
         d_type := dds_service_type ty; d_hash := default (sender_hash (dds_service_type ty)) h;
         d_qos := default_qos |}
  end.
Definition wf_request (r : request) : Prop :=
  match r with
  | RPublisher t q h => wf_topic t ∧ (∀ p, q = Some p → wf_qos p) ∧ (∀ s, h = Some s → slash ∉ s)
  | RSubscription t q => wf_topic t ∧ (∀ p, q = Some p → wf_qos p)
  | RClient n _ _ => wf_name n
  | RServer n _ h => wf_name n ∧ (∀ s, h = Some s → slash ∉ s)
  end.

(** A node's life: the application keeps what it gets, and goes on after a
    failure. The result lists the entities that got a token. *)
Fixpoint create_all (node : Node) (rs : list request) (st : NodeState) :
    NodeState * list (request * str) :=
  match rs with
  | [] => (st, [])
  | r :: rs =>
      let '(st, res) := create node r st in
      let '(st, created) := create_all node rs st in
      (st, match res with Ok (Some token) => (r, token) :: created | _ => created end)
  end.

(** What a token says of the entity it announces. *)
Definition announced (node : Node) (id : N) (d : Described) : ParsedEntity :=
  {| KeyExpr.domain_id := context_domain_id node; zid := zn_zid node;
     KeyExpr.node_id := zn_node_id node; entity_id := id; kind := d_kind d;
     KeyExpr.namespace := Names.namespace (zn_node_name node);
     KeyExpr.node_name := base_name (zn_node_name node); topic_name := Some (d_name d);
     KeyExpr.type_name := Some (d_type d); type_hash := Some (d_hash d);
     KeyExpr.qos := Some (encode_qos (d_qos d)) |}.
Definition token_of (node : Node) (id : N) (d : Described) : str :=
  liveliness_key node id (d_kind d) (d_name d) (d_type d) (d_hash d) (d_qos d).
End requests.

(** ** Lemmas *)

(** ** Lemmas *)

Section lemmas.
Context `{ZS : ZenohSerializer, SS : !ZenohSession, SH : Sha256, XH : Xxh3}.
Context `{!Sha256Laws}.
Implicit Types (st : NodeState) (r : request).

(** A creation takes at most one entity id, and the token carries it. *)
Lemma create_cases node r st :
  match create node r st with
  | (st', Ok (Some tok)) =>
      tok = token_of node (next_entity_id st) (described node r) ∧
      next_entity_id st' = (next_entity_id st + 1) mod 2 ^ 64
  | (st', _) =>
      next_entity_id st' = next_entity_id st ∨
      next_entity_id st' = (next_entity_id st + 1) mod 2 ^ 64
  end.
Proof.
  destruct r as [t q [h|]|t q|n ty to|n ty [h|]]; cbn [create];
    unfold create_server, create_publisher, create_publisher_with_type_hash, create_subscription,
      create_client_inner, create_raw_server_with_type_hash, declare_entity, fetch_entity_id,
      declare_liveliness, mbind, stateE_bind, mret, stateE_ret;
    try destruct (declare (asked_for st) _); cbn [map_err next_entity_id asked_for];
    try (by left); destruct (declare _ (DeclareToken _)); cbn;
    first [by split | by right].
Qed.

Lemma sender_hash_no_slash ty : slash ∉ sender_hash ty.
Proof.
  unfold sender_hash, known_type_hash.
  destruct (str_eqb _ _); [by apply (bool_decide_unpack _)|].
  destruct (str_eqb _ _); [by apply (bool_decide_unpack _)|].
  destruct (STD_MSGS_SCALAR_HASHES !! ty) as [h|] eqn:E; [|by apply (bool_decide_unpack _)].
  apply elem_of_list_to_map_2, list_elem_of_fmap in E as ([[dds ros] tid]&[= _ ->]&_).
  eapply forallb_not_in; [apply rihs01_format|done].
Qed.
Lemma dds_type_no_slash s : slash ∉ slash_to_colons s.
Proof.
  intros [[? ?]|Hin]%elem_of_replace; [done|]. revert Hin. by apply (bool_decide_unpack _).
Qed.
Lemma default_qos_wf : wf_qos default_qos.
Proof. split; [vm_compute; discriminate|]. split_and!; by intros. Qed.

Lemma described_wf node r :
  wf_node node → wf_request r →
  let d := described node r in
  percent ∉ d_name d ∧ d_name d ≠ [] ∧ slash ∉ d_type d ∧ slash ∉ d_hash d ∧
  wf_qos (d_qos d) ∧ d_kind d ≠ KeyExpr.Node.
Proof.
  intros (_&_&_&Hnode) Hr. pose proof sender_hash_no_slash. pose proof default_qos_wf.
  assert (∀ n, wf_name n → percent ∉ resolve_fqn n (zn_node_name node) ∧
                           resolve_fqn n (zn_node_name node) ≠ []) as Hfqn.
  { intros n Hn. by apply resolve_fqn_clean. }
  destruct r as [t q h|t q|n ty to|n ty h]; simpl in *.
  - destruct Hr as ((?&?&?&?)&Hq&Hh). split_and!; try done; [destruct h|destruct q]; naive_solver.
  - destruct Hr as ((?&?&?&?)&Hq). split_and!; try done. destruct q; naive_solver.
  - destruct (Hfqn n Hr). split_and!; try done. apply dds_type_no_slash.
  - destruct Hr as [Hr Hh], (Hfqn n Hr). split_and!; try done; [apply dds_type_no_slash|].
    destruct h; naive_solver.
Qed.

Lemma demangled_nonempty s : s ≠ [] → demangled s = s.
Proof. by destruct s. Qed.

Lemma token_parses node id r :
  wf_node node → wf_request r → id <= u64_max →
  parse_liveliness_key (token_of node id (described node r)) =
  Some (announced node id (described node r)).
Proof.
  intros Hn Hr Hid. destruct (described_wf node r Hn Hr) as (?&?&?&?&?&?).
  destruct Hn as (?&?&?&Hb1&Hb2&Hns&Hs&_).
  unfold token_of, liveliness_key. rewrite parse_entity_key; try done.
  - unfold parsed_entity, announced. simpl. rewrite !demangled_nonempty; try done.
    + by destruct (base_name _).
    + by destruct (Names.namespace _).
  - unfold ids_ok. simpl. split_and!; try done; by eapply forallb_not_in.
  - apply encode_qos_no_slash.
Qed.

(** The tokens of a node's life: ids in the range taken, one for each. *)
Lemma create_all_spec node rs st :
  wf_node node → Forall wf_request rs →
  next_entity_id st + N.of_nat (length rs) <= u64_max →
  let '(st', created) := create_all node rs st in
  next_entity_id st <= next_entity_id st' <= next_entity_id st + N.of_nat (length rs) ∧
  ∃ ids, length ids = length created ∧ StronglySorted N.lt ids ∧
    Forall (λ id, next_entity_id st <= id < next_entity_id st') ids ∧
    Forall (λ p, wf_request p.1) created ∧
    created.*2 = zip_with (λ id p, token_of node id (described node p.1)) ids created.
Proof.
  intros Hn Hrs. revert st. induction Hrs as [|r rs Hr Hrs IH]; intros st Hid.
  { simpl. split; [lia|]. exists []. by repeat constructor. }
  cbn [create_all length] in *. pose proof (create_cases node r st) as Hc.
  destruct (create node r st) as [st1 res].
  assert (next_entity_id st1 = next_entity_id st ∨ next_entity_id st1 = next_entity_id st + 1)
    as Hnext.
  { rewrite N.mod_small in Hc by (unfold u64_max in Hid; lia).
    destruct res as [[tok|]|]; [destruct Hc as [_ ->]; by right|done|done]. }
  specialize (IH st1 ltac:(lia)). destruct (create_all node rs st1) as [st2 created].
  destruct IH as (Hle&ids&Hlen&Hsort&Hrange&Hwf&Htoks).
  split; [lia|].
  assert (Forall (λ id, next_entity_id st <= id < next_entity_id st2) ids) as Hrange'.
  { eapply Forall_impl; [exact Hrange|]. simpl. lia. }
  destruct res as [[tok|]|]; [|by exists ids..].
  destruct Hc as [-> Hc]. rewrite N.mod_small in Hc by (unfold u64_max in Hid; lia).
  exists (next_entity_id st :: ids). split_and!.
  - simpl. by rewrite Hlen.
  - constructor; [done|]. eapply Forall_impl; [exact Hrange|]. simpl. lia.
  - constructor; [lia|done].
  - by constructor.
  - by rewrite fmap_cons, Htoks.
Qed.

(** An entity on a topic or service, as a peer counts it. *)
Definition entity_on (node : Node) (k : EntityKind) (name : str) (p : request * str) : bool :=
  bool_decide (d_kind (described node p.1) = k) && bool_decide (d_name (described node p.1) = name).

Lemma length_filter_tokens (P : str → bool) (toks : list str) :
  NoDup toks →
  size (filter (λ key, P key = true) (list_to_set toks : gset str)) =
  length (List.filter P toks).
Proof.
  intros Hnd.
  assert (filter (λ key, P key = true) (list_to_set toks : gset str) =
          list_to_set (List.filter P toks)) as ->.
  { apply set_eq. intros x. rewrite elem_of_filter, !elem_of_list_to_set, !list_elem_of_In.
    rewrite filter_In. tauto. }
  apply size_list_to_set. eapply sublist_NoDup; [exact Hnd|]. apply sublist_List_filter.
Qed.

Lemma created_tokens node ids (created : list (request * str)) :
  wf_node node → length ids = length created → StronglySorted N.lt ids →
  Forall (λ id, id <= u64_max) ids → Forall (λ p, wf_request p.1) created →
  created.*2 = zip_with (λ id p, token_of node id (described node p.1)) ids created →
  NoDup created.*2 ∧
  Forall (λ p, ∃ id, id ∈ ids ∧ parse_liveliness_key p.2 = Some (announced node id (described node p.1)))
    created.
Proof.
  intros Hn. revert ids. induction created as [|[r tok] created IH]; intros ids Hlen Hs Hids Hwf E.
  { split; constructor. }
  destruct ids as [|id ids]; [done|]. rewrite fmap_cons in E |- *. cbn [zip_with snd fst] in *.
  injection E as Etok E. injection Hlen as Hlen.
  apply StronglySorted_inv in Hs as [Hs Hlt]. apply Forall_cons in Hids as [Hid Hids].
  apply Forall_cons in Hwf as [Hr Hwf]. simpl in Hr.
  destruct (IH ids Hlen Hs Hids Hwf E) as [Hnd Hp].
  pose proof (token_parses node id r Hn Hr Hid) as Hparse. rewrite <- Etok in Hparse.
  split.
  - constructor; [|done]. intros ([r' tok']&Heq&Hin)%list_elem_of_fmap. simpl in Heq. subst tok'.
    rewrite Forall_forall in Hp. destruct (Hp _ Hin) as (id'&Hid'&Hp').
    rewrite Forall_forall in Hlt. specialize (Hlt _ Hid'). simpl in Hp'.
    rewrite Hparse in Hp'. injection Hp' as ->. lia.
  - constructor; [exists id; split; [set_solver|done]|].
    eapply Forall_impl; [exact Hp|]. intros p (id'&?&?). exists id'. split; [set_solver|done].
Qed.

(** Discovery of one node. Whatever entities an application asks a
    node for, the tokens of those it gets are distinct; each parses to the node
    and the entity as the application described them -- name, type, hash -- with
    the QoS profile it asked for; and every context whose live tokens are these,
    in whatever order and with whatever repetitions they came, counts on every
    topic and service exactly the entities of each kind the application got. *)
Lemma node_entities_discovered node rs st :
  wf_node node → Forall wf_request rs →
  next_entity_id st + N.of_nat (length rs) <= u64_max →
  let created := (create_all node rs st).2 in
  NoDup created.*2 ∧
  Forall (λ '(r, token), ∃ id e q, parse_liveliness_key token = Some e ∧
            e = announced node id (described node r) ∧
            KeyExpr.qos e = Some q ∧ decode_qos q = Some (Ok (d_qos (described node r)))) created ∧
  ∀ closed os kind name, live_tokens os = list_to_set created.*2 →
    count_kind_on_topic kind name (fst (GraphCache.run closed os GraphCache_default)) =
    length (List.filter (entity_on node kind name) created).
Proof.
  intros Hn Hrs Hid. pose proof (create_all_spec node rs st Hn Hrs Hid) as Hspec.
  destruct (create_all node rs st) as [st' created]. simpl.
  destruct Hspec as (Hle&ids&Hlen&Hsort&Hrange&Hwf&Htoks).
  assert (Forall (λ id, id <= u64_max) ids) as Hids.
  { eapply Forall_impl; [exact Hrange|]. simpl. lia. }
  destruct (created_tokens node ids created Hn Hlen Hsort Hids Hwf Htoks) as [Hnd Hp].
  split_and!; [done| |].
  - rewrite Forall_forall in Hwf, Hp |- *. intros [r tok] Hin.
    destruct (Hp _ Hin) as (id&_&Hparse). exists id. do 2 eexists. split_and!; [done..|].
    apply encode_decode_qos. by apply described_wf, (Hwf _ Hin).
  - intros closed os kind name Hlive. erewrite count_live by apply cache_of_live.
    rewrite Hlive. unfold live_on_topic. rewrite length_filter_tokens by done.
    clear -Hp. induction Hp as [|[r tok] created (id&_&Hparse) _ IH]; [done|].
    rewrite fmap_cons. cbn [List.filter snd fst] in *. unfold token_on_topic at 1.
    rewrite Hparse. unfold on_topic, entity_on at 1. simpl.
    rewrite (bool_decide_ext (Some (d_name (described node r)) = Some name)
               (d_name (described node r) = name)) by naive_solver.
    destruct (_ && _); simpl; by rewrite IH.
Qed.
End lemmas.

(** ** Routing

    Zenoh's matching of a concrete key by an expression whose only wildcards are
    whole chunks [*]: chunk by chunk. *)
Definition key_matches (pattern key : str) : Prop :=
  Forall2 (λ p c, p = WILDCARD ∨ p = c) (split_on slash pattern) (split_on slash key).

Definition star : char := 42.
(** A name the key expressions can carry: absolute, without wildcards. *)
Definition routable (fq : str) : Prop := clean_fqn fq ∧ star ∉ fq.

Section routing.
Context `{ZS : ZenohSerializer, SS : !ZenohSession, SH : Sha256, XH : Xxh3}.

Lemma strip_clean fq : clean_fqn fq → slash :: strip_slashes fq = fq.
Proof. intros (rel&->&Hr). unfold strip_slashes. by rewrite trim_matches_clean. Qed.

Lemma split_topic_key d fq ty h :
  slash ∉ ty → slash ∉ h →
  split_on slash (topic_keyexpr d fq ty h) =
  show_N d :: split_on slash (strip_slashes fq) ++ [ty; h].
Proof.
  intros Hty Hh. unfold topic_keyexpr. rewrite split_on_chunk by apply show_N_no_slash. f_equal.
  assert (∀ r t, slash ∉ t → split_on slash (r ++ slash :: t) = split_on slash r ++ [t]) as Hs.
  { intros r t Ht. induction r as [|c r IH].
    - simpl. by rewrite (split_on_no_sep slash t).
    - simpl. rewrite IH. destruct (c =? slash)%N; [done|].
      pose proof (split_on_nonempty slash r). by destruct (split_on slash r). }
  change (strip_slashes fq ++ slash :: ty ++ slash :: h) with
    (strip_slashes fq ++ (slash :: ty) ++ slash :: h).
  rewrite (assoc_L (++)), Hs, Hs by done. by rewrite <- (assoc_L (++)).
Qed.

Lemma split_on_not_in (c d : char) s w : d ∉ s → w ∈ split_on c s → d ∉ w.
Proof.
  revert w. induction s as [|x s IH]; intros w Hd Hw; simpl in Hw.
  - apply list_elem_of_singleton in Hw as ->. apply not_elem_of_nil.
  - apply not_elem_of_cons in Hd as [Hx Hd]. destruct (x =? c)%N.
    + apply elem_of_cons in Hw as [->|Hw]; [apply not_elem_of_nil|by apply IH].
    + pose proof (λ w, IH w Hd) as IHw. destruct (split_on c s) as [|w' ws].
      * apply list_elem_of_singleton in Hw as ->. apply not_elem_of_cons. split; [done|apply not_elem_of_nil].
      * apply elem_of_cons in Hw as [->|Hw].
        -- apply not_elem_of_cons. split; [done|]. apply IHw. by left.
        -- apply IHw. by right.
Qed.

Lemma Forall2_no_wildcard l l' :
  Forall2 (λ p c, p = WILDCARD ∨ p = c) l l' → WILDCARD ∉ l → l = l'.
Proof.
  induction 1 as [|p c l l' Hpc _ IH]; [done|]. intros Hn.
  apply not_elem_of_cons in Hn as [Hp Hn]. destruct Hpc as [ | ->]; [done|]. f_equal. by apply IH.
Qed.

(** A subscription's expression matches a key exactly when all but the hash
    agree. *)
Lemma wildcard_key_matches d fq ty d' fq' ty' h :
  routable fq → clean_fqn fq' → slash ∉ ty → star ∉ ty → slash ∉ ty' → slash ∉ h →
  key_matches (topic_keyexpr d fq ty WILDCARD) (topic_keyexpr d' fq' ty' h) ↔
  d = d' ∧ fq = fq' ∧ ty = ty'.
Proof.
  intros [Hfq Hstar] Hfq' Hty Hsty Hty' Hh. unfold key_matches.
  rewrite !split_topic_key by (done || by apply (bool_decide_unpack _)).
  split.
  - intros Hm. apply Forall2_cons in Hm as [Hd Hm].
    assert (d = d') as ->.
    { destruct Hd as [Hd|Hd]; [|by apply show_N_inj].
      pose proof (show_N_not_in d star eq_refl) as Hn. rewrite Hd in Hn.
      destruct Hn. by apply (bool_decide_unpack _). }
    apply Forall2_app_inv in Hm as [Hm Ht]; [|apply Forall2_length in Hm;
      rewrite !length_app in Hm; simpl in Hm; lia].
    apply Forall2_cons in Ht as [Ht _]. split; [done|]. split.
    + rewrite <- (strip_clean fq), <- (strip_clean fq') by done. f_equal.
      rewrite <- (join_split_on slash (strip_slashes fq)),
        <- (join_split_on slash (strip_slashes fq')). f_equal.
      apply (Forall2_no_wildcard _ _ Hm). intros Hw.
      assert (star ∉ strip_slashes fq) as Hs'.
      { rewrite <- (strip_clean fq) in Hstar by done. set_solver. }
      apply (split_on_not_in _ _ _ _ Hs' Hw). by apply (bool_decide_unpack _).
    + destruct Ht as [->|]; [|done]. destruct Hsty. by apply (bool_decide_unpack _).
  - intros (->&->&->). apply Forall2_cons. split; [by right|].
    apply Forall2_app; [|by repeat constructor; auto].
    by apply Forall_Forall2_diag, Forall_true; intros; right.
Qed.

(** *** Keys of what is created *)

Lemma create_client_key node n ty to st st' c :
  create_client_inner node n ty to st = (st', Ok c) →
  selector c = topic_keyexpr (context_domain_id node) (resolve_fqn n (zn_node_name node))
    (dds_service_type ty) (sender_hash (dds_service_type ty)) ∧ timeout c = to.
Proof. intros [= <- <-]. done. Qed.
Lemma create_server_key node n ty h st st' s :
  create_raw_server_with_type_hash node n ty h st = (st', Ok s) →
  queryable s = topic_keyexpr (context_domain_id node) (resolve_fqn n (zn_node_name node))
    (dds_service_type ty) h.
Proof. intros (?&?&_&[= <- <-])%stateE_bind_Ok. done. Qed.
Lemma create_publisher_key node t q h st st' p :
  create_publisher_with_type_hash node t q h st = (st', Ok p) →
  zenoh_publisher p =
    topic_keyexpr (context_domain_id node) (fully_qualified_topic t) (dds_type_name t) h.
Proof. intros (?&?&_&[= <- <-])%stateE_bind_Ok. done. Qed.
Lemma create_subscription_key node t q st st' s :
  create_subscription node t q st = (st', Ok s) →
  zenoh_subscriber s =
    topic_keyexpr (context_domain_id node) (fully_qualified_topic t) (dds_type_name t) WILDCARD.
Proof. intros (?&?&_&[= <- <-])%stateE_bind_Ok. done. Qed.

(** The fully qualified name of an action's sub-entity. *)
Definition sub_fqn (fqn : str) (sub : string) : str := fqn ++ lit "/_action" ++ slash :: lit sub.

Lemma sub_name_Ok node a tokens sub :
  wf_name a → wf_namespace (Names.namespace (zn_node_name node)) tokens →
  token_ok (lit sub) = true →
  ∃ n, sub_name (resolve_fqn a (zn_node_name node)) sub = lift_name (Ok n) ∧
    ∀ node', resolve_fqn n node' = sub_fqn (resolve_fqn a (zn_node_name node)) sub.
Proof.
  intros Ha Hns Hsub. exists (dds_action_sub_name (absolute_name tokens a) (lit sub)).
  rewrite (resolve_absolute a _ tokens) by done. split.
  - unfold sub_name. rewrite action_sub_name_push; [done| |done].
    by apply absolute_name_wf, Hns.
  - intros node'. unfold sub_fqn. by rewrite <- sub_name_display.
Qed.

Lemma bind_name {A} n (f : Name → M A) : (lift_name (Ok n) ≫= f) = f n.
Proof. done. Qed.

(** The keys of the endpoints of an action server of either kind. *)
Record ActionKeys := {
  k_send_goal : str;
  k_get_result : str;
  k_feedback : str;
  k_cancel_goal : str;
  k_status : str;
}.
Definition server_keys (s : ActionServer) : ActionKeys :=
  {| k_send_goal := queryable (as_send_goal s); k_get_result := queryable (as_get_result s);
     k_feedback := zenoh_publisher (as_feedback s);
     k_cancel_goal := queryable (as_cancel_goal s); k_status := zenoh_publisher (as_status s) |}.
Definition raw_server_keys (s : RawActionServer) : ActionKeys :=
  {| k_send_goal := queryable (ra_send_goal s); k_get_result := queryable (ra_get_result s);
     k_feedback := zenoh_publisher (raw_inner (ra_feedback s));
     k_cancel_goal := queryable (ra_cancel_goal s); k_status := zenoh_publisher (ra_status s) |}.

(** What they are: the action's name, its types, and the hashes. *)
Definition CancelGoal_type : str :=
  dds_service_type (ServiceTypeName_new (lit "action_msgs") (lit "CancelGoal")).
Definition GoalStatusArray_type : str :=
  dds_msg_type (MessageTypeName_new (lit "action_msgs") (lit "GoalStatusArray")).
Definition SendGoal_type (ty : ActionTypeName) : str :=
  dds_service_type (dds_action_service ty (lit "_SendGoal")).
Definition GetResult_type (ty : ActionTypeName) : str :=
  dds_service_type (dds_action_service ty (lit "_GetResult")).
Definition FeedbackMessage_type (ty : ActionTypeName) : str :=
  dds_msg_type (dds_action_topic ty (lit "_FeedbackMessage")).
Definition action_keys (d : N) (fqn : str) (ty : ActionTypeName) (hashes : ActionTypeHashes) :
    ActionKeys :=
  {| k_send_goal :=
       topic_keyexpr d (sub_fqn fqn "send_goal") (SendGoal_type ty) (send_goal_hash hashes);
     k_get_result :=
       topic_keyexpr d (sub_fqn fqn "get_result") (GetResult_type ty) (get_result_hash hashes);
     k_feedback := topic_keyexpr d (sub_fqn fqn "feedback") (FeedbackMessage_type ty)
                     (feedback_message_hash hashes);
     k_cancel_goal :=
       topic_keyexpr d (sub_fqn fqn "cancel_goal") CancelGoal_type (sender_hash CancelGoal_type);
     k_status := topic_keyexpr d (sub_fqn fqn "status") GoalStatusArray_type
                   (sender_hash GoalStatusArray_type) |}.
Definition table_hashes (ty : ActionTypeName) : ActionTypeHashes :=
  {| send_goal_hash := sender_hash (SendGoal_type ty);
     get_result_hash := sender_hash (GetResult_type ty);
     feedback_message_hash := sender_hash (FeedbackMessage_type ty) |}.

(** Goes through the creation of an action's endpoints: replaces the sub-names by
    the names they are, and takes each step to its key. *)
Ltac action_names node a tokens Ha Hns H :=
  repeat match type of H with
  | context [sub_name (resolve_fqn a (zn_node_name node)) ?sub] =>
      let n := fresh "n" in let E := fresh "E" in let F := fresh "F" in
      destruct (sub_name_Ok node a tokens sub Ha Hns eq_refl) as (n&E&F);
      rewrite E in H
  end.
Ltac created H :=
  repeat first
    [ rewrite bind_name in H
    | let E := fresh "K" in apply stateE_bind_Ok in H as (?&?&E&H);
      first [ apply create_client_key in E as [E ?]
            | apply create_server_key in E | apply create_publisher_key in E
            | apply create_subscription_key in E
            | apply stateE_bind_Ok in E as (?&?&E&[= _ <-]); apply create_publisher_key in E ] ].

(** Both, then the keys field by field. *)
Ltac action_keys_of node a tokens Ha Hns H :=
  action_names node a tokens Ha Hns H; created H; injection H as _ <-;
  cbn [create_topic fully_qualified_topic dds_type_name] in *;
  repeat match goal with
  | F : ∀ _, resolve_fqn ?n _ = _, K : context [resolve_fqn ?n _] |- _ => rewrite F in K
  end;
  f_equal; assumption.

Lemma raw_action_server_keys node a tokens ty hashes st st' s :
  wf_name a → wf_namespace (Names.namespace (zn_node_name node)) tokens →
  create_raw_action_server_with_type_hashes node a ty hashes st = (st', Ok s) →
  raw_server_keys s =
    action_keys (context_domain_id node) (resolve_fqn a (zn_node_name node)) ty hashes.
Proof.
  intros Ha Hns H. unfold create_raw_action_server_with_type_hashes in H.
  unfold raw_server_keys, action_keys. action_keys_of node a tokens Ha Hns H.
Qed.
Lemma action_server_keys node a tokens ty st st' s :
  wf_name a → wf_namespace (Names.namespace (zn_node_name node)) tokens →
  create_action_server node a ty st = (st', Ok s) →
  server_keys s = action_keys (context_domain_id node) (resolve_fqn a (zn_node_name node)) ty
                    (table_hashes ty).
Proof.
  intros Ha Hns H. unfold create_action_server in H.
  unfold server_keys, action_keys. action_keys_of node a tokens Ha Hns H.
Qed.
(** A client's services are keyed like a server's with the table's hashes; its
    subscriptions listen with the wildcard. *)
Lemma action_client_keys node a tokens ty st st' c :
  wf_name a → wf_namespace (Names.namespace (zn_node_name node)) tokens →
  create_action_client node a ty st = (st', Ok c) →
  let d := context_domain_id node in
  let fqn := resolve_fqn a (zn_node_name node) in
  let k := action_keys d fqn ty (table_hashes ty) in
  selector (ac_send_goal c) = k_send_goal k ∧ selector (ac_get_result c) = k_get_result k ∧
  selector (ac_cancel_goal c) = k_cancel_goal k ∧
  zenoh_subscriber (ac_feedback c) =
    topic_keyexpr d (sub_fqn fqn "feedback") (FeedbackMessage_type ty) WILDCARD ∧
  zenoh_subscriber (ac_status c) =
    topic_keyexpr d (sub_fqn fqn "status") GoalStatusArray_type WILDCARD ∧
  timeout (ac_get_result c) = Some GET_RESULT_TIMEOUT.
Proof.
  intros Ha Hns H. unfold create_action_client in H.
  action_names node a tokens Ha Hns H. created H. injection H as _ <-.
  cbn [create_topic fully_qualified_topic dds_type_name] in *.
  repeat match goal with
  | F : ∀ _, resolve_fqn ?n _ = _, K : context [resolve_fqn ?n _] |- _ => rewrite F in K
  end.
  split_and!; assumption.
Qed.

Lemma display_routable n : wf_name n → absolute n = true → routable (Name_display n).
Proof.
  intros Hn Habs. split; [|by apply Name_display_not_in].
  rewrite Name_display_join, Habs. eexists. split; [reflexivity|].
  assert (Forall (λ t, token_ok t = true) (preceeding_tokens n ++ [name_base n])) as Hts.
  { destruct Hn. apply Forall_app. auto. }
  split; [|by apply join_tokens_end].
  destruct (join slash _) as [|c r] eqn:E; [done|]. simpl.
  destruct (N.eqb_spec c slash) as [->|]; [|done]. by destruct (join_tokens_not_slash _ r Hts).
Qed.

Lemma sub_fqn_routable node a tokens sub :
  wf_name a → wf_namespace (Names.namespace (zn_node_name node)) tokens →
  token_ok (lit sub) = true → routable (sub_fqn (resolve_fqn a (zn_node_name node)) sub).
Proof.
  intros Ha Hns Hsub. rewrite (resolve_absolute a _ tokens) by done.
  unfold sub_fqn. rewrite <- sub_name_display. apply display_routable; [|done].
  apply sub_name_wf; [|done]. by apply absolute_name_wf, Hns.
Qed.

Lemma sub_fqn_inj fqn fqn' sub : sub_fqn fqn sub = sub_fqn fqn' sub ↔ fqn = fqn'.
Proof. unfold sub_fqn. split; [apply app_inv_tail|by intros ->]. Qed.

(** One service of an action: the client's selector is the server's key exactly
    when domain and action agree. *)
Lemma sub_service_meets d d' fqn fqn' sub ty h :
  routable (sub_fqn fqn sub) → routable (sub_fqn fqn' sub) → slash ∉ ty → slash ∉ h →
  topic_keyexpr d (sub_fqn fqn sub) ty h = topic_keyexpr d' (sub_fqn fqn' sub) ty h ↔
  d = d' ∧ fqn = fqn'.
Proof.
  intros [Hf _] [Hf' _] Hty Hh. rewrite topic_key_eq by done. rewrite sub_fqn_inj. tauto.
Qed.
Lemma sub_topic_meets d d' fqn fqn' sub ty h :
  routable (sub_fqn fqn sub) → routable (sub_fqn fqn' sub) → slash ∉ ty → star ∉ ty → slash ∉ h →
  key_matches (topic_keyexpr d (sub_fqn fqn sub) ty WILDCARD)
    (topic_keyexpr d' (sub_fqn fqn' sub) ty h) ↔ d = d' ∧ fqn = fqn'.
Proof.
  intros Hf [Hf' _] Hty Hs Hh. rewrite wildcard_key_matches by done. rewrite sub_fqn_inj. tauto.
Qed.

(** A session that accepts whatever it is asked to declare. *)
Definition accepting : Prop := ∀ h d, declare h d = Ok tt.

Lemma succeeds_name n : succeeds (C:=Name) (lift_name (Ok n)).
Proof. intros st. exact I. Qed.
Lemma succeeds_declare d : accepting → succeeds (C:=unit) (declare_entity d).
Proof. intros Hacc st. unfold declare_entity. by rewrite Hacc. Qed.
Lemma succeeds_fetch : succeeds (C:=N) fetch_entity_id.
Proof. intros st. exact I. Qed.
Lemma succeeds_liveliness key : succeeds (C:=option str) (declare_liveliness key).
Proof. intros st. exact I. Qed.
#[local] Hint Resolve succeeds_ret succeeds_name succeeds_declare succeeds_fetch
  succeeds_liveliness : core.

Lemma action_created node a tokens ty hashes :
  accepting → wf_name a → wf_namespace (Names.namespace (zn_node_name node)) tokens →
  succeeds (create_action_client node a ty) ∧ succeeds (create_action_server node a ty) ∧
  succeeds (create_raw_action_server_with_type_hashes node a ty hashes).
Proof.
  intros Hacc Ha Hns.
  unfold create_action_client, create_action_server, create_raw_action_server_with_type_hashes.
  repeat match goal with
  | |- context [sub_name (resolve_fqn a (zn_node_name node)) ?sub] =>
      let n := fresh "n" in let E := fresh "E" in
      destruct (sub_name_Ok node a tokens sub Ha Hns eq_refl) as (n&E&_); rewrite E; clear E
  end.
  unfold create_server, create_publisher, create_raw_publisher_with_type_hash,
    create_publisher_with_type_hash, create_subscription, create_client, create_client_inner,
    create_raw_server_with_type_hash.
  split_and!; repeat (apply succeeds_bind; [|intros]); auto.
Qed.

(** C15: an action server meets its clients. The endpoints of an action client and
    of an action server of the same type, made by any two nodes in whatever
    state, use matching keys -- the three services the same key, the feedback and
    status subscriptions expressions that match the publishers' keys -- exactly
    when the nodes are in the same domain and the two action names, each
    resolved by its own node, are the same; for a raw server with the hashes of the
    type's names too (not for one with hashes of the caller's own, which meets the
    clients that have the same). And when the session accepts the declarations, both
    are created: no action name is rejected. *)
Theorem action_endpoints_meet `{!Sha256Laws} node node' a a' tokens tokens' ty st st' :
  wf_name a → wf_namespace (Names.namespace (zn_node_name node)) tokens →
  wf_name a' → wf_namespace (Names.namespace (zn_node_name node')) tokens' →
  star ∉ FeedbackMessage_type ty →
  (accepting → is_ok (create_action_client node a ty st).2 ∧
     is_ok (create_action_server node' a' ty st').2 ∧
     is_ok (create_raw_action_server node' a' ty st').2) ∧
  ∀ st1 st2 c keys,
    create_action_client node a ty st = (st1, Ok c) →
    (∃ s, create_action_server node' a' ty st' = (st2, Ok s) ∧ keys = server_keys s) ∨
    (∃ s, create_raw_action_server node' a' ty st' = (st2, Ok s) ∧ keys = raw_server_keys s) →
    let same_action := context_domain_id node = context_domain_id node' ∧
      resolve_fqn a (zn_node_name node) = resolve_fqn a' (zn_node_name node') in
    (selector (ac_send_goal c) = k_send_goal keys ↔ same_action) ∧
    (selector (ac_get_result c) = k_get_result keys ↔ same_action) ∧
    (selector (ac_cancel_goal c) = k_cancel_goal keys ↔ same_action) ∧
    (key_matches (zenoh_subscriber (ac_feedback c)) (k_feedback keys) ↔ same_action) ∧
    (key_matches (zenoh_subscriber (ac_status c)) (k_status keys) ↔ same_action).
Proof.
  intros Ha Hns Ha' Hns' Hstar. split.
  { intros Hacc.
    destruct (action_created node a tokens ty (table_hashes ty) Hacc Ha Hns) as (Hc&_&_).
    destruct (action_created node' a' tokens' ty (table_hashes ty) Hacc Ha' Hns') as (_&Hs&Hr).
    split_and!; [apply Hc|apply Hs|apply Hr]. }
  intros st1 st2 c keys Hc Hs same_action.
  assert (keys = action_keys (context_domain_id node') (resolve_fqn a' (zn_node_name node')) ty
                   (table_hashes ty)) as ->.
  { destruct Hs as [(s&Hs&->)|(s&Hs&->)];
      [by eapply action_server_keys|by eapply raw_action_server_keys]. }
  apply (action_client_keys _ _ tokens) in Hc as (->&->&->&->&->&_); [|done..].
  pose proof (λ sub, sub_fqn_routable node a tokens sub Ha Hns) as Hr.
  pose proof (λ sub, sub_fqn_routable node' a' tokens' sub Ha' Hns') as Hr'.
  assert (slash ∉ SendGoal_type ty ∧ slash ∉ GetResult_type ty ∧ slash ∉ FeedbackMessage_type ty ∧
          slash ∉ CancelGoal_type ∧ slash ∉ GoalStatusArray_type) as (?&?&?&?&?).
  { split_and!; apply dds_type_no_slash. }
  assert (star ∉ GoalStatusArray_type) by by apply (bool_decide_unpack _).
  pose proof sender_hash_no_slash.
  split_and!; cbn [action_keys k_send_goal k_get_result k_feedback k_cancel_goal k_status];
    first [apply sub_service_meets | apply sub_topic_meets];
    first [done | apply sender_hash_no_slash | by apply Hr | by apply Hr'].
Qed.
End routing.

(** ** A concrete session with two nodes *)
#[local] Existing Instance toy_serializer.
#[local] Existing Instance toy_sha.
#[local] Existing Instance toy_sha_laws.
#[local] Instance toy_session : ZenohSession :=
  {| session_zid := lit "aac3178e"; declare _ _ := Ok tt |}.
#[local] Instance toy_session_laws : ZenohSessionLaws.
Proof. split. by apply (bool_decide_unpack _). Defined.
#[local] Instance toy_xxh3 : Xxh3 := {| xxh3_128 := foldl (λ a c, (a * 31 + c) mod 2 ^ 128) 7 |}.

Definition toy_node (id : N) (ns base : string) : Node :=
  {| context_domain_id := 0; zn_node_name := {| Names.namespace := lit ns; base_name := lit base |};
     zn_node_id := id; zn_zid := session_zid; node_token := None |}.
Definition toy_state : NodeState := {| next_entity_id := 0; asked_for := [] |}.
Lemma toy_node_wf : wf_node (toy_node 1 "/robot1" "talker").
Proof.
  split; [discriminate|]. split; [discriminate|]. split; [by apply (bool_decide_unpack _)|].
  split_and!; try reflexivity. by right.
Defined.

Definition rel_name (s : string) : Name :=
  {| name_base := lit s; preceeding_tokens := []; absolute := false |}.
Definition chatter : Topic :=
  create_topic (toy_node 1 "/robot1" "talker") (rel_name "chatter")
    (MessageTypeName_new (lit "std_msgs") (lit "String")) default_qos.
Lemma chatter_wf : wf_topic chatter.
Proof.
  split; [apply (bool_decide_unpack _); vm_compute; exact I|]. split; [discriminate|].
  split; [apply (bool_decide_unpack _); vm_compute; exact I|]. exact default_qos_wf.
Defined.
Definition toy_requests : list request :=
  [RPublisher chatter None None; RSubscription chatter (Some example_qos);
   RPublisher chatter (Some example_qos) (Some (lit "RIHS01_abc"));
   RServer (rel_name "add") (ServiceTypeName_new (lit "example_interfaces") (lit "AddTwoInts")) None].
Lemma toy_requests_wf : Forall wf_request toy_requests.
Proof.
  pose proof chatter_wf as Hc.
  assert (wf_qos example_qos) as Hq.
  { split; [vm_compute; discriminate|]. split_and!; intros d [= <-]; split; vm_compute; done. }
  apply Forall_cons. split; [split_and!; [exact Hc|discriminate..]|].
  apply Forall_cons. split; [split; [exact Hc|intros p [= <-]; exact Hq]|].
  apply Forall_cons. split.
  { split_and!; [exact Hc|intros p [= <-]; exact Hq|].
    intros s [= <-]. by apply (bool_decide_unpack _). }
  apply Forall_cons. split; [|constructor]. split; [|discriminate].
  split; [reflexivity|constructor].
Defined.

(** The tokens as another context receives them, one of them twice. *)
Lemma node_entities_discovered_witness :
  let node := toy_node 1 "/robot1" "talker" in
  let tokens := (create_all node toy_requests toy_state).2.*2 in
  tokens !! 0%nat = Some (lit "@ros2_lv/0/aac3178e/1/0/MP/%/%robot1/talker/%robot1%chatter/std_msgs::msg::dds_::String_/RIHS01_df668c740482bbd48fb39d76a70dfd4bd59db1288021743503259e948f6b1a18/2::,1:,:,:,,") ∧
  count_kind_on_topic KeyExpr.Publisher (lit "/robot1/chatter")
    (fst (GraphCache.run (λ _, false) ((OnSample ∘ Put) <$> (tokens ++ take 1 tokens))
            GraphCache_default)) = 2%nat.
Proof.
  intros node tokens. split; [vm_compute; reflexivity|].
  destruct (node_entities_discovered node toy_requests toy_state toy_node_wf toy_requests_wf
    ltac:(vm_compute; discriminate)) as (_&_&Hcount).
  rewrite Hcount; [vm_compute; reflexivity|].
  apply (bool_decide_unpack _). vm_compute. exact I.
Defined.

(** A relative action name on a node in [/robot1], and the absolute name of that
    action on a node in the root namespace. *)
Definition fibonacci_type : ActionTypeName :=
  ActionTypeName_new (lit "action_tutorials_interfaces") (lit "Fibonacci").
Definition fibonacci_abs : Name :=
  {| name_base := lit "fib"; preceeding_tokens := [lit "robot1"]; absolute := true |}.

Lemma action_endpoints_meet_witness :
  ∃ st1 c st2 s,
    create_action_client (toy_node 1 "/robot1" "cli") (rel_name "fib") fibonacci_type toy_state =
      (st1, Ok c) ∧
    create_raw_action_server (toy_node 2 "/" "srv") fibonacci_abs fibonacci_type toy_state =
      (st2, Ok s) ∧
    selector (ac_send_goal c) = queryable (ra_send_goal s) ∧
    key_matches (zenoh_subscriber (ac_feedback c)) (zenoh_publisher (raw_inner (ra_feedback s))).
Proof.
  assert (wf_name (rel_name "fib") ∧ wf_name fibonacci_abs) as [Ha Ha']
    by (split; split; repeat constructor).
  assert (wf_namespace (lit "/robot1") [lit "robot1"] ∧ wf_namespace (lit "/") []) as [Hns Hns']
    by (split; split; repeat constructor).
  assert (star ∉ FeedbackMessage_type fibonacci_type) as Hstar
    by (apply (bool_decide_unpack _); vm_compute; exact I).
  destruct (action_endpoints_meet (toy_node 1 "/robot1" "cli") (toy_node 2 "/" "srv")
    (rel_name "fib") fibonacci_abs [lit "robot1"] [] fibonacci_type toy_state toy_state
    Ha Hns Ha' Hns' Hstar) as [Hok Hmeet].
  destruct (Hok (λ _ _, eq_refl)) as (Hc&_&Hs).
  destruct (create_action_client _ _ _ _) as [st1 [c|e]] eqn:Ec; [|destruct Hc].
  destruct (create_raw_action_server _ _ _ _) as [st2 [s|e]] eqn:Es; [|destruct Hs].
  exists st1, c, st2, s. split; [reflexivity|]. split; [reflexivity|].
  destruct (Hmeet st1 st2 c (raw_server_keys s) eq_refl
    (or_intror (ex_intro _ s (conj eq_refl eq_refl)))) as (Hgoal&_&_&Hfb&_).
  split; [apply Hgoal|apply Hfb]; split; reflexivity.
Defined.
