(* ===== verification/ZenohContext.v ===== *)
(** * A Zenoh context and its nodes (zenoh_backend/context.rs)

    Opening a context, the forwarding of its queries to the graph cache, and the
    life of an application that makes nodes and entities on one context and
    drops them, with what the other contexts of the domain discover of it. *)
From S2P Require Import Prelude Names KeyExpr Qos GraphCache TypeDescription.
From S2P Require Import ZenohService ZenohPubSub ZenohAction ZenohNode.
#[local] Open Scope N_scope.

(** ** Opening a context *)
Section options.
Context {Config : Type}.
Record ContextOptions := { opt_domain_id : N; opt_config : option Config }.
Definition ContextOptions_new : ContextOptions := {| opt_domain_id := 0; opt_config := None |}.
Definition ContextOptions_domain_id (domain_id : N) (self : ContextOptions) : ContextOptions :=
  {| opt_domain_id := domain_id; opt_config := opt_config self |}.
Definition zenoh_config (config : Config) (self : ContextOptions) : ContextOptions :=
  {| opt_domain_id := opt_domain_id self; opt_config := Some config |}.
End options.
Arguments ContextOptions : clear implicits.

(** [ContextInner]; the session is that of [ZenohSession], and the liveliness
    subscriber's callback is [on_liveliness] below. *)
Record Context_ := { domain_id : N; next_node_id : N; graph_cache : GraphCache }.

Section open_context.
Context {Config ConfigError : Type}.
Context (insert_json5 : str → str → Config → result ConfigError Config).
Context (from_file : str → result ConfigError Config) (Config_default : Config).
Context (zenoh_open : Config → result ConfigError unit).
Context (declare_liveliness_subscriber : str → result ConfigError unit).

(** [zenoh::Error]: one of Zenoh's or of the configuration. *)
Inductive OpenError := ZenohFailed (e : ConfigError) | ConfigFailed (e : @config_error ConfigError).
(** [None] is the panic of [default_config]; [uri] and [overrides] are the two
    environment variables. *)
Definition with_options (uri overrides : option str) (opt : ContextOptions Config) :
    option (result OpenError Context_) :=
  config ← match opt_config opt with
           | Some config => Some (Ok config)
           | None => map_err ConfigFailed <$>
                       config_from_env insert_json5 from_file Config_default uri overrides
           end;
  Some (config ← config;
        _ ← map_err ZenohFailed (zenoh_open config);
        _ ← map_err ZenohFailed
              (declare_liveliness_subscriber (graph_cache_keyexpr (opt_domain_id opt)));
        mret {| domain_id := opt_domain_id opt; next_node_id := 0;
                graph_cache := GraphCache_default |}).
Definition Context_new (uri overrides : option str) : option (result OpenError Context_) :=
  with_options uri overrides ContextOptions_new.
End open_context.

(** ** The context's methods *)
Definition set_cache (c : GraphCache) (ctx : Context_) : Context_ :=
  {| domain_id := domain_id ctx; next_node_id := next_node_id ctx; graph_cache := c |}.
Definition on_liveliness (closed : N → bool) (s : GraphCache.Sample) (ctx : Context_) : Context_ * sends :=
  let '(c, out) := on_sample closed s (graph_cache ctx) in (set_cache c ctx, out).
Definition Context_publisher_count (topic : str) (ctx : Context_) : nat :=
  publisher_count topic (graph_cache ctx).
Definition Context_subscription_count (topic : str) (ctx : Context_) : nat :=
  subscription_count topic (graph_cache ctx).
Definition Context_node_names (ctx : Context_) : list str := node_names (graph_cache ctx).
Definition graph_event_stream (ctx : Context_) : Context_ * N :=
  let '(c, stream) := subscribe (graph_cache ctx) in (set_cache c ctx, stream).

Section context.
Context `{ZS : ZenohSerializer, SS : !ZenohSession, SH : Sha256, XH : Xxh3}.

(** [history] is what the session was asked for before. *)
Definition new_node (name : NodeName) (history : list Declaration) (ctx : Context_) :
    Context_ * (NodeState * result Error Node) :=
  let '(node_id, next) := new_node_id (next_node_id ctx) in
  ({| domain_id := domain_id ctx; next_node_id := next; graph_cache := graph_cache ctx |},
   Node_new (domain_id ctx) name node_id history).

(** ** An application on one context *)

(** What a liveliness token it holds stands for. *)
Inductive Owner := OfNode (n : Node) | OfEntity (n : Node) (r : request).
(** The context, what the session was asked for, the nodes with their entity
    counters, and the tokens held. *)
Record App := {
  ctx : Context_;
  asked : list Declaration;
  nodes : list (Node * N);
  held : list (Owner * str);
}.
Definition App_new (domain : N) : App :=
  {| ctx := {| domain_id := domain; next_node_id := 0; graph_cache := GraphCache_default |};
     asked := []; nodes := []; held := [] |}.

(** It makes a node, asks one of its nodes for an entity, or drops something
    that holds a token. *)
Inductive Action := NewNode (name : NodeName) | Create (i : nat) (r : request) | Drop (j : nat).
Definition hold (o : Owner) (token : option str) (l : list (Owner * str)) : list (Owner * str) :=
  match token with Some tok => l ++ [(o, tok)] | None => l end.
(** A declared token is put; a dropped one is deleted. *)
Definition put_of (token : option str) : list GraphCache.Sample :=
  match token with Some tok => [GraphCache.Put tok] | None => [] end.
Definition act (a : Action) (app : App) : App * list GraphCache.Sample :=
  match a with
  | NewNode name =>
      let '(ctx, (st, res)) := new_node name (asked app) (ctx app) in
      match res with
      | Ok node =>
          ({| ctx := ctx; asked := asked_for st; nodes := nodes app ++ [(node, next_entity_id st)];
              held := hold (OfNode node) (node_token node) (held app) |},
           put_of (node_token node))
      | Err _ => ({| ctx := ctx; asked := asked_for st; nodes := nodes app; held := held app |}, [])
      end
  | Create i r =>
      match nodes app !! i with
      | None => (app, [])
      | Some (node, counter) =>
          let '(st, res) := create node r {| next_entity_id := counter; asked_for := asked app |} in
          let token := match res with Ok token => token | Err _ => None end in
          ({| ctx := ctx app; asked := asked_for st;
              nodes := <[i := (node, next_entity_id st)]> (nodes app);
              held := hold (OfEntity node r) token (held app) |}, put_of token)
      end
  | Drop j =>
      match held app !! j with
      | None => (app, [])
      | Some (_, tok) =>
          ({| ctx := ctx app; asked := asked app; nodes := nodes app;
              held := delete j (held app) |}, [GraphCache.Delete tok])
      end
  end.
Fixpoint run_app (l : list Action) (app : App) : App * list GraphCache.Sample :=
  match l with
  | [] => (app, [])
  | a :: l =>
      let '(app1, out1) := act a app in
      let '(app2, out2) := run_app l app1 in (app2, out1 ++ out2)
  end.
Definition wf_action (a : Action) : Prop :=
  match a with NewNode name => wf_node_name name | Create _ r => wf_request r | Drop _ => True end.

(** An entity held on a topic or service, and the names of the nodes held. *)
Definition owner_on (k : EntityKind) (name : str) (o : Owner) : bool :=
  match o with
  | OfNode _ => false
  | OfEntity n r =>
      bool_decide (d_kind (described n r) = k) && bool_decide (d_name (described n r) = name)
  end.
Definition node_name_of (o : Owner) : option str :=
  match o with OfNode n => Some (fully_qualified_node_name n) | OfEntity _ _ => None end.
End context.

(** ** A network of applications, each with its own session *)
Section world.
Context `{ZS : ZenohSerializer, SH : Sha256, XH : Xxh3}.

Record Peer := { session : ZenohSession; app : App }.
Definition peer_act (a : Action) (p : Peer) : Peer * list GraphCache.Sample :=
  let '(app', out) := @act ZS (session p) SH XH a (app p) in ({| session := session p; app := app' |}, out).
(** The samples in the order in which they arise; Zenoh delivers to every
    liveliness subscriber those whose key its expression matches. *)
Fixpoint run_world (l : list (nat * Action)) (w : list Peer) : list Peer * list GraphCache.Sample :=
  match l with
  | [] => (w, [])
  | (i, a) :: l =>
      match w !! i with
      | None => run_world l w
      | Some p =>
          let '(p, out1) := peer_act a p in
          let '(w, out2) := run_world l (<[i := p]> w) in (w, out1 ++ out2)
      end
  end.
Definition Peer_new (session : ZenohSession) (domain : N) : Peer :=
  {| session := session; app := App_new domain |}.

(** An expression that ends in [**] matches every key that continues it. *)
Fixpoint chunks_match (ps cs : list str) : bool :=
  match ps, cs with
  | [p], cs => str_eqb p (lit "**") || bool_decide (cs = [p])
  | p :: ps, c :: cs => str_eqb p c && chunks_match ps cs
  | _, _ => false
  end.
Definition subscription_matches (pattern key : str) : bool :=
  chunks_match (split_on slash pattern) (split_on slash key).
Definition sample_key (s : GraphCache.Sample) : str :=
  match s with GraphCache.Put key | GraphCache.Delete key => key end.
(** What a context opened in the domain before anything happened is delivered. *)
Definition delivered (domain : N) (trace : list GraphCache.Sample) : list GraphCache.Sample :=
  List.filter (λ s, subscription_matches (graph_cache_keyexpr domain) (sample_key s)) trace.
(** The samples among a context's operations; in between, streams are opened. *)
Definition samples_of (os : list op) : list GraphCache.Sample :=
  omap (λ o, match o with OnSample s => Some s | Subscribe => None end) os.

(** What the applications of a domain hold. *)
Definition peer_domain (p : Peer) : N := domain_id (ctx (app p)).
Definition held_in (domain : N) (w : list Peer) : list (Owner * str) :=
  List.filter (λ p, bool_decide (peer_domain p = domain)) w ≫= λ p, held (app p).
End world.

(** ** Lemmas: the tokens of one application *)
Section app_lemmas.
Context `{ZS : ZenohSerializer, SS : !ZenohSession, SH : Sha256, XH : Xxh3}.
Context `{!Sha256Laws, !ZenohSessionLaws}.

Definition ids_of_node (n : Node) : EntityIds := node_ids n (zn_node_id n).
(** A token is that of what it is held for; an entity's id was taken from the
    counter of its node. *)
Definition held_ok (nodes : list (Node * N)) (h : Owner * str) : Prop :=
  match h.1 with
  | OfNode n => n ∈ nodes.*1 ∧ h.2 = node_liveliness_keyexpr (context_domain_id n) (ids_of_node n)
  | OfEntity n r => wf_request r ∧
      ∃ id counter, (n, counter) ∈ nodes ∧ id < counter ∧ h.2 = token_of n id (described n r)
  end.
(** The nodes belong to the context and have ids of their own. *)
Definition node_ok (max : N) (c : Context_) (nc : Node * N) : Prop :=
  wf_node nc.1 ∧ context_domain_id nc.1 = domain_id c ∧ zn_zid nc.1 = session_zid ∧
  zn_node_id nc.1 < next_node_id c ∧ nc.2 <= max.
(** After at most [max] actions. *)
Record app_ok (max : N) (a : App) : Prop := {
  ok_domain : domain_id (ctx a) <= u16_max;
  ok_next : next_node_id (ctx a) <= max;
  ok_nodes : Forall (node_ok max (ctx a)) (nodes a);
  ok_ids : NoDup (zn_node_id <$> (nodes a).*1);
  ok_held : Forall (held_ok (nodes a)) (held a);
  ok_tokens : NoDup (held a).*2;
}.

(** What a token says. *)
Lemma node_token_parses n :
  wf_node n →
  parse_liveliness_key (node_liveliness_keyexpr (context_domain_id n) (ids_of_node n)) =
  Some {| KeyExpr.domain_id := context_domain_id n; KeyExpr.zid := zn_zid n;
          KeyExpr.node_id := zn_node_id n; KeyExpr.entity_id := zn_node_id n;
          KeyExpr.kind := KeyExpr.Node; KeyExpr.namespace := Names.namespace (zn_node_name n);
          KeyExpr.node_name := demangled (base_name (zn_node_name n));
          KeyExpr.topic_name := None; KeyExpr.type_name := None; KeyExpr.type_hash := None;
          KeyExpr.qos := None |}.
Proof.
  intros (Hd&Hid&Hz&Hb1&Hb2&Hns&Hs&_). rewrite parse_node_key.
  - unfold ids_of_node. simpl. do 3 f_equal. by destruct (Names.namespace _).
  - unfold ids_ok. simpl. split_and!; try done; by eapply forallb_not_in.
Qed.
(** The context, the node and the kind a token names. *)
Definition token_says (z : str) (id : N) (is_node : bool) (tok : str) : Prop :=
  ∃ e, parse_liveliness_key tok = Some e ∧ KeyExpr.zid e = z ∧ KeyExpr.node_id e = id ∧
       bool_decide (KeyExpr.kind e = KeyExpr.Node) = is_node.
Lemma token_says_inj z id b z' id' b' tok :
  token_says z id b tok → token_says z' id' b' tok → z = z' ∧ id = id' ∧ b = b'.
Proof. intros (e&He&<-&<-&<-) (e'&He'&<-&<-&<-). by simplify_eq. Qed.
Definition is_node (o : Owner) : bool := match o with OfNode _ => true | _ => false end.
Definition node_of (o : Owner) : Node := match o with OfNode n | OfEntity n _ => n end.

Lemma held_node max a o tok :
  app_ok max a → (o, tok) ∈ held a → ∃ counter, (node_of o, counter) ∈ nodes a ∧
    node_ok max (ctx a) (node_of o, counter).
Proof.
  intros Ha Hin. pose proof (ok_held _ _ Ha) as Hh. rewrite Forall_forall in Hh.
  specialize (Hh _ Hin). pose proof (ok_nodes _ _ Ha) as Hn. rewrite Forall_forall in Hn.
  destruct o as [n|n r]; unfold held_ok in Hh; simpl in *.
  - destruct Hh as [([n' c]&->&Hc)%list_elem_of_fmap _]. exists c. split; [done|]. by apply (Hn _ Hc).
  - destruct Hh as (_&id&c&Hc&_). exists c. split; [done|]. by apply (Hn _ Hc).
Qed.
Lemma held_says max a o tok :
  max <= u64_max → app_ok max a → (o, tok) ∈ held a →
  token_says session_zid (zn_node_id (node_of o)) (is_node o) tok.
Proof.
  intros Hmax Ha Hin. destruct (held_node _ _ _ _ Ha Hin) as (c&Hc&(Hwf&_&Hz&_&Hcm)). simpl in *.
  pose proof (ok_held _ _ Ha) as Hh. rewrite Forall_forall in Hh. specialize (Hh _ Hin).
  destruct o as [n|n r]; unfold held_ok in Hh; simpl in *.
  - destruct Hh as [_ ->]. eexists. split; [by apply node_token_parses|]. done.
  - destruct Hh as (Hr&id&c'&Hc'&Hid&->).
    pose proof (ok_nodes _ _ Ha) as Hn. rewrite Forall_forall in Hn.
    destruct (Hn _ Hc') as (_&_&_&_&Hcm'). simpl in Hcm'.
    eexists. split; [apply token_parses; [done..|lia]|]. split_and!; [done..|].
    apply bool_decide_eq_false_2. by apply (described_wf n r).
Qed.

(** *** One action *)
Lemma held_ok_mono nodes nodes' h :
  (∀ n c, (n, c) ∈ nodes → ∃ c', (n, c') ∈ nodes' ∧ c <= c') → held_ok nodes h → held_ok nodes' h.
Proof.
  intros Hn. destruct h as [[n|n r] tok]; unfold held_ok; simpl.
  - intros [([n' c]&->&Hc)%list_elem_of_fmap ->]. split; [|done].
    destruct (Hn _ _ Hc) as (c'&Hc'&_). apply list_elem_of_fmap. by exists (n', c').
  - intros (Hr&id&c&Hc&Hid&->). split; [done|]. destruct (Hn _ _ Hc) as (c'&Hc'&Hle).
    exists id, c'. split_and!; [done|lia|done].
Qed.
(** How an action changes the tokens held, and what it emits. *)
Definition tokens_step (toks toks' : list str) (out : list GraphCache.Sample) : Prop :=
  (out = [] ∧ toks' = toks) ∨
  (∃ tok, out = [GraphCache.Put tok] ∧ toks' = toks ++ [tok]) ∨
  (∃ tok, out = [GraphCache.Delete tok] ∧ toks ≡ₚ tok :: toks').
Lemma hold_step o token (l : list (Owner * str)) :
  tokens_step l.*2 (hold o token l).*2 (put_of token).
Proof.
  destruct token as [tok|]; simpl; [|by left].
  right. left. exists tok. split; [done|]. by rewrite fmap_app.
Qed.
Lemma act_tokens a app : tokens_step (held app).*2 (held (act a app).1).*2 (act a app).2.
Proof.
  destruct a as [name|i r|j]; cbn [act].
  - unfold new_node, new_node_id.
    destruct (Node_new _ _ _ _) as [st [node|e]]; simpl; [apply hold_step|by left].
  - destruct (nodes app !! i) as [[node c]|]; [|by left].
    destruct (create node r _) as [st res]. simpl. apply hold_step.
  - destruct (held app !! j) as [[o tok]|] eqn:Hj; [|by left].
    right. right. exists tok. split; [done|]. simpl.
    by rewrite (delete_Permutation _ _ _ Hj) at 1.
Qed.

Lemma Node_new_eq d name id history :
  ∃ st node, Node_new d name id history = (st, Ok node) ∧ next_entity_id st = 0 ∧
    context_domain_id node = d ∧ zn_node_name node = name ∧ zn_node_id node = id ∧
    zn_zid node = session_zid ∧
    (∀ tok, node_token node = Some tok → tok = node_liveliness_keyexpr d (ids_of_node node)).
Proof.
  eexists _, _. split; [reflexivity|]. split_and!; try done. simpl.
  destruct (declare _ _); [|done]. by intros tok [= <-].
Qed.

Lemma app_ok_weaken max max' a : max <= max' → app_ok max a → app_ok max' a.
Proof.
  intros Hle [Hd Hnx Hn Hi Hh Ht]. split; try done; [lia|]. eapply Forall_impl; [exact Hn|].
  intros nc (?&?&?&?&?). split_and!; try done. lia.
Qed.
Lemma drop_ok max j app : app_ok max app → app_ok max (act (Drop j) app).1.
Proof.
  intros Ha. simpl. destruct (held app !! j) as [[o tok]|] eqn:Hj; [|done].
  pose proof (delete_Permutation _ _ _ Hj) as Hp.
  destruct Ha as [Hd Hnx Hn Hi Hh Ht]. split; try done; simpl.
  - rewrite Hp in Hh. by inversion_clear Hh.
  - rewrite Hp in Ht. simpl in Ht. by inversion_clear Ht.
Qed.
Lemma token_of_id n id r id' r' :
  wf_node n → wf_request r → wf_request r' → id <= u64_max → id' <= u64_max →
  token_of n id (described n r) = token_of n id' (described n r') → id = id'.
Proof.
  intros Hn Hr Hr' Hid Hid' E. apply (f_equal parse_liveliness_key) in E.
  rewrite !token_parses in E by done. by injection E.
Qed.
(** A token for a new id or a new node is new. *)
Lemma fresh_token max a b id tok :
  max <= u64_max → app_ok max a → token_says session_zid id b tok →
  (∀ o, (o, tok) ∈ held a → zn_node_id (node_of o) = id → is_node o = b → False) →
  tok ∉ (held a).*2.
Proof.
  intros Hmax Ha Hsays Hno ([o tok']&->&Hin)%list_elem_of_fmap. simpl in *.
  destruct (token_says_inj _ _ _ _ _ _ _ Hsays (held_says _ _ _ _ Hmax Ha Hin)) as (_&->&->).
  by eapply Hno.
Qed.
Lemma hold_ok nodes o token (l : list (Owner * str)) :
  Forall (held_ok nodes) l → NoDup l.*2 →
  (∀ tok, token = Some tok → held_ok nodes (o, tok) ∧ tok ∉ l.*2) →
  Forall (held_ok nodes) (hold o token l) ∧ NoDup (hold o token l).*2.
Proof.
  intros Hl Hnd Ht. destruct token as [tok|]; [|done]. destruct (Ht tok eq_refl). simpl. split.
  - apply Forall_app. by repeat constructor.
  - rewrite fmap_app. apply NoDup_app. split; [done|]. split; [|apply NoDup_singleton].
    intros x Hx ->%list_elem_of_singleton. done.
Qed.
Lemma new_node_ok max name app :
  max + 1 <= u64_max → wf_node_name name → app_ok max app →
  app_ok (max + 1) (act (NewNode name) app).1.
Proof.
  intros Hmax Hname Ha. pose proof Ha as [Hd Hnx Hn Hi Hh Ht].
  cbn [act]. unfold new_node, new_node_id.
  destruct (Node_new_eq (domain_id (ctx app)) name (next_node_id (ctx app)) (asked app))
    as (st&node&->&Hst&Hdom&Hnm&Hid&Hz&Htok).
  assert (wf_node node) as Hwf.
  { split_and!; [by rewrite Hdom|rewrite Hid; lia|rewrite Hz; apply session_zid_no_slash|by rewrite Hnm]. }
  rewrite N.mod_small by (unfold u64_max in Hmax; lia).
  edestruct (hold_ok (nodes app ++ [(node, 0)]) (OfNode node) (node_token node) (held app)) as [Hh' Ht'].
  - eapply Forall_impl; [exact Hh|]. intros h. apply held_ok_mono. intros n c Hc. exists c.
    split; [by apply elem_of_app; left|lia].
  - done.
  - intros tok Hk. apply Htok in Hk as ->. split.
    + split; simpl; [|by rewrite Hdom]. rewrite fmap_app. apply elem_of_app. right. by left.
    + rewrite <-Hdom. apply (fresh_token max _ true (next_node_id (ctx app))); [lia|done| |].
      * eexists. split; [by apply node_token_parses|]. done.
      * intros o Hin Ho _. destruct (held_node _ _ _ _ Ha Hin) as (c&_&(_&_&_&Hlt&_)). simpl in Hlt. lia.
  - rewrite Hst. split; simpl; try done; [lia| |].
    + apply Forall_app. split.
      * eapply Forall_impl; [exact Hn|]. intros nc (?&?&?&?&?). split_and!; simpl; try done; lia.
      * apply Forall_singleton. split_and!; simpl; try done; lia.
    + rewrite !fmap_app. simpl. apply NoDup_app. split; [done|]. split; [|apply NoDup_singleton].
      intros x Hx ->%list_elem_of_singleton. rewrite Hid in Hx.
      apply list_elem_of_fmap in Hx as (n&En&(nc&->&Hnc)%list_elem_of_fmap).
      rewrite Forall_forall in Hn. destruct (Hn _ Hnc) as (_&_&_&?&_). lia.
Qed.
Lemma create_ok max i r app :
  max + 1 <= u64_max → wf_request r → app_ok max app → app_ok (max + 1) (act (Create i r) app).1.
Proof.
  intros Hmax Hr Ha. pose proof Ha as [Hd Hnx Hn Hi Hh Ht]. simpl.
  destruct (nodes app !! i) as [[node c]|] eqn:Hnode; [|eapply app_ok_weaken; [|done]; lia].
  pose proof (create_cases node r {| next_entity_id := c; asked_for := asked app |}) as Hc.
  pose proof Hn as Hn'. rewrite Forall_lookup in Hn'. destruct (Hn' _ _ Hnode) as (Hwf&Hdom&Hz&Hlt&Hcm).
  simpl in Hwf, Hdom, Hz, Hlt, Hcm.
  destruct (create node r _) as [st res]. cbn [next_entity_id] in Hc.
  rewrite N.mod_small in Hc by (unfold u64_max in Hmax; lia).
  assert (c <= next_entity_id st <= c + 1 ∧
          ∀ tok, (match res with Ok token => token | Err _ => None end) = Some tok →
            tok = token_of node c (described node r) ∧ next_entity_id st = c + 1) as [Hnext Htok].
  { destruct res as [[tok|]|]; [destruct Hc as [-> ->]|..]; (split; [lia|]); try done.
    by intros tok [= <-]. }
  clear Hc. simpl.
  assert (∀ n c0, (n, c0) ∈ nodes app → ∃ c', (n, c') ∈ <[i:=(node, next_entity_id st)]> (nodes app) ∧ c0 <= c')
    as Hmono.
  { intros n c0 (k&Hk)%list_elem_of_lookup. destruct (decide (k = i)) as [->|Hki].
    - rewrite Hnode in Hk. injection Hk as <- <-. exists (next_entity_id st). split; [|lia].
      apply list_elem_of_lookup. exists i. apply list_lookup_insert_eq. by eapply lookup_lt_Some.
    - exists c0. split; [|lia]. apply list_elem_of_lookup. exists k. by rewrite list_lookup_insert_ne. }
  edestruct (hold_ok (<[i:=(node, next_entity_id st)]> (nodes app)) (OfEntity node r)
    (match res with Ok token => token | Err _ => None end) (held app)) as [Hh' Ht'].
  - eapply Forall_impl; [exact Hh|]. intros h. by apply held_ok_mono.
  - done.
  - intros tok Hk. destruct (Htok tok Hk) as [-> Hst]. split.
    + split; [done|]. exists c, (next_entity_id st). split_and!; [|lia|done].
      apply list_elem_of_lookup. exists i. apply list_lookup_insert_eq. by eapply lookup_lt_Some.
    + apply (fresh_token max _ false (zn_node_id node)); [lia|done| |].
      * eexists. split; [apply token_parses; [done..|lia]|]. split_and!; [done..|].
        apply bool_decide_eq_false_2. by apply (described_wf node r).
      * intros o Hin Hid Ho. destruct o as [n|n r']; [done|]. simpl in Hid.
        rewrite Forall_forall in Hh. destruct (Hh _ Hin) as (Hr'&id&c'&Hc'&Hlt'&E). simpl in E.
        apply list_elem_of_lookup in Hc' as (k&Hk').
        assert (k = i) as ->.
        { eapply NoDup_lookup; [exact Hi| |]; rewrite !list_lookup_fmap;
            [rewrite Hk'|rewrite Hnode]; simpl; by rewrite ?Hid. }
        rewrite Hnode in Hk'. injection Hk' as -> ->.
        apply token_of_id in E; [lia|done..|lia|lia].
  - split; simpl; try done; [lia| |].
    + apply Forall_insert; [|split_and!; simpl; try done; lia].
      eapply Forall_impl; [exact Hn|]. intros nc (?&?&?&?&?). split_and!; simpl; try done; lia.
    + rewrite list_fmap_insert. simpl. rewrite list_insert_id; [done|].
      by rewrite list_lookup_fmap, Hnode.
Qed.
Lemma act_ok max a app :
  max + 1 <= u64_max → wf_action a → app_ok max app → app_ok (max + 1) (act a app).1.
Proof.
  intros Hmax Hwf Ha. destruct a as [name|i r|j].
  - by apply new_node_ok.
  - by apply create_ok.
  - eapply app_ok_weaken; [|by apply drop_ok]. lia.
Qed.
Lemma App_new_ok d : d <= u16_max → app_ok 0 (App_new d).
Proof. intros Hd. split; simpl; try done; constructor. Qed.
End app_lemmas.

(** ** Lemmas: delivery *)
Definition live_sample (live : gset str) (s : GraphCache.Sample) : gset str :=
  live_step live (OnSample s).
Lemma live_samples_of os live : fold_left live_step os live = fold_left live_sample (samples_of os) live.
Proof. revert live. by induction os as [|[s|] os IH]; intros live; simpl; rewrite ?IH. Qed.
(** What an expression selects of the samples selects what is live. *)
Lemma live_filter (P : str → bool) ss live :
  fold_left live_sample (List.filter (λ s, P (sample_key s)) ss) (filter (λ k, P k = true) live) =
  filter (λ k, P k = true) (fold_left live_sample ss live).
Proof.
  revert live. induction ss as [|s ss IH]; intros live; [done|]. simpl. rewrite <-IH.
  destruct (P (sample_key s)) eqn:Hs; simpl; f_equal; apply set_eq; intros k;
    destruct s as [key|key]; simpl in Hs; unfold live_sample; simpl;
    repeat rewrite ?elem_of_filter, ?elem_of_union, ?elem_of_difference, ?elem_of_singleton;
    destruct (decide (k = key)) as [->|]; rewrite ?Hs; naive_solver.
Qed.
Lemma live_app ss ss' live :
  fold_left live_sample (ss ++ ss') live = fold_left live_sample ss' (fold_left live_sample ss live).
Proof. apply fold_left_app. Qed.

Lemma split_graph_cache_keyexpr d :
  split_on slash (graph_cache_keyexpr d) = [ADMIN_SPACE; show_N d; lit "**"].
Proof.
  unfold graph_cache_keyexpr. change (lit "/**") with (slash :: lit "**").
  rewrite !split_on_chunk by auto with rust. by rewrite split_on_no_sep by by apply (bool_decide_unpack _).
Qed.
Lemma domain_matches d d' rest :
  subscription_matches (graph_cache_keyexpr d) (ADMIN_SPACE ++ slash :: show_N d' ++ slash :: rest) =
  bool_decide (d' = d).
Proof.
  unfold subscription_matches. rewrite split_graph_cache_keyexpr, !split_on_chunk by auto with rust.
  cbn [chunks_match]. change (str_eqb ADMIN_SPACE ADMIN_SPACE) with true. simpl.
  rewrite andb_true_r. unfold str_eqb. apply bool_decide_ext. split; [by intros ?%show_N_inj|by intros ->].
Qed.

Section world_lemmas.
Context `{ZS : ZenohSerializer, SH : Sha256, XH : Xxh3, !Sha256Laws}.

Definition peer_zid (p : Peer) : str := @session_zid ZS (session p).
Definition peer_ok (max : N) (p : Peer) : Prop :=
  @ZenohSessionLaws ZS (session p) ∧ app_ok (SS:=session p) max (app p).
Definition world_ok (max : N) (w : list Peer) : Prop :=
  Forall (peer_ok max) w ∧ NoDup (peer_zid <$> w).
Definition tokens (p : Peer) : list str := (held (app p)).*2.

Lemma token_zid max p tok :
  max <= u64_max → peer_ok max p → tok ∈ tokens p →
  ∃ id b, token_says (peer_zid p) id b tok.
Proof.
  intros Hmax [Hl Ha] ([o tok']&->&Hin)%list_elem_of_fmap.
  do 2 eexists. by eapply (@held_says ZS (session p)).
Qed.
Lemma world_tokens_NoDup max w : max <= u64_max → world_ok max w → NoDup (w ≫= tokens).
Proof.
  intros Hmax [Hp Hz]. induction Hp as [|p w Hp Hw IH]; [constructor|].
  rewrite bind_cons. inversion_clear Hz as [|? ? Hnin Hz']. apply NoDup_app.
  split; [by eapply (@ok_tokens ZS (session p)), Hp|]. split; [|by apply IH].
  intros tok Ht (q&Hq&Hin)%list_elem_of_bind. apply Hnin, list_elem_of_fmap. exists q. split; [|done].
  rewrite Forall_forall in Hw. destruct (token_zid _ _ _ Hmax Hp Ht) as (?&?&Hs).
  destruct (token_zid _ _ _ Hmax (Hw _ Hin) Hq) as (?&?&Hs').
  by destruct (token_says_inj _ _ _ _ _ _ _ Hs Hs').
Qed.
(** One action in the network. *)
Lemma tokens_step_live toks toks' out others :
  tokens_step toks toks' out → NoDup (toks ++ others) →
  fold_left live_sample out (list_to_set (toks ++ others)) = (list_to_set (toks' ++ others) : gset str).
Proof.
  intros [[-> ->]|[(tok&->&->)|(tok&->&Hp)]] Hnd; [done|..]; simpl.
  - unfold live_sample. simpl. set_solver.
  - rewrite Hp in Hnd. assert (tok ∉ toks' ++ others) as Hn by by inversion_clear Hnd.
    unfold live_sample. simpl. rewrite (list_to_set_perm_L (toks ++ others) (tok :: toks' ++ others)) by by rewrite Hp.
    set_solver.
Qed.
Lemma peer_act_spec max p a :
  max + 1 <= u64_max → wf_action a → peer_ok max p →
  peer_ok (max + 1) (peer_act a p).1 ∧ tokens_step (tokens p) (tokens (peer_act a p).1) (peer_act a p).2 ∧
  peer_zid (peer_act a p).1 = peer_zid p ∧ peer_domain (peer_act a p).1 = peer_domain p.
Proof.
  intros Hmax Hwf [Hl Ha]. unfold peer_act.
  pose proof (@act_ok ZS (session p) SH XH _ _ max a (app p) Hmax Hwf Ha) as Ha'.
  pose proof (@act_tokens ZS (session p) SH XH a (app p)) as Ht.
  assert (domain_id (ctx (act (SS:=session p) a (app p)).1) = domain_id (ctx (app p))) as Hd.
  { clear. destruct a as [name|i r|j]; cbn [act].
    - unfold new_node, new_node_id. by destruct (Node_new _ _ _ _) as [st [node|e]].
    - destruct (nodes (app p) !! i) as [[node c]|]; [|done]. by destruct (create node r _).
    - by destruct (held (app p) !! j) as [[]|]. }
  destruct (@act ZS (session p) SH XH a (app p)) as [app' out]. by split_and!.
Qed.
Lemma run_world_spec l w max :
  max + N.of_nat (length l) <= u64_max → Forall (λ ia, wf_action ia.2) l → world_ok max w →
  let '(w', out) := run_world l w in
  world_ok (max + N.of_nat (length l)) w' ∧
  fold_left live_sample out (list_to_set (w ≫= tokens)) = (list_to_set (w' ≫= tokens) : gset str).
Proof.
  intros Hmax Hl. revert w max Hmax. induction Hl as [|[i a] l Ha Hl IH]; intros w max Hmax Hw.
  { simpl. by rewrite N.add_0_r. }
  cbn [run_world length snd] in *.
  assert (∀ m w, world_ok m w → m <= max + 1 → world_ok (max + 1) w) as Hweak.
  { intros m w' [Hp Hz] Hm. split; [|done]. eapply Forall_impl; [exact Hp|].
    intros p [Hs Hok]. split; [done|]. by eapply (@app_ok_weaken ZS (session p)). }
  replace (max + N.of_nat (S (length l))) with (max + 1 + N.of_nat (length l)) in * by lia.
  destruct (w !! i) as [p|] eqn:Hi; [|apply IH; [done|apply (Hweak max); [done|lia]]].
  assert (peer_ok max p) as Hp by (destruct Hw as [Hw _]; by eapply Forall_lookup_1).
  destruct (peer_act_spec max p a ltac:(lia) Ha Hp) as (Hp'&Ht&Hz&_).
  destruct (peer_act a p) as [p' out1]. cbn [fst snd] in *.
  assert (world_ok (max + 1) (<[i:=p']> w)) as Hw'.
  { destruct (Hweak _ _ Hw ltac:(lia)) as [Hf Hnd]. split; [by apply Forall_insert|].
    rewrite list_fmap_insert, Hz, list_insert_id; [done|]. by rewrite list_lookup_fmap, Hi. }
  specialize (IH _ _ Hmax Hw'). destruct (run_world l (<[i:=p']> w)) as [w' out2].
  destruct IH as [Hok Hlive]. split; [done|]. rewrite live_app, <-Hlive. f_equal.
  apply list_elem_of_split_length in Hi as (w1&w2&->&->).
  rewrite insert_app_r_alt, Nat.sub_diag by done. cbn [insert list_insert]. rewrite !bind_app, !bind_cons.
  pose proof (world_tokens_NoDup max _ ltac:(lia) Hw) as Hnd. rewrite bind_app, bind_cons in Hnd.
  assert (∀ t, (w1 ≫= tokens) ++ t ++ (w2 ≫= tokens) ≡ₚ t ++ (w1 ≫= tokens) ++ (w2 ≫= tokens)) as Hperm.
  { intros t. rewrite !app_assoc. f_equiv. apply Permutation_app_comm. }
  rewrite !(list_to_set_perm_L _ _ (Hperm _)). apply tokens_step_live; [done|]. by rewrite <-Hperm.
Qed.
End world_lemmas.

Section discovery_lemmas.
Context `{ZS : ZenohSerializer, SH : Sha256, XH : Xxh3, !Sha256Laws}.

(** The key of a token held in a domain is one the domain's contexts get. *)
Lemma held_matches max d p o tok :
  max <= u64_max → peer_ok max p → (o, tok) ∈ held (app p) →
  subscription_matches (graph_cache_keyexpr d) tok = bool_decide (peer_domain p = d).
Proof.
  intros Hmax [Hl Ha] Hin.
  destruct (@held_node ZS (session p) SH _ _ _ _ Ha Hin) as (c&_&(_&Hd&_)). simpl in Hd.
  pose proof (ok_held (SS:=session p) _ _ Ha) as Hh. rewrite Forall_forall in Hh. specialize (Hh _ Hin).
  unfold peer_domain. rewrite <-Hd. destruct o as [n|n r]; unfold held_ok in Hh; simpl in Hh |- *.
  - destruct Hh as [_ ->]. apply domain_matches.
  - destruct Hh as (_&id&c'&_&_&->). apply domain_matches.
Qed.
(** What a held token counts as. *)
Lemma held_counts max p o tok k name :
  max <= u64_max → peer_ok max p → (o, tok) ∈ held (app p) →
  token_on_topic k name tok = owner_on k name o.
Proof.
  intros Hmax [Hl Ha] Hin.
  destruct (@held_node ZS (session p) SH _ _ _ _ Ha Hin) as (c&_&(Hwf&_)). simpl in Hwf.
  pose proof (ok_held (SS:=session p) _ _ Ha) as Hh. rewrite Forall_forall in Hh. specialize (Hh _ Hin).
  unfold token_on_topic. destruct o as [n|n r]; unfold held_ok in Hh; simpl in Hh, Hwf.
  - destruct Hh as [_ ->]. rewrite node_token_parses by done. unfold on_topic. simpl.
    by rewrite andb_false_r.
  - destruct Hh as (Hr&id&c'&Hc'&Hid&->).
    pose proof (ok_nodes (SS:=session p) _ _ Ha) as Hn. rewrite Forall_forall in Hn.
    destruct (Hn _ Hc') as (_&_&_&_&Hcm'). simpl in Hcm'.
    rewrite token_parses by (done || lia). unfold on_topic, announced, owner_on. simpl.
    f_equal. apply bool_decide_ext. naive_solver.
Qed.
Lemma join_fqn_eq n : wf_node_name n →
  join_fqn (Names.namespace n) (demangled (base_name n)) = fully_qualified_name n.
Proof.
  intros (Hb1&Hb2&_&Hs&Hend).
  assert (demangled (base_name n) = base_name n) as -> by by destruct (base_name n).
  unfold join_fqn, fully_qualified_name. destruct (Names.namespace n) as [|c ns]; [done|].
  destruct Hend as [E|E].
  - simplify_eq. done.
  - rewrite E. unfold str_eqb. rewrite bool_decide_eq_false_2; [simpl; by rewrite <-app_assoc|].
    intros E'. by rewrite E' in E.
Qed.
(** The node a held token announces, if any. *)
Lemma held_names max p o tok name :
  max <= u64_max → peer_ok max p → (o, tok) ∈ held (app p) →
  (∃ e, parse_liveliness_key tok = Some e ∧ KeyExpr.kind e = KeyExpr.Node ∧
        name = join_fqn (KeyExpr.namespace e) (KeyExpr.node_name e)) ↔ node_name_of o = Some name.
Proof.
  intros Hmax [Hl Ha] Hin.
  destruct (@held_says ZS (session p) SH _ _ _ _ _ Hmax Ha Hin) as (e&He&_&_&Hk).
  destruct o as [n|n r]; simpl in Hk |- *.
  - destruct (@held_node ZS (session p) SH _ _ _ _ Ha Hin) as (c&_&(Hwf&_)). simpl in Hwf.
    pose proof (ok_held (SS:=session p) _ _ Ha) as Hh. rewrite Forall_forall in Hh.
    specialize (Hh _ Hin). unfold held_ok in Hh. simpl in Hh. destruct Hh as [_ ->].
    rewrite node_token_parses by done. unfold fully_qualified_node_name.
    rewrite <-join_fqn_eq by apply Hwf. split.
    + intros (e'&[= <-]&_&->). done.
    + intros [= <-]. eexists. by split_and!.
  - apply bool_decide_eq_false in Hk. split; [|done]. intros (e'&He'&Hk'&_). congruence.
Qed.

(** *** What a domain holds *)
Definition domain_tokens (d : N) (w : list Peer) : list str := (held_in d w).*2.
Lemma elem_of_held_in d w h :
  h ∈ held_in d w ↔ ∃ p, p ∈ w ∧ peer_domain p = d ∧ h ∈ held (app p).
Proof.
  unfold held_in. rewrite list_elem_of_bind. split.
  - intros (p&Hh&Hp). rewrite list_elem_of_In, filter_In, <-list_elem_of_In, bool_decide_eq_true in Hp.
    naive_solver.
  - intros (p&Hp&Hd&Hh). exists p. split; [done|].
    by rewrite list_elem_of_In, filter_In, <-list_elem_of_In, bool_decide_eq_true.
Qed.
Lemma domain_tokens_NoDup max d w : max <= u64_max → world_ok max w → NoDup (domain_tokens d w).
Proof.
  intros Hmax [Hp Hz]. unfold domain_tokens, held_in.
  assert (∀ l, (l ≫= λ p, held (app p)).*2 = l ≫= tokens) as ->.
  { induction l as [|p l IH]; [done|]. by rewrite !bind_cons, fmap_app, IH. }
  apply (world_tokens_NoDup max); [done|]. split.
  - apply Forall_forall. intros p Hin. rewrite list_elem_of_In, filter_In, <-list_elem_of_In in Hin.
    rewrite Forall_forall in Hp. naive_solver.
  - eapply sublist_NoDup; [exact Hz|]. apply fmap_sublist, sublist_List_filter.
Qed.
Lemma delivered_live max d w trace :
  max <= u64_max → world_ok max w →
  fold_left live_sample trace ∅ = (list_to_set (w ≫= tokens) : gset str) →
  fold_left live_sample (delivered d trace) ∅ = (list_to_set (domain_tokens d w) : gset str).
Proof.
  intros Hmax [Hp _] Hlive. unfold delivered.
  pose proof (live_filter (subscription_matches (graph_cache_keyexpr d)) trace ∅) as Hf.
  replace (filter _ ∅) with (∅ : gset str) in Hf.
  2: { apply set_eq. intros k. rewrite elem_of_filter. set_solver. }
  rewrite Hf, Hlive. apply set_eq. intros tok.
  rewrite elem_of_filter, !elem_of_list_to_set. unfold domain_tokens, tokens.
  rewrite list_elem_of_bind, list_elem_of_fmap. rewrite Forall_forall in Hp. split.
  - intros [Hm (p&([o tok']&->&Hin)%list_elem_of_fmap&Hpw)]. simpl in *.
    rewrite (held_matches max d p o) in Hm by eauto. apply bool_decide_eq_true in Hm.
    exists (o, tok'). split; [done|]. apply elem_of_held_in. eauto.
  - intros ([o tok']&->&(p&Hpw&Hd&Hin)%elem_of_held_in). simpl. split.
    + rewrite (held_matches max d p o) by eauto. by apply bool_decide_eq_true.
    + exists p. split; [|done]. apply list_elem_of_fmap. by exists (o, tok').
Qed.
Lemma domain_discovery max d w closed os :
  max <= u64_max → world_ok max w →
  live_tokens os = (list_to_set (domain_tokens d w) : gset str) →
  let c := fst (GraphCache.run closed os GraphCache_default) in
  (∀ kind name, count_kind_on_topic kind name c =
     length (List.filter (λ h, owner_on kind name h.1) (held_in d w))) ∧
  (∀ name, name ∈ node_names c ↔ ∃ h, h ∈ held_in d w ∧ node_name_of h.1 = Some name).
Proof.
  intros Hmax Hw Hlive c. assert (∀ h, h ∈ held_in d w → ∃ p, peer_ok max p ∧ h ∈ held (app p)) as Hin.
  { intros h (p&Hp&_&Hh)%elem_of_held_in. destruct Hw as [Hw _]. rewrite Forall_forall in Hw. eauto. }
  split.
  - intros kind name. unfold c. erewrite count_live by apply cache_of_live.
    rewrite Hlive. unfold live_on_topic. rewrite length_filter_tokens by by eapply domain_tokens_NoDup.
    unfold domain_tokens. revert Hin. generalize (held_in d w). intros l Hin.
    induction l as [|[o tok] l IH]; [done|]. rewrite fmap_cons. simpl.
    destruct (Hin (o, tok) ltac:(by left)) as (p&Hp&Hh).
    rewrite (held_counts max p o tok kind name Hmax Hp Hh).
    destruct (owner_on kind name o); simpl; rewrite IH; try done; intros h Hh'; apply Hin; by right.
  - intros name. unfold c. destruct (node_names_spec closed os) as (_&_&Hn). rewrite Hn, Hlive. split.
    + intros (key&e&Hk&He&Hkind&->). rewrite elem_of_list_to_set in Hk.
      apply list_elem_of_fmap in Hk as ([o tok]&->&Hh). exists (o, tok). split; [done|].
      destruct (Hin _ Hh) as (p&Hp&Hh'). apply (held_names max p o tok _ Hmax Hp Hh'). eauto.
    + intros ([o tok]&Hh&Hname). destruct (Hin _ Hh) as (p&Hp&Hh').
      apply (held_names max p o tok _ Hmax Hp Hh') in Hname as (e&He&Hk&->).
      exists tok, e. split_and!; try done. apply elem_of_list_to_set, list_elem_of_fmap. by exists (o, tok).
Qed.

(** ** Properties *)

(** C14: discovery in a network of applications, end to end. Whatever the
    applications on any number of sessions and domains do -- make nodes, ask
    them for publishers, subscriptions, clients and servers, drop any of them, in
    any interleaving, with whatever declarations the sessions refuse -- a context
    that is delivered what its own expression selects of the samples, whatever
    streams it opens in between, counts on every topic and service exactly the
    entities of each kind that the applications of its domain then hold, and
    lists exactly the names of the nodes they hold. *)
Theorem network_discovered (peers : list (ZenohSession * N)) (l : list (nat * Action)) :
  Forall (λ sd, @ZenohSessionLaws ZS sd.1 ∧ sd.2 <= u16_max) peers →
  NoDup ((λ sd, @session_zid ZS sd.1) <$> peers) →
  Forall (λ ia, wf_action ia.2) l → N.of_nat (length l) <= u64_max →
  let '(w, trace) := run_world l ((λ '(session, domain), Peer_new session domain) <$> peers) in
  ∀ domain closed os, samples_of os = delivered domain trace →
  let c := fst (GraphCache.run closed os GraphCache_default) in
  (∀ kind name, count_kind_on_topic kind name c =
     length (List.filter (λ h, owner_on kind name h.1) (held_in domain w))) ∧
  (∀ name, name ∈ node_names c ↔ ∃ h, h ∈ held_in domain w ∧ node_name_of h.1 = Some name).
Proof.
  intros Hp Hz Hl Hlen. set (w0 := _ <$> peers).
  assert (world_ok 0 w0) as Hw0.
  { unfold w0. split.
    - apply Forall_fmap. eapply Forall_impl; [exact Hp|]. intros [s d] [Hs Hd]. split; [done|].
      by apply App_new_ok.
    - rewrite <-list_fmap_compose. erewrite list_fmap_ext; [exact Hz|]. by intros ? [s d] _. }
  assert (w0 ≫= tokens = []) as Ht0.
  { unfold w0. clear. induction peers as [|[s d] peers IH]; [done|]. by rewrite fmap_cons, bind_cons, IH. }
  pose proof (run_world_spec l w0 0 Hlen Hl Hw0) as Hrun. rewrite Ht0 in Hrun.
  destruct (run_world l w0) as [w trace]. destruct Hrun as [Hw Hlive].
  intros domain closed os Hos. eapply domain_discovery; [exact Hlen|exact Hw|].
  unfold live_tokens. rewrite live_samples_of, Hos. by eapply delivered_live.
Qed.
End discovery_lemmas.

#[local] Existing Instances toy_serializer toy_sha toy_sha_laws toy_xxh3.
Definition other_session : ZenohSession := {| session_zid := lit "b0b"; declare _ _ := Ok tt |}.
Lemma other_session_laws : @ZenohSessionLaws _ other_session.
Proof. split. by apply (bool_decide_unpack _). Defined.
(** Two applications in domain 0 and one in domain 1: three nodes, publishers in
    both domains, one dropped publisher. *)
Definition toy_actions : list (nat * Action) :=
  let node base := {| Names.namespace := lit "/robot1"; base_name := lit base |} in
  let publisher := RPublisher chatter None None in
  [(0%nat, NewNode (node "talker")); (1%nat, NewNode (node "listener"));
   (0%nat, Create 0 publisher); (2%nat, NewNode (node "other")); (1%nat, Create 0 (RSubscription chatter None));
   (1%nat, Create 0 publisher); (2%nat, Create 0 publisher); (0%nat, Create 0 publisher);
   (0%nat, Drop 1)].
Definition toy_peers : list (ZenohSession * N) :=
  [(toy_session, 0); (other_session, 0); ({| session_zid := lit "c"; declare _ _ := Ok tt |}, 1)].
Lemma toy_peers_ok : Forall (λ sd, @ZenohSessionLaws _ sd.1 ∧ sd.2 <= u16_max) toy_peers.
Proof.
  repeat (constructor; [split; [split; by apply (bool_decide_unpack _)|vm_compute; discriminate]|]).
  constructor.
Defined.
Lemma toy_actions_ok : Forall (λ ia, wf_action ia.2) toy_actions.
Proof.
  pose proof chatter_wf as Hc. assert (wf_request (RPublisher chatter None None)) as Hp.
  { split_and!; [exact Hc|discriminate..]. }
  assert (wf_request (RSubscription chatter None)) as Hs by (split; [exact Hc|discriminate]).
  assert (∀ b, forallb ok_name_char (lit b) = true → starts_with_char ok_start_char (lit b) = true →
    wf_node_name {| Names.namespace := lit "/robot1"; base_name := lit b |}) as Hn.
  { intros b H1 H2. split_and!; try done. by right. }
  repeat (apply Forall_cons; split); [..|by apply Forall_nil];
    first [exact Hp | exact Hs | exact I | by apply Hn].
Defined.
Definition toy_run : list Peer * list GraphCache.Sample :=
  run_world toy_actions ((λ '(session, domain), Peer_new session domain) <$> toy_peers).
Lemma network_discovered_witness :
  let c := fst (GraphCache.run (λ _, false) (OnSample <$> delivered 0 toy_run.2) GraphCache_default) in
  length toy_run.2 = 9%nat ∧ length (delivered 0 toy_run.2) = 7%nat ∧
  count_kind_on_topic KeyExpr.Publisher (lit "/robot1/chatter") c = 2%nat ∧
  (∀ name, name ∈ node_names c ↔ name ∈ [lit "/robot1/talker"; lit "/robot1/listener"]).
Proof.
  assert (NoDup ((λ sd, @session_zid _ sd.1) <$> toy_peers)) as Hz.
  { apply (bool_decide_unpack _). vm_compute. exact I. }
  pose proof (network_discovered toy_peers toy_actions toy_peers_ok Hz toy_actions_ok
    ltac:(vm_compute; discriminate)) as H.
  fold toy_run in H. rewrite (surjective_pairing toy_run) in H.
  assert (∀ l, samples_of (OnSample <$> l) = l) as Hsamples.
  { intros l. induction l as [|s l IH]; [done|]. cbn. f_equal. exact IH. }
  destruct (H 0 (λ _, false) (OnSample <$> delivered 0 toy_run.2) (Hsamples _)) as [Hcount Hnames].
  split; [vm_compute; reflexivity|]. split; [vm_compute; reflexivity|]. split.
  - rewrite Hcount. vm_compute. reflexivity.
  - intros name. rewrite Hnames.
    assert (omap (λ h, node_name_of h.1) (held_in 0 toy_run.1) =
            [lit "/robot1/talker"; lit "/robot1/listener"]) as <- by (vm_compute; reflexivity).
    rewrite list_elem_of_omap. reflexivity.
Defined.
