(* ===== verification/DdsNode.v ===== *)
(** * The DDS context and the endpoints of its nodes (context.rs,
    builtin_topics.rs, the constructors of node.rs, service/client.rs and
    service/server.rs)

    Every constructor asks RustDDS for topics, readers and writers, and registers
    the readers and writers it gets with the node, whose context announces them to
    ROS discovery (Discovery.v). RustDDS is a class that answers each request, as
    it sees fit given those before; an endpoint is modelled by the topic and QoS
    it was created with and its GUID. *)
From S2P Require Import Prelude Names Qos ParamStore Discovery DdsService ActionClient.

(** ** QoS policies *)

(** RustDDS's [QosPolicyBuilder]: the policies that were set. The code sets
    shared ownership and no other. *)
Inductive Ownership := Shared.
Record QosPolicyBuilder (D : Type) := {
  b_durability : option DdsDurability;
  b_deadline : option D;
  b_ownership : option Ownership;
  b_reliability : option (DdsReliability D);
  b_history : option DdsHistory;
  b_lifespan : option D;
}.
Arguments Build_QosPolicyBuilder {D}.
Arguments b_durability {D}.
Arguments b_deadline {D}.
Arguments b_ownership {D}.
Arguments b_reliability {D}.
Arguments b_history {D}.
Arguments b_lifespan {D}.
Class DdsQosBuilder (D P : Type) := {
  duration_ZERO : D;
  duration_from_secs : Z → D;
  build : QosPolicyBuilder D → P;
}.

Section qos.
Context {D P : Type} `{!RustddsQos D P, !DdsQosBuilder D P}.

(** context.rs *)
Definition DEFAULT_SUBSCRIPTION_QOS : P := build
  {| b_durability := Some DdsVolatile; b_deadline := Some INFINITE; b_ownership := Some Shared;
     b_reliability := Some DdsBestEffort; b_history := Some (DdsKeepLast 1);
     b_lifespan := Some INFINITE |}.
Definition DEFAULT_PUBLISHER_QOS : P := build
  {| b_durability := Some DdsVolatile; b_deadline := Some INFINITE; b_ownership := Some Shared;
     b_reliability := Some (DdsReliable (dds_from_millis 100));
     b_history := Some (DdsKeepLast 1); b_lifespan := Some INFINITE |}.
(** builtin_topics.rs *)
Definition ros_discovery_QOS_PUB : P := build
  {| b_durability := Some DdsTransientLocal; b_deadline := Some INFINITE;
     b_ownership := Some Shared; b_reliability := Some (DdsReliable duration_ZERO);
     b_history := Some (DdsKeepLast 1); b_lifespan := Some INFINITE |}.
Definition ros_discovery_QOS_SUB : P := build
  {| b_durability := Some DdsVolatile; b_deadline := None; b_ownership := Some Shared;
     b_reliability := Some (DdsReliable duration_ZERO);
     b_history := Some (DdsKeepLast 1); b_lifespan := Some INFINITE |}.
Definition parameter_events_QOS : P := build
  {| b_durability := Some DdsTransientLocal; b_deadline := None; b_ownership := None;
     b_reliability := Some (DdsReliable duration_ZERO);
     b_history := Some (DdsKeepLast 1); b_lifespan := None |}.
Definition rosout_QOS : P := build
  {| b_durability := Some DdsTransientLocal; b_deadline := Some INFINITE;
     b_ownership := Some Shared; b_reliability := Some (DdsReliable duration_ZERO);
     b_history := Some (DdsKeepLast 1); b_lifespan := Some (duration_from_secs 10) |}.
(** [Node::spinner]'s QoS for the parameter services. *)
Definition service_qos : P := build
  {| b_durability := None; b_deadline := None; b_ownership := None;
     b_reliability := Some (DdsReliable (dds_from_millis 100));
     b_history := Some (DdsKeepLast 1); b_lifespan := None |}.
End qos.

Definition ros_discovery_TOPIC_NAME : str := lit "ros_discovery_info".
Definition ros_discovery_TYPE_NAME : str :=
  lit "rmw_dds_common::msg::dds_::ParticipantEntitiesInfo_".
Definition parameter_events_TOPIC_NAME : str := lit "rt/parameter_events".
Definition parameter_events_TYPE_NAME : str := lit "rcl_interfaces::msg::dds_::ParameterEvent_".
Definition rosout_TOPIC_NAME : str := lit "rt/rosout".
Definition rosout_TYPE_NAME : str := lit "rcl_interfaces::msg::dds_::Log_".

Section dds_node.
Context `{RD : Rustdds}.
Context {D P CreateError : Type} `{!RustddsQos D P, !DdsQosBuilder D P}.
(** Whether GIDs have the size of ROS 2 Iron and later. *)
Context (iron : bool).
(** The types of the node's parameter store. *)
Context {W T : Type}.

(** ** The participant *)

(** What an endpoint or topic was created with. *)
Record Topic := { topic_name : str; topic_type : str; topic_qos : P }.
Record Reader := { r_topic : Topic; r_qos : option P; r_guid : GUID }.
Record Writer := { w_topic : Topic; w_qos : option P; w_guid : GUID }.

(** What the participant was asked for, with its answers, oldest first. *)
Inductive DdsEvent :=
| GroupCreated (qos : P) (r : result CreateError unit)
| TopicCreated (t : Topic) (r : result CreateError unit)
| ReaderCreated (t : Topic) (qos : option P) (r : result CreateError GUID)
| WriterCreated (t : Topic) (qos : option P) (r : result CreateError GUID).
Class DomainParticipant := {
  participant_guid : GUID;
  answer_group : list DdsEvent → P → result CreateError unit;
  answer_topic : list DdsEvent → Topic → result CreateError unit;
  answer_reader : list DdsEvent → Topic → option P → result CreateError GUID;
  answer_writer : list DdsEvent → Topic → option P → result CreateError GUID;
}.
Context {DP : DomainParticipant}.
Abbreviation DM := (stateE (list DdsEvent) CreateError).

(** RustDDS's [create_publisher] and [create_subscriber]: groups of writers and
    of readers. *)
Definition create_group (qos : P) : DM unit := λ log,
  let r := answer_group log qos in (log ++ [GroupCreated qos r], r).
Definition participant_create_topic (name type : str) (qos : P) : DM Topic := λ log,
  let t := {| topic_name := name; topic_type := type; topic_qos := qos |} in
  let r := answer_topic log t in
  (log ++ [TopicCreated t r], (λ _, t) <$> r).
Definition create_simple_datareader_no_key (topic : Topic) (qos : option P) : DM Reader := λ log,
  let r := answer_reader log topic qos in
  (log ++ [ReaderCreated topic qos r],
   (λ g, {| r_topic := topic; r_qos := qos; r_guid := g |}) <$> r).
Definition create_datawriter_no_key (topic : Topic) (qos : option P) : DM Writer := λ log,
  let r := answer_writer log topic qos in
  (log ++ [WriterCreated topic qos r],
   (λ g, {| w_topic := topic; w_qos := qos; w_guid := g |}) <$> r).

Definition gid_of (g : GUID) : list N := Gid_from (λ g, Z.to_N <$> to_bytes g) iron g.

(** ** context.rs *)

Record Context_ := {
  ros_discovery_topic : Topic;
  ros_parameter_events_topic : Topic;
  ros_rosout_topic : Topic;
  inner : ContextInner;       (* the participant's nodes, Discovery.v *)
}.
Definition with_inner (c : ContextInner) (x : Context_) : Context_ :=
  {| ros_discovery_topic := ros_discovery_topic x;
     ros_parameter_events_topic := ros_parameter_events_topic x;
     ros_rosout_topic := ros_rosout_topic x; inner := c |}.

Definition from_domain_participant : DM Context_ :=
  _ ← create_group DEFAULT_PUBLISHER_QOS;
  _ ← create_group DEFAULT_SUBSCRIPTION_QOS;
  ros_discovery_topic ← participant_create_topic ros_discovery_TOPIC_NAME
    ros_discovery_TYPE_NAME ros_discovery_QOS_PUB;
  ros_parameter_events_topic ← participant_create_topic parameter_events_TOPIC_NAME
    parameter_events_TYPE_NAME parameter_events_QOS;
  ros_rosout_topic ← participant_create_topic rosout_TOPIC_NAME rosout_TYPE_NAME rosout_QOS;
  node_writer ← create_datawriter_no_key ros_discovery_topic None;
  mret {| ros_discovery_topic := ros_discovery_topic;
          ros_parameter_events_topic := ros_parameter_events_topic;
          ros_rosout_topic := ros_rosout_topic;
          inner := {| participant_gid := gid_of participant_guid;
                      node_writer_gid := gid_of (w_guid node_writer);
                      local_nodes := ∅; published := [] |} |}.

Definition context_create_topic (topic_dds_name : str) (type_name : MessageTypeName) (qos : P) :
    DM Topic :=
  participant_create_topic topic_dds_name (dds_msg_type type_name) qos.
(** [Publisher::new] and [Subscription::new] wrap the writer and the reader. *)
Definition context_create_publisher (topic : Topic) (qos : option P) : DM Writer :=
  create_datawriter_no_key topic qos.
Definition context_create_subscription (topic : Topic) (qos : option P) : DM Reader :=
  create_simple_datareader_no_key topic qos.
Definition context_create_datawriter (topic : Topic) (qos : option P) : DM Writer :=
  create_datawriter_no_key topic qos.
Definition context_create_simpledatareader (topic : Topic) (qos : option P) : DM Reader :=
  create_simple_datareader_no_key topic qos.

(** ** node.rs: the state of a node *)

Record NodeState := {
  log : list DdsEvent;
  ros_context : Context_;
  node : Discovery.Node;
  start_services : bool;              (* [options.start_parameter_services] *)
  stop_spin_sender : option bool;     (* whether the channel's one place is taken *)
}.
(** [NodeCreateError], of which only [Node::new] returns the second, or a
    panic. *)
Inductive Exit := DDS (e : CreateError) | BadParameter (e : str) | Panics.
Abbreviation M := (stateE NodeState Exit).

Definition on_participant {A} (m : DM A) : M A := λ st,
  let '(l, r) := m (log st) in
  ({| log := l; ros_context := ros_context st; node := node st;
      start_services := start_services st; stop_spin_sender := stop_spin_sender st |},
   map_err DDS r).
(** A step of Discovery.v's node and context. *)
Definition on_node (f : Discovery.Node → ContextInner → Discovery.Node * ContextInner) : M unit :=
  λ st,
  let '(n, c) := f (node st) (inner (ros_context st)) in
  ({| log := log st; ros_context := with_inner c (ros_context st); node := n;
      start_services := start_services st; stop_spin_sender := stop_spin_sender st |}, Ok tt).
Definition or_panic {A} (o : option A) : M A := λ st,
  (st, match o with Some a => Ok a | None => Err Panics end).
Definition dds_name (name : Name) (kind_prefix suffix : string) : M str := λ st,
  or_panic (to_dds_name name (lit kind_prefix) (n_name (node st)) (lit suffix)) st.

(** *** Topics *)
Definition create_topic (topic_name : Name) (type_name : MessageTypeName) (qos : P) : M Topic :=
  dds_name ← dds_name topic_name "rt" "";
  on_participant (context_create_topic dds_name type_name qos).
Definition create_subscription (topic : Topic) (qos : option P) : M Reader :=
  sub ← on_participant (context_create_subscription topic qos);
  _ ← on_node (add_reader (gid_of (r_guid sub)));
  mret sub.
Definition create_publisher (topic : Topic) (qos : option P) : M Writer :=
  p ← on_participant (context_create_publisher topic qos);
  _ ← on_node (add_writer (gid_of (w_guid p)));
  mret p.
Definition create_simpledatareader (topic : Topic) (qos : option P) : M Reader :=
  r ← on_participant (context_create_simpledatareader topic qos);
  _ ← on_node (add_reader (gid_of (r_guid r)));
  mret r.
Definition create_datawriter (topic : Topic) (qos : option P) : M Writer :=
  w ← on_participant (context_create_datawriter topic qos);
  _ ← on_node (add_writer (gid_of (w_guid w)));
  mret w.
(** [RawPublisher::new] and [RawSubscription::new] wrap the writer and the
    reader; DDS keys nothing on the type hash. *)
Definition create_raw_publisher (topic : Topic) (qos : option P) : M Writer :=
  create_datawriter topic qos.
Definition create_raw_publisher_with_type_hash (topic : Topic) (qos : option P) (_ : str) :
    M Writer := create_raw_publisher topic qos.
Definition create_raw_subscription (topic : Topic) (qos : option P) : M Reader :=
  create_simpledatareader topic qos.

(** *** Services *)
Abbreviation Client := (Client (W:=Writer) (D:=Reader)).
Abbreviation Server := (Server (WS:=Writer) (DS:=Reader)).
Abbreviation RawServer := (RawServer (WR:=Writer) (DR:=Reader)).

(** [Client::new], [Server::new], [RawServer::new]. *)
Definition Client_create (mapping : ServiceMapping) (request_topic response_topic : Topic)
    (qos_request qos_response : option P) : M Client :=
  request_sender ← create_datawriter request_topic qos_request;
  response_receiver ← create_simpledatareader response_topic qos_response;
  mret (Client_new mapping request_sender (w_guid request_sender) response_receiver).
Definition Server_create (mapping : ServiceMapping) (request_topic response_topic : Topic)
    (qos_request qos_response : option P) : M Server :=
  request_receiver ← create_simpledatareader request_topic qos_request;
  response_sender ← create_datawriter response_topic qos_response;
  mret {| srv_service_mapping := mapping; request_receiver := request_receiver;
          response_sender := response_sender |}.
Definition RawServer_create (request_topic response_topic : Topic)
    (qos_request qos_response : option P) : M RawServer :=
  request_receiver ← create_simpledatareader request_topic qos_request;
  response_sender ← create_datawriter response_topic qos_response;
  mret {| raw_request_receiver := request_receiver; raw_response_sender := response_sender |}.

(** The request and the response topic of a service. *)
Definition service_topics (service_name : Name) (service_type_name : ServiceTypeName)
    (request_qos response_qos : P) : M (Topic * Topic) :=
  rq_name ← dds_name service_name "rq" "Request";
  rq_topic ← on_participant
    (participant_create_topic rq_name (dds_request_type service_type_name) request_qos);
  rs_name ← dds_name service_name "rr" "Reply";
  rs_topic ← on_participant
    (participant_create_topic rs_name (dds_response_type service_type_name) response_qos);
  mret (rq_topic, rs_topic).
Definition create_client (service_mapping : ServiceMapping) (service_name : Name)
    (service_type_name : ServiceTypeName) (request_qos response_qos : P) : M Client :=
  '(rq_topic, rs_topic) ← service_topics service_name service_type_name request_qos response_qos;
  Client_create service_mapping rq_topic rs_topic (Some request_qos) (Some response_qos).
Definition create_server (service_mapping : ServiceMapping) (service_name : Name)
    (service_type_name : ServiceTypeName) (request_qos response_qos : P) : M Server :=
  '(rq_topic, rs_topic) ← service_topics service_name service_type_name request_qos response_qos;
  Server_create service_mapping rq_topic rs_topic (Some request_qos) (Some response_qos).
Definition create_raw_server (service_name : Name) (service_type_name : ServiceTypeName)
    (request_qos response_qos : P) : M RawServer :=
  '(rq_topic, rs_topic) ← service_topics service_name service_type_name request_qos response_qos;
  RawServer_create rq_topic rs_topic (Some request_qos) (Some response_qos).
Definition create_raw_server_with_type_hash (service_name : Name)
    (service_type_name : ServiceTypeName) (request_qos response_qos : P) (_ : str) :
    M RawServer :=
  create_raw_server service_name service_type_name request_qos response_qos.

(** *** Actions *)

(** action.rs: the QoS of the five parts of an action's client or server, the
    two topics' last. *)
Record ActionClientQosPolicies := {
  cq_goal_service : P;
  cq_result_service : P;
  cq_cancel_service : P;
  feedback_subscription : P;
  status_subscription : P;
}.
Record ActionServerQosPolicies := {
  sq_goal_service : P;
  sq_result_service : P;
  sq_cancel_service : P;
  feedback_publisher : P;
  status_publisher : P;
}.
(** action/server.rs: the synchronous server's parts. *)
Record ActionServer := {
  my_goal_server : Server;
  my_cancel_server : Server;
  my_result_server : Server;
  my_feedback_publisher : Writer;
  my_status_publisher : Writer;
  my_server_action_name : Name;
}.
(** action/raw_server.rs. *)
Record RawActionServer := {
  goal_server : RawServer;
  cancel_server : Server;
  result_server : RawServer;
  raw_feedback_publisher : Writer;
  raw_status_publisher : Writer;
  action_name : Name;
}.
Definition RawActionServer_new (goal_server : RawServer) (cancel_server : Server)
    (result_server : RawServer) (feedback_publisher status_publisher : Writer)
    (action_name : Name) : RawActionServer :=
  {| goal_server := goal_server; cancel_server := cancel_server; result_server := result_server;
     raw_feedback_publisher := feedback_publisher; raw_status_publisher := status_publisher;
     action_name := action_name |}.

Abbreviation ActionClient := (ActionClient (W:=Writer) (D:=Reader) (FD:=Reader) (SD:=Reader)).
Definition create_action_client (service_mapping : ServiceMapping) (action_name : Name)
    (action_type_name : ActionTypeName) (action_qos : ActionClientQosPolicies) : M ActionClient :=
  let services_base_name := Name_push action_name (lit "_action") in
  let goal_service_type := dds_action_service action_type_name (lit "_SendGoal") in
  my_goal_client ← create_client service_mapping (Name_push services_base_name (lit "send_goal"))
    goal_service_type (cq_goal_service action_qos) (cq_goal_service action_qos);
  let cancel_goal_type := ServiceTypeName_new (lit "action_msgs") (lit "CancelGoal") in
  my_cancel_client ← create_client service_mapping
    (Name_push services_base_name (lit "cancel_goal")) cancel_goal_type
    (cq_cancel_service action_qos) (cq_cancel_service action_qos);
  let result_service_type := dds_action_service action_type_name (lit "_GetResult") in
  my_result_client ← create_client service_mapping
    (Name_push services_base_name (lit "get_result")) result_service_type
    (cq_result_service action_qos) (cq_result_service action_qos);
  let action_topic_namespace := Name_push action_name (lit "_action") in
  let feedback_topic_type := dds_action_topic action_type_name (lit "_FeedbackMessage") in
  feedback_topic ← create_topic (Name_push action_topic_namespace (lit "feedback"))
    feedback_topic_type (feedback_subscription action_qos);
  my_feedback_subscription ← create_subscription feedback_topic
    (Some (feedback_subscription action_qos));
  status_topic ← create_topic (Name_push action_topic_namespace (lit "status"))
    (MessageTypeName_new (lit "action_msgs") (lit "GoalStatusArray"))
    (status_subscription action_qos);
  my_status_subscription ← create_subscription status_topic
    (Some (status_subscription action_qos));
  mret {| my_goal_client := my_goal_client; my_cancel_client := my_cancel_client;
          my_result_client := my_result_client;
          my_feedback_subscription := my_feedback_subscription;
          my_status_subscription := my_status_subscription; my_action_name := action_name |}.

Definition create_action_server (service_mapping : ServiceMapping) (action_name : Name)
    (action_type_name : ActionTypeName) (action_qos : ActionServerQosPolicies) : M ActionServer :=
  let services_base_name := Name_push action_name (lit "_action") in
  let goal_service_type := dds_action_service action_type_name (lit "_SendGoal") in
  my_goal_server ← create_server service_mapping (Name_push services_base_name (lit "send_goal"))
    goal_service_type (sq_goal_service action_qos) (sq_goal_service action_qos);
  let cancel_service_type := ServiceTypeName_new (lit "action_msgs") (lit "CancelGoal") in
  my_cancel_server ← create_server service_mapping
    (Name_push services_base_name (lit "cancel_goal")) cancel_service_type
    (sq_cancel_service action_qos) (sq_cancel_service action_qos);
  let result_service_type := dds_action_service action_type_name (lit "_GetResult") in
  my_result_server ← create_server service_mapping
    (Name_push services_base_name (lit "get_result")) result_service_type
    (sq_result_service action_qos) (sq_result_service action_qos);
  let action_topic_namespace := Name_push action_name (lit "_action") in
  let feedback_topic_type := dds_action_topic action_type_name (lit "_FeedbackMessage") in
  feedback_topic ← create_topic (Name_push action_topic_namespace (lit "feedback"))
    feedback_topic_type (feedback_publisher action_qos);
  my_feedback_publisher ← create_publisher feedback_topic (Some (feedback_publisher action_qos));
  let status_topic_type := MessageTypeName_new (lit "action_msgs") (lit "GoalStatusArray") in
  status_topic ← create_topic (Name_push action_topic_namespace (lit "status"))
    status_topic_type (status_publisher action_qos);
  my_status_publisher ← create_publisher status_topic (Some (status_publisher action_qos));
  mret {| my_goal_server := my_goal_server; my_cancel_server := my_cancel_server;
          my_result_server := my_result_server; my_feedback_publisher := my_feedback_publisher;
          my_status_publisher := my_status_publisher; my_server_action_name := action_name |}.

Definition create_raw_action_server (action_name : Name) (action_type_name : ActionTypeName)
    (action_qos : ActionServerQosPolicies) : M RawActionServer :=
  let services_base_name := Name_push action_name (lit "_action") in
  let goal_service_type := dds_action_service action_type_name (lit "_SendGoal") in
  goal_server ← create_raw_server (Name_push services_base_name (lit "send_goal"))
    goal_service_type (sq_goal_service action_qos) (sq_goal_service action_qos);
  let cancel_service_type := ServiceTypeName_new (lit "action_msgs") (lit "CancelGoal") in
  cancel_server ← create_server Enhanced (Name_push services_base_name (lit "cancel_goal"))
    cancel_service_type (sq_cancel_service action_qos) (sq_cancel_service action_qos);
  let result_service_type := dds_action_service action_type_name (lit "_GetResult") in
  result_server ← create_raw_server (Name_push services_base_name (lit "get_result"))
    result_service_type (sq_result_service action_qos) (sq_result_service action_qos);
  let action_topic_namespace := Name_push action_name (lit "_action") in
  let feedback_topic_type := dds_action_topic action_type_name (lit "_FeedbackMessage") in
  feedback_topic ← create_topic (Name_push action_topic_namespace (lit "feedback"))
    feedback_topic_type (feedback_publisher action_qos);
  feedback ← create_raw_publisher feedback_topic (Some (feedback_publisher action_qos));
  let status_topic_type := MessageTypeName_new (lit "action_msgs") (lit "GoalStatusArray") in
  status_topic ← create_topic (Name_push action_topic_namespace (lit "status"))
    status_topic_type (status_publisher action_qos);
  status ← create_publisher status_topic (Some (status_publisher action_qos));
  mret (RawActionServer_new goal_server cancel_server result_server feedback status action_name).
Definition create_raw_action_server_with_type_hashes (action_name : Name)
    (action_type_name : ActionTypeName) (action_qos : ActionServerQosPolicies)
    (_ : str * str * str) : M RawActionServer :=
  create_raw_action_server action_name action_type_name action_qos.

(** *** The Spinner *)

Record ParameterServers := {
  get_parameters_server : Server;
  get_parameter_types_server : Server;
  list_parameters_server : Server;
  set_parameters_server : Server;
  set_parameters_atomically_server : Server;
  describe_parameters_server : Server;
}.
(** The parts of a [Spinner] made for it; it shares the others with its node. *)
Record Spinner := {
  clock_topic : Topic;
  parameter_servers : option ParameterServers;
}.
Definition set_stop_sender (s : option bool) : M unit := λ st,
  ({| log := log st; ros_context := ros_context st; node := node st;
      start_services := start_services st; stop_spin_sender := s |}, Ok tt).
Definition parameter_server (base type : string) : M Server := λ st,
  (name ← or_panic (unwrap_name (fully_qualified_name (n_name (node st))) (lit base));
   create_server Enhanced name (ServiceTypeName_new (lit "rcl_interfaces") (lit type))
     service_qos service_qos) st.
Definition create_parameter_servers : M (option ParameterServers) := λ st,
  if start_services st then
    (get_parameters ← parameter_server "get_parameters" "GetParameters";
     get_parameter_types ← parameter_server "get_parameter_types" "GetParameterTypes";
     set_parameters ← parameter_server "set_parameters" "SetParameters";
     set_parameters_atomically ←
       parameter_server "set_parameters_atomically" "SetParametersAtomically";
     list_parameters ← parameter_server "list_parameters" "ListParameters";
     describe_parameters ← parameter_server "describe_parameters" "DescribeParameters";
     mret (Some {| get_parameters_server := get_parameters;
                   get_parameter_types_server := get_parameter_types;
                   list_parameters_server := list_parameters;
                   set_parameters_server := set_parameters;
                   set_parameters_atomically_server := set_parameters_atomically;
                   describe_parameters_server := describe_parameters |})) st
  else (st, Ok None).
Definition spinner : M Spinner := λ st,
  if bool_decide (is_Some (stop_spin_sender st)) then (st, Err Panics) else
  (_ ← set_stop_sender (Some false);
   _ ← on_node (suppress_node_info_updates true);
   parameter_servers ← create_parameter_servers;
   name ← or_panic (unwrap_name [slash] (lit "clock"));
   clock_topic ← create_topic name
     (MessageTypeName_new (lit "builtin_interfaces") (lit "Time")) DEFAULT_SUBSCRIPTION_QOS;
   _ ← on_node (suppress_node_info_updates false);
   mret {| clock_topic := clock_topic; parameter_servers := parameter_servers |}) st.
Definition have_spinner (st : NodeState) : bool := bool_decide (is_Some (stop_spin_sender st)).
(** [try_send] on the channel of one place; a full one is logged. *)
Definition stop_spinner : M unit := λ st,
  set_stop_sender ((λ _, true) <$> stop_spin_sender st) st.

(** *** The life of a node *)

Definition set_rosout_writer (w : option Writer) : M unit :=
  on_node (λ n c,
    ({| n_name := n_name n; readers := readers n; writers := writers n;
        suppress_updates := suppress_updates n; parameter_events_gid := parameter_events_gid n;
        rosout_gid := gid_of ∘ w_guid <$> w |}, c)).
Definition node_drop (st : NodeState) : list DdsEvent * Context_ :=
  (log st, with_inner (Node_drop (node st) (inner (ros_context st))) (ros_context st)).
(** [Node::new]: an error past the parameter events writer drops the node. *)
Definition new_node (node_name : NodeName) (o : NodeOptions W) (w : W)
    (s : list DdsEvent * Context_) :
    (list DdsEvent * Context_) * result Exit (NodeState * ParamStore.Node W T) :=
  let '(l, x) := s in
  match context_create_publisher (ros_parameter_events_topic x) None l with
  | (l, Err e) => ((l, x), Err (DDS e))
  | (l, Ok parameter_events_writer) =>
      let st := {| log := l; ros_context := x;
                   node := {| n_name := node_name; readers := ∅; writers := ∅;
                              suppress_updates := false;
                              parameter_events_gid := gid_of (w_guid parameter_events_writer);
                              rosout_gid := None |};
                   start_services := start_parameter_services o; stop_spin_sender := None |} in
      let builtin_endpoints : M unit :=
        _ ← on_node (suppress_node_info_updates true);
        _ ← (if enable_rosout o
             then w ← create_publisher (ros_rosout_topic x) None; set_rosout_writer (Some w)
             else set_rosout_writer None);
        if enable_rosout_reading o
        then _ ← create_subscription (ros_rosout_topic x) None; mret tt
        else mret tt in
      match builtin_endpoints st with
      | (st, Err e) => (node_drop st, Err e)
      | (st, Ok tt) =>
          match ParamStore.Node_new node_name o w with
          | Err e => (node_drop st, Err (BadParameter e))
          | Ok p =>
              let st := (on_node (suppress_node_info_updates false) st).1 in
              ((log st, ros_context st), Ok (st, p))
          end
      end
  end.

(** ** What a user asks of a node *)

Inductive request :=
| RTopic (name : Name) (ty : MessageTypeName) (qos : P)
| RPublisher (topic : Topic) (qos : option P)
| RSubscription (topic : Topic) (qos : option P)
| RRawPublisher (topic : Topic) (qos : option P) (hash : option str)
| RRawSubscription (topic : Topic) (qos : option P)
| RClient (mapping : ServiceMapping) (name : Name) (ty : ServiceTypeName) (rq rs : P)
| RServer (mapping : ServiceMapping) (name : Name) (ty : ServiceTypeName) (rq rs : P)
| RRawServer (name : Name) (ty : ServiceTypeName) (rq rs : P) (hash : option str)
| RActionClient (mapping : ServiceMapping) (name : Name) (ty : ActionTypeName)
    (qos : ActionClientQosPolicies)
| RActionServer (mapping : ServiceMapping) (name : Name) (ty : ActionTypeName)
    (qos : ActionServerQosPolicies)
| RRawActionServer (name : Name) (ty : ActionTypeName) (qos : ActionServerQosPolicies)
    (hashes : option (str * str * str)).
Definition forget {A} (m : M A) : M unit := _ ← m; mret tt.
Definition create (r : request) : M unit :=
  match r with
  | RTopic n ty q => forget (create_topic n ty q)
  | RPublisher t q => forget (create_publisher t q)
  | RSubscription t q => forget (create_subscription t q)
  | RRawPublisher t q None => forget (create_raw_publisher t q)
  | RRawPublisher t q (Some h) => forget (create_raw_publisher_with_type_hash t q h)
  | RRawSubscription t q => forget (create_raw_subscription t q)
  | RClient m n ty rq rs => forget (create_client m n ty rq rs)
  | RServer m n ty rq rs => forget (create_server m n ty rq rs)
  | RRawServer n ty rq rs None => forget (create_raw_server n ty rq rs)
  | RRawServer n ty rq rs (Some h) => forget (create_raw_server_with_type_hash n ty rq rs h)
  | RActionClient m n ty q => forget (create_action_client m n ty q)
  | RActionServer m n ty q => forget (create_action_server m n ty q)
  | RRawActionServer n ty q None => forget (create_raw_action_server n ty q)
  | RRawActionServer n ty q (Some hs) =>
      forget (create_raw_action_server_with_type_hashes n ty q hs)
  end.
(** Requests one after the other, whether they succeed or not. *)
Fixpoint create_all (rs : list request) (st : NodeState) : NodeState :=
  match rs with
  | [] => st
  | r :: rs => create_all rs (create r st).1
  end.

(** ** Lemmas *)

(** What the readers and writers RustDDS made mean to the node and its context. *)
Definition register (s : Discovery.Node * ContextInner) (e : DdsEvent) :
    Discovery.Node * ContextInner :=
  match e with
  | ReaderCreated _ _ (Ok g) => add_reader (gid_of g) s.1 s.2
  | WriterCreated _ _ (Ok g) => add_writer (gid_of g) s.1 s.2
  | _ => s
  end.
Definition node_ops (h : N) (e : DdsEvent) : list node_op :=
  match e with
  | ReaderCreated _ _ (Ok g) => [CreateReader h (gid_of g)]
  | WriterCreated _ _ (Ok g) => [CreateWriter h (gid_of g)]
  | _ => []
  end.
Definition readers_of (L : list DdsEvent) : gset (list N) :=
  list_to_set (L ≫= λ e, match e with ReaderCreated _ _ (Ok g) => [gid_of g] | _ => [] end).
Definition writers_of (L : list DdsEvent) : gset (list N) :=
  list_to_set (L ≫= λ e, match e with WriterCreated _ _ (Ok g) => [gid_of g] | _ => [] end).

(** A run that registers exactly what RustDDS made during it. *)
Definition registers : relation NodeState := λ st st', ∃ L,
  log st' = log st ++ L ∧
  (node st', inner (ros_context st')) = foldl register (node st, inner (ros_context st)) L ∧
  ros_context st' = with_inner (inner (ros_context st')) (ros_context st) ∧
  start_services st' = start_services st ∧ stop_spin_sender st' = stop_spin_sender st.

Lemma with_inner_id x : with_inner (inner x) x = x.
Proof. by destruct x. Qed.
#[local] Instance registers_refl : Reflexive registers.
Proof. intros st. exists []. by rewrite app_nil_r, with_inner_id. Qed.
#[local] Instance registers_trans : Transitive registers.
Proof.
  intros st1 st2 st3 (L1&E1&F1&G1&H1&I1) (L2&E2&F2&G2&H2&I2). exists (L1 ++ L2).
  rewrite E2, E1, (assoc_L (++)), foldl_app, <-F1. split_and!; [done..| |congruence|congruence].
  rewrite G2 at 1. by rewrite G1.
Qed.

(** One endpoint or topic. *)
Lemma registers_event st st' e n c :
  log st' = log st ++ [e] → node st' = n → ros_context st' = with_inner c (ros_context st) →
  (n, c) = register (node st, inner (ros_context st)) e →
  start_services st' = start_services st → stop_spin_sender st' = stop_spin_sender st →
  registers st st'.
Proof.
  intros E1 E2 E3 E4 E5 E6. exists [e]. rewrite E3. simpl. rewrite <-E4, E2. by split_and!.
Qed.
Lemma create_reader_registers (topic : Topic) (qos : option P) :
  respects registers (r ← on_participant (create_simple_datareader_no_key topic qos);
                      _ ← on_node (add_reader (gid_of (r_guid r))); mret r).
Proof.
  intros st. unfold mbind, stateE_bind, on_participant, create_simple_datareader_no_key. simpl.
  destruct (answer_reader (log st) topic qos) as [g|e] eqn:E; simpl.
  - by eapply (registers_event _ _ (ReaderCreated topic qos (Ok g))).
  - eapply (registers_event _ _ (ReaderCreated topic qos (Err e))); [done|done| |done..].
    simpl. by rewrite with_inner_id.
Qed.
Lemma create_writer_registers (topic : Topic) (qos : option P) :
  respects registers (w ← on_participant (create_datawriter_no_key topic qos);
                      _ ← on_node (add_writer (gid_of (w_guid w))); mret w).
Proof.
  intros st. unfold mbind, stateE_bind, on_participant, create_datawriter_no_key. simpl.
  destruct (answer_writer (log st) topic qos) as [g|e] eqn:E; simpl.
  - by eapply (registers_event _ _ (WriterCreated topic qos (Ok g))).
  - eapply (registers_event _ _ (WriterCreated topic qos (Err e))); [done|done| |done..].
    simpl. by rewrite with_inner_id.
Qed.
Lemma create_topic_registers name type qos :
  respects registers (on_participant (participant_create_topic name type qos)).
Proof.
  intros st. unfold on_participant, participant_create_topic. simpl.
  eapply (registers_event _ _ (TopicCreated _ _)); [done|done| |done..].
  simpl. by rewrite with_inner_id.
Qed.
Lemma or_panic_registers {A} (o : option A) : respects registers (or_panic o).
Proof. intros st. by destruct o. Qed.
Lemma dds_name_registers name kind suffix : respects registers (dds_name name kind suffix).
Proof. intros st. apply (or_panic_registers _ st). Qed.
Lemma ret_registers {A} (a : A) : respects registers (mret (M:=M) a).
Proof. apply respects_ret; apply _. Qed.

Create HintDb registers.
#[local] Hint Resolve create_reader_registers create_writer_registers create_topic_registers
  dds_name_registers or_panic_registers ret_registers : registers.
(** A constructor registers when each of its steps does. *)
Ltac registers_steps :=
  repeat match goal with
  | |- respects registers (let '(_, _) := ?x in _) => destruct x
  | |- respects registers _ => solve [eauto with registers]
  | |- respects registers (mbind _ _) => apply respects_bind; [apply _| |intros ?]
  end.
Lemma service_topics_registers name ty rq rs : respects registers (service_topics name ty rq rs).
Proof. unfold service_topics. registers_steps. Qed.
#[local] Hint Resolve service_topics_registers : registers.
Lemma create_client_registers m name ty rq rs : respects registers (create_client m name ty rq rs).
Proof. unfold create_client, Client_create. registers_steps. Qed.
Lemma create_server_registers m name ty rq rs : respects registers (create_server m name ty rq rs).
Proof. unfold create_server, Server_create. registers_steps. Qed.
Lemma create_raw_server_registers name ty rq rs : respects registers (create_raw_server name ty rq rs).
Proof. unfold create_raw_server, RawServer_create. registers_steps. Qed.
Lemma node_create_topic_registers name ty qos : respects registers (create_topic name ty qos).
Proof. unfold create_topic. registers_steps. Qed.
#[local] Hint Resolve create_client_registers create_server_registers create_raw_server_registers
  node_create_topic_registers : registers.
Lemma create_registers r : respects registers (create r).
Proof.
  destruct r; repeat match goal with h : option _ |- _ => destruct h end; simpl; unfold forget,
    create_publisher, create_subscription, create_raw_publisher_with_type_hash,
    create_raw_publisher, create_raw_subscription, create_raw_server_with_type_hash,
    create_raw_action_server_with_type_hashes, create_action_client, create_action_server,
    create_raw_action_server; registers_steps.
Qed.
Lemma create_all_registers rs st : registers st (create_all rs st).
Proof.
  revert st. induction rs as [|r rs IH]; intros st; simpl; [done|].
  etrans; [apply create_registers|apply IH].
Qed.

Lemma register_node n c e :
  let s := register (n, c) e in
  readers s.1 = readers n ∪ readers_of [e] ∧ writers s.1 = writers n ∪ writers_of [e] ∧
  n_name s.1 = n_name n ∧ suppress_updates s.1 = suppress_updates n ∧
  (suppress_updates n = true → s.2 = c).
Proof.
  unfold readers_of, writers_of.
  destruct e as [| |t q [g|]|t q [g|]]; simpl; (split_and!; [set_solver..|done|done|]);
    intros H; by rewrite ?H.
Qed.
Lemma readers_of_cons e L : readers_of (e :: L) = readers_of [e] ∪ readers_of L.
Proof. unfold readers_of. rewrite <-list_to_set_app_L. simpl. by rewrite app_nil_r. Qed.
Lemma writers_of_cons e L : writers_of (e :: L) = writers_of [e] ∪ writers_of L.
Proof. unfold writers_of. rewrite <-list_to_set_app_L. simpl. by rewrite app_nil_r. Qed.
Lemma foldl_register_node L n c :
  let s := foldl register (n, c) L in
  readers s.1 = readers n ∪ readers_of L ∧ writers s.1 = writers n ∪ writers_of L ∧
  n_name s.1 = n_name n ∧ suppress_updates s.1 = suppress_updates n ∧
  (suppress_updates n = true → s.2 = c).
Proof.
  revert n c. induction L as [|e L IH]; intros n c; simpl.
  { unfold readers_of, writers_of. split_and!; [set_solver..|done|done|done]. }
  rewrite readers_of_cons, writers_of_cons.
  destruct (register_node n c e) as (R&V&N&S&C). destruct (register (n, c) e) as [n1 c1].
  simpl in *. destruct (IH n1 c1) as (R'&V'&N'&S'&C'). rewrite R', V', N', S', R, V, N, S.
  rewrite !(assoc_L (∪)). split_and!; [done..|]. intros H. rewrite C' by congruence. by apply C.
Qed.
(** While updates are not suppressed, registering is the node's operations of
    Discovery.v. *)
Lemma foldl_register_ops h L n c live :
  suppress_updates n = false → live !! h = Some n →
  foldl (λ s o, exec_node_op o s) (live, c) (L ≫= node_ops h) =
  (<[h := (foldl register (n, c) L).1]> live, (foldl register (n, c) L).2).
Proof.
  revert n c live. induction L as [|e L IH]; intros n c live Hs Hn; simpl.
  { by rewrite insert_id. }
  rewrite foldl_app. destruct (register_node n c e) as (_&_&_&S&_). simpl in S.
  assert (foldl (λ s o, exec_node_op o s) (live, c) (node_ops h e) =
          (<[h := (register (n, c) e).1]> live, (register (n, c) e).2)) as ->.
  { destruct e as [| |t q [g|]|t q [g|]]; simpl; rewrite ?Hn;
      first [done|by rewrite insert_id]. }
  destruct (register (n, c) e) as [n1 c1]. simpl in *.
  rewrite (IH n1) by (congruence || by rewrite lookup_insert_eq). by rewrite insert_insert_eq.
Qed.
Lemma exec_ops_published h ops live c :
  Forall (λ o, (∃ g, o = CreateReader h g) ∨ ∃ g, o = CreateWriter h g) ops → ops ≠ [] →
  (∀ n, live !! h = Some n → suppress_updates n = false) → is_Some (live !! h) →
  ∃ n, (foldl (λ s o, exec_node_op o s) (live, c) ops).1 !! h = Some n ∧
  let c' := (foldl (λ s o, exec_node_op o s) (live, c) ops).2 in
  last (published c') = Some (participant_entities_info c') ∧
  local_nodes c' !! node_fqn n = Some (advertised c' n).
Proof.
  intros Hops. revert live c. induction Hops as [|o ops Ho _ IH]; [done|].
  intros live c _ Hs [n Hn]. specialize (Hs n Hn). cbn [foldl].
  assert (∃ n1 c1, exec_node_op o (live, c) = (<[h := n1]> live, update_node (generate_node_info n1) c1)
    ∧ suppress_updates n1 = false) as (n1&c1&->&Hs1).
  { destruct Ho as [[g ->]|[g ->]]; simpl; rewrite Hn; unfold add_reader, add_writer; simpl;
      rewrite Hs; simpl; eauto. }
  destruct ops as [|o' ops].
  - exists n1. simpl. rewrite lookup_insert_eq. split; [done|]. split; [by rewrite last_snoc|].
    assert (nei_fully_qualified_name (generate_node_info n1) = node_fqn n1) as Hk.
    { unfold nei_fully_qualified_name.
      destruct (advertised_spec c1 n1) as [Hk _]. simpl in Hk. by rewrite Hk. }
    unfold nei_fully_qualified_name in *. simpl. rewrite Hk. by rewrite lookup_insert_eq.
  - apply IH; [done| |]; rewrite lookup_insert_eq; [by intros ? [= <-]|eauto].
Qed.
Lemma node_ops_create h L :
  Forall (λ o, (∃ g, o = CreateReader h g) ∨ ∃ g, o = CreateWriter h g) (L ≫= node_ops h).
Proof.
  apply Forall_forall. intros o (e & Ho & _)%list_elem_of_bind.
  destruct e as [| |t q [g|]|t q [g|]]; simpl in Ho;
    first [by apply not_elem_of_nil in Ho|apply list_elem_of_singleton in Ho; subst; eauto].
Qed.

(** *** [Node::new] and [Node::spinner] *)

(** The creation of a node up to its parameters, with RustDDS's answers. *)
Lemma new_node_cases name (o : NodeOptions W) w l x :
  match new_node name o w (l, x) with
  | ((l', x'), Ok (st, p)) => ∃ pw row ror,
      Discovery.Node_new name pw row ror true (inner x) = (Some (node st), inner x') ∧
      ParamStore.Node_new name o w = Ok p ∧ l' = log st ∧ x' = ros_context st ∧
      (is_Some row ↔ enable_rosout o = true) ∧ (is_Some ror ↔ enable_rosout_reading o = true)
  | ((l', x'), Err e) =>
      e ≠ Panics ∧
      (x' = x ∨ ∃ pw, Discovery.Node_new name pw None None false (inner x) = (None, inner x'))
  end.
Proof.
  unfold new_node, context_create_publisher, create_datawriter_no_key.
  destruct (answer_writer _ _ _) as [pw|e]; simpl; [|by split; [|left]].
  unfold create_publisher, create_subscription, context_create_publisher,
    create_datawriter_no_key, context_create_subscription, create_simple_datareader_no_key,
    on_participant, set_rosout_writer.
  unfold mbind, stateE_bind, on_node, mret, stateE_ret. simpl.
  destruct (enable_rosout o), (enable_rosout_reading o); simpl;
    repeat (match goal with
      | |- context [answer_writer ?a ?b ?c] => destruct (answer_writer a b c)
      | |- context [answer_reader ?a ?b ?c] => destruct (answer_reader a b c)
      end; simpl);
    try (split; [done|right; by exists (gid_of pw)]);
    (destruct (ParamStore.Node_new name o w) as [p|e] eqn:Hp; simpl;
     [|split; [done|right; by exists (gid_of pw)]]);
    exists (gid_of pw).
  1: exists (Some (gid_of a)), (Some (gid_of a0)).
  2: exists (Some (gid_of a)), None.
  3: exists None, (Some (gid_of a)).
  4: exists None, None.
  all: split_and!; try done; intros Hs; try done; try (by eexists); by destruct Hs.
Qed.

(** The part of [Node::spinner] that runs while updates are suppressed. *)
Definition spinner_parts : M Spinner :=
  parameter_servers ← create_parameter_servers;
  name ← or_panic (unwrap_name [slash] (lit "clock"));
  clock_topic ← create_topic name
    (MessageTypeName_new (lit "builtin_interfaces") (lit "Time")) DEFAULT_SUBSCRIPTION_QOS;
  mret {| clock_topic := clock_topic; parameter_servers := parameter_servers |}.
Definition muted (n : Discovery.Node) : Discovery.Node :=
  (suppress_node_info_updates true n {| participant_gid := []; node_writer_gid := [];
     local_nodes := ∅; published := [] |}).1.
Lemma spinner_unfold st :
  stop_spin_sender st = None →
  spinner st =
  match spinner_parts {| log := log st; ros_context := ros_context st; node := muted (node st);
                         start_services := start_services st; stop_spin_sender := Some false |} with
  | (st', Ok s) => ((on_node (suppress_node_info_updates false) st').1, Ok s)
  | (st', Err e) => (st', Err e)
  end.
Proof.
  intros Hst. set (fin := λ s : Spinner, _ ← on_node (suppress_node_info_updates false); mret (M:=M) s).
  transitivity ((_ ← set_stop_sender (Some false); _ ← on_node (suppress_node_info_updates true);
                 spinner_parts ≫= fin) st).
  - unfold spinner. rewrite Hst. do 2 (apply stateE_bind_ext; intros ??).
    unfold spinner_parts. do 3 (rewrite stateE_bind_assoc; apply stateE_bind_ext; intros ??). done.
  - generalize spinner_parts as parts. intros parts.
    unfold mbind, stateE_bind, set_stop_sender, on_node at 1. simpl. rewrite with_inner_id.
    by destruct (parts _) as [? []].
Qed.
Lemma parameter_server_registers base type : respects registers (parameter_server base type).
Proof.
  intros st. unfold parameter_server.
  apply (respects_bind registers); [apply or_panic_registers|intros; apply create_server_registers].
Qed.
#[local] Hint Resolve parameter_server_registers : registers.
Lemma create_parameter_servers_registers : respects registers create_parameter_servers.
Proof.
  intros st. unfold create_parameter_servers. destruct (start_services st); [|done].
  match goal with |- registers _ (?m st).1 => enough (respects registers m) as H by apply H end.
  registers_steps.
Qed.
#[local] Hint Resolve create_parameter_servers_registers : registers.
Lemma spinner_parts_registers : respects registers spinner_parts.
Proof. unfold spinner_parts. registers_steps. Qed.
Lemma create_parameter_servers_some st st' o :
  create_parameter_servers st = (st', Ok o) → (is_Some o ↔ start_services st = true).
Proof.
  unfold create_parameter_servers. destruct (start_services st); [|by intros [= <- <-]].
  intros H. repeat apply stateE_bind_Ok in H as (?&?&_&H). injection H as _ <-. by eauto.
Qed.

(** *** Names of the endpoints *)

(** The name an endpoint's topic is built from: what [Name] and node resolve to,
    with a second slash in front of a relative name in the root namespace. *)
Definition doubled (name : Name) (node : NodeName) : bool :=
  negb (absolute name) && str_eqb (namespace node) [slash].
Definition dds_fqn (name : Name) (node : NodeName) : str :=
  (if doubled name node then [slash] else []) ++ resolve_fqn name node.
Definition topic_key (t : Topic) : str * str := (topic_name t, topic_type t).
Definition topic_of (fqn : str) (ty : MessageTypeName) : str * str :=
  (lit "rt" ++ fqn, dds_msg_type ty).
Definition service_of (fqn : str) (ty : ServiceTypeName) : list (str * str) :=
  [(lit "rq" ++ fqn ++ lit "Request", dds_request_type ty);
   (lit "rr" ++ fqn ++ lit "Reply", dds_response_type ty)].
Definition client_keys (c : Client) : list (str * str) :=
  [topic_key (w_topic (request_sender c)); topic_key (r_topic (response_receiver c))].
Definition server_keys (s : Server) : list (str * str) :=
  [topic_key (r_topic (request_receiver s)); topic_key (w_topic (response_sender s))].
Definition raw_server_keys (s : RawServer) : list (str * str) :=
  [topic_key (r_topic (raw_request_receiver s)); topic_key (w_topic (raw_response_sender s))].
(** An action's topics: those of the three services, feedback and status. *)
Definition sub_fqn (fqn : str) (sub : string) : str := fqn ++ lit "/_action" ++ slash :: lit sub.
Definition action_keys (fqn : str) (ty : ActionTypeName) : list (str * str) :=
  service_of (sub_fqn fqn "send_goal") (dds_action_service ty (lit "_SendGoal")) ++
  service_of (sub_fqn fqn "cancel_goal") (ServiceTypeName_new (lit "action_msgs") (lit "CancelGoal")) ++
  service_of (sub_fqn fqn "get_result") (dds_action_service ty (lit "_GetResult")) ++
  [topic_of (sub_fqn fqn "feedback") (dds_action_topic ty (lit "_FeedbackMessage"));
   topic_of (sub_fqn fqn "status") (MessageTypeName_new (lit "action_msgs") (lit "GoalStatusArray"))].
Definition action_client_keys (c : ActionClient) : list (str * str) :=
  client_keys (my_goal_client c) ++ client_keys (my_cancel_client c) ++
  client_keys (my_result_client c) ++
  [topic_key (r_topic (my_feedback_subscription c)); topic_key (r_topic (my_status_subscription c))].
Definition action_server_keys (s : ActionServer) : list (str * str) :=
  server_keys (my_goal_server s) ++ server_keys (my_cancel_server s) ++
  server_keys (my_result_server s) ++
  [topic_key (w_topic (my_feedback_publisher s)); topic_key (w_topic (my_status_publisher s))].
Definition raw_action_server_keys (s : RawActionServer) : list (str * str) :=
  raw_server_keys (goal_server s) ++ server_keys (cancel_server s) ++
  raw_server_keys (result_server s) ++
  [topic_key (w_topic (raw_feedback_publisher s)); topic_key (w_topic (raw_status_publisher s))].

Definition name_in (st : NodeState) : NodeName := n_name (node st).
Lemma registers_name st st' : registers st st' → name_in st' = name_in st.
Proof.
  intros (L&_&E&_). unfold name_in.
  pose proof (foldl_register_node L (node st) (inner (ros_context st))) as (_&_&N&_).
  by rewrite <-E in N.
Qed.
Lemma respects_name {A} (m : M A) st st' r :
  respects registers m → m st = (st', r) → name_in st' = name_in st.
Proof. intros Hm E. specialize (Hm st). rewrite E in Hm. by apply registers_name. Qed.

Lemma dds_name_Ok name kind suffix st st' s :
  ends_with_char (λ c, (c =? slash)%N) (lit kind) = false →
  dds_name name kind suffix st = (st', Ok s) →
  st' = st ∧ s = lit kind ++ dds_fqn name (name_in st) ++ lit suffix.
Proof.
  intros Hk. unfold dds_name, or_panic. rewrite to_dds_name_resolve by done.
  intros [= <- <-]. split; [done|]. unfold dds_fqn, doubled, name_in. by rewrite <-(assoc_L (++)).
Qed.
Lemma topic_made name ty qos st st' t :
  on_participant (participant_create_topic name ty qos) st = (st', Ok t) → topic_key t = (name, ty).
Proof.
  unfold on_participant, participant_create_topic. simpl.
  destruct (answer_topic _ _); [|done]. by intros [= _ <-].
Qed.
Lemma reader_made topic qos st st' r :
  create_simpledatareader topic qos st = (st', Ok r) → r_topic r = topic.
Proof.
  intros H. apply stateE_bind_Ok in H as (st1&x&E&H).
  apply stateE_bind_Ok in H as (?&?&_&[= _ <-]). revert E. unfold on_participant,
    context_create_simpledatareader, create_simple_datareader_no_key. simpl.
  destruct (answer_reader _ _ _); [|done]. by intros [= _ <-].
Qed.
Lemma writer_made topic qos st st' w :
  create_datawriter topic qos st = (st', Ok w) → w_topic w = topic.
Proof.
  intros H. apply stateE_bind_Ok in H as (st1&x&E&H).
  apply stateE_bind_Ok in H as (?&?&_&[= _ <-]). revert E. unfold on_participant,
    context_create_datawriter, create_datawriter_no_key. simpl.
  destruct (answer_writer _ _ _); [|done]. by intros [= _ <-].
Qed.
Lemma create_topic_key name ty qos st st' t :
  create_topic name ty qos st = (st', Ok t) →
  topic_key t = topic_of (dds_fqn name (name_in st)) ty.
Proof.
  intros H. apply stateE_bind_Ok in H as (st1&s&[-> ->]%dds_name_Ok&H%topic_made); [|done].
  rewrite H. unfold topic_of. by rewrite app_nil_r.
Qed.
Lemma service_topics_keys name ty q q' st st' rq rs :
  service_topics name ty q q' st = (st', Ok (rq, rs)) →
  [topic_key rq; topic_key rs] = service_of (dds_fqn name (name_in st)) ty.
Proof.
  intros H. apply stateE_bind_Ok in H as (st1&s&[-> ->]%dds_name_Ok&H); [|done].
  apply stateE_bind_Ok in H as (st2&t1&E1&H).
  apply stateE_bind_Ok in H as (st3&s2&[-> ->]%dds_name_Ok&H); [|done].
  apply stateE_bind_Ok in H as (st4&t2&E2%topic_made&[= _ <- <-]).
  apply (respects_name _ _ _ _ (create_topic_registers _ _ _)) in E1 as Hn.
  apply topic_made in E1. by rewrite E1, E2, Hn.
Qed.
Lemma create_client_keys m name ty q q' st st' c :
  create_client m name ty q q' st = (st', Ok c) →
  client_keys c = service_of (dds_fqn name (name_in st)) ty.
Proof.
  intros H. apply stateE_bind_Ok in H as (st1&[rq rs]&<-%service_topics_keys&H).
  apply stateE_bind_Ok in H as (?&w&Ew%writer_made&H).
  apply stateE_bind_Ok in H as (?&r&Er%reader_made&[= _ <-]).
  unfold client_keys. simpl. by rewrite Ew, Er.
Qed.
Lemma create_server_keys m name ty q q' st st' s :
  create_server m name ty q q' st = (st', Ok s) →
  server_keys s = service_of (dds_fqn name (name_in st)) ty.
Proof.
  intros H. apply stateE_bind_Ok in H as (st1&[rq rs]&<-%service_topics_keys&H).
  apply stateE_bind_Ok in H as (?&r&Er%reader_made&H).
  apply stateE_bind_Ok in H as (?&w&Ew%writer_made&[= _ <-]).
  unfold server_keys. simpl. by rewrite Ew, Er.
Qed.
Lemma create_raw_server_keys name ty q q' st st' s :
  create_raw_server name ty q q' st = (st', Ok s) →
  raw_server_keys s = service_of (dds_fqn name (name_in st)) ty.
Proof.
  intros H. apply stateE_bind_Ok in H as (st1&[rq rs]&<-%service_topics_keys&H).
  apply stateE_bind_Ok in H as (?&r&Er%reader_made&H).
  apply stateE_bind_Ok in H as (?&w&Ew%writer_made&[= _ <-]).
  unfold raw_server_keys. simpl. by rewrite Ew, Er.
Qed.

Lemma dds_fqn_sub name node sub :
  dds_fqn (Name_push (Name_push name (lit "_action")) (lit sub)) node = sub_fqn (dds_fqn name node) sub.
Proof.
  change (Name_push (Name_push name (lit "_action")) (lit sub)) with (dds_action_sub_name name (lit sub)).
  assert (resolve_fqn (dds_action_sub_name name (lit sub)) node =
          resolve_fqn name node ++ lit "/_action" ++ slash :: lit sub) as E.
  { unfold resolve_fqn. rewrite sub_name_display. simpl.
    destruct (absolute name); [done|]. destruct (str_eqb _ _); by rewrite <-?(assoc_L (++)). }
  unfold dds_fqn, sub_fqn. rewrite E, <-(assoc_L (++)). done.
Qed.
Lemma create_subscription_registers topic qos : respects registers (create_subscription topic qos).
Proof. apply create_reader_registers. Qed.
Lemma create_publisher_registers topic qos : respects registers (create_publisher topic qos).
Proof. apply create_writer_registers. Qed.
Lemma create_raw_publisher_registers topic qos : respects registers (create_raw_publisher topic qos).
Proof. apply create_writer_registers. Qed.
Lemma subscription_made topic qos st st' r :
  create_subscription topic qos st = (st', Ok r) → r_topic r = topic.
Proof. apply reader_made. Qed.
Lemma publisher_made topic qos st st' w :
  create_publisher topic qos st = (st', Ok w) → w_topic w = topic.
Proof. apply writer_made. Qed.
Lemma raw_publisher_made topic qos st st' w :
  create_raw_publisher topic qos st = (st', Ok w) → w_topic w = topic.
Proof. apply writer_made. Qed.
#[local] Hint Resolve create_subscription_registers create_publisher_registers
  create_raw_publisher_registers : registers.

(** Takes a constructor of an action apart: every step leaves the node's name and
    made an endpoint with the keys its lemma says. *)
Ltac action_steps H :=
  repeat (let E := fresh "E" in let N := fresh "N" in
    apply stateE_bind_Ok in H as (?&?&E&H);
    match type of E with ?m ?s = (?s', _) =>
      assert (name_in s' = name_in s) as N
        by (eapply (respects_name m); [solve [eauto with registers]|exact E]);
      first [apply create_client_keys in E|apply create_server_keys in E
            |apply create_raw_server_keys in E|apply create_topic_key in E
            |apply subscription_made in E|apply publisher_made in E|apply raw_publisher_made in E];
      rewrite ?dds_fqn_sub in E
    end);
  injection H as _ <-;
  repeat match goal with N : name_in _ = name_in _ |- _ => rewrite N in *; clear N end.
Lemma action_client_created m a ty q st st' c :
  create_action_client m a ty q st = (st', Ok c) →
  action_client_keys c = action_keys (dds_fqn a (name_in st)) ty.
Proof.
  intros H. unfold create_action_client in H. action_steps H.
  unfold action_client_keys, action_keys. simpl my_goal_client. simpl my_cancel_client.
  simpl my_result_client. simpl my_feedback_subscription. simpl my_status_subscription. congruence.
Qed.
Lemma action_server_created m a ty q st st' s :
  create_action_server m a ty q st = (st', Ok s) →
  action_server_keys s = action_keys (dds_fqn a (name_in st)) ty.
Proof.
  intros H. unfold create_action_server in H. action_steps H.
  unfold action_server_keys, action_keys. simpl my_goal_server. simpl my_cancel_server.
  simpl my_result_server. simpl my_feedback_publisher. simpl my_status_publisher. congruence.
Qed.
Lemma raw_action_server_created a ty q st st' s :
  create_raw_action_server a ty q st = (st', Ok s) →
  raw_action_server_keys s = action_keys (dds_fqn a (name_in st)) ty.
Proof.
  intros H. unfold create_raw_action_server in H. action_steps H.
  unfold raw_action_server_keys, action_keys. simpl goal_server. simpl cancel_server.
  simpl result_server. simpl raw_feedback_publisher. simpl raw_status_publisher. congruence.
Qed.

(** The topics of an action determine its name and type. *)
Definition plain_action (ty : ActionTypeName) : Prop :=
  plain_part (action_package_name ty) ∧ plain_part (action_type_name ty).
Lemma action_keys_inj fqn fqn' ty ty' :
  plain_action ty → plain_action ty' →
  (action_keys fqn ty = action_keys fqn' ty' ↔
   fqn = fqn' ∧ action_package_name ty = action_package_name ty' ∧
   action_type_name ty = action_type_name ty').
Proof.
  intros [Hp Ht] [Hp' Ht']. split.
  - intros E. assert (plain_part (lit "_FeedbackMessage") ∧ plain_part (lit "action")) as [Hf Ha].
    { split; split; apply (bool_decide_unpack _); vm_compute; exact I. }
    apply (f_equal (λ l, l !! 6)) in E. injection E as Ef Ety.
    apply app_inv_tail in Ef. split; [done|].
    apply dds_msg_type_inj in Ety; [|done|done|destruct Ht, Hf; split; set_solver|
      done|done|destruct Ht', Hf; split; set_solver].
    injection Ety as -> Ety. by apply app_inv_tail in Ety.
  - intros (->&Ep&Et). unfold action_keys, dds_action_service, dds_action_topic. by rewrite Ep, Et.
Qed.
(** Two names agree on the wire when they resolve to the same name and both or
    neither have the slash doubled. *)
Lemma dds_fqn_eq a node tokens a' node' tokens' :
  wf_name a → wf_namespace (namespace node) tokens →
  wf_name a' → wf_namespace (namespace node') tokens' →
  (dds_fqn a node = dds_fqn a' node' ↔
   resolve_fqn a node = resolve_fqn a' node' ∧ doubled a node = doubled a' node').
Proof.
  intros Ha Hns Ha' Hns'. unfold dds_fqn. split; [|by intros [-> ->]].
  assert (∀ b nd ts, wf_name b → wf_namespace (namespace nd) ts →
    ∃ r, resolve_fqn b nd = slash :: r ∧ ∀ r', r ≠ slash :: r') as Hclean.
  { intros b nd ts Hb [Hts Hok]. rewrite (resolve_absolute b nd ts) by done.
    rewrite Name_display_join. simpl. eexists. split; [done|]. intros r'.
    apply join_tokens_not_slash. destruct (absolute_name_wf ts b Hb Hok) as [Hb1 Hb2].
    apply Forall_app. split; [exact Hb2|by repeat constructor]. }
  destruct (Hclean a node tokens) as (r&Er&Hr); [done..|].
  destruct (Hclean a' node' tokens') as (r'&Er'&Hr'); [done..|]. rewrite Er, Er'.
  destruct (doubled a node), (doubled a' node'); simpl; intros E; simplify_eq; auto;
    exfalso; first [by eapply Hr|by eapply Hr'].
Qed.

(** A participant that refuses nothing makes every part of an action. *)
Definition accepting : Prop := (∀ l t, answer_topic l t = Ok tt) ∧
  (∀ l t q, is_ok (answer_reader l t q)) ∧ ∀ l t q, is_ok (answer_writer l t q).
Section accepting.
Context (Hacc : accepting).
Lemma succeeds_topic name ty qos : succeeds (on_participant (participant_create_topic name ty qos)).
Proof. intros st. unfold on_participant, participant_create_topic. by rewrite (proj1 Hacc). Qed.
Lemma succeeds_dds_name name kind suffix :
  ends_with_char (λ c, (c =? slash)%N) (lit kind) = false → succeeds (dds_name name kind suffix).
Proof. intros Hk st. unfold dds_name, or_panic. by rewrite to_dds_name_resolve. Qed.
Lemma succeeds_on_node f : succeeds (on_node f).
Proof. intros st. unfold on_node. by destruct (f _ _). Qed.
Lemma succeeds_reader topic qos : succeeds (on_participant (create_simple_datareader_no_key topic qos)).
Proof.
  intros st. unfold on_participant, create_simple_datareader_no_key. simpl.
  pose proof (proj1 (proj2 Hacc) (log st) topic qos) as H. by destruct (answer_reader _ _ _).
Qed.
Lemma succeeds_writer topic qos : succeeds (on_participant (create_datawriter_no_key topic qos)).
Proof.
  intros st. unfold on_participant, create_datawriter_no_key. simpl.
  pose proof (proj2 (proj2 Hacc) (log st) topic qos) as H. by destruct (answer_writer _ _ _).
Qed.
#[local] Hint Resolve succeeds_topic succeeds_dds_name succeeds_on_node succeeds_reader
  succeeds_writer : core.
Lemma action_parts_created m a ty q q' :
  succeeds (create_action_client m a ty q) ∧ succeeds (create_action_server m a ty q') ∧
  succeeds (create_raw_action_server a ty q').
Proof.
  unfold create_action_client, create_action_server, create_raw_action_server,
    create_subscription, create_publisher, create_raw_publisher, create_client, create_server,
    create_raw_server, Client_create, Server_create, RawServer_create, service_topics,
    create_topic, context_create_topic, create_datawriter, create_simpledatareader.
  split_and!; repeat match goal with
    | |- succeeds (let '(_, _) := ?x in _) => destruct x
    | |- succeeds (mbind _ _) => apply succeeds_bind; [|intros ?]
    | |- succeeds (mret _) => apply succeeds_ret
    | |- _ => solve [auto]
    end.
Qed.
End accepting.

(** ** Properties *)

(** C16: The endpoints of DDS nodes and what is announced of them. A node's creation
    is that of Discovery.v's [Node_new], with the GIDs of the writers and the reader
    RustDDS made for it, and a failed one leaves of it at most a removal. Whatever a
    user then asks of the node, in any order and whichever requests RustDDS refuses,
    the node and its context go through Discovery.v's operations for exactly the
    readers and writers RustDDS made, in the order it made them; the node then holds
    the GIDs of all of them, and unless there are none the context's last
    announcement is current and says so. *)
Theorem node_endpoints_refine :
  (∀ name (o : NodeOptions W) w l x,
     match new_node name o w (l, x) with
     | ((l', x'), Ok (st, p)) => ∃ pw row ror,
         Discovery.Node_new name pw row ror true (inner x) = (Some (node st), inner x') ∧
         ParamStore.Node_new name o w = Ok p ∧ l' = log st ∧ x' = ros_context st ∧
         (is_Some row ↔ enable_rosout o = true) ∧ (is_Some ror ↔ enable_rosout_reading o = true)
     | ((l', x'), Err e) =>
         e ≠ Panics ∧
         (x' = x ∨ ∃ pw, Discovery.Node_new name pw None None false (inner x) = (None, inner x'))
     end) ∧
  ∀ rs st live h,
    live !! h = Some (node st) → suppress_updates (node st) = false →
    let st' := create_all rs st in
    ∃ L, log st' = log st ++ L ∧
      foldl (λ s o, exec_node_op o s) (live, inner (ros_context st)) (L ≫= node_ops h) =
        (<[h := node st']> live, inner (ros_context st')) ∧
      readers (node st') = readers (node st) ∪ readers_of L ∧
      writers (node st') = writers (node st) ∪ writers_of L ∧
      (L ≫= node_ops h ≠ [] →
       let c := inner (ros_context st') in
       last (published c) = Some (participant_entities_info c) ∧
       local_nodes c !! node_fqn (node st') = Some (advertised c (node st'))).
Proof.
  split; [intros; apply new_node_cases|]. intros rs st live h Hn Hs. cbv zeta.
  destruct (create_all_registers rs st) as (L&El&Er&_&_&_). exists L.
  pose proof (foldl_register_ops h L _ (inner (ros_context st)) live Hs Hn) as Hops.
  pose proof (foldl_register_node L (node st) (inner (ros_context st))) as (R&V&_&_&_).
  rewrite <-Er in Hops, R, V. split_and!; [done..|]. intros Hne.
  destruct (exec_ops_published h (L ≫= node_ops h) live (inner (ros_context st))
    (node_ops_create h L) Hne) as (n&Hn'&Hp&Hl).
  - intros n'. rewrite Hn. by intros [= <-].
  - by rewrite Hn.
  - rewrite Hops in Hn', Hp, Hl. simpl in *. rewrite lookup_insert_eq in Hn'. by injection Hn' as <-.
Qed.

(** C29: Creating the Spinner. When it succeeds, everything it created is registered
    and announced, at once and in a single announcement, and it has the parameter
    services exactly when the options ask for them. When it fails -- RustDDS refuses
    a topic, reader or writer, or the node's name is none a service can have -- the
    node is left with its updates suppressed for good: whatever is created on it
    afterwards is never announced, and asking for a Spinner again panics. *)
Theorem spinner_all_or_mute st :
  stop_spin_sender st = None → suppress_updates (node st) = false →
  match spinner st with
  | (st', Ok s) => ∃ L, log st' = log st ++ L ∧
      readers (node st') = readers (node st) ∪ readers_of L ∧
      writers (node st') = writers (node st) ∪ writers_of L ∧
      stop_spin_sender st' = Some false ∧ suppress_updates (node st') = false ∧
      (is_Some (parameter_servers s) ↔ start_services st = true) ∧
      let c := inner (ros_context st') in
      published c = published (inner (ros_context st)) ++ [participant_entities_info c] ∧
      local_nodes c !! node_fqn (node st') = Some (advertised c (node st'))
  | (st', Err e) => ∀ rs, let st'' := create_all rs st' in
      (∃ L, log st'' = log st ++ L ∧
         readers (node st'') = readers (node st) ∪ readers_of L ∧
         writers (node st'') = writers (node st) ∪ writers_of L) ∧
      inner (ros_context st'') = inner (ros_context st) ∧ spinner st'' = (st'', Err Panics)
  end.
Proof.
  intros Hst Hs. rewrite spinner_unfold by done.
  set (st0 := {| log := _ |}).
  pose proof (spinner_parts_registers st0) as Hr.
  destruct (spinner_parts st0) as [st' [s|e]] eqn:Hparts; simpl in Hr.
  - destruct Hr as (L&El&Er&Ec&_&Eo).
    pose proof (foldl_register_node L (node st0) (inner (ros_context st0))) as (R&V&N&S&C).
    rewrite <-Er in R, V, N, S, C. simpl in R, V, N, S, C. specialize (C eq_refl).
    exists L. simpl. rewrite C.
    split_and!; [done..| | |].
    + apply stateE_bind_Ok in Hparts as (st1&ps&Hps%create_parameter_servers_some&Hrest).
      repeat apply stateE_bind_Ok in Hrest as (?&?&_&Hrest). by injection Hrest as _ <-.
    + done.
    + set (n := {| n_name := _ |}). destruct (advertised_spec (inner (ros_context st)) n) as [Hk _].
      unfold nei_fully_qualified_name. simpl in Hk. simpl. rewrite Hk. by rewrite lookup_insert_eq.
  - intros rs. cbv zeta. pose proof (create_all_registers rs st') as Hrs.
    assert (registers st0 (create_all rs st')) as (L&El&Er&Ec&_&Eo) by by etrans.
    pose proof (foldl_register_node L (node st0) (inner (ros_context st0))) as (R&V&N&S&C).
    rewrite <-Er in R, V, N, S, C. simpl in R, V, N, S, C. specialize (C eq_refl).
    split_and!; [by exists L|done|]. unfold spinner. by rewrite Eo.
Qed.

(** A DDS action server meets its clients. An action client and an action server,
    typed or raw, made by any two nodes in whatever state, use the same topics -- the
    request and reply topics of the three services, the feedback and the status topic,
    names and types -- exactly when they have the same action type and the action's
    name, resolved by each node, is the same with the same number of leading slashes:
    a relative name in the root namespace and the absolute name it resolves to do not
    meet. When the participant refuses nothing, both are created. *)
Lemma dds_action_endpoints_meet m m' a a' ty ty' q q' tokens tokens' st st' :
  wf_name a → wf_namespace (namespace (name_in st)) tokens → plain_action ty →
  wf_name a' → wf_namespace (namespace (name_in st')) tokens' → plain_action ty' →
  (accepting → is_ok (create_action_client m a ty q st).2 ∧
     is_ok (create_action_server m' a' ty' q' st').2 ∧
     is_ok (create_raw_action_server a' ty' q' st').2) ∧
  ∀ st1 st2 c keys,
    create_action_client m a ty q st = (st1, Ok c) →
    (∃ s, create_action_server m' a' ty' q' st' = (st2, Ok s) ∧ keys = action_server_keys s) ∨
    (∃ s, create_raw_action_server a' ty' q' st' = (st2, Ok s) ∧ keys = raw_action_server_keys s) →
    (action_client_keys c = keys ↔
     (action_package_name ty = action_package_name ty' ∧
      action_type_name ty = action_type_name ty') ∧
     resolve_fqn a (name_in st) = resolve_fqn a' (name_in st') ∧
     doubled a (name_in st) = doubled a' (name_in st')).
Proof.
  intros Ha Hns Hty Ha' Hns' Hty'. split.
  - intros Hacc. split_and!; by apply action_parts_created.
  - intros st1 st2 c keys ->%action_client_created Hs.
    assert (keys = action_keys (dds_fqn a' (name_in st')) ty') as ->.
    { destruct Hs as [(s&Hs&->)|(s&Hs&->)];
        [by eapply action_server_created|by eapply raw_action_server_created]. }
    rewrite action_keys_inj, (dds_fqn_eq a _ tokens a' _ tokens') by done. tauto.
Qed.
End dds_node.

(** ** A concrete participant *)

#[local] Existing Instance toy_rustdds.
#[local] Instance toy_policies : RustddsQos Z unit := {|
  INFINITE := (-1)%Z; dds_from_millis z := (z * 1000000)%Z; dds_from_nanos z := z;
  to_nanoseconds z := z; q_durability _ := None; q_reliability _ := None; q_history _ := None;
  q_liveliness _ := None; q_deadline _ := None; q_lifespan _ := None;
  q_build _ _ _ _ _ _ := tt |}.
#[local] Instance toy_builder : DdsQosBuilder Z unit :=
  {| duration_ZERO := 0%Z; duration_from_secs s := (s * 1000000000)%Z; build _ := tt |}.
(** It numbers the endpoints, and refuses them from some event on. *)
Definition toy_answer (limit : option nat) (n : nat) : result unit Z :=
  if match limit with Some m => (m <=? n)%nat | None => false end then Err tt else Ok (Z.of_nat n).
Definition toy_participant (limit : option nat) : DomainParticipant (P:=unit) (CreateError:=unit) := {|
  participant_guid := 0%Z;
  answer_group _ _ := Ok tt; answer_topic _ _ := Ok tt;
  answer_reader l _ _ := toy_answer limit (length l);
  answer_writer l _ _ := toy_answer limit (length l) |}.
Definition toy_topic : Topic (P:=unit) := {| topic_name := []; topic_type := []; topic_qos := tt |}.
Definition toy_state (ns base : string) : NodeState (P:=unit) (CreateError:=unit) := {|
  log := [];
  ros_context := {| ros_discovery_topic := toy_topic; ros_parameter_events_topic := toy_topic;
                    ros_rosout_topic := toy_topic; inner := toy_context |};
  node := {| n_name := {| namespace := lit ns; base_name := lit base |}; readers := ∅; writers := ∅;
             suppress_updates := false; parameter_events_gid := [7%N]; rosout_gid := None |};
  start_services := true; stop_spin_sender := None |}.
Definition rotate_type : ActionTypeName := ActionTypeName_new (lit "turtlesim") (lit "RotateAbsolute").
Definition rotate (abs : bool) : Name :=
  {| name_base := lit "rotate_absolute"; preceeding_tokens := []; absolute := abs |}.
Definition toy_client_qos : ActionClientQosPolicies (P:=unit) :=
  {| cq_goal_service := tt; cq_result_service := tt; cq_cancel_service := tt;
     feedback_subscription := tt; status_subscription := tt |}.
Definition toy_server_qos : ActionServerQosPolicies (P:=unit) :=
  {| sq_goal_service := tt; sq_result_service := tt; sq_cancel_service := tt;
     feedback_publisher := tt; status_publisher := tt |}.

(** An action client, of which the participant makes the goal client and the
    cancel client's writer only. *)
Lemma node_endpoints_refine_witness :
  let st := toy_state "/turtle1" "teleop" in
  let rs := [RActionClient Enhanced (rotate false) rotate_type toy_client_qos] in
  let st' := create_all (DP:=toy_participant (Some 7)) true rs st in
  ∃ L, log st' = L ∧ length L = 8 ∧ writers (node st') = writers_of true L ∧
    readers (node st') = readers_of true L ∧
    last (published (inner (ros_context st'))) =
      Some (participant_entities_info (inner (ros_context st'))).
Proof.
  intros st rs st'.
  destruct (proj2 (node_endpoints_refine (DP:=toy_participant (Some 7)) (W:=unit) (T:=unit) true)
    rs st {[ 0%N := node st ]} 0%N ltac:(apply lookup_singleton_eq) ltac:(reflexivity))
    as (L&El&_&Er&Ew&Hp).
  assert (log st' = L) as <- by exact El. exists (log st').
  split; [reflexivity|]. split; [vm_compute; reflexivity|].
  split; [rewrite <-(left_id_L ∅ (∪) (writers_of true (log st'))); exact Ew|].
  split; [rewrite <-(left_id_L ∅ (∪) (readers_of true (log st'))); exact Er|].
  apply Hp. vm_compute. discriminate.
Defined.

(** The second half of the second parameter service cannot be created. *)
Definition refused {A C} (r : result (Exit (CreateError:=A)) C) : bool :=
  match r with Err (DDS _) => true | _ => false end.
Lemma spinner_all_or_mute_witness :
  let st := toy_state "/turtle1" "teleop" in
  let st' := (spinner (DP:=toy_participant (Some 7)) true st).1 in
  refused (spinner (DP:=toy_participant (Some 7)) true st).2 = true ∧
  size (readers (node st')) = 2 ∧
  inner (ros_context st') = inner (ros_context st) ∧
  (spinner (DP:=toy_participant (Some 7)) true st').2 = Err Panics.
Proof.
  intros st st'.
  pose proof (spinner_all_or_mute (DP:=toy_participant (Some 7)) true st eq_refl eq_refl) as H.
  assert (refused (spinner (DP:=toy_participant (Some 7)) true st).2 = true) as He
    by (vm_compute; reflexivity).
  assert (size (readers (node st')) = 2) as Hn by (vm_compute; reflexivity).
  split; [exact He|]. split; [exact Hn|]. unfold st'.
  destruct (spinner (DP:=toy_participant (Some 7)) true st) as [st2 [s|e]]; [discriminate He|].
  destruct (H []) as (_&Hc&Hp). simpl in *. split; [exact Hc|by rewrite Hp].
Defined.

(** The names of action.rs's comment; and a relative name in the root namespace
    does not meet the absolute name it stands for. *)
Lemma toy_accepting : accepting (DP:=toy_participant None).
Proof. split; [done|]. by split; intros. Qed.
Abbreviation toy_client abs st :=
  (create_action_client (DP:=toy_participant None) true Enhanced (rotate abs) rotate_type
    toy_client_qos st).
Abbreviation toy_server abs st :=
  (create_action_server (DP:=toy_participant None) true Enhanced (rotate abs) rotate_type
    toy_server_qos st).
Lemma dds_action_endpoints_meet_witness :
  (∃ st1 st2 c s, toy_client false (toy_state "/turtle1" "teleop") = (st1, Ok c) ∧
     toy_server false (toy_state "/turtle1" "turtlesim") = (st2, Ok s) ∧
     action_client_keys c = action_server_keys s) ∧
  ∀ st1 st2 c s, toy_client false (toy_state "/" "teleop") = (st1, Ok c) →
    toy_server true (toy_state "/" "turtlesim") = (st2, Ok s) →
    action_client_keys c ≠ action_server_keys s.
Proof.
  assert (∀ abs, wf_name (rotate abs)) as Hwf by (split; [reflexivity|constructor]).
  assert (wf_namespace (lit "/turtle1") [lit "turtle1"] ∧ wf_namespace (lit "/") []) as [Ht Hr]
    by (split; split; repeat constructor).
  assert (plain_action rotate_type) as Hty
    by (split; split; apply (bool_decide_unpack _); vm_compute; exact I).
  split.
  - destruct (dds_action_endpoints_meet (DP:=toy_participant None) true Enhanced Enhanced
      (rotate false) (rotate false) rotate_type rotate_type toy_client_qos toy_server_qos
      [lit "turtle1"] [lit "turtle1"] (toy_state "/turtle1" "teleop") (toy_state "/turtle1" "turtlesim")
      (Hwf _) Ht Hty (Hwf _) Ht Hty) as [Hok Hiff].
    destruct (Hok toy_accepting) as ((st1&c&Ec)%is_ok_inv&(st2&s&Es)%is_ok_inv&_).
    exists st1, st2, c, s. split; [exact Ec|]. split; [exact Es|].
    apply (Hiff st1 st2 c _ Ec (or_introl (ex_intro _ s (conj Es eq_refl)))).
    split; [split; reflexivity|]. split; reflexivity.
  - destruct (dds_action_endpoints_meet (DP:=toy_participant None) true Enhanced Enhanced
      (rotate false) (rotate true) rotate_type rotate_type toy_client_qos toy_server_qos
      [] [] (toy_state "/" "teleop") (toy_state "/" "turtlesim")
      (Hwf _) Hr Hty (Hwf _) Hr Hty) as [_ Hiff].
    intros st1 st2 c s Ec Es E.
    apply (Hiff st1 st2 c _ Ec (or_introl (ex_intro _ s (conj Es eq_refl)))) in E.
    destruct E as (_&_&E). discriminate E.
Defined.
