(* ===== verification/Spinner.v ===== *)
(** * The Spinner's event loop (node.rs: [Spinner::spin])

    The background task of a DDS node: a [select!] over the stop channel, the
    simulated clock, the six parameter services and two discovery streams, in a
    loop. One arm polls one stream and, when it yields, runs its body to the end;
    the handlers are those of ParamStore.v and Discovery.v, the streams and
    responses those of DdsService.v and PubSub.v. [select!] polls the arms in an
    order it chooses anew every time, which is an argument. *)
From S2P Require Import Prelude Params Time ParamStore Discovery DdsService PubSub.
#[local] Open Scope Z_scope.

(** RustDDS's stream of participant status events. *)
Class StatusStream (D E : Type) := { poll_status : D → D * Poll (option E) }.
(** It holds a queue, hands it out in order, and does not end. *)
Class StatusStreamLaws (D E : Type) `{!StatusStream D E} := {
  statuses : D → list E;
  status_none d : statuses d = [] →
    (poll_status d).2 = Pending ∧ statuses (poll_status d).1 = [];
  status_one d x l : statuses d = x :: l →
    (poll_status d).2 = Ready (Some x) ∧ statuses (poll_status d).1 = l;
}.

(** The receiving end of the stop channel: messages in it, and whether its
    senders are gone. *)
Record StopReceiver := { stops : nat; senders_gone : bool }.
Definition recv (r : StopReceiver) : StopReceiver * Poll (result unit unit) :=
  match stops r with
  | S n => ({| stops := n; senders_gone := senders_gone r |}, Ready (Ok tt))
  | O => (r, if senders_gone r then Ready (Err tt) else Pending)
  end.
(** [StreamExt::select_next_some]: an ended stream does not become ready. *)
Definition select_next_some {A} (p : Poll (option A)) : Poll A :=
  match p with Ready (Some a) => Ready a | _ => Pending end.

Section spinner.
Context `{RD : Rustdds, !CdrMessage BasicRequestHeader, !CdrMessage BasicReplyHeader,
          !CdrMessage CycloneHeader, !Countable GUID}.
Context `{!CdrMessage GetParametersRequest, !CdrMessage GetParametersResponse,
          !CdrMessage GetParameterTypesRequest, !CdrMessage GetParameterTypesResponse,
          !CdrMessage SetParametersRequest, !CdrMessage SetParametersResponse,
          !CdrMessage ListParametersRequest, !CdrMessage ListParametersResponse,
          !CdrMessage DescribeParametersRequest, !CdrMessage DescribeParametersResponse}.
(** The application's state behind the parameter callbacks; the readers and
    writers of the services, of the clock and of the discovery topic; the status
    stream; the listeners' channels. *)
Context {W WS DS DC DI DP Other C S : Type}.
Context `{!DataWriter WS ResponseWrapper, !SimpleDataReader DS RequestWrapper}.
Context `{!SimpleDataReader DC Time, !SimpleDataReader DI ParticipantEntitiesInfo}.
Context `{!StatusStream DP (DomainParticipantStatusEvent (GUID:=GUID) (Other:=Other))}.
Abbreviation Node := (ParamStore.Node W Timestamp).
Abbreviation Server := (Server (WS:=WS) (DS:=DS)).
Abbreviation NodeEvent := (NodeEvent (GUID:=GUID) (Other:=Other)).
Abbreviation Tables := (Tables (GUID:=GUID)).
Variable try_send : C → NodeEvent → S → S * SendOutcome.

(** ** State *)

Record ParameterServers := {
  get_parameters_server : Server;
  get_parameter_types_server : Server;
  list_parameters_server : Server;
  set_parameters_server : Server;
  set_parameters_atomically_server : Server;
  describe_parameters_server : Server;
}.
(** The struct's fields: what it shares with its [Node] (the parameters, flag,
    callbacks and options are [ParamStore.Node]; the matched endpoints and
    external nodes are [Tables]) and what it owns. *)
Record Spinner := {
  stop_spin_receiver : StopReceiver;
  sp_tables : Tables;
  status_event_senders : list C;
  channels : S;
  sim_time : ROSTime;
  sp_node : Node;
  parameter_servers : option ParameterServers;
}.
(** [spin]'s local variables. *)
Record SpinState := {
  self : Spinner;
  dds_status_stream : DP;
  ros_discovery_stream : DI;
  ros_clock_stream : DC;
}.
Definition with_self (x : Spinner) (st : SpinState) : SpinState :=
  {| self := x; dds_status_stream := dds_status_stream st;
     ros_discovery_stream := ros_discovery_stream st; ros_clock_stream := ros_clock_stream st |}.
Definition with_stop (r : StopReceiver) (x : Spinner) : Spinner :=
  {| stop_spin_receiver := r; sp_tables := sp_tables x;
     status_event_senders := status_event_senders x; channels := channels x;
     sim_time := sim_time x; sp_node := sp_node x; parameter_servers := parameter_servers x |}.
Definition with_tables (t : Tables) (x : Spinner) : Spinner :=
  {| stop_spin_receiver := stop_spin_receiver x; sp_tables := t;
     status_event_senders := status_event_senders x; channels := channels x;
     sim_time := sim_time x; sp_node := sp_node x; parameter_servers := parameter_servers x |}.
Definition with_senders (l : list C) (s : S) (x : Spinner) : Spinner :=
  {| stop_spin_receiver := stop_spin_receiver x; sp_tables := sp_tables x;
     status_event_senders := l; channels := s;
     sim_time := sim_time x; sp_node := sp_node x; parameter_servers := parameter_servers x |}.
Definition with_sim_time (t : ROSTime) (x : Spinner) : Spinner :=
  {| stop_spin_receiver := stop_spin_receiver x; sp_tables := sp_tables x;
     status_event_senders := status_event_senders x; channels := channels x;
     sim_time := t; sp_node := sp_node x; parameter_servers := parameter_servers x |}.
Definition with_node (n : Node) (x : Spinner) : Spinner :=
  {| stop_spin_receiver := stop_spin_receiver x; sp_tables := sp_tables x;
     status_event_senders := status_event_senders x; channels := channels x;
     sim_time := sim_time x; sp_node := n; parameter_servers := parameter_servers x |}.
Definition with_servers (s : option ParameterServers) (x : Spinner) : Spinner :=
  {| stop_spin_receiver := stop_spin_receiver x; sp_tables := sp_tables x;
     status_event_senders := status_event_senders x; channels := channels x;
     sim_time := sim_time x; sp_node := sp_node x; parameter_servers := s |}.

(** The six services, and the server of one. *)
Inductive service :=
| GetParameters | GetParameterTypes | SetParameters | SetParametersAtomically
| ListParameters | DescribeParameters.
#[export] Instance service_eq_dec : EqDecision service.
Proof. solve_decision. Defined.
Definition server_of (k : service) (ps : ParameterServers) : Server :=
  match k with
  | GetParameters => get_parameters_server ps
  | GetParameterTypes => get_parameter_types_server ps
  | SetParameters => set_parameters_server ps
  | SetParametersAtomically => set_parameters_atomically_server ps
  | ListParameters => list_parameters_server ps
  | DescribeParameters => describe_parameters_server ps
  end.
Definition with_server (k : service) (s : Server) (ps : ParameterServers) : ParameterServers :=
  let at_ k' := if decide (k = k') then s else server_of k' ps in
  {| get_parameters_server := at_ GetParameters;
     get_parameter_types_server := at_ GetParameterTypes;
     list_parameters_server := at_ ListParameters;
     set_parameters_server := at_ SetParameters;
     set_parameters_atomically_server := at_ SetParametersAtomically;
     describe_parameters_server := at_ DescribeParameters |}.

(** ** The arms of the [select!] *)

(** What polling an arm does: nothing is ready; its body ran; its body left the
    loop; its body panicked. *)
Inductive arm_result := NotReady | Handled | Break | Panicked.

Definition stop_arm (st : SpinState) : SpinState * arm_result :=
  let '(r, p) := recv (stop_spin_receiver (self st)) in
  (with_self (with_stop r (self st)) st, match p with Pending => NotReady | Ready _ => Break end).

Definition clock_arm (st : SpinState) : SpinState * arm_result :=
  let '(d, p) := sub_next (ros_clock_stream st) in
  let st := {| self := self st; dds_status_stream := dds_status_stream st;
               ros_discovery_stream := ros_discovery_stream st; ros_clock_stream := d |} in
  match select_next_some p with
  | Pending => (st, NotReady)
  | Ready (Ok (time, _)) => (with_self (with_sim_time (ROSTime_of_Time time) (self st)) st, Handled)
  | Ready (Err _) => (st, Handled)
  end.

(** One parameter service: [next_if_some] on its stream, its [handle]r over the
    node's parameters, and the response; a failed one is logged. *)
Definition service_arm {Req Resp} `{!CdrMessage Req, !CdrMessage Resp} (k : service)
    (handle : Req → Node → Node * Resp) (now : Timestamp) (st : SpinState) :
    SpinState * arm_result :=
  match parameter_servers (self st) with
  | None => (st, NotReady)
  | Some ps =>
      let '(s, p) := next_request (server_of k ps) in
      let st := with_self (with_servers (Some (with_server k s ps)) (self st)) st in
      match select_next_some p with
      | Pending => (st, NotReady)
      | Ready (Err _) => (st, Handled)
      | Ready (Ok (req_id, req)) =>
          let '(n, resp) := handle req (sp_node (self st)) in
          let st := with_self (with_node n (self st)) st in
          match parameter_servers (self st) with
          | None => (st, Panicked)
          | Some ps =>
              let '(s, _) := async_send_response now req_id resp (server_of k ps) in
              (with_self (with_servers (Some (with_server k s ps)) (self st)) st, Handled)
          end
      end
  end.

(** [send_status_event]; [None] would be the panic of [swap_remove]. *)
Definition notify (e : NodeEvent) (st : SpinState) : SpinState * arm_result :=
  match Discovery.send_status_event (λ c, try_send c e) (status_event_senders (self st))
          (channels (self st)) with
  | (Some kept, s) => (with_self (with_senders kept s (self st)) st, Handled)
  | (None, s) => (with_self (with_senders (status_event_senders (self st)) s (self st)) st, Panicked)
  end.
Definition discovery_arm (st : SpinState) : SpinState * arm_result :=
  let '(d, p) := sub_next (ros_discovery_stream st) in
  let st := {| self := self st; dds_status_stream := dds_status_stream st;
               ros_discovery_stream := d; ros_clock_stream := ros_clock_stream st |} in
  match select_next_some p with
  | Pending => (st, NotReady)
  | Ready (Ok (part_update, _)) =>
      let st := with_self (with_tables (on_event (ROS part_update : NodeEvent) (sp_tables (self st))) (self st)) st in
      notify (ROS part_update) st
  | Ready (Err _) => (st, Handled)
  end.
Definition status_arm (st : SpinState) : SpinState * arm_result :=
  let '(d, p) := poll_status (dds_status_stream st) in
  let st := {| self := self st; dds_status_stream := d;
               ros_discovery_stream := ros_discovery_stream st;
               ros_clock_stream := ros_clock_stream st |} in
  match select_next_some p with
  | Pending => (st, NotReady)
  | Ready dp_status_event =>
      let st := with_self (with_tables (on_event (DDS dp_status_event) (sp_tables (self st)))
                             (self st)) st in
      notify (DDS dp_status_event) st
  end.

Inductive arm := StopArm | ClockArm | ServiceArm (k : service) | DiscoveryArm | StatusArm.
#[export] Instance arm_eq_dec : EqDecision arm.
Proof. solve_decision. Defined.
Definition all_arms : list arm :=
  [StopArm; ClockArm; ServiceArm GetParameters; ServiceArm GetParameterTypes;
   ServiceArm SetParameters; ServiceArm SetParametersAtomically; ServiceArm ListParameters;
   ServiceArm DescribeParameters; DiscoveryArm; StatusArm].

Definition poll_service (now : Timestamp) (k : service) : SpinState → SpinState * arm_result :=
  match k with
  | GetParameters => service_arm k (λ req n, (n, spinner_get_parameters now req n)) now
  | GetParameterTypes => service_arm k (λ req n, (n, spinner_get_parameter_types now req n)) now
  | SetParameters => service_arm k (spinner_set_parameters now) now
  | SetParametersAtomically =>
      service_arm k (λ req n, (n, spinner_set_parameters_atomically req)) now
  | ListParameters => service_arm k (λ req n, (n, spinner_list_parameters now req n)) now
  | DescribeParameters => service_arm k (λ req n, (n, spinner_describe_parameters now req n)) now
  end.
Definition poll_arm (now : Timestamp) (a : arm) : SpinState → SpinState * arm_result :=
  match a with
  | StopArm => stop_arm
  | ClockArm => clock_arm
  | ServiceArm k => poll_service now k
  | DiscoveryArm => discovery_arm
  | StatusArm => status_arm
  end.

(** [select!]: the arms are polled in some [order] until one is ready. *)
Fixpoint select (now : Timestamp) (order : list arm) (st : SpinState) : SpinState * arm_result :=
  match order with
  | [] => (st, NotReady)
  | a :: order =>
      match poll_arm now a st with
      | (st, NotReady) => select now order st
      | r => r
      end
  end.

(** One poll of the task: the loop runs until nothing is ready, a [break] or a
    panic. The [i]th [select!] polls in the order [order i], at time [now i];
    [None] needs more [fuel]. *)
Inductive spin_result := Suspended | Finished | Crashed.
Fixpoint spin_loop (order : nat → list arm) (now : nat → Timestamp) (fuel i : nat)
    (st : SpinState) : option (SpinState * spin_result) :=
  match fuel with
  | O => None
  | Datatypes.S fuel =>
      match select (now i) (order i) st with
      | (st, NotReady) => Some (st, Suspended)
      | (st, Handled) => spin_loop order now fuel (Datatypes.S i) st
      | (st, Break) => Some (st, Finished)
      | (st, Panicked) => Some (st, Crashed)
      end
  end.
(** [spin]: the streams, or the error of creating one, and the loop. *)
Definition spin {E} (order : nat → list arm) (now : nat → Timestamp) (fuel : nat) (x : Spinner)
    (dds_status : DP) (ros_discovery : result E DI) (ros_clock : result E DC) :
    result E (option (SpinState * spin_result)) :=
  ros_discovery_reader ← ros_discovery;
  ros_clock_reader ← ros_clock;
  Ok (spin_loop order now fuel 0
        {| self := x; dds_status_stream := dds_status;
           ros_discovery_stream := ros_discovery_reader; ros_clock_stream := ros_clock_reader |}).
End spinner.

(** ** Specification: what the loop is meant to do, without its streams *)
Section spec.
Context `{RD : Rustdds, !CdrMessage BasicRequestHeader, !CdrMessage BasicReplyHeader,
          !CdrMessage CycloneHeader, !Countable GUID}.
Context `{!CdrMessage GetParametersRequest, !CdrMessage GetParametersResponse,
          !CdrMessage GetParameterTypesRequest, !CdrMessage GetParameterTypesResponse,
          !CdrMessage SetParametersRequest, !CdrMessage SetParametersResponse,
          !CdrMessage ListParametersRequest, !CdrMessage ListParametersResponse,
          !CdrMessage DescribeParametersRequest, !CdrMessage DescribeParametersResponse}.
Context {W WS DS DC DI DP Other C S : Type}.
Context `{!DataWriter WS ResponseWrapper, !SimpleDataReader DS RequestWrapper}.
Context `{!SimpleDataReader DC Time, !SimpleDataReader DI ParticipantEntitiesInfo}.
Context `{!StatusStream DP (DomainParticipantStatusEvent (GUID:=GUID) (Other:=Other))}.
Context `{!SimpleDataReaderLaws DS RequestWrapper, !SimpleDataReaderLaws DC Time,
          !SimpleDataReaderLaws DI ParticipantEntitiesInfo}.
Context `{!StatusStreamLaws DP (DomainParticipantStatusEvent (GUID:=GUID) (Other:=Other))}.
Abbreviation Node := (ParamStore.Node W Timestamp).
Abbreviation Server := (Server (WS:=WS) (DS:=DS)).
Abbreviation NodeEvent := (NodeEvent (GUID:=GUID) (Other:=Other)).
Abbreviation Tables := (Tables (GUID:=GUID)).
Abbreviation SpinState := (SpinState (W:=W) (WS:=WS) (DS:=DS) (DC:=DC) (DI:=DI) (DP:=DP) (C:=C) (S:=S)).
Variable try_send : C → NodeEvent → S → S * SendOutcome.
Implicit Types st : SpinState.

(** What can arrive. *)
Inductive event :=
| EClock (r : result ReadError (Time * MessageInfo))
| EGetParameters (r : result ReadError (RmwRequestId * GetParametersRequest))
| EGetParameterTypes (r : result ReadError (RmwRequestId * GetParameterTypesRequest))
| ESetParameters (r : result ReadError (RmwRequestId * SetParametersRequest))
| ESetParametersAtomically (r : result ReadError (RmwRequestId * SetParametersRequest))
| EListParameters (r : result ReadError (RmwRequestId * ListParametersRequest))
| EDescribeParameters (r : result ReadError (RmwRequestId * DescribeParametersRequest))
| EDiscovery (r : result ReadError (ParticipantEntitiesInfo * MessageInfo))
| EStatus (e : DomainParticipantStatusEvent (GUID:=GUID) (Other:=Other)).
Definition arm_of (e : event) : arm :=
  match e with
  | EClock _ => ClockArm
  | EGetParameters _ => ServiceArm GetParameters
  | EGetParameterTypes _ => ServiceArm GetParameterTypes
  | ESetParameters _ => ServiceArm SetParameters
  | ESetParametersAtomically _ => ServiceArm SetParametersAtomically
  | EListParameters _ => ServiceArm ListParameters
  | EDescribeParameters _ => ServiceArm DescribeParameters
  | EDiscovery _ => DiscoveryArm
  | EStatus _ => StatusArm
  end.

Definition service_events (k : service) (s : Server) : list event :=
  match k with
  | GetParameters => EGetParameters <$> requests s
  | GetParameterTypes => EGetParameterTypes <$> requests s
  | SetParameters => ESetParameters <$> requests s
  | SetParametersAtomically => ESetParametersAtomically <$> requests s
  | ListParameters => EListParameters <$> requests s
  | DescribeParameters => EDescribeParameters <$> requests s
  end.
(** What has arrived for an arm and was not handled yet. *)
Definition pending (a : arm) st : list event :=
  match a with
  | StopArm => []
  | ClockArm => EClock <$> messages (ros_clock_stream st)
  | ServiceArm k =>
      match parameter_servers (self st) with
      | Some ps => service_events k (server_of k ps)
      | None => []
      end
  | DiscoveryArm => EDiscovery <$> messages (ros_discovery_stream st)
  | StatusArm => EStatus <$> statuses (dds_status_stream st)
  end.
Definition stop_requested st : Prop :=
  stops (stop_spin_receiver (self st)) ≠ 0%nat ∨ senders_gone (stop_spin_receiver (self st)) = true.
Definition total_pending st : nat := list_sum ((λ a, length (pending a st)) <$> all_arms).

(** The part of the state the streams have no share in; the response writers by
    their service. *)
Record Core := {
  c_tables : Tables;
  c_senders : list C;
  c_channels : S;
  c_sim_time : ROSTime;
  c_node : Node;
  c_writers : service → ServiceMapping * WS;
}.
Definition represents st (c : Core) : Prop :=
  c_tables c = sp_tables (self st) ∧ c_senders c = status_event_senders (self st) ∧
  c_channels c = channels (self st) ∧ c_sim_time c = sim_time (self st) ∧
  c_node c = sp_node (self st) ∧
  ∀ ps, parameter_servers (self st) = Some ps → ∀ k,
    c_writers c k = (srv_service_mapping (server_of k ps), response_sender (server_of k ps)).

(** A service answers a request: the handler's effect on the parameters, and its
    response written for the request's id. *)
Definition answer {Req Resp} `{!CdrMessage Resp} (k : service)
    (handle : Req → Node → Node * Resp) (now : Timestamp)
    (r : result ReadError (RmwRequestId * Req)) (c : Core) : Core :=
  match r with
  | Err _ => c
  | Ok (id, req) =>
      let '(n, resp) := handle req (c_node c) in
      {| c_tables := c_tables c; c_senders := c_senders c; c_channels := c_channels c;
         c_sim_time := c_sim_time c; c_node := n;
         c_writers := λ k', if decide (k = k') then written async_write_with_options now id resp (c_writers c k)
                            else c_writers c k' |}
  end.
(** A discovery event is recorded, then offered to the listeners. *)
Definition record_event (e : NodeEvent) (c : Core) : option Core :=
  let '(kept, s) := Discovery.send_status_event (λ ch, try_send ch e) (c_senders c) (c_channels c) in
  kept ← kept;
  Some {| c_tables := on_event e (c_tables c); c_senders := kept; c_channels := s;
          c_sim_time := c_sim_time c; c_node := c_node c; c_writers := c_writers c |}.
Definition react (now : Timestamp) (e : event) (c : Core) : option Core :=
  match e with
  | EClock (Ok (t, _)) =>
      Some {| c_tables := c_tables c; c_senders := c_senders c; c_channels := c_channels c;
              c_sim_time := ROSTime_of_Time t; c_node := c_node c; c_writers := c_writers c |}
  | EClock (Err _) | EDiscovery (Err _) => Some c
  | EGetParameters r =>
      Some (answer GetParameters (λ req n, (n, spinner_get_parameters now req n)) now r c)
  | EGetParameterTypes r =>
      Some (answer GetParameterTypes (λ req n, (n, spinner_get_parameter_types now req n)) now r c)
  | ESetParameters r => Some (answer SetParameters (spinner_set_parameters now) now r c)
  | ESetParametersAtomically r =>
      Some (answer SetParametersAtomically
              (λ req n, (n, spinner_set_parameters_atomically req)) now r c)
  | EListParameters r =>
      Some (answer ListParameters (λ req n, (n, spinner_list_parameters now req n)) now r c)
  | EDescribeParameters r =>
      Some (answer DescribeParameters (λ req n, (n, spinner_describe_parameters now req n)) now r c)
  | EDiscovery (Ok (p, _)) => record_event (ROS p) c
  | EStatus e => record_event (DDS e) c
  end.
(** The [i]th event of a list is handled at time [now i]. *)
Fixpoint reacts (now : nat → Timestamp) (i : nat) (es : list event) (c : Core) : option Core :=
  match es with
  | [] => Some c
  | e :: es => c ← react (now i) e c; reacts now (Datatypes.S i) es c
  end.

(** ** Lemmas *)

(** *** One arm *)

(** What polling an arm does to a state: nothing but waiting, or handling the
    first thing that had arrived for it. *)
Definition waits (st st' : SpinState) : Prop :=
  (∀ a, pending a st' = pending a st) ∧ (∀ c, represents st c → represents st' c) ∧
  stop_spin_receiver (self st') = stop_spin_receiver (self st).
Definition handles (now : Timestamp) (a : arm) (e : event) (st st' : SpinState) : Prop :=
  arm_of e = a ∧ pending a st = e :: pending a st' ∧
  (∀ b, b ≠ a → pending b st' = pending b st) ∧
  (∀ c, represents st c → ∃ c', react now e c = Some c' ∧ represents st' c') ∧
  stop_spin_receiver (self st') = stop_spin_receiver (self st).
Definition arm_spec (now : Timestamp) (a : arm) (st : SpinState) (o : SpinState * arm_result) : Prop :=
  match o.2 with
  | NotReady => pending a st = [] ∧ waits st o.1
  | Handled => ∃ e, handles now a e st o.1
  | Break | Panicked => False
  end.

Lemma clock_arm_spec now st : arm_spec now ClockArm st (clock_arm st).
Proof.
  unfold clock_arm, arm_spec. destruct (sub_next_spec (ros_clock_stream st)) as [H1 H2].
  destruct (sub_next _) as [d p]. simpl in *.
  destruct (messages (ros_clock_stream st)) as [|x l] eqn:Hm; subst p; simpl.
  - split; [done|]. split_and!; [|done|done]. intros []; simpl; try done. by rewrite H2, Hm.
  - destruct x as [[t mi]|e]; simpl; eexists (EClock _);
      (split_and!; [done|simpl; by rewrite Hm, H2|by intros []|intros c Hc|done]);
      (eexists; split; [done|]); [|exact Hc].
    by destruct Hc as (?&?&?&?&?&?); split_and!.
Qed.

Lemma server_of_with k k' (s : Server) ps :
  server_of k' (with_server k s ps) = if decide (k = k') then s else server_of k' ps.
Proof. by destruct k'. Qed.
(** Replacing the server of one service, the streams aside. *)
Definition replaces (k : service) (s : Server) (st st' : SpinState) : Prop :=
  (∃ ps ps', parameter_servers (self st) = Some ps ∧ parameter_servers (self st') = Some ps' ∧
     ∀ k', server_of k' ps' = if decide (k = k') then s else server_of k' ps) ∧
  ros_clock_stream st' = ros_clock_stream st ∧
  ros_discovery_stream st' = ros_discovery_stream st ∧
  dds_status_stream st' = dds_status_stream st ∧
  stop_spin_receiver (self st') = stop_spin_receiver (self st).
Lemma replaces_pending k s st st' b :
  replaces k s st st' →
  pending b st' = if decide (b = ServiceArm k) then service_events k s else pending b st.
Proof.
  intros ((ps & ps' & Hps & Hps' & Hs) & Hc & Hd & Hst & _).
  destruct b as [| |k'| |]; simpl; rewrite ?Hc, ?Hd, ?Hst, ?Hps, ?Hps'; try done.
  rewrite Hs. destruct (decide (k = k')) as [->|Hk]; [by rewrite decide_True|].
  rewrite decide_False; [done|]. by intros [= ->].
Qed.
Lemma replaces_represents k s st st' c c' :
  replaces k s st st' → represents st c →
  c_tables c' = sp_tables (self st') → c_senders c' = status_event_senders (self st') →
  c_channels c' = channels (self st') → c_sim_time c' = sim_time (self st') →
  c_node c' = sp_node (self st') →
  c_writers c' k = (srv_service_mapping s, response_sender s) →
  (∀ k', k' ≠ k → c_writers c' k' = c_writers c k') →
  represents st' c'.
Proof.
  intros ((ps & ps' & Hps & Hps' & Hs) & _) (_&_&_&_&_&Hw) ????? Hk Hk'. split_and!; [done..|].
  intros qs. rewrite Hps'. intros [= <-] k'. rewrite Hs.
  destruct (decide (k = k')) as [<-|]; [done|]. rewrite Hk' by done. by apply Hw.
Qed.

(** The six parameter services, alike. *)
Lemma service_arm_spec {Req Resp} `{!CdrMessage Req, !CdrMessage Resp} k
    (handle : Req → Node → Node * Resp) now (inj : result ReadError (RmwRequestId * Req) → event) st :
  (∀ s, service_events k s = inj <$> requests s) →
  (∀ r, arm_of (inj r) = ServiceArm k) →
  (∀ r c, react now (inj r) c = Some (answer k handle now r c)) →
  arm_spec now (ServiceArm k) st (service_arm k handle now st).
Proof.
  intros Hev Harm Hreact. unfold service_arm, arm_spec.
  destruct (parameter_servers (self st)) as [ps|] eqn:Hps;
    [|by simpl; rewrite Hps; split_and!].
  assert (pending (ServiceArm k) st = inj <$> requests (server_of k ps)) as Hst
    by (simpl; by rewrite Hps, Hev).
  destruct (next_request_spec (Req:=Req) (server_of k ps)) as (H1 & H2 & H3 & H4).
  destruct (next_request (server_of k ps)) as [s p]. simpl in H1, H2, H3, H4.
  set (st1 := with_self _ st).
  assert (replaces k s st st1) as Hr1
    by (by split; [eexists ps, _; split_and!; [done..|intros; apply server_of_with]|]).
  assert (∀ c, represents st c → represents st1 c) as Hc1.
  { intros c Hc. pose proof Hc as (?&?&?&?&?&Hw).
    eapply (replaces_represents _ _ _ _ c c Hr1 Hc); try done. by rewrite (Hw _ Hps), H3, H4. }
  pose proof (λ b, replaces_pending k s st st1 b Hr1) as Hp1.
  destruct (requests (server_of k ps)) as [|[[id req]|e] l]; subst p; simpl in H2 |- *.
  - split; [exact Hst|]. split_and!; [|done|done]. intros b. rewrite Hp1.
    case_decide; [|done]. subst b. by rewrite Hev, H2, Hst.
  - destruct (handle req (sp_node (self st))) as [n resp] eqn:Hh.
    rewrite server_of_with, decide_True by done.
    destruct (async_send_response_spec now id resp s) as (Ha & Hm & Hb).
    destruct (async_send_response now id resp s) as [s2 w]. simpl in Ha, Hm, Hb.
    set (st2 := with_self _ _). simpl.
    assert (replaces k s2 st st2) as Hr2.
    { split; [|done]. eexists ps, _. split_and!; [done..|]. intros k'.
      rewrite !server_of_with. by case_decide. }
    pose proof (λ b, replaces_pending k s2 st st2 b Hr2) as Hp2.
    exists (inj (Ok (id, req))). split_and!; [done| | | |done].
    + rewrite Hp2, decide_True, Hst, Hev by done. simpl. by rewrite (requests_same s), H2 by congruence.
    + intros b Hb'. by rewrite Hp2, decide_False.
    + intros c Hc. rewrite Hreact. eexists. split; [done|]. simpl.
      pose proof Hc as (H5&H6&H7&H8&H9&Hw). rewrite H9, Hh.
      eapply (replaces_represents _ _ _ _ c _ Hr2 Hc); try done; simpl.
      * by rewrite decide_True, (Hw _ Hps), <-H3, <-H4 by done.
      * intros k' Hk. by rewrite decide_False by congruence.
  - exists (inj (Err e)). split_and!; [done| | | |done].
    + by rewrite Hp1, decide_True, Hst, Hev, H2 by done.
    + intros b Hb. by rewrite Hp1, decide_False.
    + intros c Hc. rewrite Hreact. eauto.
Qed.
Lemma poll_service_spec now k st : arm_spec now (ServiceArm k) st (poll_service now k st).
Proof. destruct k; by eapply service_arm_spec. Qed.

(** The two discovery streams. *)
Lemma notify_spec (e : NodeEvent) st :
  ∃ kept s, notify try_send e st = (with_self (with_senders kept s (self st)) st, Handled) ∧
    Discovery.send_status_event (λ c, try_send c e) (status_event_senders (self st))
      (channels (self st)) = (Some kept, s).
Proof.
  destruct (send_status_event_kept (λ c, try_send c e) (status_event_senders (self st))
              (channels (self st))) as (kept & H & _).
  unfold notify. rewrite H. eauto.
Qed.
Lemma discovery_arm_spec now st : arm_spec now DiscoveryArm st (discovery_arm try_send st).
Proof.
  unfold discovery_arm, arm_spec. destruct (sub_next_spec (ros_discovery_stream st)) as [H1 H2].
  destruct (sub_next _) as [d p]. simpl in *.
  destruct (messages (ros_discovery_stream st)) as [|[[u mi]|e] l] eqn:Hm; subst p; simpl.
  - split; [done|]. split_and!; [|done|done]. intros []; simpl; try done. by rewrite H2, Hm.
  - match goal with |- context [notify _ ?e ?x] =>
      destruct (notify_spec e x) as (kept & s & -> & Hs) end.
    exists (EDiscovery (Ok (u, mi))).
    split_and!; [done|simpl; by rewrite Hm, H2|by intros []|intros c Hc|done].
    destruct Hc as (Ht & Hse & Hch & ? & ? & ?). simpl. unfold record_event.
    rewrite Hse, Hch. simpl in Hs. rewrite Hs. simpl. eexists. split; [done|].
    split_and!; simpl; try done. by rewrite Ht.
  - exists (EDiscovery (Err e)).
    split_and!; [done|simpl; by rewrite Hm, H2|by intros []|intros c Hc|done]. simpl. eauto.
Qed.
Lemma status_arm_spec now st : arm_spec now StatusArm st (status_arm try_send st).
Proof.
  unfold status_arm, arm_spec. destruct (statuses (dds_status_stream st)) as [|u l] eqn:Hm.
  - destruct (status_none _ Hm) as [H1 H2]. destruct (poll_status _) as [d p]. simpl in *; subst p.
    simpl. rewrite Hm. split; [done|]. split_and!; [|done|done].
    intros []; simpl; try done. by rewrite H2, Hm.
  - destruct (status_one _ _ _ Hm) as [H1 H2]. destruct (poll_status _) as [d p]. simpl in *; subst p.
    simpl. match goal with |- context [notify _ ?e ?x] =>
      destruct (notify_spec e x) as (kept & s & -> & Hs) end.
    exists (EStatus u).
    split_and!; [done|simpl; by rewrite Hm, H2|by intros []|intros c Hc|done].
    destruct Hc as (Ht & Hse & Hch & ? & ? & ?). simpl. unfold record_event.
    rewrite Hse, Hch. simpl in Hs. rewrite Hs. simpl. eexists. split; [done|].
    split_and!; simpl; try done. by rewrite Ht.
Qed.
Lemma poll_arm_spec now a st : a ≠ StopArm → arm_spec now a st (poll_arm try_send now a st).
Proof.
  destruct a; [done|intros _..];
    [apply clock_arm_spec|apply poll_service_spec|apply discovery_arm_spec|apply status_arm_spec].
Qed.

(** *** The [select!] *)

(** Leaving the loop changes the stop channel only. *)
Definition leaves (st st' : SpinState) : Prop :=
  (∀ a, pending a st' = pending a st) ∧ (∀ c, represents st c → represents st' c).
Definition select_spec (now : Timestamp) (order : list arm) (st : SpinState)
    (o : SpinState * arm_result) : Prop :=
  match o.2 with
  | NotReady => (∀ a, a ∈ order → pending a st = []) ∧
                (StopArm ∈ order → ¬ stop_requested st) ∧ waits st o.1
  | Handled => ∃ a e, handles now a e st o.1
  | Break => stop_requested st ∧ leaves st o.1
  | Panicked => False
  end.
Lemma waits_refl st : waits st st.
Proof. done. Qed.
Lemma stop_arm_spec st :
  let o := stop_arm st in
  (stop_requested st ∧ o.2 = Break ∧ leaves st o.1) ∨
  (¬ stop_requested st ∧ o.2 = NotReady ∧ waits st o.1).
Proof.
  unfold stop_arm, recv, stop_requested. destruct (stop_spin_receiver (self st)) as [[|n] g] eqn:Hr.
  - simpl. destruct g; [left; split; [by right|]; by split|right]. simpl.
    split; [by intros [|]|]. split; [done|]. split_and!; [by intros []|done|by rewrite Hr].
  - left. simpl. split; [by left|]. split; [done|]. split; [by intros []|done].
Qed.
Lemma waits_stop st st' : waits st st' → stop_requested st' → stop_requested st.
Proof. intros (_ & _ & H). unfold stop_requested. by rewrite H. Qed.
Lemma waits_handles now a e st st1 st2 :
  waits st st1 → handles now a e st1 st2 → handles now a e st st2.
Proof.
  intros (Hp & Hc & Hr) (Ha & Hh & Ho & Hx & Hr2). split_and!; [done|by rewrite <-Hp| |by auto|congruence].
  intros b Hb. rewrite Ho by done. apply Hp.
Qed.
Lemma select_spec_cons now a order st st1 o :
  pending a st = [] → (a = StopArm → ¬ stop_requested st) → waits st st1 →
  select_spec now order st1 o → select_spec now (a :: order) st o.
Proof.
  intros Ha Hs Hw. pose proof Hw as (Hp & Hc & Hr). unfold select_spec.
  destruct o as [st' []]; simpl; [|intros (b & e & H)|intros [H [H1 H2]]|done].
  - intros (He & Hst & Hp' & Hc' & Hr'). refine (conj _ (conj _ (conj _ (conj _ _)))).
    + intros b [->|Hb]%elem_of_cons; [done|]. rewrite <-Hp. by apply He.
    + intros [<-|Hb]%elem_of_cons; [by apply Hs|].
      unfold stop_requested in *. rewrite Hr in Hst. by apply Hst.
    + intros b. by rewrite Hp', Hp.
    + auto.
    + congruence.
  - exists b, e. by eapply waits_handles.
  - split; [by eapply waits_stop|]. split; [intros b; by rewrite H1, Hp|auto].
Qed.
Lemma select_arms now order st : select_spec now order st (select try_send now order st).
Proof.
  revert st. induction order as [|a order IH]; intros st.
  { split_and!; [by intros a ?%elem_of_nil|by intros ?%elem_of_nil|apply waits_refl]. }
  simpl. destruct (decide (a = StopArm)) as [->|Ha].
  - simpl. destruct (stop_arm_spec st) as [(Hs & H1 & H2)|(Hs & H1 & Hw)];
      destruct (stop_arm st) as [st1 r]; simpl in *; subst r; [by split|].
    by eapply select_spec_cons.
  - pose proof (poll_arm_spec now a st Ha) as Hspec.
    destruct (poll_arm try_send now a st) as [st1 []]; unfold arm_spec in Hspec; simpl in *; try done.
    + destruct Hspec as [Hp Hw]. by eapply select_spec_cons.
    + destruct Hspec as [e He]. by exists a, e.
Qed.

(** *** The loop *)
Lemma handles_pending now a e st st' b :
  handles now a e st st' → pending b st = (if decide (arm_of e = b) then [e] else []) ++ pending b st'.
Proof.
  intros (Ha & Hp & Ho & _). case_decide as H; [by rewrite <-H, Ha|].
  symmetry. apply Ho. by rewrite <-Ha.
Qed.
Lemma handles_total now a e st st' :
  handles now a e st st' → total_pending st = Datatypes.S (total_pending st').
Proof.
  intros H. unfold total_pending.
  assert (∀ l, list_sum ((λ b, length (pending b st)) <$> l) =
    list_sum ((λ b, if decide (arm_of e = b) then 1 else 0) <$> l) +
    list_sum ((λ b, length (pending b st')) <$> l))%nat as ->; [|by destruct e].
  induction l as [|b l IH]; [done|]. rewrite !fmap_cons. simpl list_sum.
  rewrite (handles_pending now a e st st' b H), length_app, IH. case_decide; simpl; lia.
Qed.

Lemma spin_loop_spec order now :
  (∀ i, order i ≡ₚ all_arms) → ∀ fuel i st c,
  (total_pending st < fuel)%nat → represents st c →
  ∃ st' o handled c', spin_loop try_send order now fuel i st = Some (st', o) ∧
    (length handled <= total_pending st)%nat ∧
    (∀ a, pending a st = filter (λ e, arm_of e = a) handled ++ pending a st') ∧
    reacts now i handled c = Some c' ∧ represents st' c' ∧
    match o with
    | Finished => stop_requested st
    | Suspended => ¬ stop_requested st ∧ ∀ a, pending a st' = []
    | Crashed => False
    end.
Proof.
  intros Hord. induction fuel as [|fuel IH]; intros i st c Hf Hc; [lia|]. simpl.
  pose proof (select_arms (now i) (order i) st) as Hs. unfold select_spec in Hs.
  destruct (select try_send (now i) (order i) st) as [st1 []]; simpl in Hs.
  - destruct Hs as (He & Hns & Hp & Hc1 & _).
    assert (∀ a, a ∈ order i) as Hall by (intros a; rewrite (Hord i); by destruct a as [| |[]| |]; set_solver).
    exists st1, Suspended, [], c. split_and!; [done|simpl; lia|intros a; by rewrite Hp|done|auto|auto|].
    intros a. rewrite Hp. auto.
  - destruct Hs as (a & e & Hh). pose proof Hh as (_ & _ & _ & Hx & Hr).
    destruct (Hx c Hc) as (c1 & Hr1 & Hc1). pose proof (handles_total _ _ _ _ _ Hh) as Ht.
    destruct (IH (Datatypes.S i) st1 c1) as (st' & o & l & c' & Hl & Hn & Hp & Hrs & Hc' & Ho); [lia|done|].
    exists st', o, (e :: l), c'. split_and!; [done|simpl; lia| |simpl; by rewrite Hr1|done|].
    + intros b. rewrite (handles_pending _ _ _ _ _ b Hh), Hp, filter_cons.
      by case_decide.
    + unfold stop_requested in *. by rewrite Hr in Ho.
  - destruct Hs as (Hs & Hp & Hc1).
    exists st1, Finished, [], c. split_and!; [done|simpl; lia|intros a; by rewrite Hp|done|auto|done].
  - done.
Qed.

(** C12: One poll of the Spinner's task ends, however [select!] orders the arms
    and whatever has arrived: after at most as many rounds as there are messages
    waiting. It ends in one of two ways. If the stop channel has a message or
    lost its senders, [spin] returns; otherwise it is suspended with everything
    that had arrived handled. It never panics. What it did up to then is to
    handle some of the waiting messages one after the other, those of one stream
    in their order and without leaving one out: the parameters, the responses
    written, the simulated time, the matched endpoints and the listeners are the
    result of these reactions. An error while the streams are created is
    returned before anything else happens. *)
Theorem spin_terminates {E} order now fuel x dds_status ros_discovery ros_clock c :
  (∀ i, order i ≡ₚ all_arms) →
  let st := {| self := x; dds_status_stream := dds_status; ros_discovery_stream := ros_discovery;
               ros_clock_stream := ros_clock |} in
  represents st c → (total_pending st < fuel)%nat →
  (∀ (e : E) r, spin try_send order now fuel x dds_status (Err e) r = Err e ∧
     spin try_send order now fuel x dds_status (Ok ros_discovery) (Err e) = Err e) ∧
  ∃ st' o handled c',
    spin (E:=E) try_send order now fuel x dds_status (Ok ros_discovery) (Ok ros_clock) = Ok (Some (st', o)) ∧
    (length handled <= total_pending st)%nat ∧
    (∀ a, pending a st = filter (λ e, arm_of e = a) handled ++ pending a st') ∧
    reacts now 0 handled c = Some c' ∧ represents st' c' ∧
    match o with
    | Finished => stop_requested st
    | Suspended => ¬ stop_requested st ∧ ∀ a, pending a st' = []
    | Crashed => False
    end.
Proof.
  intros Hord st Hc Hfuel. split; [done|]. unfold spin. simpl. fold st. clearbody st.
  destruct (spin_loop_spec order now Hord fuel 0 st c Hfuel Hc)
    as (st' & o & handled & c' & -> & H). by exists st', o, handled, c'.
Qed.
End spec.

(** ** A concrete instance *)
#[local] Existing Instances toy_rustdds toy_basic_request toy_basic_reply toy_cyclone
  toy_writer toy_reader toy_reader_laws.
(** A codec that reads [m] off any non-empty body. *)
Definition toy_reads {M : Type} (m : M) : CdrMessage M := {|
  to_writer_with_rep_id _ _ := Ok [1];
  deserialize_from_cdr_with_rep_id b _ :=
    match b with _ :: _ => Ok (m, 1%nat) | [] => Err (OtherReadError 0) end |}.
#[local] Instance toy_codec_1 : CdrMessage GetParametersRequest :=
  toy_reads {| gp_names := [USE_SIM_TIME] |}.
#[local] Instance toy_codec_2 : CdrMessage GetParametersResponse := toy_reads {| gp_values := [] |}.
#[local] Instance toy_codec_3 : CdrMessage GetParameterTypesRequest := toy_reads {| gt_names := [] |}.
#[local] Instance toy_codec_4 : CdrMessage GetParameterTypesResponse := toy_reads {| gt_values := [] |}.
#[local] Instance toy_codec_5 : CdrMessage SetParametersRequest := toy_reads {| parameter := [] |}.
#[local] Instance toy_codec_6 : CdrMessage SetParametersResponse := toy_reads {| results := [] |}.
#[local] Instance toy_codec_7 : CdrMessage ListParametersRequest :=
  toy_reads {| prefixes := []; depth := 0%N |}.
#[local] Instance toy_codec_8 : CdrMessage ListParametersResponse :=
  toy_reads {| lr_result := {| lr_names := []; lr_prefixes := [] |} |}.
#[local] Instance toy_codec_9 : CdrMessage DescribeParametersRequest := toy_reads {| dp_names := [] |}.
#[local] Instance toy_codec_10 : CdrMessage DescribeParametersResponse :=
  toy_reads {| dp_values := [] |}.
#[local] Instance toy_statuses {E : Type} : StatusStream (list E) E := {|
  poll_status d := match d with [] => ([], Pending) | x :: d => (d, Ready (Some x)) end |}.
#[local] Instance toy_statuses_laws {E : Type} : StatusStreamLaws (list E) E.
Proof. refine {| statuses := λ d, d |}; first [by intros ? -> | by intros ? ? ? ->]. Defined.
#[local] Instance toy_guid_countable : Countable (@GUID toy_rustdds) := Z_countable.

Definition toy_endpoint (n : nat) : DdsService.Server (WS:=list (ResponseWrapper * WriteOptions))
    (DS:=list (result ReadError (DeserializedCacheChange RequestWrapper))) :=
  {| srv_service_mapping := Enhanced; response_sender := [];
     request_receiver := repeat (Ok {|
       dcc_source_timestamp := None; dcc_sequence_number := 5; dcc_writer_guid := toy_guid 7;
       dcc_related_sample_identity := None;
       into_value := RequestWrapper_from_bytes_and_ri [1] CDR_LE |}) n |}.
(** A node whose time is simulated, with one request to [get_parameters], one
    clock message, one lost reader, and a Spinner that is asked to stop. *)
Definition toy_spinner := {|
  stop_spin_receiver := {| stops := 1; senders_gone := false |};
  sp_tables := Discovery.Tables_new (GUID:=GUID);
  status_event_senders := [] : list unit;
  channels := tt;
  sim_time := ROSTime_ZERO;
  sp_node := {| parameters := {[ USE_SIM_TIME := Boolean true ]}; use_sim_time := true; app := tt;
                ParamStore.published := []; fqn := lit "/n"; options := NodeOptions_new |}
             : ParamStore.Node unit Timestamp;
  parameter_servers := Some {|
    get_parameters_server := toy_endpoint 1;
    get_parameter_types_server := toy_endpoint 0;
    list_parameters_server := toy_endpoint 0;
    set_parameters_server := toy_endpoint 0;
    set_parameters_atomically_server := toy_endpoint 0;
    describe_parameters_server := toy_endpoint 0 |} |}.
Definition toy_clock : list (result ReadError (DeserializedCacheChange Time)) :=
  [Ok {| dcc_source_timestamp := None; dcc_sequence_number := 1; dcc_writer_guid := toy_guid 9;
         dcc_related_sample_identity := None; into_value := Time_ZERO |}].
Definition toy_core := {|
  c_tables := Discovery.Tables_new (GUID:=GUID); c_senders := [] : list unit; c_channels := tt;
  c_sim_time := ROSTime_ZERO; c_node := sp_node toy_spinner;
  c_writers := λ _, (Enhanced, [] : list (ResponseWrapper * WriteOptions)) |}.
Lemma spin_terminates_witness :
  ∃ st' o,
    spin (E:=unit) (Other:=unit) (λ _ _ s, (s, Sent)) (λ _, rev all_arms) (λ _, toy_now) 5
      toy_spinner [ReaderLost (toy_guid 3)]
      (Ok ([] : list (result ReadError (DeserializedCacheChange ParticipantEntitiesInfo))))
      (Ok toy_clock) = Ok (Some (st', o)) ∧ o ≠ Suspended.
Proof.
  destruct (spin_terminates (E:=unit) (Other:=unit) (λ _ _ s, (s, Sent)) (λ _, rev all_arms)
    (λ _, toy_now) 5 toy_spinner [ReaderLost (toy_guid 3)]
    ([] : list (result ReadError (DeserializedCacheChange ParticipantEntitiesInfo))) toy_clock
    toy_core) as (_ & st' & o & l & c' & Hs & _ & _ & _ & _ & Ho).
  - intros _. symmetry. apply Permutation_rev.
  - split_and!; [done..|]. by intros ps [= <-] [].
  - apply Nat.ltb_lt. reflexivity.
  - exists st', o. split; [exact Hs|]. intros ->. destruct Ho as [Hn _]. apply Hn. left. discriminate.
Defined.
