(* ===== verification/Rosout.v ===== *)
(** * Logging to the rosout topic (log.rs, rosout.rs, zenoh_backend/rosout.rs, the
    logging parts of node.rs)

    The [Log] records of both backends and every way to write one. A node and
    its logging handles share one DDS writer behind an [Arc]: a call takes and
    returns that writer. What goes to the [tracing] subscriber or to the [log]
    crate is returned beside it. *)
From S2P Require Import Prelude Names Time DdsService PubSub ZenohService ZenohPubSub.
#[local] Open Scope Z_scope.

(** ** log.rs *)

(** [LogLevel]; constructors are prefixed, [Debug] is a build profile. *)
Inductive LogLevel := LevelFatal | LevelError | LevelWarn | LevelInfo | LevelDebug.
(** [level as u8]. *)
Definition level_u8 (l : LogLevel) : N :=
  match l with
  | LevelFatal => 50 | LevelError => 40 | LevelWarn => 30 | LevelInfo => 20 | LevelDebug => 10
  end.
(** The [Log] of either backend: RustDDS's [Timestamp] in log.rs, the crate's
    [Time] in zenoh_backend/rosout.rs. *)
Record Log {T : Type} := {
  l_stamp : T;
  l_level : N;
  l_name : str;
  l_msg : str;
  l_file : str;
  l_function : str;
  l_line : N;
}.
Arguments Log : clear implicits.

(** What the macro [rosout!] of either backend fills in. *)
Definition unknown_func : str := lit "<unknown_func>".

(** The macros of [tracing] and [log] the code calls. *)
Inductive Trace := TraceAt (l : LogLevel) (msg : str) | TracePublishFailed | TraceDisabled (msg : str).

(** ** rosout.rs: DDS *)
Section dds.
Context `{RD : Rustdds}.
Context {W : Type} `{!TopicWriter W (Log Timestamp)}.

(** [rosout_raw]: [writer] is what is behind the [Arc]. A fatal record is
    traced as an error. *)
Definition trace_level (l : LogLevel) : LogLevel :=
  match l with LevelFatal => LevelError | l => l end.
Definition rosout_raw (timestamp : Timestamp) (level : LogLevel)
    (log_name log_msg source_file source_function : str) (source_line : N) (writer : option W) :
    option W * list Trace :=
  match writer with
  | None => (None, [TraceDisabled log_msg])
  | Some rosout_writer =>
      let '(w, r) := PubSub.publish timestamp
        {| l_stamp := timestamp; l_level := level_u8 level; l_name := log_name; l_msg := log_msg;
           l_file := source_file; l_function := source_function; l_line := source_line |}
        rosout_writer in
      (Some w,
       (match r with Ok _ => [] | Err _ => [TracePublishFailed] end) ++
       [TraceAt (trace_level level) (lit "[rosout] (" ++ log_name ++ lit ") " ++ log_msg)])
  end.

(** Who logs: the node, or a handle, which has a copy of the node's base name. *)
Record NodeLoggingHandle := { handle_base_name : str }.
Definition logging_handle (node_name : NodeName) : NodeLoggingHandle :=
  {| handle_base_name := base_name node_name |}.
Inductive logger := OfNode (node_name : NodeName) | OfHandle (h : NodeLoggingHandle).
(** [RosoutRaw::base_name]. *)
Definition logger_name (l : logger) : str :=
  match l with OfNode n => base_name n | OfHandle h => handle_base_name h end.
(** The macro [rosout!]. *)
Definition rosout (now : Timestamp) (l : logger) (lvl : LogLevel) (msg file : str) (line : N)
    (writer : option W) : option W * list Trace :=
  rosout_raw now lvl (logger_name l) msg file unknown_func line writer.
End dds.

(** ** zenoh_backend/rosout.rs *)
Section zenoh.
Context `{ZS : ZenohSerializer, !CdrEncoding (Log Time)}.

Record Logger := { node_name : str; publisher : Publisher }.
Definition Logger_new (node_name : str) (publisher : Publisher) : Logger :=
  {| node_name := node_name; publisher := publisher |}.

(** The clock is read for the record ([stamp], what [Time::now] gets from
    chrono) and, after serializing it, for the message's attachment ([since]);
    [outcome] is Zenoh's. [None] is a panic of the sequence counter. *)
Definition log_at (pr : profile) (stamp : option Z) (since : option StdDuration)
    (outcome : result ZenohError unit) (level : LogLevel) (msg file function : str) (line : N)
    (l : Logger) : option (Logger * (option Sample * list Trace)) :=
  let record := {| l_stamp := Time_now stamp; l_level := level_u8 level; l_name := node_name l;
                   l_msg := msg; l_file := file; l_function := function; l_line := line |} in
  '(p, (s, r)) ← publish pr (now_nanos since) outcome record (publisher l);
  Some (Logger_new (node_name l) p,
        (s, match r with Ok _ => [] | Err _ => [TracePublishFailed] end)).
(** [debug], [info], [warn], [error] and [fatal]. *)
Definition log_helper (level : LogLevel) (pr : profile) (stamp : option Z)
    (since : option StdDuration) (outcome : result ZenohError unit) (msg : str) (l : Logger) :=
  log_at pr stamp since outcome level msg [] [] 0%N l.
(** The macro [rosout!]. *)
Definition zenoh_rosout (pr : profile) (stamp : option Z) (since : option StdDuration)
    (outcome : result ZenohError unit) (lvl : LogLevel) (msg file : str) (line : N) (l : Logger) :=
  log_at pr stamp since outcome lvl msg file unknown_func line l.
End zenoh.

(** ** Specification *)

(** What the application says in one call. *)
Record Call := { c_level : LogLevel; c_msg : str; c_file : str; c_line : N }.
Definition record_of {T : Type} (name : str) (stamp : T) (c : Call) : Log T :=
  {| l_stamp := stamp; l_level := level_u8 (c_level c); l_name := name; l_msg := c_msg c;
     l_file := c_file c; l_function := unknown_func; l_line := c_line c |}.
(** A record without its stamp, whose type the backends do not share. *)
Definition content {T : Type} (r : Log T) : Log unit :=
  {| l_stamp := tt; l_level := l_level r; l_name := l_name r; l_msg := l_msg r;
     l_file := l_file r; l_function := l_function r; l_line := l_line r |}.

Section dds_life.
Context `{RD : Rustdds}.
Context {W : Type} `{!TopicWriter W (Log Timestamp)}.
(** Calls of the macro through a node and its handles, in the order in which
    they take place, over the one writer. *)
Fixpoint rosout_all (cs : list (Timestamp * logger * Call)) (writer : option W) : option W :=
  match cs with
  | [] => writer
  | (now, l, c) :: cs =>
      rosout_all cs (rosout now l (c_level c) (c_msg c) (c_file c) (c_line c) writer).1
  end.
(** Writing records, each with its stamp as source timestamp. *)
Definition write_records (rs : list (Log Timestamp)) (w : W) : W :=
  fold_left (λ w r, (write w r (Some (l_stamp r))).1) rs w.
(** A logger of the node [n]. *)
Definition of_node (n : NodeName) (l : logger) : Prop :=
  l = OfNode n ∨ l = OfHandle (logging_handle n).
End dds_life.

Section zenoh_life.
Context `{ZS : ZenohSerializer, !CdrEncoding (Log Time)}.
(** Calls of the macro on one logger: the clock's readings, Zenoh's outcome, and
    the call. *)
Abbreviation zcall := (option Z * option StdDuration * result ZenohError unit * Call)%type.
Fixpoint zenoh_rosout_all (pr : profile) (cs : list zcall) (l : Logger) :
    option (Logger * list (option Sample * list Trace)) :=
  match cs with
  | [] => Some (l, [])
  | (stamp, since, outcome, c) :: cs =>
      '(l1, o) ← zenoh_rosout pr stamp since outcome (c_level c) (c_msg c) (c_file c) (c_line c) l;
      '(l2, os) ← zenoh_rosout_all pr cs l1;
      Some (l2, o :: os)
  end.
Definition zenoh_record (name : str) (z : zcall) : Log Time :=
  record_of name (Time_now z.1.1.1) z.2.
End zenoh_life.

Section spec.
Context `{RD : Rustdds}.
Context {W : Type} `{!TopicWriter W (Log Timestamp)}.
Context `{ZS : ZenohSerializer, !CdrEncoding (Log Time)}.
Context `{!ZenohSerializerLaws, !CdrEncodingLaws (Log Time)}.
Abbreviation zcall := (option Z * option StdDuration * result ZenohError unit * Call)%type.

Lemma rosout_all_enabled n (cs : list (Timestamp * logger * Call)) (w : W) :
  Forall (λ '(_, l, _), of_node n l) cs →
  rosout_all cs (Some w) =
    Some (write_records ((λ '(now, _, c), record_of (base_name n) now c) <$> cs) w).
Proof.
  intros Hcs. revert w. induction Hcs as [|[[now l] c] cs Hl Hcs IH]; intros w; [done|].
  cbn [rosout_all]. unfold rosout, rosout_raw, PubSub.publish.
  replace (logger_name l) with (base_name n) by by destruct Hl as [->| ->].
  destruct (write w _ _) as [w1 r] eqn:Hw. cbn [fst]. rewrite IH. unfold write_records, record_of.
  rewrite fmap_cons. cbn [fold_left l_stamp]. by rewrite Hw.
Qed.
Lemma rosout_all_disabled (cs : list (Timestamp * logger * Call)) :
  rosout_all (W:=W) cs None = None.
Proof. by induction cs as [|[[now l] c] cs IH]. Qed.

(** One call on a Zenoh logger whose counter does not overflow. *)
Lemma zenoh_rosout_ok pr (z : zcall) (l : Logger) b :
  wf_gid (source_gid (publisher l)) → in_i64 (pub_seq (publisher l) + 1) →
  to_cdr (zenoh_record (node_name l) z) = Ok b →
  ∃ s t, zenoh_rosout pr z.1.1.1 z.1.1.2 z.1.2 (c_level z.2) (c_msg z.2) (c_file z.2) (c_line z.2) l =
      Some (Logger_new (node_name l) (set_pub_seq (pub_seq (publisher l) + 1) (publisher l)),
            (Some s, t)) ∧
    async_take (Ok s) = Ok (zenoh_record (node_name l) z,
      info_of (publisher l) (pub_seq (publisher l) + 1,
                             PublishMsg z.1.1.2 z.1.2 (zenoh_record (node_name l) z))).
Proof.
  intros Hg Hi Hb. set (o := PublishMsg z.1.1.2 z.1.2 (zenoh_record (node_name l) z)).
  pose proof (exec_ok pr o (publisher l) Hi) as He. simpl in He. rewrite Hb in He.
  exists (sample_of (publisher l) (pub_seq (publisher l) + 1, o) b).
  eexists. unfold zenoh_rosout, log_at.
  change {| l_stamp := _ |} with (zenoh_record (node_name l) z). rewrite He. simpl.
  split; [done|]. destruct (sample_reads_as (publisher l) (pub_seq (publisher l) + 1) o b) as [_ Hr];
    [done..|]. apply (Hr _ _ _ eq_refl).
Qed.

(** Logging on either backend. Over DDS, the calls made through a node and
    any of its logging handles, in whatever order they take place, each write
    one record to the node's one writer, in that order, under the node's name
    and with the clock's reading as stamp and source timestamp; a node without
    the writer writes nothing. Over Zenoh, a reader of the topic gets one record
    for every call, in order, with consecutive sequence numbers, whatever Zenoh
    answered to the others. Both publish the same content for the same call. *)
Lemma rosout_backends_agree pr n (cs : list (Timestamp * logger * Call)) (w : W)
    (zs : list zcall) (l : Logger) :
  Forall (λ '(_, lg, _), of_node n lg) cs →
  node_name l = base_name n →
  wf_gid (source_gid (publisher l)) → in_i64 (pub_seq (publisher l)) →
  in_i64 (pub_seq (publisher l) + Z.of_nat (length zs)) →
  (∀ r : Log Time, is_ok (to_cdr r)) →
  rosout_all (W:=W) cs None = None ∧
  rosout_all cs (Some w) =
    Some (write_records ((λ '(now, _, c), record_of (base_name n) now c) <$> cs) w) ∧
  (∃ l' outs, zenoh_rosout_all pr zs l = Some (l', outs) ∧ length outs = length zs ∧
     ∀ i z, zs !! i = Some z → ∃ s t info, outs !! i = Some (Some s, t) ∧
       async_take (Ok s) = Ok (zenoh_record (base_name n) z, info) ∧
       mi_sequence_number info = pub_seq (publisher l) + Z.of_nat (S i)) ∧
  ∀ (now : Timestamp) (z : zcall), content (record_of (base_name n) now z.2) = content (zenoh_record (base_name n) z).
Proof.
  intros Hcs Hn Hg Hs Hl Hok. split; [apply rosout_all_disabled|].
  split; [by apply rosout_all_enabled|]. split; [|done].
  rewrite <-Hn. clear cs Hcs Hn. revert l Hg Hs Hl. induction zs as [|z zs IH]; intros l Hg Hs Hl.
  { exists l, []. done. }
  cbn [length] in Hl. rewrite Nat2Z.inj_succ in Hl.
  specialize (Hok (zenoh_record (node_name l) z)) as Hz.
  destruct (to_cdr (zenoh_record (node_name l) z)) as [b|] eqn:Hb; [|done].
  destruct (zenoh_rosout_ok pr z l b) as (s & t & He & Ht);
    [done|unfold in_i64 in *; lia|done|].
  destruct (IH (Logger_new (node_name l) (set_pub_seq (pub_seq (publisher l) + 1) (publisher l))))
    as (l' & outs & Ha & Hlen & Hi); [done|simpl; unfold in_i64 in *; lia..|].
  destruct z as [[[stamp since] outcome] c]. cbn [zenoh_rosout_all]. simpl in He. rewrite He.
  cbn [mbind option_bind]. rewrite Ha. cbn [mbind option_bind].
  eexists l', _. split; [done|]. split; [simpl; by f_equal|].
  intros [|i] z Hz'; simpl in Hz'.
  - simplify_eq. eexists s, t, _. split_and!; [done|exact Ht|]. simpl. lia.
  - destruct (Hi i z Hz') as (s' & t' & info & ? & ? & Hq). exists s', t', info.
    split_and!; [done..|]. rewrite Hq. simpl. lia.
Qed.
End spec.

(** ** A concrete instance *)
#[local] Existing Instances toy_rustdds toy_serializer toy_serializer_laws.
Definition toy_put_str (s : str) : list Z := Z.of_nat (length s) :: (Z.of_N <$> s).
Definition toy_get_str (b : list Z) : str * list Z :=
  match b with
  | n :: b => (Z.to_N <$> take (Z.to_nat n) b, drop (Z.to_nat n) b)
  | [] => ([], [])
  end.
Lemma toy_get_put_str s rest : toy_get_str (toy_put_str s ++ rest) = (s, rest).
Proof.
  unfold toy_get_str, toy_put_str. simpl. rewrite Nat2Z.id.
  rewrite take_app_length', drop_app_length' by (by rewrite length_fmap). f_equal.
  rewrite <-list_fmap_compose. rewrite <-(list_fmap_id s) at 2. apply list_fmap_ext.
  intros i x _. apply N2Z.id.
Qed.
#[local] Instance toy_log_encoding : CdrEncoding (Log Time) := {|
  to_vec r := Ok (nanos_since_epoch (l_stamp r) :: Z.of_N (l_level r) :: Z.of_N (l_line r) ::
                  toy_put_str (l_name r) ++ toy_put_str (l_msg r) ++ toy_put_str (l_file r) ++
                  toy_put_str (l_function r));
  from_bytes _ b :=
    match b with
    | t :: v :: n :: b' =>
        let '(name, b') := toy_get_str b' in
        let '(msg, b') := toy_get_str b' in
        let '(file, b') := toy_get_str b' in
        let '(function, _) := toy_get_str b' in
        Ok ({| l_stamp := Time_from_nanos t; l_level := Z.to_N v; l_name := name; l_msg := msg;
               l_file := file; l_function := function; l_line := Z.to_N n |}, length b)
    | _ => Err tt
    end |}.
#[local] Instance toy_log_encoding_laws : CdrEncodingLaws (Log Time).
Proof.
  split. intros [[t] v name msg file func line] b Hb. unfold to_vec, toy_log_encoding in Hb.
  apply (f_equal (λ x, match x with Ok a => a | Err _ => b end)) in Hb. cbv beta iota in Hb.
  rewrite <-Hb. cbn -[toy_get_str toy_put_str length].
  rewrite !toy_get_put_str, <-(app_nil_r (toy_put_str func)), toy_get_put_str.
  by rewrite !N2Z.id, app_nil_r.
Qed.
(** A writer that keeps the levels and messages it wrote, and fails on every
    fatal record. *)
#[local] Instance toy_log_writer : TopicWriter (list (N * str)) (Log Timestamp) := {|
  write w r _ := (w ++ [(l_level r, l_msg r)], if (l_level r =? 50)%N then Err tt else Ok tt);
  async_write w r _ := (w ++ [(l_level r, l_msg r)], Ok tt) |}.

Definition toy_call (l : LogLevel) (msg : string) : Call :=
  {| c_level := l; c_msg := lit msg; c_file := lit "main.rs"; c_line := 7 |}.
Definition toy_node : NodeName := {| namespace := lit "/"; base_name := lit "talker" |}.
Definition toy_dds_calls : list (Timestamp * logger * Call) :=
  [(toy_now, OfNode toy_node, toy_call LevelFatal "a");
   (toy_now, OfHandle (logging_handle toy_node), toy_call LevelInfo "b")].
Definition toy_logger : Logger :=
  Logger_new (lit "talker") (Publisher_new (lit "0/rosout") toy_client_gid None).
Lemma rosout_backends_agree_witness :
  rosout_all toy_dds_calls (Some []) = Some [(50%N, lit "a"); (20%N, lit "b")] ∧
  ∃ l' outs, zenoh_rosout_all Debug
    [(Some 5, None, Err tt, toy_call LevelFatal "a"); (None, None, Ok tt, toy_call LevelInfo "b")]
    toy_logger = Some (l', outs) ∧ length outs = 2%nat.
Proof.
  destruct (rosout_backends_agree (RD:=toy_rustdds) (ZS:=toy_serializer) Debug toy_node toy_dds_calls []
    [(Some 5, None, Err tt, toy_call LevelFatal "a"); (None, None, Ok tt, toy_call LevelInfo "b")]
    toy_logger) as (_ & Hw & (l' & outs & Hz & Hlen & _) & _).
  - constructor; [by left|]. constructor; [by right|constructor].
  - reflexivity.
  - exact toy_wf_gid.
  - split; vm_compute; discriminate.
  - split; vm_compute; discriminate.
  - reflexivity.
  - split; [exact Hw|]. exists l', outs. by split.
Defined.
