(* ===== verification/WideString.v ===== *)
(** * Wide strings (wide_string.rs)

    [WString] wraps the [Utf16String] of the crate widestring, a class here, and
    gives it the serde encoding of a sequence. The elements are written as
    [u16] code units and read as [char]s. *)
From S2P Require Import Prelude.

(** A [char] is a scalar value: not a surrogate. *)
Definition is_scalar (c : N) : bool :=
  ((c <? 55296) || ((57343 <? c) && (c <? 1114112)))%N.
(** [char::encode_utf16]. *)
Definition encode_utf16 (c : char) : list N :=
  if (c <? 65536)%N then [c]
  else [(55296 + (c - 65536) / 1024)%N; (56320 + (c - 65536) mod 1024)%N].

(** widestring's [Utf16String] as the sequence of its [char]s. *)
Class Utf16 := {
  Utf16String : Type;
  chars : Utf16String → str;
  utf16_new : Utf16String;
  push : char → Utf16String → Utf16String;
  as_slice : Utf16String → list N;
}.
Class Utf16Laws `{Utf16} := {
  chars_inj s t : chars s = chars t → s = t;
  chars_new : chars utf16_new = [];
  chars_push c s : chars (push c s) = chars s ++ [c];
  as_slice_chars s : as_slice s = chars s ≫= encode_utf16;
  chars_scalar s : Forall (λ c, is_scalar c) (chars s);
}.
(** A serde format: a sequence of [u16]s as bytes, and bytes as a sequence of
    [char]s. *)
Class SeqFormat (E : Type) := {
  serialize_u16s : list N → result E (list Z);
  deserialize_chars : list Z → result E str;
}.
(** As favourable as a format can be: an element read is the one written where
    that is a [char] at all, and the length is kept. *)
Class SeqFormatLaws (E : Type) `{!SeqFormat E} := {
  read_scalars l b : serialize_u16s l = Ok b → Forall (λ u, is_scalar u) l →
    deserialize_chars b = Ok l;
  read_length l b cs : serialize_u16s l = Ok b → deserialize_chars b = Ok cs →
    length cs = length l;
}.

Section wstring.
Context `{Utf16} {E : Type} `{!SeqFormat E}.
Record WString := { inner : Utf16String }.
Definition WString_new : WString := {| inner := utf16_new |}.
Definition WString_from (s : Utf16String) : WString := {| inner := s |}.
Definition into_utf16 (w : WString) : Utf16String := inner w.

Definition serialize (w : WString) : result E (list Z) := serialize_u16s (as_slice (inner w)).
(** [visit_seq]: pushes what the sequence yields onto an empty string. *)
Definition visit_seq (elements : str) : WString :=
  WString_from (fold_left (λ s c, push c s) elements utf16_new).
Definition deserialize (b : list Z) : result E WString := visit_seq <$> deserialize_chars b.
End wstring.
Arguments WString {_}.

Section roundtrip.
Context `{Utf16, !Utf16Laws} {E : Type} `{!SeqFormat E, !SeqFormatLaws E}.

Lemma chars_visit_seq cs : chars (inner (visit_seq cs)) = cs.
Proof.
  unfold visit_seq. simpl.
  assert (∀ s, chars (fold_left (λ s c, push c s) cs s) = chars s ++ cs) as Hs.
  { induction cs as [|c cs IH]; intros s; simpl; [by rewrite app_nil_r|].
    by rewrite IH, chars_push, <-app_assoc. }
  by rewrite Hs, chars_new.
Qed.
Lemma units_short cs : Forall (λ c, c < 65536)%N cs → cs ≫= encode_utf16 = cs.
Proof.
  induction 1 as [|c cs Hc _ IH]; [done|]. rewrite bind_cons, IH. unfold encode_utf16.
  by rewrite (proj2 (N.ltb_lt _ _) Hc).
Qed.
Lemma units_length cs :
  (length cs <= length (cs ≫= encode_utf16))%nat ∧
  (length (cs ≫= encode_utf16) = length cs → Forall (λ c, c < 65536)%N cs).
Proof.
  induction cs as [|c cs [IH1 IH2]]; [done|]. rewrite bind_cons, length_app.
  revert IH1 IH2. generalize (length (cs ≫= encode_utf16)). intros n IH1 IH2. unfold encode_utf16.
  destruct (N.ltb_spec c 65536); simpl; (split; [lia|]); intros; [|lia].
  constructor; [done|]. apply IH2. lia.
Qed.
(** Even with such a format a wide string reads back exactly when it has no
    character beyond the basic plane. *)
Lemma wstring_roundtrip_iff (w : WString) b :
  serialize w = Ok b → deserialize b = Ok w ↔ Forall (λ c, c < 65536)%N (chars (inner w)).
Proof.
  unfold serialize, deserialize. rewrite as_slice_chars. intros Hb. split.
  - destruct (deserialize_chars b) as [cs|] eqn:Hd; simpl; [|done]. intros [= <-].
    pose proof (read_length _ _ _ Hb Hd) as Hl. rewrite chars_visit_seq in *.
    by apply units_length.
  - intros Hs. rewrite units_short in Hb by done. rewrite (read_scalars _ _ Hb) by apply chars_scalar.
    simpl. destruct w as [s]. unfold visit_seq. do 2 f_equal. apply chars_inj.
    apply (chars_visit_seq (chars s)).
Qed.
End roundtrip.
