(* ===== verification/OsPath.v ===== *)
(** * Operating-system strings and paths of the Rust standard library

    On Unix an [OsString] and a [Path] are byte strings. A [String] becomes one
    by its UTF-8, and one becomes a [String] by [from_utf8_lossy]; [PathBuf::push],
    [Path::file_stem] and [Path::extension] as std defines them. *)
From S2P Require Import Prelude WideString.

(** A byte is below 256; the bytes of an [OsString] and of a [Vec<u8>]. *)
Abbreviation bytes := (list N) (only parsing).
Abbreviation OsStr := (list N) (only parsing).

(** ** UTF-8 *)
Definition utf8_char (c : char) : bytes :=
  if (c <? 128)%N then [c]
  else if (c <? 2048)%N then [192 + c / 64; 128 + c mod 64]%N
  else if (c <? 65536)%N then [224 + c / 4096; 128 + c / 64 mod 64; 128 + c mod 64]%N
  else [240 + c / 262144; 128 + c / 4096 mod 64; 128 + c / 64 mod 64; 128 + c mod 64]%N.
(** [OsStr::new(s)] and [PathBuf::from(s)] of a string. *)
Definition utf8 (s : str) : bytes := s ≫= utf8_char.

Definition between (a b x : N) : bool := ((a <=? x) && (x <=? b))%N.
Definition is_cont (b : N) : bool := between 128 191 b.
(** The second byte that may follow a first byte of a sequence of three or
    four: not the overlong forms, the surrogates, or what is above [char::MAX]. *)
Definition second_of_three (b0 b1 : N) : bool :=
  if (b0 =? 224)%N then between 160 191 b1
  else if (b0 =? 237)%N then between 128 159 b1
  else is_cont b1.
Definition second_of_four (b0 b1 : N) : bool :=
  if (b0 =? 240)%N then between 144 191 b1
  else if (b0 =? 244)%N then between 128 143 b1
  else is_cont b1.
(** [char::REPLACEMENT_CHARACTER]. *)
Definition REPLACEMENT : char := 65533%N.
(** [String::from_utf8_lossy] and [OsStr::to_string_lossy]: every maximal
    start of a sequence that does not go on is replaced. *)
Fixpoint from_utf8_lossy (s : bytes) : str :=
  match s with
  | [] => []
  | b0 :: s1 =>
      if (b0 <? 128)%N then b0 :: from_utf8_lossy s1
      else if between 194 223 b0 then
        match s1 with
        | b1 :: s2 =>
            if is_cont b1 then ((b0 - 192) * 64 + (b1 - 128))%N :: from_utf8_lossy s2
            else REPLACEMENT :: from_utf8_lossy s1
        | [] => [REPLACEMENT]
        end
      else if between 224 239 b0 then
        match s1 with
        | b1 :: s2 =>
            if second_of_three b0 b1 then
              match s2 with
              | b2 :: s3 =>
                  if is_cont b2 then
                    ((b0 - 224) * 4096 + (b1 - 128) * 64 + (b2 - 128))%N :: from_utf8_lossy s3
                  else REPLACEMENT :: from_utf8_lossy s2
              | [] => [REPLACEMENT]
              end
            else REPLACEMENT :: from_utf8_lossy s1
        | [] => [REPLACEMENT]
        end
      else if between 240 244 b0 then
        match s1 with
        | b1 :: s2 =>
            if second_of_four b0 b1 then
              match s2 with
              | b2 :: s3 =>
                  if is_cont b2 then
                    match s3 with
                    | b3 :: s4 =>
                        if is_cont b3 then
                          ((b0 - 240) * 262144 + (b1 - 128) * 4096 + (b2 - 128) * 64 + (b3 - 128))%N
                          :: from_utf8_lossy s4
                        else REPLACEMENT :: from_utf8_lossy s3
                    | [] => [REPLACEMENT]
                    end
                  else REPLACEMENT :: from_utf8_lossy s2
              | [] => [REPLACEMENT]
              end
            else REPLACEMENT :: from_utf8_lossy s1
        | [] => [REPLACEMENT]
        end
      else REPLACEMENT :: from_utf8_lossy s1
  end.
(** [Path::to_str]: bytes are UTF-8 when nothing of them is replaced. *)
Definition to_str (s : OsStr) : option str :=
  let t := from_utf8_lossy s in if bool_decide (utf8 t = s) then Some t else None.

(** ** Paths *)
Definition dot : N := 46%N.
(** [PathBuf::push]. *)
Definition path_push (buf path : OsStr) : OsStr :=
  match path with
  | 47%N :: _ => path
  | _ => buf ++ match last buf with Some c => if (c =? slash)%N then [] else [slash] | None => [] end ++ path
  end.
(** [Path::file_name]: the last component, unless that is [..] or there is
    none; repeated and trailing slashes and components [.] do not count. *)
Definition file_name (path : OsStr) : option OsStr :=
  name ← last (filter (λ w, w ≠ [] ∧ w ≠ [dot]) (split_on slash path));
  if bool_decide (name = [dot; dot]) then None else Some name.
(** std's [rsplit_file_at_dot]: the parts before and after the last dot; a name
    that starts with its only dot has no extension. *)
Definition rsplit_file_at_dot (file : OsStr) : option OsStr * option OsStr :=
  if bool_decide (file = [dot; dot]) then (Some file, None)
  else match rsplit_once dot file with
       | None => (None, Some file)
       | Some ([], _) => (Some file, None)
       | Some (before, after) => (Some before, Some after)
       end.
(** [Path::file_stem] is [before.or(after)], [Path::extension] is
    [before.and(after)]. *)
Definition file_stem (path : OsStr) : option OsStr :=
  name ← file_name path;
  let '(before, after) := rsplit_file_at_dot name in
  match before with Some b => Some b | None => after end.
Definition extension (path : OsStr) : option OsStr :=
  name ← file_name path;
  let '(before, after) := rsplit_file_at_dot name in
  match before with Some _ => after | None => None end.

(** ** Lemmas *)

Lemma between_true a b x : (a <= x <= b)%N → between a b x = true.
Proof. intros ?. apply andb_true_intro. split; apply N.leb_le; lia. Qed.
Lemma between_false a b x : (x < a ∨ b < x)%N → between a b x = false.
Proof. intros ?. apply andb_false_iff. rewrite !N.leb_gt. lia. Qed.
(** Comparisons of bytes whose order is known. *)
#[local] Ltac byte_tests :=
  repeat first
    [ rewrite between_true by lia | rewrite between_false by lia
    | rewrite (proj2 (N.ltb_lt _ _)) by lia | rewrite (proj2 (N.ltb_ge _ _)) by lia ].
Lemma is_cont_digit x : is_cont (128 + x mod 64) = true.
Proof. apply between_true. lia. Qed.
Lemma second_of_three_char c :
  (2048 <= c < 65536)%N → is_scalar c = true →
  second_of_three (224 + c / 4096) (128 + c / 64 mod 64) = true.
Proof.
  unfold is_scalar. intros Hc Hs. apply orb_prop in Hs. rewrite andb_true_iff, !N.ltb_lt in Hs.
  unfold second_of_three.
  destruct (N.eqb_spec (224 + c / 4096) 224) as [H|H]; [apply between_true; lia|].
  destruct (N.eqb_spec (224 + c / 4096) 237) as [H'|H']; [apply between_true; lia|].
  apply is_cont_digit.
Qed.
Lemma second_of_four_char c :
  (65536 <= c < 1114112)%N → second_of_four (240 + c / 262144) (128 + c / 4096 mod 64) = true.
Proof.
  intros Hc. unfold second_of_four.
  destruct (N.eqb_spec (240 + c / 262144) 240) as [H|H]; [apply between_true; lia|].
  destruct (N.eqb_spec (240 + c / 262144) 244) as [H'|H']; [apply between_true; lia|].
  apply is_cont_digit.
Qed.
(** The UTF-8 of a character is read back as that character. *)
Lemma from_utf8_lossy_char c s :
  is_scalar c = true → from_utf8_lossy (utf8_char c ++ s) = c :: from_utf8_lossy s.
Proof.
  intros Hs. assert (c < 1114112)%N as Hmax.
  { unfold is_scalar in Hs. rewrite orb_true_iff, andb_true_iff, !N.ltb_lt in Hs. lia. }
  unfold utf8_char. destruct (N.ltb_spec c 128) as [H1|H1].
  { simpl. by byte_tests. }
  destruct (N.ltb_spec c 2048) as [H2|H2].
  { cbn [app from_utf8_lossy]. byte_tests. rewrite is_cont_digit. f_equal. lia. }
  destruct (N.ltb_spec c 65536) as [H3|H3].
  - cbn [app from_utf8_lossy]. byte_tests.
    rewrite second_of_three_char, is_cont_digit by done. f_equal. lia.
  - cbn [app from_utf8_lossy]. byte_tests.
    rewrite second_of_four_char, !is_cont_digit by done. f_equal. lia.
Qed.
Lemma from_utf8_lossy_utf8 s : Forall is_scalar s → from_utf8_lossy (utf8 s) = s.
Proof.
  induction 1 as [|c s Hc _ IH]; [done|]. unfold utf8. rewrite bind_cons.
  rewrite from_utf8_lossy_char by (by apply Is_true_true_1). by f_equal.
Qed.
Lemma to_str_utf8 s : Forall is_scalar s → to_str (utf8 s) = Some s.
Proof.
  intros Hs. unfold to_str. rewrite from_utf8_lossy_utf8 by done. by rewrite bool_decide_eq_true_2.
Qed.

(** A path with an extension has a stem. *)
Lemma extension_stem path e : extension path = Some e → is_Some (file_stem path).
Proof.
  unfold extension, file_stem. intros (name & -> & He)%bind_Some. simpl.
  destruct (rsplit_file_at_dot name) as [[b|] a]; [by eexists|done].
Qed.

Example file_stems :
  file_stem (lit "/opt/ros/msg/./Pose.msg/") = Some (lit "Pose") ∧
  extension (lit "/opt/ros/msg/Pose.msg") = Some (lit "msg") ∧
  extension (lit "msg/.msg") = None ∧ file_stem (lit "msg/.msg") = Some (lit ".msg") ∧
  extension (lit "a.b.msg") = Some (lit "msg") ∧ file_name (lit "msg/..") = None ∧
  path_push (lit "src/") (lit "msg") = lit "src/msg" ∧ path_push (lit "src") (lit "msg") = lit "src/msg".
Proof. by vm_compute. Qed.
Example lossy_bytes :
  from_utf8_lossy [97; 255; 226; 130; 98; 237; 160; 128; 240; 159; 152; 128]%N =
    [97; REPLACEMENT; REPLACEMENT; 98; REPLACEMENT; REPLACEMENT; REPLACEMENT; 128512]%N.
Proof. by vm_compute. Qed.
