(* ===== verification/Distributions.v ===== *)
(** * The ROS 2 distribution (distributions.rs)

    Which distribution the crate is compiled for, from the Cargo features, and
    the check of [ROS_DISTRO] when a context is made. *)
From S2P Require Import Prelude.

Inductive RosDistro := Galactic | Humble | Iron | Jazzy | Kilted | Lyrical.
#[export] Instance RosDistro_eq_dec : EqDecision RosDistro.
Proof. solve_decision. Defined.
(** The derived order is chronological. *)
Definition distro_index (d : RosDistro) : nat :=
  match d with
  | Galactic => 0 | Humble => 1 | Iron => 2 | Jazzy => 3 | Kilted => 4 | Lyrical => 5
  end.
Definition as_str (d : RosDistro) : str :=
  match d with
  | Galactic => lit "galactic" | Humble => lit "humble" | Iron => lit "iron"
  | Jazzy => lit "jazzy" | Kilted => lit "kilted" | Lyrical => lit "lyrical"
  end.
(** [cfg!(feature = ..)] is a predicate on the distributions' features. *)
Definition compiled_distro (feature : RosDistro → bool) : RosDistro :=
  if feature Lyrical then Lyrical
  else if feature Kilted then Kilted
  else if feature Jazzy then Jazzy
  else if feature Iron then Iron
  else if feature Humble then Humble
  else Galactic.

(** What [verify_ros_distro_env] logs, from what [std::env::var] returns. *)
Inductive DistroCheck := NotSet | Matches | Rolling | Mismatch (distro : str).
Definition verify_ros_distro_env (built : RosDistro) (env : option str) : DistroCheck :=
  match env with
  | None => NotSet
  | Some distro =>
      if str_eqb distro (as_str built) then Matches
      else if str_eqb distro (lit "rolling") then Rolling
      else Mismatch distro
  end.

(** With the feature chain of Cargo.toml, in which a feature enables the older
    ones, [cfg!(feature = "X")] holds exactly when the compiled distribution is
    at least X. *)
Lemma compiled_distro_at_least (feature : RosDistro → bool) d :
  (∀ d e, distro_index e <= distro_index d → feature d = true → feature e = true) →
  d ≠ Galactic →
  feature d = true ↔ distro_index d <= distro_index (compiled_distro feature).
Proof.
  intros Hchain Hd. unfold compiled_distro.
  destruct (feature Lyrical) eqn:H5; [split; [by destruct d; simpl; lia|by intros; apply (Hchain Lyrical)]|].
  destruct (feature Kilted) eqn:H4;
    [split; [destruct d; simpl; congruence || lia|by intros; apply (Hchain Kilted)]|].
  destruct (feature Jazzy) eqn:H3;
    [split; [destruct d; simpl; congruence || lia|by intros; apply (Hchain Jazzy)]|].
  destruct (feature Iron) eqn:H2;
    [split; [destruct d; simpl; congruence || lia|by intros; apply (Hchain Iron)]|].
  destruct (feature Humble) eqn:H1;
    [split; [destruct d; simpl; congruence || lia|by intros; apply (Hchain Humble)]|].
  destruct d; [done|..]; simpl; (split; [congruence|lia]).
Qed.
Lemma as_str_inj d e : as_str d = as_str e → d = e.
Proof. by destruct d, e. Qed.
