(* ===== verification/DdsContext.v ===== *)
(** * Making a DDS context, and what contexts and nodes hand out (context.rs,
    node.rs)

    The options of a context, its creation with the check of the distribution
    that runs once per process, the accessors of contexts and nodes, and the
    options of a node. Participants come from RustDDS, a class; a context is the
    participant with the state DdsNode.v gives it. *)
From S2P Require Import Prelude Names Qos ParamStore Discovery DdsService DdsNode Distributions.

(** ** Options *)
Section options.
Context {PathBuf : Type}.
Record SecurityConfig := { security_config_dir : PathBuf; private_key_password : str }.
(** Without the feature [security] the second field is absent, which is [None]. *)
Record ContextOptions := {
  domain_id : N;
  security_config : option SecurityConfig;
}.
Definition ContextOptions_new : ContextOptions := {| domain_id := 0; security_config := None |}.
Definition with_domain_id (domain_id : N) (o : ContextOptions) : ContextOptions :=
  {| domain_id := domain_id; security_config := security_config o |}.
Definition enable_security (security_config_dir : PathBuf) (private_key_password : str)
    (o : ContextOptions) : ContextOptions :=
  {| domain_id := domain_id o;
     security_config := Some {| security_config_dir := security_config_dir;
                                private_key_password := private_key_password |} |}.
End options.
Arguments SecurityConfig : clear implicits.
Arguments ContextOptions : clear implicits.

(** ** Contexts *)

(** RustDDS makes participants, which changes its state [World]; [Builder] is
    [DomainParticipantBuilder]. *)
Class Participants (World Builder Pt PathBuf CreateError Discovered : Type) := {
  participant_new : N → World → World * result CreateError Pt;
  builder_new : N → Builder;
  builtin_security : PathBuf → str → Builder → Builder;
  builder_build : Builder → World → World * result CreateError Pt;
  participant_domain_id : Pt → N;
  participant_discovered_topics : Pt → World → list Discovered;
}.
(** [DomainParticipant::new] builds with the defaults; a participant is in the
    domain it was built for. *)
Class ParticipantsLaws (World Builder Pt PathBuf CreateError Discovered : Type)
    `{!Participants World Builder Pt PathBuf CreateError Discovered} := {
  build_default d w : builder_build (builder_new d) w = participant_new d w;
  build_domain d w w' p : participant_new d w = (w', Ok p) → participant_domain_id p = d;
}.

Section contexts.
Context `{RD : Rustdds}.
Context {D P CreateError : Type} `{!RustddsQos D P, !DdsQosBuilder D P}.
Context (iron : bool) (built : RosDistro).
Context {World Builder Pt PathBuf Discovered : Type}.
Context `{PS : !Participants World Builder Pt PathBuf CreateError Discovered}.
(** How a participant answers the requests of the context in it. *)
Context (as_participant : Pt → DomainParticipant (P:=P) (CreateError:=CreateError)).

(** A process: RustDDS, the environment variable, whether the static [Once] has
    run, and what the check logged. *)
Record Process := {
  rustdds : World;
  ros_distro : option str;
  distro_checked : bool;
  distro_log : list DistroCheck;
}.
(** [Context]: a shared handle to the participant and the state of the context;
    [DdsEvent] is what was asked of the participant. *)
Record Context := {
  participant : Pt;
  asked : list (DdsEvent (P:=P) (CreateError:=CreateError));
  state : Context_ (P:=P);
}.
Abbreviation M := (stateE Process CreateError).

Definition on_rustdds {A} (f : World → World * result CreateError A) : M A := λ ps,
  let '(w, r) := f (rustdds ps) in
  ({| rustdds := w; ros_distro := ros_distro ps; distro_checked := distro_checked ps;
      distro_log := distro_log ps |}, r).
Definition lift_result {A} (r : result CreateError A) : M A := λ ps, (ps, r).
(** [ROS_DISTRO_CHECK.call_once(verify_ros_distro_env)]. *)
Definition distro_check_once : M unit := λ ps,
  (if distro_checked ps then ps
   else {| rustdds := rustdds ps; ros_distro := ros_distro ps; distro_checked := true;
           distro_log := distro_log ps ++ [verify_ros_distro_env built (ros_distro ps)] |}, Ok tt).
Definition ContextInner_from_domain_participant (domain_participant : Pt) : result CreateError Context :=
  let '(asked, i) :=
    from_domain_participant (D:=D) iron (DP := as_participant domain_participant) [] in
  (λ i, {| participant := domain_participant; asked := asked; state := i |}) <$> i.
Definition Context_from_domain_participant (domain_participant : Pt) : M Context :=
  _ ← distro_check_once;
  lift_result (ContextInner_from_domain_participant domain_participant).
Definition Context_new : M Context :=
  domain_participant ← on_rustdds (participant_new 0);
  Context_from_domain_participant domain_participant.
Definition Context_with_options (opt : ContextOptions PathBuf) : M Context :=
  let dpb := builder_new (domain_id opt) in
  let dpb := match security_config opt with
             | Some sc => builtin_security (security_config_dir sc) (private_key_password sc) dpb
             | None => dpb
             end in
  domain_participant ← on_rustdds (builder_build dpb);
  Context_from_domain_participant domain_participant.

(** The accessors. *)
Definition Context_domain_id (c : Context) : N := participant_domain_id (Participants:=PS) (participant c).
Definition Context_discovered_topics (c : Context) (ps : Process) : list Discovered :=
  participant_discovered_topics (participant c) (rustdds ps).
Definition Context_participant_entities_info (c : Context) : ParticipantEntitiesInfo :=
  participant_entities_info (inner (state c)).
Definition get_parameter_events_topic (c : Context) : Topic :=
  ros_parameter_events_topic (state c).
Definition get_rosout_topic (c : Context) : Topic := ros_rosout_topic (state c).
Definition domain_participant (c : Context) : Pt := participant c.
Definition Context_ros_discovery_topic (c : Context) : Topic := ros_discovery_topic (state c).
(** [new_node], on the context's state. *)
Definition Context_new_node {W T} (node_name : NodeName) (options : NodeOptions W) (w : W) (c : Context) :
    Context * result (Exit (CreateError:=CreateError)) (NodeState * ParamStore.Node W T) :=
  let '((asked, i), r) :=
    new_node iron (DP := as_participant (participant c)) node_name options w (asked c, state c) in
  ({| participant := participant c; asked := asked; state := i |}, r).

(** ** Lemmas *)
Context `{!ParticipantsLaws World Builder Pt PathBuf CreateError Discovered}.

(** The default options are those of [Context::new]; without security a context
    is in the domain its options name. *)
Lemma with_options_default ps : Context_with_options ContextOptions_new ps = Context_new ps.
Proof.
  unfold Context_with_options, Context_new, on_rustdds, mbind, stateE_bind. simpl.
  by rewrite build_default.
Qed.
Lemma from_participant_Ok p ps ps' c :
  Context_from_domain_participant p ps = (ps', Ok c) →
  ContextInner_from_domain_participant p = Ok c ∧ distro_checked ps' = true.
Proof.
  unfold Context_from_domain_participant, mbind, stateE_bind, lift_result. simpl.
  destruct (distro_checked ps) eqn:E; intros [= <- ->]; done.
Qed.
Lemma with_options_domain o ps ps' c :
  security_config o = None → Context_with_options o ps = (ps', Ok c) →
  Context_domain_id c = domain_id o.
Proof.
  unfold Context_with_options, on_rustdds, mbind, stateE_bind. intros ->.
  rewrite build_default. destruct (participant_new _ _) as [w [p|e]] eqn:E; [|done].
  intros [H _]%from_participant_Ok. unfold ContextInner_from_domain_participant in H.
  destruct (from_domain_participant _ _) as [l [i|e]]; simplify_eq/=.
  by eapply build_domain.
Qed.
(** A new context has no nodes and has announced nothing. *)
Lemma new_context_fresh p ps ps' c :
  Context_from_domain_participant p ps = (ps', Ok c) → fresh_context (inner (state c)).
Proof.
  intros [H _]%from_participant_Ok. unfold ContextInner_from_domain_participant in H.
  destruct (from_domain_participant _ _) as [l [i|e]] eqn:E; simplify_eq/=.
  unfold from_domain_participant in E. revert E. unfold mbind, stateE_bind.
  destruct (create_group _ _) as [l1 [[]|]]; [|done].
  destruct (create_group _ _) as [l2 [[]|]]; [|done].
  destruct (participant_create_topic _ _ _ _) as [l3 [t3|]]; [|done].
  destruct (participant_create_topic _ _ _ _) as [l4 [t4|]]; [|done].
  destruct (participant_create_topic _ _ _ _) as [l5 [t5|]]; [|done].
  destruct (create_datawriter_no_key _ _ _) as [l6 [w6|]]; [|done].
  by intros [= _ <-].
Qed.

(** Any number of contexts in one process. *)
Inductive creation := New | WithOptions (o : ContextOptions PathBuf) | FromParticipant (p : Pt).
Definition make (k : creation) : M Context :=
  match k with
  | New => Context_new
  | WithOptions o => Context_with_options o
  | FromParticipant p => Context_from_domain_participant p
  end.
Fixpoint make_all (ks : list creation) (ps : Process) : Process * list (result CreateError Context) :=
  match ks with
  | [] => (ps, [])
  | k :: ks => let '(ps, r) := make k ps in let '(ps, rs) := make_all ks ps in (ps, r :: rs)
  end.
(** What the log says, once the check has run. *)
Definition log_ok (env : option str) (ps : Process) : Prop :=
  ros_distro ps = env ∧
  distro_log ps = if distro_checked ps then [verify_ros_distro_env built env] else [].
Lemma make_log k ps env :
  log_ok env ps → log_ok env (make k ps).1 ∧
  (is_ok (make k ps).2 || distro_checked ps → distro_checked (make k ps).1).
Proof.
  intros [He Hl]. unfold log_ok.
  destruct k as [|o|p]; simpl; unfold Context_new, Context_with_options,
    Context_from_domain_participant, on_rustdds, mbind, stateE_bind, lift_result; simpl;
    try destruct (participant_new _ _) as [w []]; try destruct (builder_build _ _) as [w []]; simpl;
    destruct (distro_checked ps) eqn:E; simpl; rewrite ?E, ?Hl, ?He; done.
Qed.
(** The distribution is checked, and what was found logged, once per process,
    whichever contexts are made and whichever fail. *)
Lemma distro_checked_once ks ps env :
  log_ok env ps →
  log_ok env (make_all ks ps).1 ∧
  (existsb is_ok (make_all ks ps).2 || distro_checked ps → distro_checked (make_all ks ps).1).
Proof.
  revert ps. induction ks as [|k ks IH]; intros ps Hps; [by split|]. simpl.
  destruct (make_log k ps env Hps) as [H1 H2]. destruct (make k ps) as [ps1 r]. simpl in *.
  destruct (IH ps1 H1) as [H3 H4]. destruct (make_all ks ps1) as [ps2 rs]. simpl in *.
  split; [done|]. destruct (is_ok r), (existsb is_ok rs), (distro_checked ps), (distro_checked ps1);
    simpl in *; auto.
Qed.
End contexts.

(** ** Nodes *)

(** [NodeCreateError]'s [Display], with RustDDS's of [CreateError]; the third
    exit of DdsNode.v is a panic. *)
Definition show_create_error {CreateError} (show : CreateError → str) (e : Exit (CreateError:=CreateError)) :
    option str :=
  match e with
  | DdsNode.DDS e => Some (lit "NodeCreateError::DDS : " ++ show e)
  | BadParameter s => Some (lit "NodeCreateError::BadParameter : " ++ s)
  | Panics => None
  end.
(** The accessors of [Node]. *)
Definition node_namespace (n : Discovery.Node) : str := namespace (n_name n).
Definition node_base_name (n : Discovery.Node) : str := base_name (n_name n).
Definition node_fully_qualified_name (n : Discovery.Node) : str := fully_qualified_name (n_name n).
Definition node_allow_undeclared_parameters {W T} (n : ParamStore.Node W T) : bool :=
  allow_undeclared_parameters (options n).
