(* ===== verification/MsgParser.v ===== *)
(** * The .msg parser of msggen (bin/msggen/parser.rs, bin/msggen/stringparser.rs)

    The grammar of message definitions, written with the combinators of the
    crate nom. nom is a class: its parsers are functions from the input to a
    result, and [NomLaws] says of each combinator what its documentation says. *)
From S2P Require Import Prelude WideString.

(** ** nom *)

(** [IResult]: the rest of the input and a value; an error [alt] and [many0]
    recover from; a streaming parser that wants more input, which they do not
    recover from; and a panic of a closure. *)
Inductive IResult (A : Type) := Done (rest : str) (a : A) | ParseError | Incomplete | Panicked.
Arguments Done {A} rest a.
Arguments ParseError {A}.
Arguments Incomplete {A}.
Arguments Panicked {A}.
Abbreviation parser A := (str → IResult A).

Definition and_then {A B} (r : IResult A) (f : str → A → IResult B) : IResult B :=
  match r with
  | Done rest a => f rest a
  | ParseError => ParseError
  | Incomplete => Incomplete
  | Panicked => Panicked
  end.
(** The longest prefix whose characters satisfy [p], and the rest. *)
Fixpoint span (p : char → bool) (s : str) : str * str :=
  match s with
  | c :: s' => if p c then let '(a, b) := span p s' in (c :: a, b) else ([], s)
  | [] => ([], [])
  end.

(** A closure given to [map] that panics returns [None]. *)
Class Nom := {
  tag : str → parser str;
  char_ : char → parser char;
  one_of : str → parser char;
  digit1 : parser str;
  alphanumeric1 : parser str;
  space0 : parser str;
  not_line_ending : parser str;
  line_ending : parser str;
  opt : ∀ {A}, parser A → parser (option A);
  alt : ∀ {A}, list (parser A) → parser A;
  map_ : ∀ {A B}, parser A → (A → option B) → parser B;
  value_ : ∀ {A B}, B → parser A → parser B;
  pair_ : ∀ {A B}, parser A → parser B → parser (A * B);
  preceded : ∀ {A B}, parser A → parser B → parser B;
  terminated : ∀ {A B}, parser A → parser B → parser A;
  delimited : ∀ {A B C}, parser A → parser B → parser C → parser B;
  recognize : ∀ {A}, parser A → parser str;
  many0 : ∀ {A}, parser A → parser (list A);
  many1 : ∀ {A}, parser A → parser (list A);
  fold_many0 : ∀ {A B}, parser A → B → (B → A → B) → parser B;
  verify : ∀ {A}, parser A → (A → bool) → parser A;
  map_opt : ∀ {A B}, parser A → (A → option B) → parser B;
  map_res : ∀ {A B}, parser A → (A → option B) → parser B;
  (* nom's streaming variants *)
  streaming_char : char → parser char;
  streaming_is_not : str → parser str;
  take_while_m_n : nat → nat → (char → bool) → parser str;
  multispace1 : parser str;
}.
Definition one_or_more (r : str * str) : IResult str :=
  match r with ([], _) => ParseError | (a, b) => Done b a end.
Definition is_line_end (c : char) : bool := (c =? 10)%N || (c =? 13)%N.
Definition is_blank (c : char) : bool := (c =? 32)%N || (c =? 9)%N.
Definition or_panic {B} (rest : str) (o : option B) : IResult B :=
  match o with Some b => Done rest b | None => Panicked end.
Definition or_error {B} (rest : str) (o : option B) : IResult B :=
  match o with Some b => Done rest b | None => ParseError end.
Class NomLaws `{Nom} := {
  tag_law t s : tag t s = if starts_with t s then Done (drop (length t) s) t else ParseError;
  char_law c s : char_ c s =
    match s with x :: s' => if (x =? c)%N then Done s' c else ParseError | [] => ParseError end;
  one_of_law l s : one_of l s =
    match s with x :: s' => if bool_decide (x ∈ l) then Done s' x else ParseError | [] => ParseError end;
  digit1_law s : digit1 s = one_or_more (span is_ascii_digit s);
  alphanumeric1_law s : alphanumeric1 s = one_or_more (span is_ascii_alphanumeric s);
  space0_law s : space0 s = let '(a, b) := span is_blank s in Done b a;
  (* up to the end of the line; another carriage return is an error *)
  not_line_ending_law s : not_line_ending s =
    let '(a, b) := span (negb ∘ is_line_end) s in
    match b with
    | 13%N :: 10%N :: _ | 10%N :: _ | [] => Done b a
    | _ => ParseError
    end;
  line_ending_law s : line_ending s =
    match s with
    | 10%N :: s' => Done s' [10%N]
    | 13%N :: 10%N :: s' => Done s' [13%N; 10%N]
    | _ => ParseError
    end;
  opt_law {A} (p : parser A) s : opt p s =
    match p s with ParseError => Done s None | r => and_then r (λ rest a, Done rest (Some a)) end;
  alt_nil {A} s : alt ([] : list (parser A)) s = ParseError;
  alt_cons {A} (p : parser A) ps s : alt (p :: ps) s =
    match p s with ParseError => alt ps s | r => r end;
  map_law {A B} (p : parser A) (f : A → option B) s :
    map_ p f s = and_then (p s) (λ rest a, or_panic rest (f a));
  value_law {A B} (b : B) (p : parser A) s : value_ b p s = and_then (p s) (λ rest _, Done rest b);
  pair_law {A B} (p : parser A) (q : parser B) s : pair_ p q s =
    and_then (p s) (λ rest a, and_then (q rest) (λ rest b, Done rest (a, b)));
  preceded_law {A B} (p : parser A) (q : parser B) s :
    preceded p q s = and_then (p s) (λ rest _, q rest);
  terminated_law {A B} (p : parser A) (q : parser B) s : terminated p q s =
    and_then (p s) (λ rest a, and_then (q rest) (λ rest _, Done rest a));
  delimited_law {A B C} (p : parser A) (q : parser B) (t : parser C) s : delimited p q t s =
    and_then (p s) (λ rest _, and_then (q rest) (λ rest b, and_then (t rest) (λ rest _, Done rest b)));
  recognize_law {A} (p : parser A) s : recognize p s =
    and_then (p s) (λ rest _, Done rest (take (length s - length rest) s));
  (* repeats until [p] fails; a [p] that consumes nothing is an error *)
  many0_law {A} (p : parser A) s : many0 p s =
    match p s with
    | ParseError => Done s []
    | Done rest a =>
        if (length rest <? length s)%nat
        then and_then (many0 p rest) (λ rest l, Done rest (a :: l))
        else ParseError
    | Incomplete => Incomplete
    | Panicked => Panicked
    end;
  many1_law {A} (p : parser A) s : many1 p s =
    and_then (p s) (λ rest a, and_then (many0 p rest) (λ rest l, Done rest (a :: l)));
  fold_many0_law {A B} (p : parser A) (b : B) g s :
    fold_many0 p b g s = and_then (many0 p s) (λ rest l, Done rest (fold_left g l b));
  verify_law {A} (p : parser A) f s : verify p f s =
    and_then (p s) (λ rest a, if f a then Done rest a else ParseError);
  map_opt_law {A B} (p : parser A) (f : A → option B) s :
    map_opt p f s = and_then (p s) (λ rest a, or_error rest (f a));
  map_res_law {A B} (p : parser A) (f : A → option B) s :
    map_res p f s = and_then (p s) (λ rest a, or_error rest (f a));
  streaming_char_law c s : streaming_char c s =
    match s with x :: s' => if (x =? c)%N then Done s' c else ParseError | [] => Incomplete end;
  streaming_is_not_law l s : streaming_is_not l s =
    match span (λ c, negb (bool_decide (c ∈ l))) s with
    | (_, []) => Incomplete
    | r => one_or_more r
    end;
}.

(** ** stringparser.rs *)

Definition quote : char := 34%N.
Definition backslash : char := 92%N.
Definition is_ascii_hexdigit (c : char) : bool :=
  is_ascii_digit c || ((65 <=? c) && (c <=? 70))%N || ((97 <=? c) && (c <=? 102))%N.
Definition hex_value (c : char) : N :=
  if is_ascii_digit c then (c - 48)%N else if (c <=? 70)%N then (c - 55)%N else (c - 87)%N.
(** [u32::from_str_radix(_, 16)] of hexadecimal digits: [None] on none and past
    [u32::MAX]. *)
Definition from_hex (s : str) : option N :=
  match s with
  | [] => None
  | _ => fold_left (λ acc c,
           n ← acc; let n := (n * 16 + hex_value c)%N in
           if (n <=? u32_max)%N then Some n else None) s (Some 0%N)
  end.
(** [char::from_u32]. *)
Definition char_from_u32 (n : N) : option char := if is_scalar n then Some n else None.

Section stringparser.
Context `{Nom}.
Definition parse_unicode : parser char :=
  let parse_hex := take_while_m_n 1 6 is_ascii_hexdigit in
  let parse_delimited_hex :=
    preceded (streaming_char 117%N)
      (delimited (streaming_char 123%N) parse_hex (streaming_char 125%N)) in
  let parse_u32 := map_res parse_delimited_hex from_hex in
  map_opt parse_u32 char_from_u32.
Definition parse_escaped_char : parser char :=
  preceded (streaming_char backslash)
    (alt [parse_unicode;
          value_ 10%N (streaming_char 110%N); value_ 13%N (streaming_char 114%N);
          value_ 9%N (streaming_char 116%N); value_ 8%N (streaming_char 98%N);
          value_ 12%N (streaming_char 102%N); value_ backslash (streaming_char backslash);
          value_ slash (streaming_char slash); value_ quote (streaming_char quote)]).
Definition parse_escaped_whitespace : parser str :=
  preceded (streaming_char backslash) multispace1.
Definition parse_literal : parser str :=
  verify (streaming_is_not [quote; backslash]) (λ s, negb (str_is_empty s)).
Inductive StringFragment := Literal (s : str) | EscapedChar (c : char) | EscapedWS.
Definition parse_fragment : parser StringFragment :=
  alt [map_ parse_literal (λ s, Some (Literal s));
       map_ parse_escaped_char (λ c, Some (EscapedChar c));
       value_ EscapedWS parse_escaped_whitespace].
Definition push_fragment (string : str) (fragment : StringFragment) : str :=
  match fragment with
  | Literal s => string ++ s
  | EscapedChar c => string ++ [c]
  | EscapedWS => string
  end.
Definition parse_string : parser str :=
  let build_string := fold_many0 parse_fragment [] push_fragment in
  delimited (streaming_char quote) build_string (streaming_char quote).
End stringparser.

(** ** parser.rs *)

(** [f64]: its [FromStr], and its [Display], which the generator uses. *)
Class Float64 := { f64 : Type; f64_from_str : str → option f64; f64_display : f64 → str }.

Record Comment := { comment_text : str }.
Inductive BaseTypeName :=
| Primitive (name : str)
| BoundedString (bound : N)
| ComplexType (package_name : option str) (type_name : str).
Inductive ArraySpecifier := Static (size : N) | Unbounded | Bounded (bound : N).
Record TypeName := { base : BaseTypeName; array_spec : option ArraySpecifier }.
(** A [Value::String] holds the UTF-8 of a [String]; here, its characters. *)
Inductive Value `{Float64} :=
| Bool (b : bool) | Float (f : f64) | Int (z : Z) | Uint (n : N) | String_ (s : str).
Inductive Item `{Float64} :=
| Field (type_name : TypeName) (field_name : str) (default_value : option Value)
| Constant (type_name : TypeName) (const_name : str) (value : Value).

Definition primitives : list str :=
  lit <$> ["bool"; "byte"; "char"; "float32"; "float64"; "int8"; "int16"; "int32"; "int64";
           "uint8"; "uint16"; "uint32"; "uint64"; "string"; "wstring"]%string.

Section parser.
Context `{Nom, Float64}.
(** Whether the [i64] negation is checked. *)
Variable pr : profile.

Definition identifier : parser str :=
  map_ (recognize (many1 (alt [alphanumeric1; tag (lit "_")]))) Some.
(** [u64::from_str(s).expect("bad uint")]. *)
Definition uint_value : parser N := map_ digit1 (parse_uint u64_max).

Definition array_specifier : parser ArraySpecifier :=
  let array_specifier_inner :=
    alt [map_ (preceded (tag (lit "<=")) uint_value) (λ bound, Some (Bounded bound));
         map_ uint_value (λ size, Some (Static size));
         map_ space0 (λ _, Some Unbounded)] in
  delimited (char_ 91%N) array_specifier_inner (char_ 93%N).
Definition bounded_string : parser BaseTypeName :=
  map_ (preceded (tag (lit "string<=")) uint_value) (λ bound, Some (BoundedString bound)).
Definition primitive_type : parser BaseTypeName :=
  map_ (alt (tag <$> primitives)) (λ s, Some (Primitive s)).
Definition complex_type : parser BaseTypeName :=
  map_ (pair_ (opt (terminated identifier (tag [slash]))) identifier)
    (λ '(package_name, type_name), Some (ComplexType package_name type_name)).
Definition type_spec : parser TypeName := λ i,
  and_then (pair_ (alt [bounded_string; primitive_type; complex_type]) (opt array_specifier) i)
    (λ i '(base, array_spec), Done i {| base := base; array_spec := array_spec |}).

Definition decimal : parser str :=
  recognize (many1 (terminated (one_of (lit "0123456789")) (many0 (char_ underscore)))).
Definition float : parser f64 :=
  map_
    (alt [recognize (pair_ (char_ 46%N) (pair_ decimal
            (opt (pair_ (one_of (lit "eE")) (pair_ (opt (one_of (lit "+-"))) decimal)))));
          recognize (pair_ decimal (pair_ (opt (preceded (char_ 46%N) decimal))
            (pair_ (one_of (lit "eE")) (pair_ (opt (one_of (lit "+-"))) decimal))));
          recognize (pair_ decimal (pair_ (char_ 46%N) (opt decimal)))])
    f64_from_str.
(** [-(i as i64)]. *)
Definition negated (i : N) : option Value :=
  Int <$> arith pr 64 (- wrap_signed 64 (Z.of_N i))%Z.
Definition value_spec : parser Value :=
  let bool_value := alt [value_ (Bool false) (tag (lit "false")); value_ (Bool true) (tag (lit "true"))] in
  let float_value := map_ float (λ f, Some (Float f)) in
  let string_value := map_ parse_string (λ s, Some (String_ s)) in
  let u_int_value := map_ uint_value (λ n, Some (Uint n)) in
  let int_value := map_ (preceded (tag (lit "-")) uint_value) negated in
  alt [bool_value; float_value; int_value; u_int_value; string_value].

Definition field : parser Item := λ i,
  and_then (type_spec i) (λ i type_name,
  and_then (space0 i) (λ i _,
  and_then (identifier i) (λ i field_name,
  Done i (Field type_name field_name None)))).
Definition constant : parser Item := λ i,
  and_then (type_spec i) (λ i type_name,
  and_then (space0 i) (λ i _,
  and_then (identifier i) (λ i const_name,
  and_then (space0 i) (λ i _,
  and_then (tag (lit "=") i) (λ i _,
  and_then (space0 i) (λ i _,
  and_then (value_spec i) (λ i value,
  Done i (Constant type_name const_name value)))))))).
Definition item : parser (option Item) :=
  map_ (delimited space0 (alt [constant; field]) space0) (λ i, Some (Some i)).
Definition just_space : parser (option Item) := value_ None space0.
Definition comment : parser Comment :=
  map_ (recognize (pair_ (tag (lit "#")) not_line_ending)) (λ s, Some {| comment_text := s |}).
Definition line : parser (option Item * option Comment) :=
  terminated (pair_ (alt [item; just_space]) (opt comment)) line_ending.
Definition msg_spec : parser (list (option Item * option Comment)) := many0 line.
End parser.

(** ** How a message definition is written *)
Section writing.
Context `{Float64}.
Definition print_base (b : BaseTypeName) : str :=
  match b with
  | Primitive name => name
  | BoundedString bound => lit "string<=" ++ show_N bound
  | ComplexType (Some p) t => p ++ slash :: t
  | ComplexType None t => t
  end.
Definition print_array (a : option ArraySpecifier) : str :=
  match a with
  | None => []
  | Some Unbounded => lit "[]"
  | Some (Static n) => lit "[" ++ show_N n ++ lit "]"
  | Some (Bounded n) => lit "[<=" ++ show_N n ++ lit "]"
  end.
Definition print_type (t : TypeName) : str := print_base (base t) ++ print_array (array_spec t).
(** Quotes and backslashes escaped. *)
Definition escape (s : str) : str :=
  s ≫= λ c, if bool_decide (c ∈ [quote; backslash]) then [backslash; c] else [c].

Definition is_ident_char (c : char) : bool := is_ascii_alphanumeric c || (c =? underscore)%N.
Definition wf_ident (s : str) : Prop := s ≠ [] ∧ Forall (λ c, is_ident_char c = true) s.
(** No primitive type's name is a prefix, which the grammar takes for the type. *)
Definition not_primitive (s : str) : Prop := Forall (λ p, starts_with p s = false) primitives.
Definition wf_base (b : BaseTypeName) : Prop :=
  match b with
  | Primitive name => name ∈ primitives
  | BoundedString bound => (bound <= u64_max)%N
  | ComplexType (Some p) t => wf_ident p ∧ wf_ident t ∧ not_primitive p
  | ComplexType None t => wf_ident t ∧ not_primitive t
  end.
Definition wf_array (a : option ArraySpecifier) : Prop :=
  match a with Some (Static n) | Some (Bounded n) => (n <= u64_max)%N | _ => True end.
(** The literals of [float]: they have a decimal point or an exponent, and no
    sign. *)
Definition is_decimal_char (c : char) : bool := is_ascii_digit c || (c =? underscore)%N.
Definition decimal_text (t : str) : Prop :=
  ∃ c r, t = c :: r ∧ is_ascii_digit c = true ∧ Forall (λ c, is_decimal_char c = true) r.
Definition exponent_text (t : str) : Prop :=
  ∃ e sign d, t = e :: sign ++ d ∧ e ∈ lit "eE" ∧ (sign = [] ∨ sign = lit "+" ∨ sign = lit "-") ∧
    decimal_text d.
Definition or_none (p : str → Prop) (t : str) : Prop := t = [] ∨ p t.
Definition fraction_text (t : str) : Prop := ∃ d, t = 46%N :: d ∧ decimal_text d.
Definition float_literal (t : str) : Prop :=
  (∃ f e, t = f ++ e ∧ fraction_text f ∧ or_none exponent_text e) ∨
  (∃ d f e, t = d ++ f ++ e ∧ decimal_text d ∧ or_none fraction_text f ∧ exponent_text e) ∨
  (∃ d r, t = d ++ 46%N :: r ∧ decimal_text d ∧ or_none decimal_text r).
(** The texts of a value; the program's integers have a minus sign, and what
    follows it is a [u64] whose negation wraps around. *)
Definition value_text (pr : profile) (v : Value) (t : str) : Prop :=
  match v with
  | Bool b => t = if b then lit "true" else lit "false"
  | Float f => float_literal t ∧ f64_from_str t = Some f
  | Int z => in_i64 z ∧ (pr = Debug → z ≠ i64_min) ∧ t = lit "-" ++ show_N (Z.to_N ((- z) `mod` 2 ^ 64))
  | Uint n => (n <= u64_max)%N ∧ t = show_N n
  | String_ s => t = quote :: escape s ++ [quote]
  end.
Definition wf_type (t : TypeName) : Prop := wf_base (base t) ∧ wf_array (array_spec t).
Definition item_text (pr : profile) (i : Item) (t : str) : Prop :=
  match i with
  | Field ty n d => wf_type ty ∧ wf_ident n ∧ d = None ∧ t = print_type ty ++ lit " " ++ n
  | Constant ty n v => wf_type ty ∧ wf_ident n ∧
      ∃ u, value_text pr v u ∧ t = print_type ty ++ lit " " ++ n ++ lit "=" ++ u
  end.
Definition wf_comment (c : Comment) : Prop :=
  ∃ s, comment_text c = 35%N :: s ∧ 13%N ∉ s ∧ 10%N ∉ s.
Definition line_text (pr : profile) (l : option Item * option Comment) (t : str) : Prop :=
  ∃ u, t = u ++ [10%N] ∧
  match l with
  | (None, None) => u = []
  | (None, Some c) => wf_comment c ∧ u = comment_text c
  | (Some i, None) => item_text pr i u
  | (Some i, Some c) => wf_comment c ∧ ∃ v, item_text pr i v ∧ u = v ++ lit " " ++ comment_text c
  end.
(** The text of a definition, line by line. *)
Definition msg_text (pr : profile) (ls : list (option Item * option Comment)) (t : str) : Prop :=
  ∃ ts, Forall2 (line_text pr) ls ts ∧ t = concat ts.
End writing.

(** ** Lemmas *)

Lemma span_app p a x s : Forall (λ c, p c = true) a → p x = false → span p (a ++ x :: s) = (a, x :: s).
Proof. induction 1 as [|c a Hc _ IH]; simpl; intros Hx; [by rewrite Hx|]. by rewrite Hc, IH. Qed.
Lemma span_prefix p s : let '(a, b) := span p s in s = a ++ b ∧ Forall (λ c, p c = true) a ∧
  match b with [] => True | x :: _ => p x = false end.
Proof.
  induction s as [|c s IH]; simpl; [done|]. destruct (p c) eqn:Hc; [|done].
  destruct (span p s) as [a b]. destruct IH as (-> & ? & ?). split_and!; [done| |done]. by constructor.
Qed.
Lemma starts_with_app t s : starts_with t (t ++ s) = true.
Proof. induction t as [|c t IH]; [by destruct s|]. simpl. by rewrite N.eqb_refl. Qed.
(** A prefix made of other characters than [x] lies within what precedes it. *)
Lemma starts_with_before t a x s :
  x ∉ t → starts_with t (a ++ x :: s) = starts_with t a.
Proof.
  revert a. induction t as [|c t IH]; intros a Hx; [by destruct a|].
  apply not_elem_of_cons in Hx as [Hc Ht]. destruct a as [|d a]; simpl.
  - by rewrite (proj2 (N.eqb_neq c x)) by congruence.
  - by rewrite IH.
Qed.
Lemma digit_ident c : is_ascii_digit c = true → is_ident_char c = true.
Proof. unfold is_ident_char, is_ascii_alphanumeric. intros ->. by rewrite orb_true_r. Qed.

Section combinators.
Context `{Nom, !NomLaws}.

Lemma recognize_done {A} (p : parser A) a s v :
  p (a ++ s) = Done s v → recognize p (a ++ s) = Done s a.
Proof.
  intros Hp. rewrite recognize_law, Hp. simpl. rewrite length_app.
  replace (length a + length s - length s) with (length a) by lia. by rewrite take_app_length.
Qed.
Lemma many0_cons {A} (p : parser A) a s v r l :
  a ≠ [] → p (a ++ s) = Done s v → many0 p s = Done r l → many0 p (a ++ s) = Done r (v :: l).
Proof.
  intros Ha Hp Hs. rewrite many0_law, Hp, length_app.
  destruct (Nat.ltb_spec (length s) (length a + length s)) as [|Hl]; [by rewrite Hs|].
  destruct a; simpl in Hl; [done|lia].
Qed.
Lemma many0_nil {A} (p : parser A) s : p s = ParseError → many0 p s = Done s [].
Proof. intros Hp. by rewrite many0_law, Hp. Qed.
Lemma many1_of_many0 {A} (p : parser A) s r v l :
  many0 p s = Done r (v :: l) → many1 p s = Done r (v :: l).
Proof.
  rewrite many0_law, many1_law. destruct (p s) as [rest a| | |]; simpl; try done.
  destruct (_ <? _); [|done]. by destruct (many0 p rest); simpl; intros [= -> -> ->].
Qed.

Lemma tag_other c t x s : x ≠ c → tag (c :: t) (x :: s) = ParseError.
Proof.
  intros Hx. rewrite tag_law. simpl. by rewrite (proj2 (N.eqb_neq c x)) by congruence.
Qed.
Lemma tag_ok t s : tag t (t ++ s) = Done s t.
Proof. by rewrite tag_law, starts_with_app, drop_app_length. Qed.

(** *** Identifiers, blanks, numbers *)
Lemma ident_char_cases c : is_ident_char c = true → is_ascii_alphanumeric c = true ∨ c = underscore.
Proof. unfold is_ident_char. intros [?|?%N.eqb_eq]%orb_prop; auto. Qed.
Lemma span_split p a x s : p x = false →
  ∃ a1 a2, a = a1 ++ a2 ∧ span p (a ++ x :: s) = (a1, a2 ++ x :: s) ∧
    match a2 with [] => True | y :: _ => p y = false end ∧ Forall (λ c, p c = true) a1.
Proof.
  intros Hx. pose proof (span_prefix p a) as Ha. destruct (span p a) as [a1 a2].
  destruct Ha as (-> & H1 & H2). exists a1, a2. split_and!; [done| |done|done].
  rewrite <-app_assoc. destruct a2 as [|y a2]; by apply span_app.
Qed.
Lemma ident_fragment c a x s :
  is_ident_char c = true → is_ident_char x = false →
  ∃ a1 a2 v, c :: a = a1 ++ a2 ∧ a1 ≠ [] ∧
    alt [alphanumeric1; tag (lit "_")] (c :: a ++ x :: s) = Done (a2 ++ x :: s) v.
Proof.
  intros Hc Hx. rewrite !alt_cons, alt_nil, alphanumeric1_law, tag_law.
  assert (is_ascii_alphanumeric x = false) as Hx'.
  { destruct (is_ascii_alphanumeric x) eqn:E; [|done]. unfold is_ident_char in Hx. by rewrite E in Hx. }
  destruct (ident_char_cases c Hc) as [Hal| ->].
  - destruct (span_split is_ascii_alphanumeric (c :: a) x s Hx') as (a1 & a2 & Ha & Hs & H2 & H1).
    change (c :: a ++ x :: s) with ((c :: a) ++ x :: s). rewrite Hs.
    destruct a1 as [|c1 a1]; simpl in Ha.
    { destruct a2; simplify_eq. congruence. }
    by exists (c1 :: a1), a2, (c1 :: a1).
  - by exists [underscore], a, (lit "_").
Qed.
Lemma ident_chunk_fails x s : is_ident_char x = false →
  alt [alphanumeric1; tag (lit "_")] (x :: s) = ParseError.
Proof.
  unfold is_ident_char. intros [Hx1 Hx2%N.eqb_neq]%orb_false_iff.
  rewrite !alt_cons, alt_nil, alphanumeric1_law. simpl. rewrite Hx1. simpl.
  change (lit "_") with [underscore]. by rewrite tag_other.
Qed.
Lemma ident_many0 a x s :
  Forall (λ c, is_ident_char c = true) a → is_ident_char x = false →
  ∃ l, many0 (alt [alphanumeric1; tag (lit "_")]) (a ++ x :: s) = Done (x :: s) l ∧
    (a ≠ [] → ∃ v l', l = v :: l').
Proof.
  intros Ha Hx. induction a as [a IH] using (induction_ltof1 _ (@length N)).
  destruct a as [|c a].
  - exists []. split; [|done]. apply many0_nil. by apply ident_chunk_fails.
  - inversion_clear Ha as [|? ? Hc Ha'].
    destruct (ident_fragment c a x s Hc Hx) as (a1 & a2 & v & Hsplit & H1 & Hp).
    assert (Forall (λ c, is_ident_char c = true) (a1 ++ a2)) as Hall by (rewrite <-Hsplit; by constructor).
    apply Forall_app in Hall as [_ Hall2].
    destruct (IH a2) as (l & Hl & _); [|done|].
    { unfold ltof. rewrite Hsplit, length_app. destruct a1; [done|simpl; lia]. }
    exists (v :: l). split; [|eauto].
    rewrite Hsplit, <-app_assoc. apply many0_cons; [done| |done].
    change (c :: a ++ x :: s) with ((c :: a) ++ x :: s) in Hp. by rewrite Hsplit, <-app_assoc in Hp.
Qed.
Lemma identifier_ok a x s :
  wf_ident a → is_ident_char x = false → identifier (a ++ x :: s) = Done (x :: s) a.
Proof.
  intros [Hne Ha] Hx. destruct (ident_many0 a x s Ha Hx) as (l & Hl & Hn).
  destruct (Hn Hne) as (v & l' & ->). apply many1_of_many0, recognize_done in Hl.
  unfold identifier. by rewrite map_law, Hl.
Qed.
Lemma identifier_fails x s : is_ident_char x = false → identifier (x :: s) = ParseError.
Proof.
  intros Hx. unfold identifier. by rewrite map_law, recognize_law, many1_law, ident_chunk_fails.
Qed.
Lemma digit1_ok a x s :
  a ≠ [] → Forall (λ c, is_ascii_digit c = true) a → is_ascii_digit x = false →
  digit1 (a ++ x :: s) = Done (x :: s) a.
Proof. intros Hne Ha Hx. rewrite digit1_law, span_app by done. by destruct a. Qed.
Lemma uint_ok n x s :
  (n <= u64_max)%N → is_ascii_digit x = false → uint_value (show_N n ++ x :: s) = Done (x :: s) n.
Proof.
  intros Hn Hx. unfold uint_value. rewrite map_law, digit1_ok;
    [|apply show_N_nonempty|apply show_N_digits|done]. simpl. by rewrite parse_show_N.
Qed.
Lemma uint_fails x s : is_ascii_digit x = false → uint_value (x :: s) = ParseError.
Proof. intros Hx. unfold uint_value. rewrite map_law, digit1_law. simpl. by rewrite Hx. Qed.
Lemma space0_one x s : is_blank x = false → space0 (32%N :: x :: s) = Done (x :: s) [32%N].
Proof. intros Hx. rewrite space0_law. simpl. by rewrite Hx. Qed.
Lemma space0_none x s : is_blank x = false → space0 (x :: s) = Done (x :: s) [].
Proof. intros Hx. rewrite space0_law. simpl. by rewrite Hx. Qed.

(** *** Types *)
Lemma alt_tags ts a x s :
  Forall (λ t, x ∉ t) ts →
  alt (tag <$> ts) (a ++ x :: s) =
    match List.find (λ t, starts_with t a) ts with
    | Some t => Done (drop (length t) (a ++ x :: s)) t
    | None => ParseError
    end.
Proof.
  induction 1 as [|t ts Ht _ IH]; [apply alt_nil|].
  rewrite fmap_cons, alt_cons, tag_law, starts_with_before by done. simpl.
  by destruct (starts_with t a).
Qed.
Lemma primitives_found : Forall (λ n, List.find (λ t, starts_with t n) primitives = Some n) primitives.
Proof. repeat (constructor; [reflexivity|]). constructor. Qed.
Lemma primitives_ident : Forall (λ t, Forall (λ c, is_ident_char c = true) t) primitives.
Proof. repeat (constructor; [repeat (constructor; [reflexivity|]); constructor|]). constructor. Qed.
Lemma not_in_primitives x : is_ident_char x = false → Forall (λ t, x ∉ t) primitives.
Proof.
  intros Hx. eapply Forall_impl; [apply primitives_ident|]. simpl. intros t Ht Hin.
  rewrite Forall_forall in Ht. rewrite (Ht x Hin) in Hx. done.
Qed.
Lemma starts_with_app_l t1 t2 s : starts_with (t1 ++ t2) s = true → starts_with t1 s = true.
Proof.
  revert s. induction t1 as [|c t1 IH]; intros [|d s]; simpl; try done.
  rewrite !andb_true_iff. intros [? ?]. eauto.
Qed.
Lemma not_primitive_find a : not_primitive a → List.find (λ t, starts_with t a) primitives = None.
Proof. unfold not_primitive. induction 1 as [|t ts Ht _ IH]; simpl; [done|]. by rewrite Ht. Qed.

(** What follows a base type: the blank before the name, an array, a slash. *)
Definition ends_base (x : char) : Prop := x = 32%N ∨ x = 91%N ∨ x = slash.
Lemma ends_base_ident x : ends_base x → is_ident_char x = false.
Proof. by intros [->|[->| ->]]. Qed.
Lemma bounded_string_fails a x s :
  ends_base x → starts_with (lit "string<=") a = false → bounded_string (a ++ x :: s) = ParseError.
Proof.
  intros Hx Ha. unfold bounded_string. rewrite map_law, preceded_law, tag_law, starts_with_before, Ha;
    [done|]. destruct Hx as [->|[->| ->]]; by apply (bool_decide_eq_false_1 _).
Qed.
Lemma primitive_type_eq a x s :
  ends_base x → primitive_type (a ++ x :: s) =
    match List.find (λ t, starts_with t a) primitives with
    | Some t => Done (drop (length t) (a ++ x :: s)) (Primitive t)
    | None => ParseError
    end.
Proof.
  intros Hx. unfold primitive_type. rewrite map_law, alt_tags by by apply not_in_primitives, ends_base_ident.
  by destruct (List.find _ _).
Qed.
Lemma not_primitive_bounded a : not_primitive a → starts_with (lit "string<=") a = false.
Proof.
  intros Ha. destruct (starts_with (lit "string<=") a) eqn:E; [|done].
  apply (starts_with_app_l (lit "string") (lit "<=")) in E.
  unfold not_primitive in Ha. rewrite Forall_forall in Ha. rewrite Ha in E; [done|].
  by apply (bool_decide_eq_true_1 _).
Qed.
Lemma base_ok b x s :
  wf_base b → x = 32%N ∨ x = 91%N →
  alt [bounded_string; primitive_type; complex_type] (print_base b ++ x :: s) = Done (x :: s) b.
Proof.
  intros Hb Hx. assert (ends_base x) as He by (unfold ends_base; tauto).
  rewrite !alt_cons, alt_nil. destruct b as [name|bound|[p|] t]; cbn [wf_base print_base] in *.
  - rewrite bounded_string_fails; [|done|].
    2: { revert name Hb. apply Forall_forall. repeat (constructor; [reflexivity|]). constructor. }
    rewrite primitive_type_eq, (proj1 (Forall_forall _ _) primitives_found name Hb) by done.
    by rewrite drop_app_length.
  - unfold bounded_string at 1. rewrite map_law, preceded_law, <-app_assoc, tag_ok. simpl.
    rewrite uint_ok; [done..|]. by destruct Hx as [->| ->].
  - destruct Hb as (Hp & Ht & Hnp). rewrite <-app_assoc. simpl.
    assert (ends_base slash) as Hsl by (right; by right).
    rewrite bounded_string_fails, primitive_type_eq, not_primitive_find
      by (done || by apply not_primitive_bounded).
    unfold complex_type. rewrite map_law, pair_law, opt_law, terminated_law, identifier_ok by done.
    cbn [and_then]. change (slash :: t ++ x :: s) with ([slash] ++ t ++ x :: s).
    rewrite tag_ok. cbn [and_then].
    rewrite identifier_ok; [done..|]. by apply ends_base_ident.
  - destruct Hb as (Ht & Hnp).
    rewrite bounded_string_fails, primitive_type_eq, not_primitive_find
      by (done || by apply not_primitive_bounded).
    unfold complex_type. rewrite map_law, pair_law, opt_law, terminated_law, identifier_ok
      by (done || by apply ends_base_ident).
    simpl. rewrite tag_other by (by destruct Hx as [->| ->]). simpl.
    rewrite identifier_ok; [done..|]. by apply ends_base_ident.
Qed.
Lemma char_ok c s : char_ c (c :: s) = Done s c.
Proof. by rewrite char_law, N.eqb_refl. Qed.
Lemma char_other c x s : x ≠ c → char_ c (x :: s) = ParseError.
Proof. intros Hx. by rewrite char_law, (proj2 (N.eqb_neq _ _) Hx). Qed.
Lemma show_N_head n : ∃ d ds, show_N n = d :: ds ∧ is_ascii_digit d = true.
Proof.
  pose proof (show_N_nonempty n) as Hn. pose proof (show_N_digits n) as Hd.
  destruct (show_N n) as [|d ds]; [done|]. inversion_clear Hd. eauto.
Qed.
Lemma digit_not c d : is_ascii_digit d = true → is_ascii_digit c = false → d ≠ c.
Proof. intros Hd Hc ->. congruence. Qed.

Lemma array_ok a s :
  wf_array a → opt array_specifier (print_array a ++ 32%N :: s) = Done (32%N :: s) a.
Proof.
  intros Ha. rewrite opt_law. unfold array_specifier. rewrite delimited_law.
  destruct a as [[n| |n]|]; cbn [print_array wf_array] in *.
  - destruct (show_N_head n) as (d & ds & Hd & Hdig).
    change (lit "[") with [91%N]. change (lit "]") with [93%N]. rewrite <-!app_assoc. simpl. rewrite char_ok. cbn [and_then].
    rewrite !alt_cons, map_law, preceded_law, Hd. simpl.
    change (lit "<=") with [60%N; 61%N]. rewrite tag_other by by apply digit_not.
    change (d :: ds ++ 93%N :: 32%N :: s) with ((d :: ds) ++ 93%N :: 32%N :: s). rewrite <-Hd.
    cbn [and_then]. rewrite map_law, uint_ok by done. simpl. by rewrite char_ok.
  - change (lit "[]") with [91%N; 93%N]. simpl. rewrite char_ok. cbn [and_then].
    rewrite !alt_cons, !map_law, preceded_law. change (lit "<=") with [60%N; 61%N].
    rewrite tag_other by done. cbn [and_then]. rewrite uint_fails by done. cbn [and_then].
    rewrite space0_none by done. simpl. by rewrite char_ok.
  - change (lit "[<=") with [91%N; 60%N; 61%N]. change (lit "]") with [93%N]. rewrite <-!app_assoc. simpl. rewrite char_ok.
    cbn [and_then]. rewrite !alt_cons, map_law, preceded_law.
    change (60%N :: 61%N :: show_N n ++ 93%N :: 32%N :: s)
      with (lit "<=" ++ show_N n ++ 93%N :: 32%N :: s).
    rewrite tag_ok. cbn [and_then]. rewrite uint_ok by done. simpl. by rewrite char_ok.
  - simpl. by rewrite char_other.
Qed.
Lemma print_array_head a s : ∃ x r, print_array a ++ 32%N :: s = x :: r ∧ (x = 32%N ∨ x = 91%N).
Proof. destruct a as [[| |]|]; simpl; eauto. Qed.
Lemma type_ok t s :
  wf_base (base t) → wf_array (array_spec t) →
  type_spec (print_type t ++ 32%N :: s) = Done (32%N :: s) t.
Proof.
  intros Hb Ha. unfold type_spec, print_type. rewrite <-app_assoc, pair_law.
  destruct (print_array_head (array_spec t) s) as (x & r & Hx & Hxs).
  pose proof (array_ok _ s Ha) as Hok. rewrite Hx in *.
  rewrite base_ok by done. cbn [and_then]. rewrite Hok. by destruct t.
Qed.

(** *** Strings *)
Lemma escape_app a b : escape (a ++ b) = escape a ++ escape b.
Proof. apply bind_app. Qed.
Lemma escape_plain a :
  Forall (λ c, negb (bool_decide (c ∈ [quote; backslash])) = true) a → escape a = a.
Proof.
  unfold escape. induction 1 as [|c a Hc _ IH]; [done|]. rewrite bind_cons, IH.
  by destruct (bool_decide _).
Qed.
Lemma parse_literal_ok a x s :
  a ≠ [] → Forall (λ c, negb (bool_decide (c ∈ [quote; backslash])) = true) a →
  x ∈ [quote; backslash] → parse_literal (a ++ x :: s) = Done (x :: s) a.
Proof.
  intros Hne Ha Hx. unfold parse_literal. rewrite verify_law, streaming_is_not_law, span_app;
    [|done|by rewrite bool_decide_eq_true_2]. by destruct a.
Qed.
Lemma parse_literal_fails x s : x ∈ [quote; backslash] → parse_literal (x :: s) = ParseError.
Proof.
  intros Hx. unfold parse_literal. rewrite verify_law, streaming_is_not_law. simpl.
  by rewrite bool_decide_eq_true_2.
Qed.
Lemma streaming_char_other c x s : x ≠ c → streaming_char c (x :: s) = ParseError.
Proof. intros Hx. by rewrite streaming_char_law, (proj2 (N.eqb_neq _ _) Hx). Qed.
Lemma streaming_char_ok c s : streaming_char c (c :: s) = Done s c.
Proof. by rewrite streaming_char_law, N.eqb_refl. Qed.
Lemma escaped_ok c s :
  c ∈ [quote; backslash] → parse_escaped_char (backslash :: c :: s) = Done s c.
Proof.
  intros Hc. unfold parse_escaped_char. rewrite preceded_law, streaming_char_ok. cbn [and_then].
  rewrite !alt_cons, alt_nil. unfold parse_unicode. rewrite map_opt_law, map_res_law, preceded_law.
  rewrite !value_law, !streaming_char_law.
  repeat (apply elem_of_cons in Hc as [->|Hc]; [done|]). by apply elem_of_nil in Hc.
Qed.
Lemma fragments_ok s r :
  ∃ l, many0 parse_fragment (escape s ++ quote :: r) = Done (quote :: r) l ∧
    ∀ acc, fold_left push_fragment l acc = acc ++ s.
Proof.
  induction s as [s IH] using (induction_ltof1 _ (@length N)). unfold ltof in IH.
  pose proof (span_prefix (λ c, negb (bool_decide (c ∈ [quote; backslash]))) s) as Hs.
  destruct (span _ s) as [a b]. destruct Hs as (-> & Ha & Hb).
  destruct a as [|c a].
  - destruct b as [|c b].
    + exists []. split; [|intros; by rewrite app_nil_r]. apply many0_nil. unfold parse_fragment.
      rewrite !alt_cons, alt_nil, !map_law, value_law, parse_literal_fails by by left. cbn [and_then].
      unfold parse_escaped_char, parse_escaped_whitespace.
      by rewrite !preceded_law, !streaming_char_other.
    + destruct (IH b) as (l & Hl & Hf); [simpl; lia|]. exists (EscapedChar c :: l).
      apply negb_false_iff, bool_decide_eq_true_1 in Hb. split.
      * change (escape ([] ++ c :: b)) with (escape ([c] ++ b)). rewrite escape_app.
        assert (escape [c] = [backslash; c]) as ->.
        { unfold escape. simpl. by rewrite bool_decide_eq_true_2. }
        rewrite <-app_assoc. apply many0_cons; [done| |done].
        unfold parse_fragment. simpl. rewrite !alt_cons, !map_law, parse_literal_fails by (right; by left).
        cbn [and_then]. by rewrite escaped_ok.
      * intros acc. simpl. by rewrite Hf, <-app_assoc.
  - destruct (IH b) as (l & Hl & Hf); [simpl; rewrite length_app; lia|].
    exists (Literal (c :: a) :: l). split.
    + rewrite escape_app, escape_plain, <-app_assoc by done. apply many0_cons; [done| |done].
      assert (∃ x t, escape b ++ quote :: r = x :: t ∧ x ∈ [quote; backslash]) as (x & t & -> & Hx).
      { destruct b as [|d b]; [exists quote, r; split; [done|by left]|].
        apply negb_false_iff in Hb. unfold escape. rewrite bind_cons, Hb. simpl.
        eexists _, _. split; [done|]. right. by left. }
      unfold parse_fragment. by rewrite !alt_cons, map_law, parse_literal_ok.
    + intros acc. cbn [fold_left push_fragment]. by rewrite Hf, <-app_assoc.
Qed.
Lemma parse_string_ok s r :
  parse_string (quote :: escape s ++ quote :: r) = Done r s.
Proof.
  unfold parse_string. rewrite delimited_law, streaming_char_ok. cbn [and_then].
  destruct (fragments_ok s r) as (l & Hl & Hf). rewrite fold_many0_law, Hl. cbn [and_then].
  by rewrite streaming_char_ok, Hf.
Qed.

(** *** Values *)
Lemma digit_elem c : is_ascii_digit c = true ↔ c ∈ lit "0123456789".
Proof.
  change (lit "0123456789") with [48; 49; 50; 51; 52; 53; 54; 55; 56; 57]%N.
  unfold is_ascii_digit. rewrite andb_true_iff, !N.leb_le. rewrite !elem_of_cons, elem_of_nil. lia.
Qed.
Lemma digit_unit_fails x s :
  is_ascii_digit x = false →
  terminated (one_of (lit "0123456789")) (many0 (char_ underscore)) (x :: s) = ParseError.
Proof.
  intros Hx. rewrite terminated_law, one_of_law, bool_decide_eq_false_2; [done|].
  rewrite <-digit_elem. congruence.
Qed.
Lemma underscores_ok n x s :
  x ≠ underscore → ∃ l, many0 (char_ underscore) (replicate n underscore ++ x :: s) = Done (x :: s) l.
Proof.
  intros Hx. induction n as [|n [l IH]].
  - exists []. apply many0_nil. by apply char_other.
  - exists (underscore :: l). apply (many0_cons _ [underscore]); [done| |done]. apply char_ok.
Qed.
(** The underscores after a digit, and the digits after these. *)
Lemma decimal_split r :
  Forall (λ c, is_decimal_char c = true) r →
  ∃ n d, r = replicate n underscore ++ d ∧ (d = [] ∨ decimal_text d).
Proof.
  induction 1 as [|c r Hc Hr (n & d & -> & Hd)]; [exists 0%nat, []; by split; [|left]|].
  apply orb_prop in Hc as [Hc|Hc%N.eqb_eq]; [|subst c; by exists (S n), d].
  exists 0%nat, (c :: replicate n underscore ++ d). split; [done|]. right. by eexists _, _.
Qed.
Definition ends_decimal (x : char) : Prop := is_decimal_char x = false.
Lemma ends_decimal_inv x : ends_decimal x → is_ascii_digit x = false ∧ x ≠ underscore.
Proof. intros [? ?%N.eqb_neq]%orb_false_iff. by split. Qed.
Lemma decimal_many0 a x s :
  (a = [] ∨ decimal_text a) → ends_decimal x →
  ∃ l, many0 (terminated (one_of (lit "0123456789")) (many0 (char_ underscore))) (a ++ x :: s) =
    Done (x :: s) l ∧ (a ≠ [] → ∃ v l', l = v :: l').
Proof.
  intros Ha [Hx Hu]%ends_decimal_inv. induction a as [a IH] using (induction_ltof1 _ (@length N)).
  destruct Ha as [->|(c & r & -> & Hc & Hr)].
  { exists []. split; [|done]. by apply many0_nil, digit_unit_fails. }
  destruct (decimal_split r Hr) as (n & d & -> & Hd).
  destruct (IH d) as (l & Hl & _); [unfold ltof; simpl; rewrite length_app; lia|done|].
  exists (c :: l). split; [|eauto]. simpl. rewrite <-app_assoc.
  change (c :: replicate n underscore ++ d ++ x :: s) with ((c :: replicate n underscore) ++ d ++ x :: s).
  apply many0_cons; [done| |done]. simpl.
  rewrite terminated_law, one_of_law, bool_decide_eq_true_2 by by apply digit_elem. cbn [and_then].
  assert (∃ y u, d ++ x :: s = y :: u ∧ y ≠ underscore) as (y & u & -> & Hy).
  { destruct Hd as [->|(y & u & -> & Hy & _)]; [by exists x, s|]. exists y, (u ++ x :: s). split; [done|].
    by apply digit_not. }
  by destruct (underscores_ok n y u Hy) as [l' ->].
Qed.
Lemma decimal_ok a x s : decimal_text a → ends_decimal x → decimal (a ++ x :: s) = Done (x :: s) a.
Proof.
  intros Ha Hx. destruct (decimal_many0 a x s (or_intror Ha) Hx) as (l & Hl & Hn).
  destruct Hn as (v & l' & ->); [by destruct Ha as (? & ? & -> & _)|].
  eapply recognize_done, many1_of_many0. exact Hl.
Qed.
Lemma decimal_fails x s : is_ascii_digit x = false → decimal (x :: s) = ParseError.
Proof. intros Hx. unfold decimal. by rewrite recognize_law, many1_law, digit_unit_fails. Qed.

(** What follows a value: the blank before a comment or the end of the line. *)
Definition ends_value (x : char) : Prop := x = 32%N ∨ x = 10%N.
Context `{Float64}.
Lemma float_fails_head x s : is_ascii_digit x = false → x ≠ 46%N → float (x :: s) = ParseError.
Proof.
  intros Hx Hd. unfold float. rewrite map_law, !alt_cons, alt_nil, !recognize_law, !pair_law.
  by rewrite char_other, decimal_fails.
Qed.
Abbreviation exponent := (pair_ (one_of (lit "eE")) (pair_ (opt (one_of (lit "+-"))) decimal)).
Lemma exponent_fails x s : x ∉ lit "eE" → exponent (x :: s) = ParseError.
Proof. intros Hx. by rewrite pair_law, one_of_law, bool_decide_eq_false_2. Qed.
Lemma ends_value_plain x : ends_value x → is_ascii_digit x = false ∧ x ≠ 46%N ∧ x ∉ lit "eE" ∧ ends_decimal x.
Proof. intros [->| ->]; (split_and!; [done..| |done]); by apply (bool_decide_eq_true_1 _). Qed.
Lemma exponent_ok e x s : exponent_text e → ends_value x → ∃ v, exponent (e ++ x :: s) = Done (x :: s) v.
Proof.
  intros (c & sign & d & -> & Hc & Hs & Hd) (_ & _ & _ & Hx)%ends_value_plain. simpl. rewrite <-app_assoc.
  rewrite pair_law, one_of_law, bool_decide_eq_true_2 by done. cbn [and_then]. rewrite pair_law, opt_law.
  assert (one_of (lit "+-") (d ++ x :: s) = ParseError) as Hn.
  { destruct Hd as (y & u & -> & Hy & _). simpl. rewrite one_of_law, bool_decide_eq_false_2; [done|].
    change (lit "+-") with [43; 45]%N. rewrite !elem_of_cons, elem_of_nil. intros [->|[->|[]]]; done. }
  destruct Hs as [->|[->| ->]].
  - simpl app. rewrite Hn. cbn [and_then]. rewrite decimal_ok by done. by eexists.
  - change (lit "+" ++ d ++ x :: s) with (43%N :: d ++ x :: s). rewrite one_of_law. cbn [and_then].
    rewrite bool_decide_eq_true_2 by by apply (bool_decide_eq_true_1 _). cbn [and_then].
    rewrite decimal_ok by done. by eexists.
  - change (lit "-" ++ d ++ x :: s) with (45%N :: d ++ x :: s). rewrite one_of_law. cbn [and_then].
    rewrite bool_decide_eq_true_2 by by apply (bool_decide_eq_true_1 _). cbn [and_then].
    rewrite decimal_ok by done. by eexists.
Qed.
(** What may come after the digits of a literal. *)
Lemma exponent_head e x s : or_none exponent_text e → ends_value x →
  ∃ y u, e ++ x :: s = y :: u ∧ ends_decimal y ∧ y ≠ 46%N.
Proof.
  intros [->|(c & sign & d & -> & Hc & _)] Hx.
  - exists x, s. split; [done|]. by apply ends_value_plain in Hx as (_ & ? & _ & ?).
  - eexists c, _. split; [done|]. change (lit "eE") with [101; 69]%N in Hc.
    rewrite !elem_of_cons, elem_of_nil in Hc. by destruct Hc as [->|[->|[]]].
Qed.
Lemma fraction_ok f y u : or_none fraction_text f → ends_decimal y → y ≠ 46%N →
  ∃ v, opt (preceded (char_ 46%N) decimal) (f ++ y :: u) = Done (y :: u) v.
Proof.
  intros [->|(d & -> & Hd)] Hy Hdot; rewrite opt_law, preceded_law; simpl app.
  - rewrite char_other by done. by eexists.
  - rewrite char_ok. cbn [and_then]. rewrite decimal_ok by done. by eexists.
Qed.
Lemma decimal_head d s : decimal_text d → char_ 46%N (d ++ s) = ParseError.
Proof. intros (c & r & -> & Hc & _). simpl. apply char_other. by apply digit_not. Qed.
Lemma float_fails_digits a x s :
  a ≠ [] → Forall (λ c, is_ascii_digit c = true) a → ends_value x → float (a ++ x :: s) = ParseError.
Proof.
  intros Hne Ha Hx. destruct (ends_value_plain x Hx) as (Hx1 & Hx2 & Hx3 & Hx4).
  assert (decimal_text a) as Hd.
  { destruct Ha as [|c r Hc Hr]; [done|]. exists c, r. split_and!; [done..|].
    eapply Forall_impl; [exact Hr|]. unfold is_decimal_char. by intros ? ->. }
  unfold float. rewrite map_law, !alt_cons, alt_nil, !recognize_law, !pair_law, decimal_ok by done.
  rewrite decimal_head by done. cbn [and_then]. rewrite pair_law.
  destruct (fraction_ok [] x s) as [v Hv]; [by left|done..|]. simpl app in Hv. rewrite Hv. cbn [and_then].
  rewrite exponent_fails by done. cbn [and_then]. by rewrite pair_law, char_other.
Qed.
Lemma opt_exponent_ok e x s : or_none exponent_text e → ends_value x →
  ∃ v, opt exponent (e ++ x :: s) = Done (x :: s) v.
Proof.
  intros [->|He] Hx; rewrite opt_law.
  - simpl app. rewrite exponent_fails by by apply ends_value_plain. by eexists.
  - destruct (exponent_ok e x s He Hx) as [v ->]. by eexists.
Qed.
(** The three shapes of a literal. *)
Abbreviation float_1 := (pair_ (char_ 46%N) (pair_ decimal (opt exponent))).
Abbreviation float_2 := (pair_ decimal (pair_ (opt (preceded (char_ 46%N) decimal)) exponent)).
Abbreviation float_3 := (pair_ decimal (pair_ (char_ 46%N) (opt decimal))).
Lemma float_1_ok fr e x s : fraction_text fr → or_none exponent_text e → ends_value x →
  ∃ v, float_1 ((fr ++ e) ++ x :: s) = Done (x :: s) v.
Proof.
  intros (d & -> & Hd) He Hx. destruct (exponent_head e x s He Hx) as (y & u & Hy & Hye & _).
  destruct (opt_exponent_ok e x s He Hx) as [v Hv]. rewrite <-app_assoc. rewrite Hy in *. simpl app.
  rewrite pair_law, char_ok. cbn [and_then]. rewrite pair_law, decimal_ok by done. cbn [and_then].
  rewrite Hv. by eexists.
Qed.
Lemma float_2_ok d fr e x s :
  decimal_text d → or_none fraction_text fr → exponent_text e → ends_value x →
  ∃ v, float_2 ((d ++ fr ++ e) ++ x :: s) = Done (x :: s) v.
Proof.
  intros Hd Hfr He Hx. destruct (exponent_head e x s (or_intror He) Hx) as (y & u & Hy & Hye & Hyd).
  destruct (exponent_ok e x s He Hx) as [v Hv]. rewrite <-!app_assoc. rewrite Hy in *.
  destruct (fraction_ok fr y u Hfr Hye Hyd) as [w Hw]. rewrite pair_law.
  assert (∃ z t, fr ++ y :: u = z :: t ∧ ends_decimal z) as (z & t & Hz & Hze).
  { destruct Hfr as [->|(d' & -> & _)]; [by exists y, u|by exists 46%N, (d' ++ y :: u)]. }
  rewrite Hz in *. rewrite decimal_ok by done. cbn [and_then]. rewrite pair_law, Hw. cbn [and_then].
  rewrite Hv. by eexists.
Qed.
Lemma float_2_fails d r x s :
  decimal_text d → or_none decimal_text r → ends_value x → float_2 (d ++ 46%N :: r ++ x :: s) = ParseError.
Proof.
  intros Hd Hr Hx. destruct (ends_value_plain x Hx) as (Hx1 & Hx2 & Hx3 & Hx4).
  rewrite pair_law, decimal_ok by done. cbn [and_then]. rewrite pair_law, opt_law, preceded_law, char_ok.
  cbn [and_then]. destruct Hr as [->|Hr].
  - simpl app. rewrite decimal_fails by done. cbn [and_then]. rewrite exponent_fails; [done|].
    by apply (bool_decide_eq_false_1 _).
  - rewrite decimal_ok by done. cbn [and_then]. by rewrite exponent_fails.
Qed.
Lemma float_3_ok d r x s :
  decimal_text d → or_none decimal_text r → ends_value x →
  ∃ v, float_3 ((d ++ 46%N :: r) ++ x :: s) = Done (x :: s) v.
Proof.
  intros Hd Hr Hx. destruct (ends_value_plain x Hx) as (Hx1 & Hx2 & Hx3 & Hx4).
  rewrite <-app_assoc. simpl app. rewrite pair_law, decimal_ok by done. cbn [and_then].
  rewrite pair_law, char_ok. cbn [and_then]. rewrite opt_law. destruct Hr as [->|Hr].
  - simpl app. rewrite decimal_fails by done. by eexists.
  - rewrite decimal_ok by done. by eexists.
Qed.
Lemma float_ok t x s f :
  float_literal t → ends_value x → f64_from_str t = Some f → float (t ++ x :: s) = Done (x :: s) f.
Proof.
  intros Ht Hx Hf. unfold float. rewrite map_law, !alt_cons, alt_nil.
  destruct Ht as [(fr & e & -> & Hfr & He)|[(d & fr & e & -> & Hd & Hfr & He)|(d & r & -> & Hd & Hr)]].
  - destruct (float_1_ok fr e x s Hfr He Hx) as [v Hv]. apply recognize_done in Hv. rewrite Hv. simpl.
    by rewrite Hf.
  - destruct (float_2_ok d fr e x s Hd Hfr He Hx) as [v Hv]. apply recognize_done in Hv. rewrite Hv.
    rewrite recognize_law, pair_law, <-!app_assoc, decimal_head by done. simpl.
    by rewrite Hf.
  - destruct (float_3_ok d r x s Hd Hr Hx) as [v Hv]. apply recognize_done in Hv. rewrite Hv.
    rewrite <-app_assoc. simpl app. rewrite !(recognize_law _ (d ++ _)), float_2_fails by done.
    rewrite pair_law, decimal_head by done. simpl. by rewrite Hf.
Qed.
Lemma float_literal_head t : float_literal t → ∃ c r, t = c :: r ∧ (is_ascii_digit c = true ∨ c = 46%N).
Proof.
  intros [(? & e & -> & (d & -> & _) & _)|[(? & f & e & -> & (c & r & -> & Hc & _) & _)|(? & r & -> & (c & u & -> & Hc & _) & _)]];
    simpl; eauto.
Qed.
Lemma bool_fails x s : x ≠ 102%N → x ≠ 116%N →
  alt [value_ (Bool false) (tag (lit "false")); value_ (Bool true) (tag (lit "true"))] (x :: s) = ParseError.
Proof.
  intros Hf Ht. rewrite !alt_cons, alt_nil, !value_law.
  change (lit "false") with (102%N :: lit "alse"). change (lit "true") with (116%N :: lit "rue").
  by rewrite !tag_other.
Qed.
(** What follows a minus sign, whatever follows it. *)
Lemma int_value_ok pr n x s :
  (n <= u64_max)%N → is_ascii_digit x = false →
  value_spec pr (lit "-" ++ show_N n ++ x :: s) = or_panic (x :: s) (negated pr n).
Proof.
  intros Hn Hx. unfold value_spec. cbv zeta.
  rewrite (alt_cons _ [_; _; _; _]), (alt_cons _ [_; _; _]), (alt_cons _ [_; _]).
  change (lit "-") with [45%N]. simpl app. rewrite bool_fails by done.
  rewrite map_law, float_fails_head by done. cbn [and_then]. rewrite map_law, preceded_law.
  change (45%N :: show_N n ++ x :: s) with ([45%N] ++ show_N n ++ x :: s).
  rewrite tag_ok. cbn [and_then]. rewrite uint_ok by done. cbn [and_then]. by destruct (negated pr n).
Qed.
Lemma negated_minus pr z :
  in_i64 z → (pr = Debug → z ≠ i64_min) → negated pr (Z.to_N ((- z) `mod` 2 ^ 64)) = Some (Int z).
Proof.
  unfold in_i64, i64_min, i64_max, negated. intros Hz Hpr.
  pose proof (Z.mod_pos_bound (- z) (2 ^ 64)) as Hm. rewrite Z2N.id by lia.
  assert (arith pr 64 (- wrap_signed 64 ((- z) `mod` 2 ^ 64)) = Some z) as ->; [|done].
  destruct (decide (z = -9223372036854775808)%Z) as [->|Hne].
  - destruct pr; [by destruct Hpr|]. vm_compute. reflexivity.
  - assert (wrap_signed 64 ((- z) `mod` 2 ^ 64) = - z)%Z as ->.
    { unfold wrap_signed. rewrite Zplus_mod_idemp_l. rewrite Z.mod_small; lia. }
    rewrite Z.opp_involutive. apply arith_i64. unfold in_i64, i64_min, i64_max. lia.
Qed.
Lemma negated_inv pr n v :
  negated pr n = Some v → ∃ z, v = Int z ∧ in_i64 z ∧ (pr = Debug → z ≠ i64_min).
Proof.
  unfold negated. intros (z & Hz & ->)%fmap_Some. exists z. split; [done|].
  pose proof (arith_i64_in _ _ _ Hz) as [_ Hi]. split; [done|]. intros -> ->.
  apply arith_debug_Some in Hz. pose proof (wrap_i64_in (Z.of_N n)) as Hw.
  unfold in_i64, i64_min, i64_max in *. lia.
Qed.
Lemma value_ok pr v t x s :
  value_text pr v t → ends_value x → value_spec pr (t ++ x :: s) = Done (x :: s) v.
Proof.
  intros Hv Hx. destruct (ends_value_plain x Hx) as (Hx1 & Hx2 & Hx3 & Hx4).
  destruct v as [b|f|z|n|u]; cbn [value_text] in *.
  - unfold value_spec. cbv zeta. rewrite (alt_cons _ [_; _; _; _]).
    subst t. destruct b; by rewrite !alt_cons, !value_law, !tag_law.
  - destruct Hv as [Hl Hf]. unfold value_spec. cbv zeta.
    rewrite (alt_cons _ [_; _; _; _]), (alt_cons _ [_; _; _]).
    destruct (float_literal_head t Hl) as (c & r & Hc & Hcd).
    rewrite map_law, (float_ok t x s f) by done. rewrite Hc. simpl app.
    by rewrite bool_fails by (destruct Hcd as [?| ->]; [by apply digit_not|done]).
  - destruct Hv as (Hz & Hpr & ->). rewrite <-app_assoc, int_value_ok; [|unfold u64_max|done].
    + by rewrite negated_minus.
    + pose proof (Z.mod_pos_bound (- z) (2 ^ 64)). lia.
  - destruct Hv as [Hn ->]. destruct (show_N_head n) as (d & ds & Hd & Hdig). unfold value_spec. cbv zeta.
    rewrite (alt_cons _ [_; _; _; _]), (alt_cons _ [_; _; _]), (alt_cons _ [_; _]).
    rewrite map_law, float_fails_digits by (done || apply show_N_nonempty || apply show_N_digits).
    rewrite map_law, preceded_law.
    assert (tag (lit "-") (show_N n ++ x :: s) = ParseError) as ->.
    { rewrite Hd. change (lit "-") with [45%N]. apply tag_other. by apply digit_not. }
    assert (alt [value_ (Bool false) (tag (lit "false")); value_ (Bool true) (tag (lit "true"))]
      (show_N n ++ x :: s) = ParseError) as ->.
    { rewrite Hd. apply bool_fails; by apply digit_not. }
    cbn [and_then]. by rewrite alt_cons, map_law, uint_ok.
  - subst t. unfold value_spec. cbv zeta.
    rewrite (alt_cons _ [_; _; _; _]), (alt_cons _ [_; _; _]), (alt_cons _ [_; _]).
    simpl app. rewrite bool_fails by done. rewrite map_law, float_fails_head by done.
    cbn [and_then]. rewrite map_law, preceded_law. change (lit "-") with [45%N].
    rewrite tag_other by done. cbn [and_then]. rewrite !alt_cons, !map_law, uint_fails by done.
    cbn [and_then]. rewrite <-app_assoc. simpl app. by rewrite parse_string_ok.
Qed.

(** *** Items and lines *)
Lemma ident_not_blank c : is_ident_char c = true → is_blank c = false.
Proof.
  intros Hc. apply orb_false_iff. split; apply N.eqb_neq; by intros ->.
Qed.
Lemma print_type_head t : wf_base (base t) → ∃ c r, print_type t = c :: r ∧ is_blank c = false.
Proof.
  unfold print_type. destruct (base t) as [name|bound|[p|] u]; cbn [wf_base print_base].
  - intros Hn. assert (∃ c r, name = c :: r ∧ is_blank c = false) as (c & r & -> & Hc);
      [|simpl; eauto].
    revert name Hn. apply Forall_forall. repeat (constructor; [by eexists _, _|]). constructor.
  - intros _. eexists _, _. by split.
  - intros ([Hne Hp] & _). destruct p as [|c p]; [done|]. inversion_clear Hp.
    eexists _, _. split; [done|]. by apply ident_not_blank.
  - intros ([Hne Hp] & _). destruct u as [|c u]; [done|]. inversion_clear Hp.
    eexists _, _. split; [done|]. by apply ident_not_blank.
Qed.
Lemma digit_not_blank d : is_ascii_digit d = true → is_blank d = false.
Proof. intros Hd. by apply ident_not_blank, digit_ident. Qed.
Lemma value_text_head pr v t : value_text pr v t → ∃ c r, t = c :: r ∧ is_blank c = false.
Proof.
  destruct v as [[]|f|z|n|u]; cbn [value_text]; try by intros ->; eexists _, _.
  - intros [(c & r & -> & Hc)%float_literal_head _]. exists c, r. split; [done|].
    destruct Hc as [?| ->]; [by apply digit_not_blank|done].
  - intros (_ & _ & ->). by eexists _, _.
  - intros [_ ->]. destruct (show_N_head n) as (d & ds & -> & Hd). eexists _, _. split; [done|].
    by apply digit_not_blank.
Qed.
Lemma type_spec_fails x s : is_ident_char x = false → type_spec (x :: s) = ParseError.
Proof.
  intros Hx. unfold type_spec. rewrite pair_law, !alt_cons, alt_nil.
  unfold bounded_string, primitive_type, complex_type.
  change (lit "string<=") with (115%N :: lit "tring<=").
  rewrite !map_law, preceded_law, tag_other by (by intros ->).
  assert (alt (tag <$> primitives) (x :: s) = ParseError) as ->.
  { apply (alt_tags primitives [] x s). by apply not_in_primitives. }
  cbn [and_then].
  rewrite pair_law, opt_law, terminated_law, identifier_fails by done. simpl.
  by rewrite identifier_fails.
Qed.

(** What follows an item: the end of the line, or a blank and a comment. *)
Definition ends_item (r : str) : Prop :=
  ∃ sep y s, r = sep ++ y :: s ∧ ((sep = [] ∧ y = 10%N) ∨ (sep = [32%N] ∧ y = 35%N)).
Lemma ends_item_spec r : ends_item r →
  ∃ x y s t, r = x :: t ∧ ends_value x ∧ (∃ a, space0 r = Done (y :: s) a) ∧ (y = 10%N ∨ y = 35%N).
Proof.
  intros (sep & y & s & -> & [[-> ->]|[-> ->]]); simpl.
  - exists 10%N, 10%N, s, s. split_and!; [done|by right| |by left]. rewrite space0_none by done. eauto.
  - exists 32%N, 35%N, s, (35%N :: s). split_and!; [done|by left| |by right].
    rewrite space0_one by done. eauto.
Qed.
Lemma space_name n x s : wf_ident n →
  space0 (32%N :: n ++ x :: s) = Done (n ++ x :: s) [32%N].
Proof.
  intros [Hne Hn]. destruct Hn as [|c n Hc]; [done|]. simpl app. apply space0_one.
  by apply ident_not_blank.
Qed.
Lemma field_ok pr ty n d t r :
  item_text pr (Field ty n d) t → ends_item r →
  constant pr (t ++ r) = ParseError ∧ field (t ++ r) = Done r (Field ty n d).
Proof.
  intros ([Hb Ha] & Hn & -> & ->) (x & y & s & u & -> & Hx & (a & Hsp) & Hy)%ends_item_spec.
  assert (is_ident_char x = false) as Hxi by by destruct Hx as [->| ->].
  change (lit " ") with [32%N]. rewrite <-!app_assoc. simpl app.
  unfold constant, field. rewrite type_ok by done. cbn [and_then].
  rewrite space_name by done. cbn [and_then]. rewrite identifier_ok by done. cbn [and_then]. split; [|done].
  rewrite Hsp. cbn [and_then]. change (lit "=") with [61%N].
  by rewrite tag_other by (by destruct Hy as [->| ->]).
Qed.
Lemma constant_ok pr ty n v t r :
  item_text pr (Constant ty n v) t → ends_item r →
  constant pr (t ++ r) = Done r (Constant ty n v).
Proof.
  intros ([Hb Ha] & Hn & w & Hv & ->) (x & y & s & u & -> & Hx & _)%ends_item_spec.
  change (lit " ") with [32%N]. change (lit "=") with [61%N]. rewrite <-!app_assoc. simpl app.
  unfold constant. rewrite type_ok by done. cbn [and_then].
  rewrite space_name by done. cbn [and_then]. rewrite identifier_ok by done. cbn [and_then].
  rewrite space0_none by done. cbn [and_then]. change (lit "=") with [61%N].
  change (61%N :: w ++ x :: u) with ([61%N] ++ w ++ x :: u).
  rewrite tag_ok. cbn [and_then].
  assert (space0 (w ++ x :: u) = Done (w ++ x :: u) []) as ->.
  { destruct (value_text_head pr v w Hv) as (c & w' & -> & Hc). by apply space0_none. }
  cbn [and_then]. by rewrite (value_ok pr v).
Qed.
Lemma item_text_head pr i t : item_text pr i t → ∃ c r, t = c :: r ∧ is_blank c = false.
Proof.
  destruct i as [ty n d|ty n v]; cbn [item_text];
    [intros ([Hb _] & _ & _ & ->)|intros ([Hb _] & _ & u & _ & ->)];
    destruct (print_type_head ty Hb) as (c & r & -> & Hc); by eexists _, _.
Qed.
Lemma item_ok pr i t r y s :
  item_text pr i t → ends_item r → (∃ a, space0 r = Done (y :: s) a) →
  item pr (t ++ r) = Done (y :: s) (Some i).
Proof.
  intros Hi Hr [a Ha]. unfold item. rewrite map_law, delimited_law.
  assert (space0 (t ++ r) = Done (t ++ r) []) as ->.
  { destruct (item_text_head pr i t Hi) as (c & w & -> & Hc). by apply space0_none. }
  cbn [and_then]. rewrite !alt_cons, alt_nil. destruct i as [ty n d|ty n v].
  - destruct (field_ok pr ty n d t r Hi Hr) as [-> ->]. cbn [and_then]. by rewrite Ha.
  - rewrite (constant_ok pr ty n v) by done. cbn [and_then]. by rewrite Ha.
Qed.
Lemma item_fails pr x s : is_blank x = false → is_ident_char x = false → item pr (x :: s) = ParseError.
Proof.
  intros Hb Hx. unfold item. rewrite map_law, delimited_law, space0_none by done. cbn [and_then].
  rewrite !alt_cons, alt_nil. unfold constant, field. by rewrite type_spec_fails.
Qed.
Lemma not_line_ending_ok a s :
  13%N ∉ a → 10%N ∉ a → not_line_ending (a ++ 10%N :: s) = Done (10%N :: s) a.
Proof.
  intros Hcr Hlf. rewrite not_line_ending_law, span_app; [done| |done].
  apply Forall_forall. intros c Hc. unfold is_line_end. simpl.
  rewrite (proj2 (N.eqb_neq c 10)), (proj2 (N.eqb_neq c 13)); [done|by intros ->..].
Qed.
Lemma comment_ok c s : wf_comment c → comment (comment_text c ++ 10%N :: s) = Done (10%N :: s) c.
Proof.
  intros (t & Hc & Hcr & Hlf). unfold comment. rewrite map_law.
  rewrite (recognize_done _ _ _ (lit "#", t)); [by destruct c|].
  rewrite Hc, pair_law. simpl app. change (35%N :: t ++ 10%N :: s) with (lit "#" ++ t ++ 10%N :: s).
  rewrite tag_ok. cbn [and_then]. by rewrite not_line_ending_ok.
Qed.
Lemma comment_fails x s : x ≠ 35%N → comment (x :: s) = ParseError.
Proof.
  intros Hx. unfold comment. rewrite map_law, recognize_law, pair_law. change (lit "#") with [35%N].
  by rewrite tag_other.
Qed.
Lemma line_ok pr l t s : line_text pr l t → line pr (t ++ s) = Done s l.
Proof.
  intros (u & -> & Hl). unfold line. rewrite terminated_law, pair_law, <-app_assoc. simpl app.
  destruct l as [[i|] [c|]].
  - destruct Hl as (Hc & v & Hi & ->). pose proof Hc as (t & Ht & _).
    rewrite <-!app_assoc. change (lit " ") with [32%N]. simpl app.
    rewrite !alt_cons, (item_ok pr i v _ 35%N (t ++ 10%N :: s)); [|done| |].
    2: { exists [32%N], 35%N, (t ++ 10%N :: s). split; [by rewrite Ht|by right]. }
    2: { rewrite Ht. eexists. by apply space0_one. }
    cbn [and_then]. change (35%N :: t ++ 10%N :: s) with ((35%N :: t) ++ 10%N :: s).
    rewrite <-Ht, opt_law, comment_ok by done. cbn [and_then]. by rewrite line_ending_law.
  - rewrite !alt_cons, (item_ok pr i u _ 10%N s); [|done| |].
    2: { exists [], 10%N, s. split; [done|by left]. }
    2: { eexists. by apply space0_none. }
    cbn [and_then]. rewrite opt_law, comment_fails by done. cbn [and_then]. by rewrite line_ending_law.
  - destruct Hl as [Hc ->]. pose proof Hc as (t & Ht & _). rewrite !alt_cons, alt_nil.
    assert (item pr (comment_text c ++ 10%N :: s) = ParseError) as -> by (rewrite Ht; by apply item_fails).
    unfold just_space. rewrite value_law.
    assert (space0 (comment_text c ++ 10%N :: s) = Done (comment_text c ++ 10%N :: s) []) as ->
      by (rewrite Ht; by apply space0_none).
    cbn [and_then]. rewrite opt_law, comment_ok by done. cbn [and_then]. by rewrite line_ending_law.
  - subst u. simpl app. rewrite !alt_cons, alt_nil, item_fails by done.
    unfold just_space. rewrite value_law, space0_none by done. cbn [and_then].
    rewrite opt_law, comment_fails by done. cbn [and_then]. by rewrite line_ending_law.
Qed.
Lemma line_fails_empty pr : line pr [] = ParseError.
Proof.
  assert (identifier [] = ParseError) as Hid.
  { unfold identifier. by rewrite map_law, recognize_law, many1_law, !alt_cons, alt_nil,
      alphanumeric1_law, tag_law. }
  assert (type_spec [] = ParseError) as Ht.
  { unfold type_spec, bounded_string, primitive_type, complex_type.
    rewrite pair_law, !alt_cons, alt_nil, !map_law, preceded_law, tag_law. simpl.
    rewrite pair_law, opt_law, terminated_law, Hid, !alt_cons, alt_nil, !tag_law. simpl.
    by rewrite Hid. }
  unfold line, item, just_space, comment, constant, field.
  rewrite terminated_law, pair_law, !alt_cons, alt_nil, map_law, value_law, delimited_law, space0_law.
  simpl. rewrite !alt_cons, alt_nil, Ht. simpl.
  rewrite opt_law, map_law, recognize_law, pair_law, tag_law. simpl. by rewrite line_ending_law.
Qed.

(** The lines of a text are read, and then what follows it. *)
Lemma msg_spec_lines pr ls t u :
  msg_text pr ls t → msg_spec pr (t ++ u) = and_then (msg_spec pr u) (λ rest l, Done rest (ls ++ l)).
Proof.
  intros (ts & Hls & ->). unfold msg_spec. induction Hls as [|l t ls ts Hl _ IH]; simpl.
  { by destruct (many0 (line pr) u). }
  rewrite <-app_assoc, many0_law, (line_ok pr l t) by done. rewrite IH.
  destruct Hl as (v & -> & _). rewrite (proj2 (Nat.ltb_lt _ _)) by (rewrite !length_app; simpl; lia).
  by destruct (many0 (line pr) u).
Qed.
(** *** Lines that are valid .msg but end the parse *)

(** A negative float constant: the integer part is taken for the value. *)
Lemma negative_float_fails pr ty n k r :
  wf_base (base ty) → wf_array (array_spec ty) → wf_ident n → (0 < k < 2 ^ 63)%N →
  line pr (print_type ty ++ 32%N :: n ++ 61%N :: lit "-" ++ show_N k ++ 46%N :: r) =
    ParseError.
Proof.
  intros Hb Ha Hn Hk. unfold line. rewrite terminated_law, pair_law, !alt_cons.
  unfold item at 1. rewrite map_law, delimited_law.
  set (rest := lit "-" ++ show_N k ++ 46%N :: r).
  assert (space0 (print_type ty ++ 32%N :: n ++ 61%N :: rest) =
    Done (print_type ty ++ 32%N :: n ++ 61%N :: rest) []) as ->.
  { destruct (print_type_head ty Hb) as (c & w & -> & Hc). by apply space0_none. }
  cbn [and_then]. rewrite !alt_cons. unfold constant at 1. rewrite type_ok by done. cbn [and_then].
  rewrite space_name by done. cbn [and_then]. rewrite identifier_ok by done. cbn [and_then].
  rewrite space0_none by done. cbn [and_then]. change (61%N :: rest) with (lit "=" ++ rest).
  rewrite tag_ok. cbn [and_then].
  assert (space0 rest = Done rest []) as -> by by apply space0_none.
  cbn [and_then]. unfold rest.
  rewrite int_value_ok by (done || (unfold u64_max; lia)).
  assert (k = Z.to_N ((- - Z.of_N k) `mod` 2 ^ 64)) as -> by (rewrite Z.opp_involutive, Z.mod_small; lia).
  rewrite negated_minus by (unfold in_i64, i64_min, i64_max; lia). cbn [or_panic and_then].
  rewrite space0_none by done. cbn [and_then or_panic].
  rewrite opt_law, comment_fails by done. cbn [and_then]. by rewrite line_ending_law.
Qed.
(** A type whose package starts with the name of a primitive type. *)
Lemma charger_fails pr r : line pr (lit "charger_msgs/State s" ++ 10%N :: r) = ParseError.
Proof.
  assert (type_spec (lit "charger_msgs/State s" ++ 10%N :: r) =
    Done (lit "ger_msgs/State s" ++ 10%N :: r) {| base := Primitive (lit "char"); array_spec := None |}) as Ht.
  { unfold type_spec. rewrite pair_law, !alt_cons.
    change (lit "charger_msgs/State s" ++ 10%N :: r)
      with (lit "charger_msgs" ++ slash :: lit "State s" ++ 10%N :: r).
    rewrite bounded_string_fails, primitive_type_eq by (done || (right; by right)).
    change (List.find (λ t, starts_with t (lit "charger_msgs")) primitives) with (Some (lit "char")).
    cbn [and_then].
    change (drop (length (lit "char")) (lit "charger_msgs" ++ slash :: lit "State s" ++ 10%N :: r))
      with (103%N :: lit "er_msgs/State s" ++ 10%N :: r).
    rewrite opt_law. unfold array_specifier. by rewrite delimited_law, char_other. }
  assert (identifier (lit "ger_msgs/State s" ++ 10%N :: r) =
    Done (slash :: lit "State s" ++ 10%N :: r) (lit "ger_msgs")) as Hid.
  { apply (identifier_ok (lit "ger_msgs") slash (lit "State s" ++ 10%N :: r)); [|done].
    split; [done|]. by repeat constructor. }
  unfold line, item, constant, field, just_space.
  rewrite terminated_law, pair_law, !alt_cons, map_law, delimited_law.
  assert (∀ t u, is_blank (hd 32%N t) = false → space0 (t ++ u) = Done (t ++ u) []) as Hsp.
  { intros [|c t] u Hc; [done|]. by apply space0_none. }
  rewrite Hsp by done. cbn [and_then]. rewrite !alt_cons, Ht. cbn [and_then].
  rewrite Hsp by done. cbn [and_then]. rewrite Hid. cbn [and_then].
  rewrite space0_none by done. cbn [and_then]. change (lit "=") with [61%N].
  rewrite tag_other by done. cbn [and_then]. rewrite space0_none by done. cbn [and_then or_panic].
  rewrite opt_law, comment_fails by done. cbn [and_then]. by rewrite line_ending_law.
Qed.

(** *** What a parse yields *)
Lemma and_then_Done {A B} (x : IResult A) (f : str → A → IResult B) r b :
  and_then x f = Done r b → ∃ r' a, x = Done r' a ∧ f r' a = Done r b.
Proof. destruct x; simpl; try done. eauto. Qed.
Lemma map_Done {A B} (p : parser A) (f : A → option B) s r b :
  map_ p f s = Done r b → ∃ a, p s = Done r a ∧ f a = Some b.
Proof.
  rewrite map_law. intros (r' & a & Hp & Hf)%and_then_Done. exists a.
  destruct (f a) as [b'|]; simpl in Hf; [|done]. by injection Hf as -> ->.
Qed.
Lemma many0_results {A} (p : parser A) (P : A → Prop) s r l :
  (∀ s r a, p s = Done r a → P a) → many0 p s = Done r l → Forall P l.
Proof.
  intros Hp. revert r l. induction s as [s IH] using (induction_ltof1 _ (@length N)). intros r l.
  rewrite many0_law. destruct (p s) as [rest a| | |] eqn:Hs; try done; [|by intros [= _ <-]].
  destruct (Nat.ltb_spec (length rest) (length s)) as [Hl|]; [|done].
  destruct (many0 p rest) as [r' l'| | |] eqn:Hr; simpl; try done. intros [= _ <-].
  constructor; [by eapply Hp|by eapply IH].
Qed.
(** The alternative that was taken, after those that failed. *)
Lemma alt_Done {A} (ps : list (parser A)) s r a :
  alt ps s = Done r a → ∃ before p after, ps = before ++ p :: after ∧ p s = Done r a ∧
    Forall (λ q, q s = ParseError) before.
Proof.
  induction ps as [|p ps IH]; [by rewrite alt_nil|]. rewrite alt_cons.
  destruct (p s) as [r' a'| | |] eqn:Hp; intros Ha; simplify_eq.
  - by exists [], p, ps.
  - destruct (IH Ha) as (b & q & u & -> & Hq & Hb). exists (p :: b), q, u. split_and!; [done..|].
    by constructor.
Qed.
Lemma alt_results {A} (ps : list (parser A)) (P : A → Prop) s r a :
  Forall (λ p, ∀ r a, p s = Done r a → P a) ps → alt ps s = Done r a → P a.
Proof.
  intros Hps (b & p & u & -> & Hp & _)%alt_Done. apply Forall_app in Hps as [_ Hps].
  inversion_clear Hps as [|?? Hq]. by eapply Hq.
Qed.

(** A parser consumes only texts of a language. *)
Definition consumes {A} (p : parser A) (L : str → Prop) : Prop :=
  ∀ s r a, p s = Done r a → ∃ t, s = t ++ r ∧ L t.
Lemma consumes_mono {A} (p : parser A) (L M : str → Prop) :
  consumes p L → (∀ t, L t → M t) → consumes p M.
Proof. intros Hp HL s r a (t & -> & Ht)%Hp. exists t. auto. Qed.
Lemma starts_with_true t s : starts_with t s = true → s = t ++ drop (length t) s.
Proof.
  revert s. induction t as [|c t IH]; intros [|d s]; simpl; try done.
  intros [->%N.eqb_eq Hs]%andb_prop. by rewrite <-IH.
Qed.
Lemma consumes_tag t : consumes (tag t) (eq t).
Proof.
  intros s r a. rewrite tag_law. destruct (starts_with t s) eqn:Hs; [|done]. intros [= <- _].
  exists t. split; [by apply starts_with_true|done].
Qed.
Lemma consumes_char c : consumes (char_ c) (eq [c]).
Proof.
  intros [|x s] r a; rewrite char_law; [done|]. destruct (N.eqb_spec x c) as [->|]; [|done].
  intros [= <- _]. by exists [c].
Qed.
Lemma consumes_one_of l : consumes (one_of l) (λ t, ∃ c, t = [c] ∧ c ∈ l).
Proof.
  intros [|x s] r a; rewrite one_of_law; [done|]. case_bool_decide as Hx; [|done]. intros [= <- _].
  exists [x]. eauto.
Qed.
Lemma consumes_alphanumeric1 :
  consumes alphanumeric1 (λ t, t ≠ [] ∧ Forall (λ c, is_ascii_alphanumeric c = true) t).
Proof.
  intros s r a. rewrite alphanumeric1_law. pose proof (span_prefix is_ascii_alphanumeric s) as Hs.
  destruct (span _ s) as [b u]. destruct Hs as (-> & Hb & _). destruct b as [|c b]; [done|].
  intros [= <- _]. by exists (c :: b).
Qed.
Lemma consumes_not_line_ending : consumes not_line_ending (λ t, 13%N ∉ t ∧ 10%N ∉ t).
Proof.
  intros s r a. rewrite not_line_ending_law. pose proof (span_prefix (negb ∘ is_line_end) s) as Hs.
  destruct (span _ s) as [b u]. destruct Hs as (-> & Hb & _). intros Hr. exists b. split.
  - destruct u as [|x u]; [by injection Hr as <- _|]. repeat case_match; by simplify_eq.
  - rewrite Forall_forall in Hb. split; intros Hin; specialize (Hb _ Hin); done.
Qed.
Lemma consumes_alt {A} (ps : list (parser A)) L : Forall (λ p, consumes p L) ps → consumes (alt ps) L.
Proof.
  intros Hps s r a (b & p & u & -> & Hp & _)%alt_Done. apply Forall_app in Hps as [_ Hps].
  inversion_clear Hps as [|?? Hq]. by eapply Hq.
Qed.
Definition joined (L M : str → Prop) (t : str) : Prop := ∃ a b, t = a ++ b ∧ L a ∧ M b.
Lemma consumes_pair {A B} (p : parser A) (q : parser B) L M :
  consumes p L → consumes q M → consumes (pair_ p q) (joined L M).
Proof.
  intros Hp Hq s r c. rewrite pair_law.
  intros (r1 & a & (t1 & -> & Ht1)%Hp & (r2 & b & (t2 & -> & Ht2)%Hq & [= -> _])%and_then_Done)%and_then_Done.
  exists (t1 ++ t2). split; [by rewrite <-app_assoc|]. by exists t1, t2.
Qed.
Lemma consumes_preceded {A B} (p : parser A) (q : parser B) L M :
  consumes p L → consumes q M → consumes (preceded p q) (joined L M).
Proof.
  intros Hp Hq s r c. rewrite preceded_law. intros (r1 & a & (t1 & -> & Ht1)%Hp & (t2 & -> & Ht2)%Hq)%and_then_Done.
  exists (t1 ++ t2). split; [by rewrite <-app_assoc|]. by exists t1, t2.
Qed.
Lemma consumes_terminated {A B} (p : parser A) (q : parser B) L M :
  consumes p L → consumes q M → consumes (terminated p q) (joined L M).
Proof.
  intros Hp Hq s r c. rewrite terminated_law.
  intros (r1 & a & (t1 & -> & Ht1)%Hp & (r2 & b & (t2 & -> & Ht2)%Hq & [= -> _])%and_then_Done)%and_then_Done.
  exists (t1 ++ t2). split; [by rewrite <-app_assoc|]. by exists t1, t2.
Qed.
Lemma consumes_opt {A} (p : parser A) L : consumes p L → consumes (opt p) (or_none L).
Proof.
  intros Hp s r o. rewrite opt_law. destruct (p s) as [r' a| | |] eqn:E; simpl; try done; intros [= <- _].
  - destruct (Hp _ _ _ E) as (t & -> & Ht). exists t. split; [done|by right].
  - exists []. split; [done|by left].
Qed.
Lemma consumes_many0 {A} (p : parser A) L :
  consumes p L → consumes (many0 p) (λ t, ∃ ts, t = concat ts ∧ Forall L ts).
Proof.
  intros Hp s. induction s as [s IH] using (induction_ltof1 _ (@length N)). intros r l.
  rewrite many0_law. destruct (p s) as [rest a| | |] eqn:Hs; try done.
  2: { intros [= <- _]. exists []. split; [done|]. by exists []. }
  destruct (Nat.ltb_spec (length rest) (length s)) as [Hl|]; [|done].
  intros (r' & l' & Hr & [= -> _])%and_then_Done. destruct (IH rest Hl _ _ Hr) as (t & -> & ts & -> & Hts).
  destruct (Hp _ _ _ Hs) as (t1 & -> & Ht1). exists (t1 ++ concat ts). split; [by rewrite <-app_assoc|].
  exists (t1 :: ts). split; [done|]. by constructor.
Qed.
Lemma consumes_many1 {A} (p : parser A) L :
  consumes p L → consumes (many1 p) (λ t, ∃ t1 ts, t = t1 ++ concat ts ∧ L t1 ∧ Forall L ts).
Proof.
  intros Hp s r l. rewrite many1_law.
  intros (r1 & a & (t1 & -> & Ht1)%Hp & (r2 & l' & Hm & [= -> _])%and_then_Done)%and_then_Done.
  apply (consumes_many0 p L Hp) in Hm as (t & -> & ts & -> & Hts).
  exists (t1 ++ concat ts). split; [by rewrite <-app_assoc|]. by exists t1, ts.
Qed.
Lemma recognize_consumes {A} (p : parser A) L s r t :
  consumes p L → recognize p s = Done r t → s = t ++ r ∧ L t.
Proof.
  intros Hp. rewrite recognize_law. intros (r' & a & (u & -> & Hu)%Hp & [= -> <-])%and_then_Done.
  rewrite length_app. replace (length u + length r - length r) with (length u) by lia.
  by rewrite take_app_length.
Qed.
Lemma consumes_recognize {A} (p : parser A) L : consumes p L → consumes (recognize p) L.
Proof. intros Hp s r t [-> Ht]%(recognize_consumes p L _ _ _ Hp). by exists t. Qed.

(** *** What is read has a text *)
(** The alternatives of an [alt]. *)
#[local] Ltac alternatives := repeat (apply Forall_cons; split); [..|by apply Forall_nil].
Lemma identifier_Done s r a : identifier s = Done r a → s = a ++ r ∧ wf_ident a.
Proof.
  unfold identifier. intros (t & Ht & [= <-])%map_Done.
  assert (consumes (alt [alphanumeric1; tag (lit "_")]) wf_ident) as Hc.
  { apply consumes_alt, Forall_cons. split; [|apply Forall_singleton].
    - eapply consumes_mono; [apply consumes_alphanumeric1|]. intros u [Hne Hu]. split; [done|].
      eapply Forall_impl; [exact Hu|]. unfold is_ident_char. by intros c ->.
    - eapply consumes_mono; [apply consumes_tag|]. intros ? <-. split; [done|]. by repeat constructor. }
  apply (recognize_consumes _ _ _ _ _ (consumes_many1 _ _ Hc)) in Ht as [-> (t1 & ts & -> & Ht1 & Hts)].
  split; [done|]. split.
  - destruct Ht1 as [Hne _]. by destruct t1.
  - apply Forall_app. split; [apply Ht1|]. apply Forall_concat. eapply Forall_impl; [exact Hts|]. by intros ? [].
Qed.
Lemma uint_Done s r n : uint_value s = Done r n → (n <= u64_max)%N.
Proof. unfold uint_value. intros (t & _ & Hn)%map_Done. by eapply parse_uint_le. Qed.
Lemma array_Done s r a : opt array_specifier s = Done r a → wf_array a.
Proof.
  rewrite opt_law. destruct (array_specifier s) as [r' x| | |] eqn:Hx; simpl; try done; [|by intros [= _ <-]].
  intros [= _ <-]. unfold array_specifier in Hx. rewrite delimited_law in Hx.
  apply and_then_Done in Hx as (r1 & ? & _ & (r2 & y & Hy & (r3 & ? & _ & [= _ ->])%and_then_Done)%and_then_Done).
  revert Hy. apply (alt_results _ (λ y, wf_array (Some y))). alternatives; intros r4 z (w & Hw & [= <-])%map_Done.
  - rewrite preceded_law in Hw. apply and_then_Done in Hw as (? & ? & _ & Hw). by eapply uint_Done.
  - by eapply uint_Done.
  - done.
Qed.
Lemma starts_with_prefix t a b : starts_with t a = true → starts_with t (a ++ b) = true.
Proof.
  revert a. induction t as [|c t IH]; intros [|d a]; simpl; try done.
  rewrite !andb_true_iff. intros [? ?]. auto.
Qed.
Lemma not_primitive_prefix a b : primitive_type (a ++ b) = ParseError → not_primitive a.
Proof.
  intros Hp. apply Forall_forall. intros t Ht. destruct (starts_with t a) eqn:Ha; [|done].
  exfalso. revert Hp. unfold primitive_type. rewrite map_law.
  assert (∀ ts, t ∈ ts → ∃ r u, alt (tag <$> ts) (a ++ b) = Done r u) as Hts; [|by destruct (Hts _ Ht) as (r & u & ->)].
  induction ts as [|u ts IH]; [by intros ?%elem_of_nil|]. rewrite fmap_cons, alt_cons, tag_law.
  intros [->|Hin]%elem_of_cons; [rewrite starts_with_prefix by done; eauto|].
  destruct (starts_with u (a ++ b)); [eauto|by apply IH].
Qed.
Lemma complex_Done s r b : complex_type s = Done r b → primitive_type s = ParseError → wf_base b.
Proof.
  unfold complex_type. intros ([po t] & Hb & [= <-])%map_Done Hp. rewrite pair_law in Hb.
  apply and_then_Done in Hb as (r1 & o & Ho & (r2 & u & Hu & [= _ <- <-])%and_then_Done).
  apply identifier_Done in Hu as [-> Hu]. rewrite opt_law in Ho.
  destruct (terminated identifier (tag [slash]) s) as [r3 p| | |] eqn:Ht; simpl in Ho; try done.
  - injection Ho as -> <-. rewrite terminated_law in Ht.
    apply and_then_Done in Ht as (r4 & q & [-> Hq]%identifier_Done & (r5 & ? & _ & [= _ <-])%and_then_Done).
    split_and!; [done..|]. by eapply not_primitive_prefix.
  - injection Ho as -> <-. split; [done|]. by eapply not_primitive_prefix.
Qed.
Lemma type_Done s r t : type_spec s = Done r t → wf_type t.
Proof.
  unfold type_spec. rewrite pair_law. intros (r' & [b a] & Hp & [= _ <-])%and_then_Done.
  apply and_then_Done in Hp as (r1 & b1 & Hb & (r2 & a2 & Ha%array_Done & [= _ -> ->])%and_then_Done).
  split; [|done]. simpl. apply alt_Done in Hb as (before & p & after & Hps & Hp & Hbef).
  destruct before as [|p1 [|p2 [|p3 [|]]]]; simplify_eq/=.
  - unfold bounded_string in Hp. apply map_Done in Hp as (n & Hn & [= <-]). rewrite preceded_law in Hn.
    apply and_then_Done in Hn as (? & ? & _ & Hn). by eapply uint_Done.
  - unfold primitive_type in Hp. apply map_Done in Hp as (n & Hn & [= <-]). revert Hn.
    apply (alt_results _ (λ n, n ∈ primitives)). apply Forall_fmap, Forall_forall. intros t Ht r3 u. simpl.
    rewrite tag_law. destruct (starts_with t s); [|done]. by intros [= _ <-].
  - inversion_clear Hbef as [|?? _ Hb2]. inversion_clear Hb2 as [|?? Hp2 _]. by eapply complex_Done.
Qed.
Lemma consumes_decimal : consumes decimal decimal_text.
Proof.
  apply consumes_recognize. eapply consumes_mono.
  { apply consumes_many1, consumes_terminated; [apply consumes_one_of|].
    apply consumes_many0, consumes_char. }
  assert (∀ t, joined (λ t, ∃ c, t = [c] ∧ c ∈ lit "0123456789")
    (λ t, ∃ ts, t = concat ts ∧ Forall (eq [underscore]) ts) t → decimal_text t) as Hu.
  { intros ? (? & ? & -> & (c & -> & Hc) & us & -> & Hus). exists c, (concat us).
    split_and!; [done|by apply digit_elem|]. apply Forall_concat. eapply Forall_impl; [exact Hus|].
    intros ? <-. by repeat constructor. }
  intros ? (t1 & ts & -> & (c & d & -> & Hc & Hd)%Hu & Hts). exists c, (d ++ concat ts).
  split_and!; [done..|]. apply Forall_app. split; [done|]. apply Forall_concat.
  eapply Forall_impl; [exact Hts|]. intros ? (c' & d' & -> & Hc' & Hd')%Hu. constructor; [|done].
  unfold is_decimal_char. by rewrite Hc'.
Qed.
Lemma consumes_fraction : consumes (preceded (char_ 46%N) decimal) fraction_text.
Proof.
  eapply consumes_mono; [apply consumes_preceded; [apply consumes_char|apply consumes_decimal]|].
  intros ? (? & d & -> & <- & Hd). by exists d.
Qed.
Lemma consumes_exponent : consumes exponent exponent_text.
Proof.
  eapply consumes_mono.
  { apply consumes_pair; [apply consumes_one_of|].
    apply consumes_pair; [apply consumes_opt, consumes_one_of|apply consumes_decimal]. }
  intros ? (? & ? & -> & (e & -> & He) & sign & d & -> & Hs & Hd). exists e, sign, d. split_and!; [done..| |done].
  destruct Hs as [->|(c & -> & Hc)]; [by left|]. change (lit "+-") with [43; 45]%N in Hc.
  rewrite !elem_of_cons, elem_of_nil in Hc. destruct Hc as [->|[->|[]]]; auto.
Qed.
Lemma float_Done s r f : float s = Done r f → ∃ t, float_literal t ∧ f64_from_str t = Some f.
Proof.
  unfold float. intros (t & Ht & Hf)%map_Done. exists t. split; [|done]. revert Ht.
  apply (alt_results _ float_literal). alternatives; intros r' u Hu.
  - apply (recognize_consumes _ _ _ _ _ (consumes_pair _ _ _ _ (consumes_char _)
      (consumes_pair _ _ _ _ consumes_decimal (consumes_opt _ _ consumes_exponent)))) in Hu as [_ Hu].
    destruct Hu as (? & ? & -> & <- & d & e & -> & Hd & He). left. exists (46%N :: d), e. split_and!; [done| |done].
    by exists d.
  - apply (recognize_consumes _ _ _ _ _ (consumes_pair _ _ _ _ consumes_decimal
      (consumes_pair _ _ _ _ (consumes_opt _ _ consumes_fraction) consumes_exponent))) in Hu as [_ Hu].
    destruct Hu as (d & ? & -> & Hd & fr & e & -> & Hfr & He). right. left. by exists d, fr, e.
  - apply (recognize_consumes _ _ _ _ _ (consumes_pair _ _ _ _ consumes_decimal
      (consumes_pair _ _ _ _ (consumes_char _) (consumes_opt _ _ consumes_decimal)))) in Hu as [_ Hu].
    destruct Hu as (d & ? & -> & Hd & ? & e & -> & <- & He). right. right. by exists d, e.
Qed.
Lemma value_Done pr s r v : value_spec pr s = Done r v → ∃ t, value_text pr v t.
Proof.
  unfold value_spec. cbv zeta. apply (alt_results _ (λ v, ∃ t, value_text pr v t)).
  alternatives; intros r' v'.
  - apply (alt_results _ (λ v, ∃ t, value_text pr v t)). alternatives; intros r'' w; rewrite value_law;
      intros (? & ? & _ & [= _ <-])%and_then_Done; by eexists.
  - intros (f & (t & Ht)%float_Done & [= <-])%map_Done. by exists t.
  - intros (n & Hn & (z & -> & Hz & Hd)%negated_inv)%map_Done. by eexists.
  - intros (n & Hn%uint_Done & [= <-])%map_Done. by eexists.
  - intros (u & _ & [= <-])%map_Done. by eexists.
Qed.
Lemma item_Done pr s r i : item pr s = Done r (Some i) → ∃ t, item_text pr i t.
Proof.
  unfold item. intros (i1 & Hi & [= <-])%map_Done. rewrite delimited_law in Hi.
  apply and_then_Done in Hi as (r2 & x & _ & (r3 & i3 & Ha & (r4 & y & _ & [= _ <-])%and_then_Done)%and_then_Done).
  revert Ha. apply (alt_results _ (λ i, ∃ t, item_text pr i t)). alternatives; intros r5 i5;
    [unfold constant|unfold field]; intros (r6 & t & Ht%type_Done & Hr)%and_then_Done;
    apply and_then_Done in Hr as (? & ? & _ & Hr); apply and_then_Done in Hr as (? & n & [_ Hn]%identifier_Done & Hr).
  - apply and_then_Done in Hr as (? & ? & _ & Hr). apply and_then_Done in Hr as (? & ? & _ & Hr).
    apply and_then_Done in Hr as (? & ? & _ & Hr). apply and_then_Done in Hr as (? & v & [u Hv]%value_Done & [= _ <-]).
    eexists. split; [done|]. split; [done|]. by exists u.
  - injection Hr as _ <-. by eexists.
Qed.
Lemma comment_Done s r c : comment s = Done r c → wf_comment c.
Proof.
  unfold comment. intros (t & Ht & [= <-])%map_Done.
  apply (recognize_consumes _ _ _ _ _ (consumes_pair _ _ _ _ (consumes_tag _) consumes_not_line_ending))
    in Ht as [_ Ht].
  destruct Ht as (? & u & -> & <- & Hu). by exists u.
Qed.
Lemma line_Done pr s r l : line pr s = Done r l → ∃ t, line_text pr l t.
Proof.
  unfold line. rewrite terminated_law, pair_law.
  intros (r1 & a & (r2 & b & Hb & (r3 & c & Hc & [= _ <-])%and_then_Done)%and_then_Done
          & (r4 & d & _ & [= _ <-])%and_then_Done)%and_then_Done.
  assert (match b with Some i => ∃ t, item_text pr i t | None => True end) as Hi.
  { rewrite !alt_cons, alt_nil in Hb. destruct (item pr s) as [r5 [i5|]| | |] eqn:Hi; simplify_eq; try done.
    - by eapply item_Done.
    - unfold just_space in Hb. rewrite value_law in Hb. destruct (space0 s); simpl in Hb; by simplify_eq. }
  assert (match c with Some c => wf_comment c | None => True end) as Hcm.
  { rewrite opt_law in Hc. destruct (comment r2) eqn:E; simpl in Hc; simplify_eq; try done. by eapply comment_Done. }
  unfold line_text. destruct b as [i|], c as [c|]; try destruct Hi as [t Ht]; eexists _, _;
    (split; [reflexivity|]); try done. split; [done|]. by exists t.
Qed.
Lemma msg_spec_Done pr s r ls : msg_spec pr s = Done r ls → ∃ t, msg_text pr ls t.
Proof.
  intros Hm. apply (many0_results _ (λ l, ∃ t, line_text pr l t)) in Hm; [|intros ???; apply line_Done].
  assert (∃ ts, Forall2 (line_text pr) ls ts) as [ts Hts]; [|by exists (concat ts), ts].
  induction Hm as [|l ls [t Ht] _ [ts Hts]]; [by exists []|]. exists (t :: ts). by constructor.
Qed.

(** C40: Definitions and their texts. Every text of a definition, that is, of its
    items with their types, arrays, names and constants (strings with any
    characters) and its comments, line by line, is read as the definition, and
    what follows it is then read as if it came first. The first line that
    is none, with an error [many0] recovers from, ends the parse without an error,
    whatever follows: the lines before it are the result, and it and everything
    after it are the rest of the input, which the generator drops; a line in which
    nom wants more input (a string that is not closed) or a closure panics ends the
    parse with that instead. And the definitions that have a text are exactly those
    that any parse yields: none has a field's default, a type whose name starts with
    that of a primitive type, a float with a sign, or, in a build that checks
    overflow, the integer [i64::MIN]. *)
Theorem msg_spec_print pr (ls : list (option Item * option Comment)) :
  (∀ t u, msg_text pr ls t →
     msg_spec pr (t ++ u) = and_then (msg_spec pr u) (λ rest l, Done rest (ls ++ l)) ∧
     match line pr u with
     | ParseError => msg_spec pr (t ++ u) = Done u ls
     | Incomplete => msg_spec pr (t ++ u) = Incomplete
     | Panicked => msg_spec pr (t ++ u) = Panicked
     | Done _ _ => True
     end) ∧
  ((∃ s rest, msg_spec pr s = Done rest ls) ↔ ∃ t, msg_text pr ls t).
Proof.
  split.
  - intros t u Ht. pose proof (msg_spec_lines pr ls t u Ht) as Hm. split; [done|]. rewrite Hm.
    unfold msg_spec. rewrite many0_law. destruct (line pr u); simpl; by rewrite ?app_nil_r.
  - split; [intros (s & rest & Hs); by eapply msg_spec_Done|]. intros [t Ht].
    exists (t ++ []), []. rewrite (msg_spec_lines pr ls t [] Ht). unfold msg_spec.
    rewrite many0_nil by apply line_fails_empty. simpl. by rewrite app_nil_r.
Qed.

(** The types the generator knows. *)
Definition known_type (t : TypeName) : Prop :=
  match base t with Primitive name => name ∈ primitives | _ => True end.
Definition known_item (i : Item) : Prop :=
  match i with Field t _ _ | Constant t _ _ => known_type t end.
Lemma wf_type_known t : wf_type t → known_type t.
Proof. unfold known_type. intros [Hb _]. by destruct (base t). Qed.
Lemma msg_spec_known pr s r ls :
  msg_spec pr s = Done r ls → Forall (λ l, ∀ i, l.1 = Some i → known_item i) ls.
Proof.
  intros (t & ts & Hts & _)%msg_spec_Done. induction Hts as [|l t' ls ts (u & _ & Hl) _ IH]; constructor; [|done].
  intros i Hi. destruct l as [o c]. simpl in Hi. subst o.
  assert (∃ v, item_text pr i v) as [v Hv] by (destruct c; [destruct Hl as (_ & v & Hv & _)|]; eauto).
  destruct i; destruct Hv as [Hv _]; by apply wf_type_known.
Qed.
End combinators.

(** ** A concrete nom *)
Fixpoint toy_many0 {A} (fuel : nat) (p : parser A) (s : str) : IResult (list A) :=
  match fuel, p s with
  | S fuel, Done rest a =>
      if (length rest <? length s)%nat
      then and_then (toy_many0 fuel p rest) (λ rest l, Done rest (a :: l))
      else ParseError
  | O, _ => ParseError
  | _, ParseError => Done s []
  | _, Incomplete => Incomplete
  | _, Panicked => Panicked
  end.
Definition toy_many {A} (p : parser A) (s : str) : IResult (list A) := toy_many0 (S (length s)) p s.
Lemma toy_many0_fuel {A} (p : parser A) n m s :
  length s < n → length s < m → toy_many0 n p s = toy_many0 m p s.
Proof.
  revert m s. induction n as [|n IH]; intros [|m] s Hn Hm; [lia..|]. simpl.
  destruct (p s) as [rest a| | |]; try done. destruct (Nat.ltb_spec (length rest) (length s)); [|done].
  by rewrite (IH m) by lia.
Qed.
#[local] Instance toy_nom : Nom := {|
  tag t s := if starts_with t s then Done (drop (length t) s) t else ParseError;
  char_ c s := match s with x :: s' => if (x =? c)%N then Done s' c else ParseError | [] => ParseError end;
  one_of l s := match s with x :: s' => if bool_decide (x ∈ l) then Done s' x else ParseError | [] => ParseError end;
  digit1 s := one_or_more (span is_ascii_digit s);
  alphanumeric1 s := one_or_more (span is_ascii_alphanumeric s);
  space0 s := let '(a, b) := span is_blank s in Done b a;
  not_line_ending s := let '(a, b) := span (negb ∘ is_line_end) s in
    match b with
    | 13%N :: 10%N :: _ | 10%N :: _ | [] => Done b a
    | _ => ParseError
    end;
  line_ending s := match s with
    | 10%N :: s' => Done s' [10%N]
    | 13%N :: 10%N :: s' => Done s' [13%N; 10%N]
    | _ => ParseError
    end;
  opt A p s := match p s with ParseError => Done s None | r => and_then r (λ rest a, Done rest (Some a)) end;
  alt A := fix go ps s := match ps with
    | [] => ParseError
    | p :: ps => match p s with ParseError => go ps s | r => r end
    end;
  map_ A B p f s := and_then (p s) (λ rest a, or_panic rest (f a));
  value_ A B b p s := and_then (p s) (λ rest _, Done rest b);
  pair_ A B p q s := and_then (p s) (λ rest a, and_then (q rest) (λ rest b, Done rest (a, b)));
  preceded A B p q s := and_then (p s) (λ rest _, q rest);
  terminated A B p q s := and_then (p s) (λ rest a, and_then (q rest) (λ rest _, Done rest a));
  delimited A B C p q t s :=
    and_then (p s) (λ rest _, and_then (q rest) (λ rest b, and_then (t rest) (λ rest _, Done rest b)));
  recognize A p s := and_then (p s) (λ rest _, Done rest (take (length s - length rest) s));
  many0 A p := toy_many p;
  many1 A p s := and_then (p s) (λ rest a, and_then (toy_many p rest) (λ rest l, Done rest (a :: l)));
  fold_many0 A B p b g s := and_then (toy_many p s) (λ rest l, Done rest (fold_left g l b));
  verify A p f s := and_then (p s) (λ rest a, if f a then Done rest a else ParseError);
  map_opt A B p f s := and_then (p s) (λ rest a, or_error rest (f a));
  map_res A B p f s := and_then (p s) (λ rest a, or_error rest (f a));
  streaming_char c s :=
    match s with x :: s' => if (x =? c)%N then Done s' c else ParseError | [] => Incomplete end;
  streaming_is_not l s := match span (λ c, negb (bool_decide (c ∈ l))) s with
    | (_, []) => Incomplete
    | r => one_or_more r
    end;
  take_while_m_n m n f s :=
    let '(a, b) := span f (take n s) in
    if (length a <? m)%nat then ParseError else Done (b ++ drop n s) a;
  multispace1 s := match span (λ c, is_blank c || is_line_end c) s with
    | (_, []) => Incomplete
    | r => one_or_more r
    end;
|}.
#[local] Instance toy_nom_laws : NomLaws.
Proof.
  split; try done.
  intros A p s. cbn [many0 toy_nom]. unfold toy_many at 1. simpl.
  destruct (p s) as [rest a| | |]; try done.
  destruct (Nat.ltb_spec (length rest) (length s)); [|done].
  unfold toy_many. by rewrite (toy_many0_fuel p (length s) (S (length rest))) by lia.
Qed.
(** A float as its text. *)
#[local] Instance toy_float : Float64 := {| f64 := str; f64_from_str := Some; f64_display := id |}.

(** A definition with every kind of constant, before a line that is silently
    dropped, and before a string that is not closed. *)
Definition toy_type (b : BaseTypeName) : TypeName := {| base := b; array_spec := None |}.
Definition toy_definition : list (option Item * option Comment) :=
  [(None, Some {| comment_text := lit "# a definition" |}); (None, None);
   (Some (Constant (toy_type (Primitive (lit "float64"))) (lit "C") (Float (lit "2.9979e8" : f64))), None);
   (Some (Constant (toy_type (Primitive (lit "string"))) (lit "S") (String_ [98%N; quote; backslash])),
    Some {| comment_text := lit "#" |});
   (Some (Constant (toy_type (Primitive (lit "int64"))) (lit "K") (Int i64_min)), None);
   (Some (Field (toy_type (ComplexType (Some (lit "geometry_msgs")) (lit "Point"))) (lit "p") None), None)].
Definition toy_text : str :=
  lit "# a definition" ++ [10; 10]%N ++ lit "float64 C=2.9979e8" ++ 10%N ::
  lit "string S=" ++ [quote; 98; backslash; quote; backslash; backslash; quote]%N ++ lit " #" ++ 10%N ::
  lit "int64 K=-9223372036854775808" ++ 10%N :: lit "geometry_msgs/Point p" ++ [10%N].
Lemma toy_text_ok : msg_text Release toy_definition toy_text.
Proof.
  eexists [_; _; _; _; _; _]. split.
  - repeat (apply Forall2_cons; split); [..|by apply Forall2_nil]; eexists; (split; [reflexivity|]).
    + split; [|reflexivity]. eexists; (split_and!; [reflexivity|by apply (bool_decide_eq_true_1 _)..]).
    + reflexivity.
    + split_and!; [split; [by apply (bool_decide_eq_true_1 _)|done]|split; [done|by repeat constructor]|].
      eexists. split; [|reflexivity]. split; [|reflexivity]. right. left.
      exists (lit "2"), (lit ".9979"), (lit "e8"). split_and!; [reflexivity|..].
      * eexists _, _; (split_and!; [reflexivity|done|by repeat constructor]).
      * right. eexists. split; [reflexivity|]. eexists _, _; (split_and!; [reflexivity|done|by repeat constructor]).
      * exists 101%N, [], (lit "8"). split_and!; [reflexivity|by apply (bool_decide_eq_true_1 _)|by left|].
        eexists _, _; (split_and!; [reflexivity|done|by repeat constructor]).
    + split; [by (eexists; split_and!; [reflexivity|by apply (bool_decide_eq_true_1 _)..])|]. eexists.
      split; [|reflexivity].
      split_and!; [split; [by apply (bool_decide_eq_true_1 _)|done]|split; [done|by repeat constructor]|].
      eexists. by split.
    + split_and!; [split; [by apply (bool_decide_eq_true_1 _)|done]|split; [done|by repeat constructor]|].
      eexists. split; [|reflexivity]. by split_and!.
    + split_and!; [|split; [done|by repeat constructor]|done|reflexivity].
      split; [|done]. split_and!; [split; [done|by repeat constructor]..|]. by repeat constructor.
  - reflexivity.
Qed.
Example msg_spec_print_witness :
  let dropped := lit "float64 LOW=-1.5" ++ 10%N :: lit "float64 dropped" ++ [10%N] in
  let unclosed := lit "string S=" ++ quote :: lit "abc" ++ [10%N] in
  msg_spec Release (toy_text ++ dropped) = Done dropped toy_definition ∧
  msg_spec Release (toy_text ++ unclosed) = Incomplete ∧
  ¬ ∃ t, msg_text Debug toy_definition t.
Proof.
  intros dropped unclosed.
  destruct (msg_spec_print Release toy_definition) as [Hr _].
  assert (line Release dropped = ParseError) as Hd by (vm_compute; reflexivity).
  assert (line Release unclosed = Incomplete) as Hu by (vm_compute; reflexivity).
  destruct (Hr toy_text dropped toy_text_ok) as [_ H1]. rewrite Hd in H1.
  destruct (Hr toy_text unclosed toy_text_ok) as [_ H2]. rewrite Hu in H2.
  split; [exact H1|]. split; [exact H2|].
  intros (t & ts & Hts & _). destruct (Forall2_lookup_l _ _ _ 4 _ Hts eq_refl) as (y & _ & u & _ & _ & _ & v & Hv & _).
  destruct Hv as (_ & Hv & _). by apply Hv.
Defined.
