(* ===== verification/MsgGen.v ===== *)
(** * The generator msggen (bin/msggen/main.rs)

    Rust code from parsed message definitions, written to an [io::Write], and
    the merging of the package lists of several requested types. MsgMain adds
    the files, the queries to colcon and [main]. *)
From S2P Require Import Prelude MsgParser.

(** [io::Write] as the generator uses it, and what was written so far. *)
Class IoWrite (W E : Type) := {
  write_fmt : str → W → W * result E unit;
  contents : W → str;
}.
Class IoWriteLaws (W E : Type) `{!IoWrite W E} := {
  write_ok s w w' : write_fmt s w = (w', Ok tt) → contents w' = contents w ++ s;
}.

(** [Iterator::take_while] and [skip_while]. *)
Fixpoint take_while {A} (p : A → bool) (l : list A) : list A :=
  match l with x :: l => if p x then x :: take_while p l else [] | [] => [] end.
Fixpoint skip_while {A} (p : A → bool) (l : list A) : list A :=
  match l with x :: l' => if p x then skip_while p l' else l | [] => [] end.

Definition escape_keywords (id : str) : str :=
  if bool_decide (id = lit "type") then lit "r#" ++ id else id.
Definition RUST_BYTESTRING : str := lit "String".
Definition RUST_WIDE_STRING : str := lit "WString".
Definition primitive_name (name : str) : option str :=
  if bool_decide (name = lit "bool") then Some (lit "bool")
  else if bool_decide (name = lit "byte") then Some (lit "u8")
  else if bool_decide (name = lit "char") then Some (lit "u8")
  else if bool_decide (name = lit "float32") then Some (lit "f32")
  else if bool_decide (name = lit "float64") then Some (lit "f64")
  else if bool_decide (name = lit "int8") then Some (lit "i8")
  else if bool_decide (name = lit "int16") then Some (lit "i16")
  else if bool_decide (name = lit "int32") then Some (lit "i32")
  else if bool_decide (name = lit "int64") then Some (lit "i64")
  else if bool_decide (name = lit "uint8") then Some (lit "u8")
  else if bool_decide (name = lit "uint16") then Some (lit "u16")
  else if bool_decide (name = lit "uint32") then Some (lit "u32")
  else if bool_decide (name = lit "uint64") then Some (lit "u64")
  else if bool_decide (name = lit "string") then Some RUST_BYTESTRING
  else if bool_decide (name = lit "wstring") then Some RUST_WIDE_STRING
  else None.
(** Its [io::Result] is always [Ok]; [None] is the panic. *)
Definition translate_type (t : TypeName) : option str :=
  base ←
    match base t with
    | Primitive name => primitive_name name
    | BoundedString _ => Some RUST_BYTESTRING
    | ComplexType package_name type_name => Some
        (match package_name with Some pkg => lit "super::" ++ pkg ++ lit "::" | None => [] end ++ type_name)
    end;
  Some
    match array_spec t with
    | None => base
    | Some (Static size) => lit "[" ++ base ++ lit ";" ++ show_N size ++ lit "]"
    | Some Unbounded | Some (Bounded _) => lit "Vec<" ++ base ++ lit ">"
    end.

Section msggen.
Context `{Nom, Float64} {W E : Type} `{!IoWrite W E}.

(** The bytes of a [Value::String] are those of a [String]: the [unwrap] of
    [String::from_utf8] succeeds. *)
Definition translate_value (v : Value) : str :=
  match v with
  | Bool b => if b then lit "true" else lit "false"
  | Float f => f64_display f
  | Int i => show_Z i
  | Uint u => show_N u
  | String_ v => v
  end.

(** How a run ends early: with an error of the writer, or a panic. *)
Inductive Exit := IoError (e : E) | Panic.
Abbreviation M := (stateE W Exit).
Definition write (s : str) : M unit := λ w,
  let '(w, r) := write_fmt s w in (w, match r with Ok _ => Ok tt | Err e => Err (IoError e) end).
Definition writeln (s : str) : M unit := write (s ++ [10%N]).
Definition unwrap {A} (o : option A) : M A := λ w, (w, ok_or Panic o).
Fixpoint for_each {A} (f : A → M unit) (l : list A) : M unit :=
  match l with x :: l => _ ← f x; for_each f l | [] => mret tt end.

Definition is_not_field (i : Item) : bool := match i with Field _ _ _ => false | _ => true end.
Definition no_field (p : option Item * option Comment) : bool :=
  match p.1 with None => true | Some i => is_not_field i end.

(** The end of a line: the comment after an item. *)
Definition write_comment (comment_opt : option Comment) : M unit :=
  match comment_opt with
  | Some c => writeln (lit "// " ++ comment_text c)
  | None => writeln []
  end.
(** The body of the first loop: constants and comments before the fields. *)
Definition print_constant (line : option Item * option Comment) : M unit :=
  match line with
  | (None, None) => writeln []
  | (None, Some c) => writeln (lit "// " ++ comment_text c)
  | (Some item, comment_opt) =>
      _ ← match item with
          | Field _ _ _ => unwrap None
          | Constant type_name const_name value =>
              rust_type ← unwrap (translate_type type_name);
              let rust_value := translate_value value in
              write (lit "pub const " ++ const_name ++ lit " : " ++ rust_type ++ lit " = " ++
                     rust_value ++ lit ";")
          end;
      write_comment comment_opt
  end.
(** The body of the second loop: from the first field on. *)
Definition print_field (line : option Item * option Comment) : M unit :=
  match line with
  | (None, None) => writeln []
  | (None, Some c) => writeln (lit "  // " ++ comment_text c)
  | (Some item, comment_opt) =>
      _ ← write (lit "  pub ");
      _ ← match item with
          | Field type_name field_name _ =>
              rust_type ← unwrap (translate_type type_name);
              write (escape_keywords field_name ++ lit " : " ++ rust_type ++ lit ", ")
          | Constant _ const_name _ =>
              write (lit "// skipped constant " ++ const_name ++ lit " in the middle of struct")
          end;
      write_comment comment_opt
  end.
Definition print_struct_definition (name : str) (lines : list (option Item * option Comment)) : M unit :=
  let not_yet := take_while no_field lines in
  let got_field := skip_while no_field lines in
  _ ← for_each print_constant not_yet;
  _ ← writeln [];
  _ ← writeln (lit "#[derive(Debug, Serialize, Deserialize)]");
  _ ← writeln (lit "pub struct " ++ name ++ lit " {");
  _ ← for_each print_field got_field;
  writeln (lit "}").

(** [main] on one definition: parsed, and what was parsed printed. *)
Definition generate (pr : profile) (name input : str) : M unit :=
  msg ← unwrap (match msg_spec pr input with Done rest msg => Some (rest, msg) | _ => None end);
  print_struct_definition name msg.2.

(** A package and its definitions, ordered by name. *)
Record RosPkg := { pkg_name : str; pkg_path : str; types : list (str * str) }.
#[export] Instance RosPkg_eq_dec : EqDecision RosPkg.
Proof. solve_decision. Defined.
End msggen.

(** itertools' [unique]: the first occurrence of every element. *)
Fixpoint unique_from {A} `{EqDecision A} (seen l : list A) : list A :=
  match l with
  | x :: l => if bool_decide (x ∈ seen) then unique_from seen l else x :: unique_from (x :: seen) l
  | [] => []
  end.
Definition unique {A} `{EqDecision A} (l : list A) : list A := unique_from [] l.
(** The loop over the requested types: the packages of every query, merged. *)
Definition merge_packages (queries : list (list RosPkg)) : list RosPkg :=
  fold_left (λ prev_pkgs new_pkgs, unique (prev_pkgs ++ new_pkgs)) queries [].

(** ** The text to be generated *)
Section rendering.
Context `{Float64}.
Definition comment_text_of (c : option Comment) : str :=
  match c with Some c => lit "// " ++ comment_text c | None => [] end.
(** A line before the first field. *)
Definition const_line (l : option Item * option Comment) : option str :=
  match l with
  | (None, c) => Some (comment_text_of c)
  | (Some (Field _ _ _), _) => None
  | (Some (Constant t n v), c) =>
      r ← translate_type t;
      Some (lit "pub const " ++ n ++ lit " : " ++ r ++ lit " = " ++ translate_value v ++ lit ";" ++
            comment_text_of c)
  end.
(** A line from the first field on. *)
Definition struct_line (l : option Item * option Comment) : option str :=
  match l with
  | (None, None) => Some []
  | (None, c) => Some (lit "  " ++ comment_text_of c)
  | (Some (Field t n _), c) =>
      r ← translate_type t;
      Some (lit "  pub " ++ escape_keywords n ++ lit " : " ++ r ++ lit ", " ++ comment_text_of c)
  | (Some (Constant _ n _), c) =>
      Some (lit "  pub // skipped constant " ++ n ++ lit " in the middle of struct" ++ comment_text_of c)
  end.
(** One line for every line of the definition, and the frame of the struct
    before the first field and at the end. *)
Fixpoint rendered (name : str) (ls : list (option Item * option Comment)) : option (list str) :=
  match ls with
  | l :: ls' =>
      if no_field l then t ← const_line l; ts ← rendered name ls'; Some (t :: ts)
      else
        ts ← mapM struct_line ls;
        Some ([] :: lit "#[derive(Debug, Serialize, Deserialize)]" ::
              (lit "pub struct " ++ name ++ lit " {") :: ts ++ [lit "}"])
  | [] =>
      Some [[]; lit "#[derive(Debug, Serialize, Deserialize)]";
            lit "pub struct " ++ name ++ lit " {"; lit "}"]
  end.
Definition text_of (ls : list str) : str := ls ≫= λ l, l ++ [10%N].
End rendering.

(** ** Lemmas *)

Lemma primitive_known name : name ∈ primitives → is_Some (primitive_name name).
Proof.
  revert name. apply Forall_forall. unfold primitives. simpl.
  repeat (constructor; [eexists; reflexivity|]). constructor.
Qed.
Lemma translate_known t : known_type t → is_Some (translate_type t).
Proof.
  unfold known_type, translate_type. destruct (base t) as [name| |]; [|by eexists..].
  intros [r ->]%primitive_known. by eexists.
Qed.

Section rendering_lemmas.
Context `{Float64}.
Definition known_line (l : option Item * option Comment) : Prop := ∀ i, l.1 = Some i → known_item i.
Lemma const_line_known l : known_line l → no_field l = true → is_Some (const_line l).
Proof.
  destruct l as [[[t n d|t n v]|] c]; intros Hk Hn; [done| |by eexists].
  specialize (Hk _ eq_refl). simpl in *. destruct (translate_known t Hk) as [r ->]. by eexists.
Qed.
Lemma struct_line_known l : known_line l → is_Some (struct_line l).
Proof.
  destruct l as [[[t n d|t n v]|] [c|]]; intros Hk; try by eexists.
  all: specialize (Hk _ eq_refl); simpl in *; destruct (translate_known t Hk) as [r ->]; by eexists.
Qed.
Lemma rendered_known name ls : Forall known_line ls → is_Some (rendered name ls).
Proof.
  induction 1 as [|l ls Hl Hls IH]; [by eexists|]. cbn [rendered].
  destruct (no_field l) eqn:Hn.
  - destruct (const_line_known l Hl Hn) as [t ->], IH as [ts ->]. by eexists.
  - assert (is_Some (mapM struct_line (l :: ls))) as [ts ->]; [|by eexists].
    apply mapM_is_Some. constructor; [by apply struct_line_known|].
    eapply Forall_impl; [exact Hls|]. apply struct_line_known.
Qed.
End rendering_lemmas.

(** *** Runs that write a given text *)
Section writes.
Context `{!Nom, !NomLaws, Float64} {W E : Type} `{!IoWrite W E, !IoWriteLaws W E}.

(** Whatever the writer, the run does not panic, it ends early only with an
    error of the writer, and otherwise it has written the text. *)
Definition writes {A} (m : stateE W Exit A) (text : str) : Prop :=
  ∀ w, match m w with
       | (w', Ok _) => contents w' = contents w ++ text
       | (_, Err (IoError e)) => ∃ s w0, (write_fmt s w0).2 = Err e
       | (_, Err Panic) => False
       end.
Lemma writes_bind {A B} (m : stateE W Exit A) (f : A → stateE W Exit B) t1 t2 :
  writes m t1 → (∀ a, writes (f a) t2) → writes (m ≫= f) (t1 ++ t2).
Proof.
  intros Hm Hf w. unfold mbind, stateE_bind. specialize (Hm w).
  destruct (m w) as [w1 [a|e]]; [|done]. specialize (Hf a w1).
  destruct (f a w1) as [w2 [b|e]]; [|done]. by rewrite Hf, Hm, app_assoc.
Qed.
Lemma writes_unwrap_bind {A B} (o : option A) a (f : A → stateE W Exit B) t :
  o = Some a → writes (f a) t → writes (unwrap o ≫= f) t.
Proof. by intros ->. Qed.
Lemma writes_ret {A} (a : A) : writes (mret a) [].
Proof. intros w. simpl. by rewrite app_nil_r. Qed.
Lemma writes_write s : writes (write s) s.
Proof.
  intros w. unfold write. destruct (write_fmt s w) as [w' [[]|e]] eqn:Hw.
  - by apply write_ok.
  - exists s, w. by rewrite Hw.
Qed.
Lemma writes_writeln s : writes (writeln s) (s ++ [10%N]).
Proof. apply writes_write. Qed.
Lemma writes_for_each {A} (f : A → stateE W Exit unit) (g : A → option str) l ts :
  (∀ x t, x ∈ l → g x = Some t → writes (f x) (t ++ [10%N])) →
  mapM g l = Some ts → writes (for_each f l) (text_of ts).
Proof.
  intros Hf Hts. apply mapM_Some in Hts. revert Hf.
  induction Hts as [|x t l ts Hx _ IH]; intros Hf; [apply writes_ret|].
  unfold text_of. rewrite bind_cons. apply writes_bind; [by apply Hf; [left|]|].
  intros _. apply IH. intros y u Hy. apply Hf. by right.
Qed.
Lemma writes_comment c : writes (write_comment c) (comment_text_of c ++ [10%N]).
Proof. destruct c; apply writes_writeln. Qed.
#[local] Hint Resolve writes_write writes_writeln writes_comment : core.

Lemma writes_bind_eq {A B} (m : stateE W Exit A) (f : A → stateE W Exit B) t1 t2 t :
  writes m t1 → (∀ a, writes (f a) t2) → t = t1 ++ t2 → writes (m ≫= f) t.
Proof. intros Hm Hf ->. by apply writes_bind. Qed.
Lemma writes_constant l t : const_line l = Some t → writes (print_constant l) (t ++ [10%N]).
Proof.
  destruct l as [[[ty n d|ty n v]|] c]; cbn [const_line print_constant]; [done| |].
  - intros (r & Hr & <-%(inj Some))%bind_Some.
    eapply writes_bind_eq; [apply (writes_unwrap_bind _ r _ _ Hr), writes_write|..]; auto.
    by rewrite <-!app_assoc.
  - intros <-%(inj Some). destruct c; apply writes_writeln.
Qed.
Lemma writes_field l t : struct_line l = Some t → writes (print_field l) (t ++ [10%N]).
Proof.
  destruct l as [[[ty n d|ty n v]|] c]; cbn [struct_line print_field].
  - intros (r & Hr & <-%(inj Some))%bind_Some.
    eapply writes_bind_eq; [auto|intros _|by rewrite <-app_assoc].
    eapply writes_bind_eq; [apply (writes_unwrap_bind _ r _ _ Hr), writes_write|..]; auto. by rewrite <-!app_assoc.
  - intros <-%(inj Some). eapply writes_bind_eq; [auto|intros _|].
    + eapply writes_bind_eq; auto.
    + change (lit "  pub // skipped constant ") with (lit "  pub " ++ lit "// skipped constant ").
      by rewrite <-!app_assoc.
  - destruct c; intros <-%(inj Some); rewrite <-?app_assoc; apply writes_writeln.
Qed.
(** The spec, split where the two loops meet. *)
Lemma rendered_split name ls ts :
  rendered name ls = Some ts → ∃ ts1 ts2,
    mapM const_line (take_while no_field ls) = Some ts1 ∧
    mapM struct_line (skip_while no_field ls) = Some ts2 ∧
    ts = ts1 ++ [] :: lit "#[derive(Debug, Serialize, Deserialize)]" ::
           (lit "pub struct " ++ name ++ lit " {") :: ts2 ++ [lit "}"].
Proof.
  revert ts. induction ls as [|l ls IH]; intros ts; cbn [rendered take_while skip_while].
  - intros [= <-]. by exists [], [].
  - destruct (no_field l).
    + intros (t & Ht & (us & Hus & [= <-])%bind_Some)%bind_Some.
      destruct (IH us Hus) as (ts1 & ts2 & Hc & Hs & ->). exists (t :: ts1), ts2.
      simpl. by rewrite Ht, Hc.
    + intros (us & Hus & [= <-])%bind_Some. by exists [], us.
Qed.
Lemma text_of_app l k : text_of (l ++ k) = text_of l ++ text_of k.
Proof. unfold text_of. apply bind_app. Qed.
Lemma text_of_cons l k : text_of (l :: k) = (l ++ [10%N]) ++ text_of k.
Proof. done. Qed.
Lemma print_struct_writes name ls ts :
  rendered name ls = Some ts → writes (print_struct_definition name ls) (text_of ts).
Proof.
  intros (ts1 & ts2 & Hc & Hs & ->)%rendered_split. unfold print_struct_definition.
  rewrite text_of_app. apply writes_bind.
  { apply (writes_for_each _ const_line); [|done]. intros x t _. apply writes_constant. }
  intros _. rewrite !text_of_cons. do 3 (apply writes_bind; [auto|intros _]).
  rewrite text_of_app. apply writes_bind.
  { apply (writes_for_each _ struct_line); [|done]. intros x t _. apply writes_field. }
  intros _. rewrite text_of_cons, app_nil_r. apply writes_writeln.
Qed.
Lemma generate_writes pr name input rest ls :
  msg_spec pr input = Done rest ls →
  ∃ ts, rendered name ls = Some ts ∧ writes (generate pr name input) (text_of ts).
Proof.
  intros Hp. destruct (rendered_known name ls) as [ts Hts]; [by eapply msg_spec_known|].
  exists ts. split; [done|]. unfold generate. rewrite Hp.
  apply (writes_unwrap_bind _ (rest, ls)); [done|]. by apply print_struct_writes.
Qed.
End writes.

(** *** The packages *)
Lemma unique_from_spec {A} `{EqDecision A} (seen l : list A) :
  NoDup (unique_from seen l) ∧ ∀ x, x ∈ unique_from seen l ↔ x ∈ l ∧ x ∉ seen.
Proof.
  revert seen. induction l as [|y l IH]; intros seen; simpl.
  { split; [constructor|]. intros x. set_solver. }
  case_bool_decide as Hy.
  - destruct (IH seen) as [Hn Hx]. split; [done|]. intros x. rewrite Hx. set_solver.
  - destruct (IH (y :: seen)) as [Hn Hx]. split.
    + constructor; [|done]. rewrite Hx. set_solver.
    + intros x. rewrite elem_of_cons, Hx. destruct (decide (x = y)); set_solver.
Qed.
(** Every element comes after those it depends on. *)
Definition ordered {A} (dep : A → A → Prop) (l : list A) : Prop :=
  ∀ l1 x l2, l = l1 ++ x :: l2 → ∀ y, dep x y → y ∈ l1.
Lemma ordered_app {A} (dep : A → A → Prop) l k :
  ordered dep l → (∀ k1 x k2, k = k1 ++ x :: k2 → ∀ y, dep x y → y ∈ l ++ k1) → ordered dep (l ++ k).
Proof.
  intros Hl Hk l1 x l2 E y Hy. apply app_eq_inv in E as [(m & -> & E)|(m & -> & E)].
  - destruct m as [|z m]; simpl in E.
    + specialize (Hk [] x l2 (eq_sym E) y Hy). by rewrite !app_nil_r in Hk.
    + simplify_eq. by eapply Hl.
  - by eapply Hk.
Qed.
Lemma unique_from_ordered {A} `{EqDecision A} (dep : A → A → Prop) (p seen l : list A) :
  (∀ x, x ∈ seen → x ∈ p) →
  (∀ l1 x l2, l = l1 ++ x :: l2 → ∀ y, dep x y → y ∈ p ∨ y ∈ (l1 : list A)) →
  ∀ l1 x l2, unique_from seen l = l1 ++ x :: l2 → ∀ y, dep x y → y ∈ p ∨ y ∈ l1.
Proof.
  revert p seen. induction l as [|z l IH]; intros p seen Hs Hl l1 x l2; simpl.
  { intros E. by destruct l1. }
  assert (∀ l1 x l2, l = l1 ++ x :: l2 → ∀ y, dep x y → y ∈ z :: p ∨ y ∈ l1) as Hl'.
  { intros k1 u k2 -> y Hy. destruct (Hl (z :: k1) u k2 eq_refl y Hy) as [?|?]; set_solver. }
  case_bool_decide as Hz; intros E y Hy.
  - apply Hs in Hz. destruct (IH (z :: p) seen ltac:(set_solver) Hl' _ _ _ E y Hy); set_solver.
  - destruct l1 as [|v l1]; simplify_eq/=.
    + destruct (Hl [] x l eq_refl y Hy); set_solver.
    + destruct (IH (v :: p) (v :: seen) ltac:(set_solver) Hl' _ _ _ H0 y Hy); set_solver.
Qed.
Lemma unique_ordered {A} `{EqDecision A} (dep : A → A → Prop) (l : list A) :
  ordered dep l → ordered dep (unique l).
Proof.
  intros Hl l1 x l2 E y Hy.
  destruct (unique_from_ordered dep [] [] l ltac:(done)
              (λ k1 u k2 e v hv, or_intror (Hl k1 u k2 e v hv)) _ _ _ E y Hy); set_solver.
Qed.
(** Merging queries, each of which lists every package after its dependencies,
    lists each package once, and again after its dependencies. *)
Lemma merge_packages_ordered dep (queries : list (list RosPkg)) :
  Forall (ordered dep) queries →
  ordered dep (merge_packages queries) ∧ NoDup (merge_packages queries) ∧
  ∀ p, p ∈ merge_packages queries ↔ ∃ q, q ∈ queries ∧ p ∈ q.
Proof.
  intros Hq. unfold merge_packages.
  assert (∀ prev, ordered dep prev → NoDup prev →
    let m := fold_left (λ prev new, unique (prev ++ new)) queries prev in
    ordered dep m ∧ NoDup m ∧ ∀ p, p ∈ m ↔ p ∈ prev ∨ ∃ q, q ∈ queries ∧ p ∈ q) as Hm.
  { induction Hq as [|q qs Hq _ IH]; intros prev Ho Hn; simpl.
    { split_and!; [done..|]. set_solver. }
    destruct (unique_from_spec [] (prev ++ q)) as [Hun Hux].
    destruct (IH (unique (prev ++ q))) as (H1 & H2 & H3); [|done|].
    { apply unique_ordered, ordered_app; [done|]. intros k1 x k2 -> y Hy.
      apply elem_of_app. right. by eapply Hq. }
    split_and!; [done..|]. intros p. rewrite H3. unfold unique. rewrite Hux. set_solver. }
  destruct (Hm []) as (H1 & H2 & H3); [by intros [] ?|constructor|].
  split_and!; [done..|]. intros p. rewrite H3. set_solver.
Qed.

Lemma merge_packages_elem (queries : list (list RosPkg)) p :
  p ∈ merge_packages queries ↔ ∃ q, q ∈ queries ∧ p ∈ q.
Proof.
  apply (merge_packages_ordered (λ _ _, False)). apply Forall_true. by intros q l1 x l2 _ y [].
Qed.

Section msggen_theorems.
Context `{!Nom, !NomLaws, Float64} {W E : Type} `{!IoWrite W E, !IoWriteLaws W E}.

(** C39: Generation is total. For every definition that parses, whatever the
    parsed lines are, the generator panics neither in [translate_type] nor in
    the loop over the constants: it stops early only with an error of the
    writer, and otherwise it has written exactly the constants and comments
    before the first field, the frame of the struct, and a line for every line
    from the first field on, in order, each with its Rust type. A constant after
    the first field comes out as [pub // skipped constant], which is not Rust in
    front of the next line. *)
Theorem generation_total pr name input rest ls (w : W) :
  msg_spec pr input = Done rest ls →
  ∃ ts, rendered name ls = Some ts ∧
    match generate (E:=E) pr name input w with
    | (w', Ok _) => contents w' = contents w ++ text_of ts
    | (_, Err (IoError e)) => ∃ s w0, (write_fmt s w0).2 = Err e
    | (_, Err Panic) => False
    end.
Proof.
  intros Hp. destruct (generate_writes pr name input rest ls Hp) as (ts & Hts & Hw).
  exists ts. split; [done|]. apply Hw.
Qed.

(** A line that does not parse ends the definition: no error, and nothing of it
    or after it is generated. *)
Lemma generate_drops pr name ls t bad :
  msg_text pr ls t → line pr bad = ParseError →
  ∃ ts, rendered name ls = Some ts ∧ writes (generate pr name (t ++ bad)) (text_of ts).
Proof.
  intros Hls Hbad. eapply generate_writes. rewrite (msg_spec_lines pr ls t bad Hls).
  unfold msg_spec. rewrite many0_nil by done. simpl. by rewrite app_nil_r.
Qed.
End msggen_theorems.

#[local] Existing Instances MsgParser.toy_nom MsgParser.toy_nom_laws MsgParser.toy_float.
#[local] Instance toy_write : IoWrite str unit := {| write_fmt s w := (w ++ s, Ok tt); contents w := w |}.
#[local] Instance toy_write_laws : IoWriteLaws str unit.
Proof. split. by intros s w w' [= <-]. Qed.
Lemma generation_total_witness :
  let input := lit "# d" ++ 10%N :: lit "int8 K=1" ++ 10%N :: lit "string[] type" ++ 10%N ::
               lit "int8 L=2" ++ 10%N :: lit "Point p # c" ++ 10%N :: lit "bool x=?" ++ [10%N] in
  ∃ rest ls, msg_spec Release input = Done rest ls ∧ length ls = 5 ∧
  is_ok (generate (E:=unit) Release (lit "T") input ([] : str)).2 ∧
  ∃ ts, rendered (lit "T") ls = Some ts ∧ length ts = 9 ∧
    match generate (E:=unit) Release (lit "T") input ([] : str) with
    | (w', Ok _) => w' = text_of ts
    | (_, Err (IoError e)) => ∃ s w0, (write_fmt (W:=str) s w0).2 = Err e
    | (_, Err Panic) => False
    end.
Proof.
  intros input. eexists _, _. split; [vm_compute; reflexivity|]. split; [vm_compute; reflexivity|].
  split; [vm_compute; exact I|].
  edestruct (generation_total (W:=str) (E:=unit) Release (lit "T") input) with (w := [] : str)
    as (ts & Hts & Hw); [vm_compute; reflexivity|].
  exists ts. split; [exact Hts|]. split; [|exact Hw].
  revert Hts. vm_compute. intros Hts. injection Hts as <-. reflexivity.
Defined.
