(* ===== verification/MsgMain.v ===== *)
(** * The program msggen (bin/msggen/main.rs)

    [main] and [list_packges_with_msgs] over the operating system: the working
    directory, the query to colcon, the reading of the [msg] directories, and the
    files written by MsgGen's generator. A run is followed call by call in [step],
    over the stages it goes through. *)
From S2P Require Import Prelude WideString OsPath MsgParser MsgGen.

(** What std asks of the operating system, in the state [S] of the program and
    of everything outside it. A handle of a file being written is an [OutFile],
    of a file being read an [InFile]; [debug] and [debug_path] are the [Debug]
    of strings and paths, used in messages only. *)
Record Output := { status_success : bool; stdout_bytes : bytes; stderr_bytes : bytes }.
Class Os (S E : Type) := {
  OutFile : Type;
  InFile : Type;
  stdout : OutFile;
  io_error_other : str → E;
  current_dir : S → result E OsStr;
  set_current_dir : OsStr → S → S * result E unit;
  command_output : OsStr → list OsStr → S → S * result E Output;
  read_dir : OsStr → S → result E (list (result E OsStr));
  open : OsStr → S → result E InFile;
  read_to_string : InFile → S → result E str;
  create : OsStr → S → S * result E OutFile;
  file_write : OutFile → str → S → S * result E unit;
  debug : str → str;
  debug_path : OsStr → str;
  (* for the laws: *)
  cwd : S → OsStr;
  created : OutFile → S → option (OsStr * OsStr);
  written : OutFile → S → str;
}.
(** The crate bstr: the lines of a byte string, and its fields. *)
Class Bstr := {
  bstr_lines : bytes → list bytes;
  fields_with : (char → bool) → bytes → list bytes;
}.
(** The command line as clap returns it. *)
Record ArgMatches := {
  input : option str;
  type_ : option (list str);
  output : option str;
  workspace : option str;
  logdir : option str;
}.

(** [BTreeMap::insert] on the entries in the order of their keys. *)
Fixpoint btree_insert {A} (k : str) (v : A) (m : list (str * A)) : list (str * A) :=
  match m with
  | [] => [(k, v)]
  | (k', v') :: m' =>
      if bool_decide (k = k') then (k, v) :: m'
      else if str_leb k k' then (k, v) :: m
      else (k', v') :: btree_insert k v m'
  end.

Section msggen_main.
Context `{Nom, Float64, Bstr} {S E : Type} `{!Os S E}.

(** *** The program's monad: MsgGen's, over the operating system *)
Abbreviation M := (stateE S (@Exit E)).
Definition io {A} (m : S → S * result E A) : M A := λ s, let '(s, r) := m s in (s, map_err IoError r).
Definition ask {A} (m : S → result E A) : M A := λ s, (s, map_err IoError (m s)).
Definition from_result {A} (r : result E A) : M A := λ s, (s, map_err IoError r).
Definition panic {A} : M A := λ s, (s, Err Panic).
(** A file as the writer of the generator. *)
Definition writer (f : OutFile) : IoWrite S E := {| write_fmt := file_write f; contents := written f |}.
Definition writeln_to (f : OutFile) (t : str) : M unit := @writeln S E (writer f) t.
(** [println!] panics when standard output cannot be written. *)
Definition println (t : str) : M unit := λ s,
  let '(s, r) := file_write stdout (t ++ [10%N]) s in (s, map_err (λ _, Panic) r).

(** *** [list_packges_with_msgs] *)
Definition add_type (msg_dir : OsStr) (dir_entry : result E OsStr) (types : list (str * str)) :
    M (list (str * str)) :=
  name ← from_result dir_entry;
  let path := path_push msg_dir name in
  if bool_decide (extension path = Some (lit "msg")) then
    match file_stem path with
    | Some type_name =>
        file ← ask (open path);
        msg_spec ← ask (read_to_string file);
        mret (btree_insert (from_utf8_lossy type_name) msg_spec types)
    | None => _ ← println (lit "Weird file name " ++ debug_path path); mret types
    end
  else if bool_decide (extension path = Some (lit "idl")) || bool_decide (extension path = Some (lit "json"))
  then mret types
  else _ ← println (debug_path path ++ lit " is not .msg"); mret types.
Fixpoint add_types (msg_dir : OsStr) (dir_iter : list (result E OsStr)) (types : list (str * str)) :
    M (list (str * str)) :=
  match dir_iter with
  | dir_entry :: dir_iter => types ← add_type msg_dir dir_entry types; add_types msg_dir dir_iter types
  | [] => mret types
  end.
(** The body of the loop over the lines: the package of a line, when it has
    messages. *)
Definition line_package (line : bytes) : M (option RosPkg) :=
  match fields_with is_whitespace line with
  | [package_name; package_path; _build_tool] =>
      let package_path := from_utf8_lossy package_path in
      let package_name := from_utf8_lossy package_name in
      let msg_dir := path_push (utf8 package_path) (lit "msg") in
      types ← (λ s,
        match read_dir msg_dir s with
        | Ok dir_iter =>
            (_ ← println (lit "Package path " ++ debug_path msg_dir); add_types msg_dir dir_iter []) s
        | Err _ => (s, Ok [])
        end);
      mret (match types with
            | [] => None
            | _ => Some {| pkg_name := package_name; pkg_path := package_path; types := types |}
            end)
  | _ => panic
  end.
Fixpoint line_packages (lines : list bytes) (result : list RosPkg) : M (list RosPkg) :=
  match lines with
  | line :: lines =>
      pkg ← line_package line;
      line_packages lines (result ++ match pkg with Some pkg => [pkg] | None => [] end)
  | [] => mret result
  end.
Definition colcon_args (colcon_log_directory package_name : str) : list OsStr :=
  utf8 <$> [lit "--log-base=" ++ colcon_log_directory; lit "list"; lit "--topological-order";
            lit "--packages-up-to"; package_name].
Definition list_packges_with_msgs (workspace_dir ros2_abs_type : str) (colcon_log_directory : OsStr) :
    M (list RosPkg) :=
  '(package_name, _type_name) ←
    from_result (ok_or (io_error_other (lit "Need package_name/type_name")) (rsplit_once slash ros2_abs_type));
  cwd ← ask current_dir;
  _ ← println (lit "Changing to " ++ workspace_dir);
  _ ← io (set_current_dir (utf8 workspace_dir));
  _ ← println (lit "Querying colcon");
  colcon_log_directory ← unwrap (to_str colcon_log_directory);
  colcon_output ← io (command_output (lit "colcon") (colcon_args colcon_log_directory package_name));
  if status_success colcon_output then
    result ← line_packages (bstr_lines (stdout_bytes colcon_output)) [];
    _ ← io (set_current_dir cwd);
    _ ← println (lit "Got " ++ show_N (N.of_nat (length result)) ++ lit " packages");
    mret result
  else
    from_result (Err (io_error_other (lit "Colcon failure: " ++ from_utf8_lossy (stderr_bytes colcon_output) ++
                                      10%N :: lit "Have you run local_setup.bash?"))).

(** *** [main] *)
(** One input file, to a file or to standard output. *)
Definition main_input (pr : profile) (input_file_name : str) (output : option str) : M unit :=
  input_file ← ask (open (utf8 input_file_name));
  type_name ← from_result (ok_or (io_error_other (lit "Input file did not have base name?"))
                             (file_stem (utf8 input_file_name)));
  let type_name := from_utf8_lossy type_name in
  input ← ask (read_to_string input_file);
  msg ← unwrap (match msg_spec pr input with Done rest msg => Some (rest, msg) | _ => None end);
  out ← match output with
        | None => mret stdout
        | Some out_file_name => io (create (utf8 out_file_name))
        end;
  @print_struct_definition _ S E (writer out) type_name msg.2.
(** The loop over the requested types. *)
Fixpoint query_types (workspace_dir : str) (colcon_log_directory : OsStr) (ros2_types : list str)
    (pkgs : list RosPkg) : M (list RosPkg) :=
  match ros2_types with
  | ros2_type :: ros2_types =>
      new_pkgs ← list_packges_with_msgs workspace_dir ros2_type colcon_log_directory;
      query_types workspace_dir colcon_log_directory ros2_types (unique (pkgs ++ new_pkgs))
  | [] => mret pkgs
  end.
(** The body of the loop over the packages: the package's file, and its line of
    [mod.rs]. *)
Definition pkg_file_name (output_dir : str) (pkg : RosPkg) : str :=
  output_dir ++ lit "/" ++ pkg_name pkg ++ lit ".rs".
Definition generate_type (pr : profile) (out_file : OutFile) (entry : str * str) : M unit :=
  _ ← println (lit "  type " ++ debug entry.1);
  @generate _ _ S E (writer out_file) pr entry.1 entry.2.
Definition generate_package (pr : profile) (output_dir : str) (mod_file : OutFile) (pkg : RosPkg) : M unit :=
  let output_file_name := pkg_file_name output_dir pkg in
  _ ← println (lit "Generating to " ++ debug output_file_name);
  out_file ← io (create (utf8 output_file_name));
  _ ← writeln_to mod_file (lit "mod " ++ pkg_name pkg ++ lit ";");
  _ ← writeln_to out_file (lit "// Generated code. Do not modify.");
  _ ← writeln_to out_file (lit "use serde::{Serialize,Deserialize};");
  _ ← writeln_to out_file (lit "#[allow(unused_imports)]");
  _ ← writeln_to out_file (lit "use ros2_client::WString;");
  _ ← writeln_to out_file [];
  for_each (generate_type pr out_file) (types pkg).
(** The [Debug] of a [Vec]. *)
Definition debug_list (l : list str) : str :=
  lit "[" ++
  match l with x :: l => debug x ++ (l ≫= λ y, lit ", " ++ debug y) | [] => [] end ++ lit "]".
Definition main_types (pr : profile) (args : ArgMatches) (colcon_log_directory : OsStr)
    (ros2_types_requested : list str) : M unit :=
  output_dir ← from_result (ok_or (io_error_other (lit "Output dir required")) (output args));
  workspace_dir ← from_result (ok_or (io_error_other (lit "ROS 2 workspace dir required")) (workspace args));
  _ ← println (lit "Requested types: " ++ debug_list ros2_types_requested);
  pkgs ← query_types workspace_dir colcon_log_directory ros2_types_requested [];
  _ ← println (lit "Generating code to directory '" ++ output_dir ++ lit "'");
  mod_file ← io (create (utf8 (output_dir ++ lit "/mod.rs")));
  for_each (generate_package pr output_dir mod_file) pkgs.
Definition colcon_log_dir (args : ArgMatches) : str := default (lit "/dev/null") (logdir args).
Definition main (pr : profile) (args : ArgMatches) : M unit :=
  let colcon_log_directory := utf8 (colcon_log_dir args) in
  match input args with
  | Some input_file_name => main_input pr input_file_name (output args)
  | None =>
      match type_ args with
      | Some ros2_types_requested => main_types pr args colcon_log_directory ros2_types_requested
      | None => println (lit "Please specify input by either -i or -t option.")
      end
  end.
End msggen_main.

(** ** What is to be generated *)

(** What std and the system promise: a directory that [current_dir] named can
    be returned to; a new file is a new handle, with the working directory it
    was created in; [written] is what was written to it, and only writing to it
    changes that; text on standard output changes no other file. *)
Class OsLaws (S E : Type) `{!Os S E} := {
  chdir_back d s s1 s2 : current_dir s = Ok d → set_current_dir d s1 = (s2, Ok tt) → cwd s2 = cwd s;
  chdir_files p s f : let s' := (set_current_dir p s).1 in
    created f s' = created f s ∧ written f s' = written f s;
  command_files c a s f : let s' := (command_output c a s).1 in
    cwd s' = cwd s ∧ created f s' = created f s ∧ written f s' = written f s;
  create_new p s s' f : create p s = (s', Ok f) →
    f ≠ stdout ∧ created f s = None ∧ created f s' = Some (cwd s, p) ∧ written f s' = [];
  create_frame p s g : let '(s', r) := create p s in
    cwd s' = cwd s ∧ (r ≠ Ok g → created g s' = created g s ∧ written g s' = written g s);
  write_appends f t s s' : file_write f t s = (s', Ok tt) → written f s' = written f s ++ t;
  write_frame f t s g : let s' := (file_write f t s).1 in
    cwd s' = cwd s ∧ created g s' = created g s ∧ (g ≠ f → written g s' = written g s);
  stdout_reads t s : let s' := (file_write stdout t s).1 in
    (∀ p, read_dir p s' = read_dir p s) ∧ (∀ p, open p s' = open p s) ∧
    (∀ i, read_to_string i s' = read_to_string i s);
}.

Section specification.
Context `{Nom, Float64, Bstr} {S E : Type} `{!Os S E}.

(** The files that were created stay as they were. *)
Definition same_files (s s' : S) : Prop :=
  ∀ f, created f s' = created f s ∧ (f ≠ stdout → written f s' = written f s).
(** Text was written to standard output. *)
Definition quiet (s s' : S) : Prop :=
  cwd s' = cwd s ∧ same_files s s' ∧
  (∀ p, read_dir p s' = read_dir p s) ∧ (∀ p, open p s' = open p s) ∧
  (∀ i, read_to_string i s' = read_to_string i s).

(** The definition in a file of a [msg] directory. *)
Definition read_file (s : S) (path : OsStr) : result E str :=
  match open path s with Ok file => read_to_string file s | Err e => Err e end.
Definition msg_file (s : S) (msg_dir name : OsStr) : option (str * result E str) :=
  let path := path_push msg_dir name in
  if bool_decide (extension path = Some (lit "msg")) then
    stem ← file_stem path; Some (from_utf8_lossy stem, read_file s path)
  else None.
(** The types of a directory: its readable [.msg] files, by their stems. *)
Definition dir_types (s : S) (msg_dir : OsStr) (types : list (str * str)) : Prop :=
  ∃ names defs, read_dir msg_dir s = Ok (Ok <$> names) ∧
    omap (msg_file s msg_dir) names = prod_map id Ok <$> defs ∧
    types = foldl (λ m '(k, v), btree_insert k v m) [] defs.
(** The package of a line: none without types, or without the directory. *)
Definition packaged (s : S) (line : bytes) (pkg : option RosPkg) : Prop :=
  ∃ name path tool types, fields_with is_whitespace line = [name; path; tool] ∧
    (let msg_dir := path_push (utf8 (from_utf8_lossy path)) (lit "msg") in
     (∃ e, read_dir msg_dir s = Err e ∧ types = []) ∨ dir_types s msg_dir types) ∧
    pkg = match types with
          | [] => None
          | _ => Some {| pkg_name := from_utf8_lossy name; pkg_path := from_utf8_lossy path; types := types |}
          end.
(** The text of a package's file. *)
Definition header_lines : list str :=
  [lit "// Generated code. Do not modify."; lit "use serde::{Serialize,Deserialize};";
   lit "#[allow(unused_imports)]"; lit "use ros2_client::WString;"; []].
Definition rendered_type (pr : profile) (entry : str * str) : option (list str) :=
  match msg_spec pr entry.2 with Done _ ls => rendered entry.1 ls | _ => None end.
Definition package_text (pr : profile) (pkg : RosPkg) : option str :=
  tss ← mapM (rendered_type pr) (types pkg); Some (text_of header_lines ++ (tss ≫= text_of)).
Definition mod_text (pkgs : list RosPkg) : str :=
  text_of ((λ pkg, lit "mod " ++ pkg_name pkg ++ lit ";") <$> pkgs).

(** *** A run for requested types, as the calls it makes *)
(** Where a run is: it asks for the packages of the next type, with the answers it
    has; it knows its own directory and goes to the workspace; it is there; it has
    the output of colcon, from the given state of the system; or it creates and
    writes [mod.rs] and the files of the packages. *)
Inductive stage :=
| Asking (answers : list (list RosPkg))
| Leaving (answers : list (list RosPkg)) (home : OsStr)
| InWorkspace (answers : list (list RosPkg)) (home : OsStr)
| Answered (answers : list (list RosPkg)) (home : OsStr) (out : Output) (at_ : S)
| Generating (answers : list (list RosPkg)) (mod_file : OutFile) (files : list OutFile).
(** What a run asks for; every [.msg] file is of a package of these. *)
Record Request := {
  requested : list str;
  workspace_dir : str;
  log_dir : str;
  output_dir : str;
}.
Definition asks_for (args : ArgMatches) (r : Request) : Prop :=
  input args = None ∧ type_ args = Some (requested r) ∧ output args = Some (output_dir r) ∧
  workspace args = Some (workspace_dir r) ∧ colcon_log_dir args = log_dir r.
Inductive step (r : Request) : stage * S → stage * S → Prop :=
| step_print st t s s' :
    file_write stdout t s = (s', Ok tt) → step r (st, s) (st, s')
| step_look answers home s :
    current_dir s = Ok home → step r (Asking answers, s) (Leaving answers home, s)
| step_enter answers home s s' :
    set_current_dir (utf8 (workspace_dir r)) s = (s', Ok tt) →
    step r (Leaving answers home, s) (InWorkspace answers home, s')
| step_query answers home ros2_type package_name type_name out s s' :
    requested r !! length answers = Some ros2_type →
    rsplit_once slash ros2_type = Some (package_name, type_name) →
    command_output (lit "colcon") (colcon_args (log_dir r) package_name) s = (s', Ok out) →
    status_success out = true →
    step r (InWorkspace answers home, s) (Answered answers home out s', s')
| step_return answers home out at_ all s s' :
    Forall2 (packaged at_) (bstr_lines (stdout_bytes out)) all →
    set_current_dir home s = (s', Ok tt) →
    step r (Answered answers home out at_, s) (Asking (answers ++ [omap id all]), s')
| step_mod answers mod_file s s' :
    length answers = length (requested r) →
    create (utf8 (output_dir r ++ lit "/mod.rs")) s = (s', Ok mod_file) →
    step r (Asking answers, s) (Generating answers mod_file [], s')
| step_package answers mod_file files pkg f s s' :
    merge_packages answers !! length files = Some pkg →
    create (utf8 (pkg_file_name (output_dir r) pkg)) s = (s', Ok f) →
    step r (Generating answers mod_file files, s) (Generating answers mod_file (files ++ [f]), s')
| step_write answers mod_file files f t s s' :
    f = mod_file ∨ last files = Some f →
    file_write f t s = (s', Ok tt) →
    step r (Generating answers mod_file files, s) (Generating answers mod_file files, s').
Definition reached (r : Request) (s : S) (st : stage) (s' : S) : Prop :=
  rtc (step r) (Asking [], s) (st, s').

(** The only causes of a panic in the state [s'], of the run from [s]. *)
Inductive panics (r : Request) (pr : profile) (s s' : S) : Prop :=
| stdout_fails st s1 t e :
    reached r s st s1 → file_write stdout t s1 = (s', Err e) → panics r pr s s'
| not_three_fields answers home out at_ line :
    reached r s (Answered answers home out at_) s' →
    line ∈ bstr_lines (stdout_bytes out) → length (fields_with is_whitespace line) ≠ 3 →
    panics r pr s s'
| does_not_parse answers mod_file files f pkg entry :
    reached r s (Generating answers mod_file (files ++ [f])) s' →
    merge_packages answers !! length files = Some pkg → entry ∈ types pkg →
    (∀ rest ls, msg_spec pr entry.2 ≠ Done rest ls) → panics r pr s s'.
(** The packages of the [i]th type: the answer of colcon, asked in the workspace
    by the run from [s], with what the [msg] directories held by then. *)
Definition queried (r : Request) (s : S) (answers : list (list RosPkg)) (i : nat) (pkgs : list RosPkg) : Prop :=
  ∃ ros2_type package_name type_name home s1 s2 s3 at_ out all,
    requested r !! i = Some ros2_type ∧ rsplit_once slash ros2_type = Some (package_name, type_name) ∧
    reached r s (Leaving (take i answers) home) s1 ∧
    set_current_dir (utf8 (workspace_dir r)) s1 = (s2, Ok tt) ∧ quiet s2 s3 ∧
    command_output (lit "colcon") (colcon_args (log_dir r) package_name) s3 = (at_, Ok out) ∧
    status_success out = true ∧
    reached r s (Answered (take i answers) home out at_) at_ ∧
    Forall2 (packaged at_) (bstr_lines (stdout_bytes out)) all ∧ pkgs = omap id all.
End specification.

(** ** Lemmas *)

(** *** Ordered maps *)
Lemma elem_of_btree_insert {A} k (v : A) m e : e ∈ btree_insert k v m → e = (k, v) ∨ e ∈ m.
Proof.
  induction m as [|[k' v'] m IH]; simpl; [set_solver|]. case_bool_decide; [set_solver|].
  destruct (str_leb k k'); set_solver.
Qed.
Lemma elem_of_btree_inserts {A} (l m : list (str * A)) e :
  e ∈ foldl (λ m '(k, v), btree_insert k v m) m l → e ∈ l ∨ e ∈ m.
Proof.
  revert m. induction l as [|[k v] l IH]; intros m; simpl; [auto|].
  intros [?|[->|?]%elem_of_btree_insert]%IH; set_solver.
Qed.
Definition key_lt (e1 e2 : str * str) : Prop := str_le e1.1 e2.1 ∧ e1.1 ≠ e2.1.
Lemma btree_insert_sorted k (v : str) m :
  StronglySorted key_lt m → StronglySorted key_lt (btree_insert k v m).
Proof.
  induction 1 as [|[k' v'] m Hm IH Hk]; simpl; [by repeat constructor|].
  case_bool_decide as Heq; [subst|].
  { constructor; [done|]. eapply Forall_impl; [exact Hk|]. by intros e ?. }
  destruct (str_leb k k') eqn:Hle.
  - assert (key_lt (k, v) (k', v')) as Hlt by done. constructor; [by constructor|]. constructor; [done|].
    eapply Forall_impl; [exact Hk|]. intros [k2 v2] [H1' H2']. simpl in *.
    split; simpl; [by transitivity k'|]. intros ->. by apply Heq, (anti_symm str_le).
  - constructor; [done|]. apply Forall_forall. intros e [->|He]%elem_of_btree_insert.
    + split; simpl; [|congruence]. destruct (total str_le k k') as [Hkk|]; [|done].
      unfold str_le in Hkk. congruence.
    + by eapply Forall_forall.
Qed.
Lemma btree_inserts_sorted (l m : list (str * str)) :
  StronglySorted key_lt m → StronglySorted key_lt (foldl (λ m '(k, v), btree_insert k v m) m l).
Proof.
  revert m. induction l as [|[k v] l IH]; intros m Hm; simpl; [done|]. by apply IH, btree_insert_sorted.
Qed.
Lemma elem_of_btree_insert_iff k (v : str) m e :
  StronglySorted key_lt m → e ∈ btree_insert k v m ↔ e = (k, v) ∨ e ∈ m ∧ e.1 ≠ k.
Proof.
  induction 1 as [|[k' v'] m Hm IH Hk]; simpl; [set_solver|].
  rewrite Forall_forall in Hk. case_bool_decide as Heq; [subst|].
  - assert (e ∈ m → e.1 ≠ k') as Hne by (intros He Hk'; by destruct (Hk e He) as [_ []]).
    rewrite !elem_of_cons. split; [intros [->|?]; auto|].
    intros [->|[[->|?] ?]]; auto. done.
  - destruct (str_leb k k') eqn:Hle; rewrite !elem_of_cons.
    + split; [|tauto]. intros [->|[->|He]]; auto. right. split; [auto|]. simpl.
      intros <-. destruct (Hk e He) as [Hle' _]. by apply Heq, (anti_symm str_le).
    + rewrite IH. split; [|tauto]. intros [->|[->|[??]]]; auto.
Qed.
Lemma btree_inserts_iff (l m : list (str * str)) e :
  StronglySorted key_lt m → NoDup l.*1 → (∀ e, e ∈ m → e.1 ∉ l.*1) →
  e ∈ foldl (λ m '(k, v), btree_insert k v m) m l ↔ e ∈ l ∨ e ∈ m.
Proof.
  revert m. induction l as [|[k1 v1] l IH]; intros m Hm Hnd Hdis; simpl; [set_solver|].
  apply NoDup_cons in Hnd as [Hk1 Hnd].
  rewrite IH; [|by apply btree_insert_sorted|done|].
  - rewrite (elem_of_btree_insert_iff k1 v1 m e Hm), elem_of_cons. split; [tauto|].
    intros [[?|?]|He]; auto. right. right. split; [done|]. specialize (Hdis _ He). set_solver.
  - intros e' [->|He]%elem_of_btree_insert; [done|]. specialize (Hdis e' He). set_solver.
Qed.

Section proofs.
Context `{!Nom, !NomLaws, Float64, Bstr} {S E : Type} `{!Os S E, !OsLaws S E}.
Abbreviation M := (stateE S (@Exit E)).

(** A run panics only in states where [P] holds, may end early with an error, and
    otherwise ends in [Q]. *)
Definition wp {A} (P : S → Prop) (m : M A) (Q : A → S → Prop) (s : S) : Prop :=
  match m s with
  | (s', Ok a) => Q a s'
  | (s', Err Panic) => P s'
  | (_, Err (IoError _)) => True
  end.
Lemma wp_ret {A} P (a : A) (Q : A → S → Prop) s : Q a s → wp P (mret a) Q s.
Proof. done. Qed.
Lemma wp_bind {A B} P (m : M A) (f : A → M B) Q s :
  wp P m (λ a, wp P (f a) Q) s → wp P (m ≫= f) Q s.
Proof. unfold wp, mbind, stateE_bind. by destruct (m s) as [s' [a|[e|]]]. Qed.
Lemma wp_mono {A} P (m : M A) (Q Q' : A → S → Prop) s :
  wp P m Q s → (∀ a s', Q a s' → Q' a s') → wp P m Q' s.
Proof. unfold wp. destruct (m s) as [s' [a|[e|]]]; auto. Qed.
Lemma wp_io {A} P (m : S → S * result E A) Q s :
  (∀ s' a, m s = (s', Ok a) → Q a s') → wp P (io m) Q s.
Proof. intros HQ. unfold wp, io. destruct (m s) as [s' [a|e]]; [by apply HQ|done]. Qed.
Lemma wp_ask {A} P (m : S → result E A) (Q : A → S → Prop) s :
  (∀ a, m s = Ok a → Q a s) → wp P (ask m) Q s.
Proof. intros HQ. unfold wp, ask. destruct (m s) as [a|e]; [by apply HQ|done]. Qed.
Lemma wp_from_result {A} P (r : result E A) (Q : A → S → Prop) s :
  (∀ a, r = Ok a → Q a s) → wp P (from_result r) Q s.
Proof. intros HQ. unfold wp, from_result. destruct r as [a|e]; [by apply HQ|done]. Qed.
Lemma wp_unwrap {A} P (o : option A) (Q : A → S → Prop) s :
  (∀ a, o = Some a → Q a s) → (o = None → P s) → wp P (unwrap o) Q s.
Proof. intros HQ HP. unfold wp, unwrap. destruct o as [a|]; [by apply HQ|by apply HP]. Qed.

(** *** Standard output *)
#[local] Instance quiet_preorder : PreOrder quiet.
Proof.
  split.
  - intros s. repeat split; intros; done.
  - intros s1 s2 s3 (C1 & F1 & D1 & O1 & R1) (C2 & F2 & D2 & O2 & R2).
    split; [congruence|]. split_and!; [|intros; congruence..].
    intros f. destruct (F1 f), (F2 f). split; [congruence|].
    intros Hf. transitivity (written f s2); auto.
Qed.
#[local] Instance same_files_preorder : PreOrder same_files.
Proof.
  split; [done|]. intros s1 s2 s3 F1 F2 f. destruct (F1 f), (F2 f).
  split; [congruence|]. intros Hf. transitivity (written f s2); auto.
Qed.
Lemma quiet_files s s' : quiet s s' → same_files s s'.
Proof. by intros (_ & F & _). Qed.
Lemma print_quiet t s s' : file_write stdout t s = (s', Ok tt) → quiet s s'.
Proof.
  intros Hw. destruct (stdout_reads t s) as (HD & HO & HR).
  assert (∀ g, _) as HF by (intros g; exact (write_frame stdout t s g)).
  rewrite Hw in *. simpl in *. split; [apply (HF stdout)|]. split; [|done].
  intros f. destruct (HF f) as (_ & HC & HW). split; [done|]. by intros ?; apply HW.
Qed.
Lemma msg_file_quiet s s' dir name : quiet s s' → msg_file s' dir name = msg_file s dir name.
Proof.
  intros (_ & _ & _ & HO & HR). unfold msg_file, read_file. rewrite HO.
  by destruct (open (path_push dir name) s); rewrite ?HR.
Qed.
Lemma dir_types_quiet s s' dir types : quiet s s' → dir_types s' dir types → dir_types s dir types.
Proof.
  intros Hq (names & defs & Hd & Hm & ->). exists names, defs.
  split_and!; [|rewrite <-Hm|done].
  - destruct Hq as (_ & _ & HD & _). by rewrite <-HD.
  - apply list_omap_ext, Forall_Forall2_diag, Forall_true. intros x. symmetry. by apply msg_file_quiet.
Qed.
Lemma packaged_quiet s s' line pkg : quiet s s' → packaged s' line pkg → packaged s line pkg.
Proof.
  intros Hq (n & p & t & types & Hf & Ht & ->). exists n, p, t, types. split_and!; [done| |done].
  destruct Ht as [(e & Hd & ->)|Ht]; [left|right; by eapply dir_types_quiet].
  exists e. split; [|done]. destruct Hq as (_ & _ & HD & _). by rewrite <-HD.
Qed.

(** *** Writing files *)
(** [t] was written to the file, and nothing else changed. *)
Definition wrote (f : OutFile) (t : str) (s s' : S) : Prop :=
  cwd s' = cwd s ∧ written f s' = written f s ++ t ∧
  ∀ g, created g s' = created g s ∧ (g ≠ f → g ≠ stdout → written g s' = written g s).
Lemma wrote_app f t1 t2 s s1 s2 : wrote f t1 s s1 → wrote f t2 s1 s2 → wrote f (t1 ++ t2) s s2.
Proof.
  intros (C1 & W1 & F1) (C2 & W2 & F2). split_and!; [congruence|by rewrite W2, W1, <-app_assoc|].
  intros g. destruct (F1 g), (F2 g). split; [congruence|]. intros ??. transitivity (written g s1); auto.
Qed.
Lemma wrote_nil f s : wrote f [] s s.
Proof. split_and!; [done|by rewrite app_nil_r|done]. Qed.
Lemma wrote_quiet f s s' : f ≠ stdout → quiet s s' → wrote f [] s s'.
Proof.
  intros Hf (C & F & _). split_and!; [done| |].
  - rewrite app_nil_r. by apply F.
  - intros g. destruct (F g). auto.
Qed.
(** A program of the generator writes to its file only. *)
Definition writes_to (f : OutFile) (s s' : S) : Prop := ∃ t, file_write f t s = (s', Ok tt).
Definition only_writes {A} (f : OutFile) (m : M A) : Prop :=
  ∀ s, match m s with (s', Ok _) => rtc (writes_to f) s s' | _ => True end.
Lemma writes_to_frame f s s' :
  rtc (writes_to f) s s' →
  ∀ g, cwd s' = cwd s ∧ created g s' = created g s ∧ (g ≠ f → written g s' = written g s).
Proof.
  induction 1 as [s|s1 s2 s3 [t Ht] _ IH]; intros g; [done|].
  pose proof (write_frame f t s1 g) as HF. rewrite Ht in HF. simpl in HF. destruct HF as (? & ? & ?), (IH g) as (? & ? & ?).
  split_and!; [congruence..|]. intros Hg. transitivity (written g s2); auto.
Qed.
Lemma only_ret {A} f (a : A) : only_writes f (mret a).
Proof. intros s. apply rtc_refl. Qed.
Lemma only_unwrap {A} f (o : option A) : only_writes f (unwrap o).
Proof. intros s. by destruct o; [apply rtc_refl|]. Qed.
Lemma only_bind {A B} f (m : M A) (k : A → M B) :
  only_writes f m → (∀ a, only_writes f (k a)) → only_writes f (m ≫= k).
Proof.
  intros Hm Hk s. specialize (Hm s). unfold mbind, stateE_bind.
  destruct (m s) as [s1 [a|e]]; [|done]. specialize (Hk a s1).
  destruct (k a s1) as [s2 [b|e]]; [|done]. by transitivity s1.
Qed.
Lemma only_write f t : only_writes f (@write S E (writer f) t).
Proof.
  intros s. unfold write. simpl. destruct (file_write f t s) as [s' [[]|e]] eqn:Hw; [|done].
  apply rtc_once. by exists t.
Qed.
Lemma only_writeln f t : only_writes f (@writeln S E (writer f) t).
Proof. apply only_write. Qed.
Lemma only_for_each {A} f (k : A → M unit) l : (∀ a, only_writes f (k a)) → only_writes f (for_each k l).
Proof. intros Hk. induction l; simpl; [apply only_ret|]. by apply only_bind. Qed.
#[local] Hint Resolve only_ret only_unwrap only_write only_writeln only_for_each only_bind : frame.
#[local] Ltac frame := repeat first [solve [auto with frame] | apply only_bind; [|intros ?]].
Lemma only_constant f line : only_writes f (print_constant (W:=S) (E:=E) (IoWrite0:=writer f) line).
Proof. destruct line as [[[]|] [c|]]; cbn [print_constant write_comment]; frame. Qed.
Lemma only_field f line : only_writes f (print_field (W:=S) (E:=E) (IoWrite0:=writer f) line).
Proof. destruct line as [[[]|] [c|]]; cbn [print_field write_comment]; frame. Qed.
#[local] Hint Resolve only_constant only_field : frame.
Lemma only_generate p f name def : only_writes f (@generate _ _ S E (writer f) p name def).
Proof. unfold generate, print_struct_definition. frame. Qed.
#[local] Instance writer_laws f : @IoWriteLaws S E (writer f).
Proof. constructor. intros t s s'. apply write_appends. Qed.
Lemma wp_writes {A} P f (m : M A) t s :
  @writes S E (writer f) A m t → only_writes f m → wp P m (λ _ s', wrote f t s s' ∧ rtc (writes_to f) s s') s.
Proof.
  intros Hw Ho. specialize (Hw s). specialize (Ho s). unfold wp.
  destruct (m s) as [s' [a|[e|]]]; [|done..]. split; [|done]. pose proof (writes_to_frame f s s' Ho) as HF.
  split_and!; [apply (HF f)|done|]. intros g. destruct (HF g) as (_ & ? & ?). auto.
Qed.
Lemma wp_writeln_to P f t s :
  wp P (writeln_to f t) (λ _ s', wrote f (t ++ [10%N]) s s' ∧ rtc (writes_to f) s s') s.
Proof. apply wp_writes; [apply writes_writeln|apply only_writeln]. Qed.
(** What was created stays, but for what is written to [mod.rs]. *)
Definition extends (mod_file : OutFile) (s s' : S) : Prop :=
  cwd s' = cwd s ∧ ∀ g, is_Some (created g s) → created g s' = created g s ∧
    (g ≠ mod_file → g ≠ stdout → written g s' = written g s).
(** The file of a package, as it was generated. *)
Definition package_file (pr : profile) (output_dir : str) (s : S) (pkg : RosPkg) (f : OutFile) : Prop :=
  created f s = Some (cwd s, utf8 (pkg_file_name output_dir pkg)) ∧
  package_text pr pkg = Some (written f s).
#[local] Instance extends_preorder mod_file : PreOrder (extends mod_file).
Proof.
  split; [done|]. intros s1 s2 s3 (C1 & F1) (C2 & F2). split; [congruence|]. intros g Hg.
  destruct (F1 g Hg) as [R1 W1]. destruct (F2 g) as [R2 W2]; [by rewrite R1|].
  split; [congruence|]. intros ??. rewrite W2 by done. auto.
Qed.
Lemma wrote_extends f mod_file t s s1 s2 :
  created f s = None ∨ f = mod_file → extends mod_file s s1 → wrote f t s1 s2 → extends mod_file s s2.
Proof.
  intros Hf (C1 & F1) (C & _ & F). split; [congruence|]. intros g Hg.
  destruct (F1 g Hg) as [R1 W1], (F g) as [R W]. split; [congruence|].
  intros Hm ?. rewrite W; [auto| |done]. intros ->. destruct Hf as [Hf|Hf]; [|done].
  rewrite Hf in Hg. by destruct Hg.
Qed.
Lemma package_file_extends p out mod_file s s' pkg f :
  extends mod_file s s' → f ≠ mod_file → f ≠ stdout →
  package_file p out s pkg f → package_file p out s' pkg f.
Proof.
  intros (C & F) Hm Ho (Hc & Ht). destruct (F f) as [R W]; [by eexists|].
  split; [by rewrite C, R|]. by rewrite W.
Qed.
Lemma wp_writeln_then {A} P f t (k : unit → M A) Q s :
  (∀ s1, wrote f (t ++ [10%N]) s s1 → rtc (writes_to f) s s1 → wp P (k tt) Q s1) →
  wp P (writeln_to f t ≫= k) Q s.
Proof. intros HQ. apply wp_bind. eapply wp_mono; [apply wp_writeln_to|]. intros [] s' []. by apply HQ. Qed.
Lemma wp_create P p Q s :
  (∀ f s', create p s = (s', Ok f) → f ≠ stdout → created f s = None → created f s' = Some (cwd s, p) →
     written f s' = [] → (∀ mod_file, extends mod_file s s') → Q f s') → wp P (io (create p)) Q s.
Proof.
  intros HQ. apply wp_io. intros s' f Hc. destruct (create_new p s s' f Hc) as (Hf & Hn & Hs & Hw).
  apply HQ; try done. intros mod_file.
  assert (∀ g, _) as HF by (intros g; exact (create_frame p s g)). rewrite Hc in HF.
  split; [apply (HF f)|]. intros g [x Hg]. destruct (HF g) as (_ & Hr).
  destruct Hr as [R W]; [intros [= ->]; congruence|]. auto.
Qed.
Lemma wp_header_then P f (k : M unit) Q s :
  (∀ s1, wrote f (text_of header_lines) s s1 → rtc (writes_to f) s s1 → wp P k Q s1) →
  wp P (_ ← writeln_to f (lit "// Generated code. Do not modify.");
        _ ← writeln_to f (lit "use serde::{Serialize,Deserialize};");
        _ ← writeln_to f (lit "#[allow(unused_imports)]");
        _ ← writeln_to f (lit "use ros2_client::WString;");
        _ ← writeln_to f []; k) Q s.
Proof.
  intros HQ. apply wp_writeln_then. intros s1 H1' R1. apply wp_writeln_then. intros s2 H2' R2.
  apply wp_writeln_then. intros s3 H3 R3. apply wp_writeln_then. intros s4 H4 R4.
  apply wp_writeln_then. intros s5 H5 R5. apply HQ; [|by repeat (etransitivity; [eassumption|])].
  repeat (eapply (wrote_app f (_ ++ [10%N])); [eassumption|]).
  apply wrote_nil.
Qed.
(** *** The calls of a run *)
Section run.
Context (r : Request) (pr : profile) (start : S).
Abbreviation at_stage := (reached r start).
Abbreviation run_panics := (panics r pr start).
Lemma at_stage_step st s st' s' : at_stage st s → step r (st, s) (st', s') → at_stage st' s'.
Proof. apply rtc_r. Qed.
(** The run is at a stage, and has only written to standard output since [s0]. *)
Definition since (st : stage) (s0 s : S) : Prop := at_stage st s ∧ quiet s0 s.
Lemma since_now st s : at_stage st s → since st s s.
Proof. by split. Qed.
Lemma wp_println st s0 t Q s :
  since st s0 s → (∀ s', since st s0 s' → quiet s s' → Q tt s') → wp run_panics (println t) Q s.
Proof.
  intros [Hst Hq] HQ. unfold wp, println.
  destruct (file_write stdout (t ++ [10%N]) s) as [s' [[]|e]] eqn:Hw; simpl.
  - pose proof (print_quiet _ _ _ Hw) as Hq'. apply HQ; [|done]. split; [|by transitivity s].
    eapply at_stage_step; [done|]. by econstructor.
  - by eapply stdout_fails.
Qed.

(** *** [list_packges_with_msgs] *)
Lemma wp_add_type st s0 dir dir_entry types s :
  since st s0 s →
  wp run_panics (add_type dir dir_entry types)
    (λ types' s', since st s0 s' ∧ ∃ name, dir_entry = Ok name ∧
       match msg_file s0 dir name with
       | None => types' = types
       | Some (k, r) => ∃ v, r = Ok v ∧ types' = btree_insert k v types
       end) s.
Proof.
  intros Hq. unfold add_type. apply wp_bind, wp_from_result. intros name ->.
  pose proof (msg_file_quiet s0 s dir name (proj2 Hq)) as Hm. unfold msg_file at 1, read_file in Hm.
  case_bool_decide as Hmsg.
  - destruct (extension_stem _ _ Hmsg) as [stem Hs]. rewrite Hs in Hm |- *. simpl in Hm.
    apply wp_bind, wp_ask. intros file Ho. rewrite Ho in Hm.
    apply wp_bind, wp_ask. intros def Hr. rewrite Hr in Hm.
    apply wp_ret. split; [done|]. exists name. split; [done|]. rewrite <-Hm. by exists def.
  - assert (∀ s', since st s0 s' → since st s0 s' ∧ ∃ name', Ok name = Ok (E:=E) name' ∧
      match msg_file s0 dir name' with
      | None => types = types
      | Some (k, r) => ∃ v, r = Ok v ∧ types = btree_insert k v types
      end) as Hsame by (intros s' ?; split; [done|]; exists name; by rewrite <-Hm).
    destruct (_ || _); [by apply wp_ret, Hsame|].
    eapply wp_bind, wp_println; [done|]. intros s' Hq' _. by apply wp_ret, Hsame.
Qed.
Lemma wp_add_types st s0 dir entries types s :
  since st s0 s →
  wp run_panics (add_types dir entries types)
    (λ types' s', since st s0 s' ∧ ∃ names defs, entries = Ok <$> names ∧
       omap (msg_file s0 dir) names = prod_map id Ok <$> defs ∧
       types' = foldl (λ m '(k, v), btree_insert k v m) types defs) s.
Proof.
  revert types s. induction entries as [|entry entries IH]; intros types s Hq; cbn [add_types].
  { apply wp_ret. split; [done|]. by exists [], []. }
  apply wp_bind. eapply wp_mono; [by apply (wp_add_type st s0)|].
  intros types' s' (Hq' & name & -> & Hm). eapply wp_mono; [by apply IH|].
  intros types'' s'' (Hq'' & names & defs & -> & Hn & ->). split; [done|].
  destruct (msg_file s0 dir name) as [[k x]|] eqn:Hf.
  - destruct Hm as (v & -> & ->). exists (name :: names), ((k, v) :: defs).
    csimpl. by rewrite Hf, Hn.
  - subst. exists (name :: names), defs. csimpl. by rewrite Hf, Hn.
Qed.
Section lines.
Context (answers : list (list RosPkg)) (home : OsStr) (out : Output) (at_ : S).
Abbreviation answered := (since (Answered answers home out at_) at_).
Lemma wp_line_package line s :
  line ∈ bstr_lines (stdout_bytes out) → answered s →
  wp run_panics (line_package line) (λ pkg s', answered s' ∧ packaged at_ line pkg) s.
Proof.
  intros Hline Hq. unfold line_package, packaged.
  destruct (fields_with is_whitespace line) as [|n [|p [|t [|]]]] eqn:Hf;
    try (eapply not_three_fields; [apply Hq|exact Hline|by rewrite Hf]).
  apply wp_bind. set (dir := path_push _ _).
  assert (∀ Q : _ → S → Prop, (∀ types s', answered s' →
    (∃ e, read_dir dir at_ = Err e ∧ types = []) ∨ dir_types at_ dir types → Q types s') →
    wp run_panics (λ s, match read_dir dir s with
      | Ok dir_iter =>
          (_ ← println (lit "Package path " ++ debug_path dir); add_types dir dir_iter []) s
      | Err _ => (s, Ok []) end) Q s) as HQ.
  { intros Q HQ. assert (read_dir dir s = read_dir dir at_) as HD by apply Hq.
    unfold wp. rewrite HD. destruct (read_dir dir at_) as [entries|e] eqn:Hd.
    - change (wp run_panics (_ ← println (lit "Package path " ++ debug_path dir); add_types dir entries []) Q s).
      eapply wp_bind, wp_println; [done|]. intros s1 Hq1 _. eapply wp_mono; [by apply wp_add_types|].
      intros types s' (Hq' & names & defs & -> & Hn & ->). apply HQ; [done|]. right. by exists names, defs.
    - apply HQ; [done|]. left. by exists e. }
  apply HQ. intros types s' Hq' Ht. apply wp_ret. split; [done|]. by exists n, p, t, types.
Qed.
Lemma wp_line_packages lines result s :
  lines ⊆ bstr_lines (stdout_bytes out) → answered s →
  wp run_panics (line_packages lines result)
    (λ pkgs s', answered s' ∧ ∃ all, Forall2 (packaged at_) lines all ∧ pkgs = result ++ omap id all) s.
Proof.
  revert result s. induction lines as [|line lines IH]; intros result s Hp Hq; cbn [line_packages].
  { apply wp_ret. split; [done|]. exists []. by rewrite app_nil_r. }
  apply wp_bind. eapply wp_mono; [apply wp_line_package; [apply Hp; by left|done]|].
  intros pkg s' (Hq' & Hpkg). eapply wp_mono; [apply IH; [|done]|].
  { intros l Hl. apply Hp. by right. }
  intros pkgs s'' (Hq'' & all & Hall & ->). split; [done|]. exists (pkg :: all).
  split; [by constructor|]. rewrite <-app_assoc. by destruct pkg.
Qed.
End lines.
Context (Hlog : Forall is_scalar (log_dir r)).
Lemma wp_list_packges answers ros2_type s :
  requested r !! length answers = Some ros2_type → at_stage (Asking answers) s →
  wp run_panics (list_packges_with_msgs (workspace_dir r) ros2_type (utf8 (log_dir r)))
    (λ pkgs s', at_stage (Asking (answers ++ [pkgs])) s' ∧ cwd s' = cwd s ∧ same_files s s') s.
Proof.
  intros Hty Hst. unfold list_packges_with_msgs. apply wp_bind, wp_from_result.
  intros [pn tn] Hpn. apply wp_bind, wp_ask. intros d Hd.
  assert (rsplit_once slash ros2_type = Some (pn, tn)) as Hpn'.
  { by destruct (rsplit_once slash ros2_type); simplify_eq/=. }
  pose proof (at_stage_step _ _ _ _ Hst (step_look r answers d s Hd)) as Hl.
  eapply wp_bind, wp_println; [by apply since_now|]. intros s1 [Hl1 _] Hq1. apply wp_bind, wp_io. intros s2 [] Hcd.
  pose proof (at_stage_step _ _ _ _ Hl1 (step_enter r answers d s1 s2 Hcd)) as Hw.
  eapply wp_bind, wp_println; [by apply since_now|]. intros s3 [Hw3 _] Hq3. rewrite to_str_utf8 by done.
  apply wp_bind, wp_unwrap; [intros ? [= <-]|done]. apply wp_bind, wp_io. intros s4 out Hout.
  destruct (status_success out) eqn:Hok; [|by apply wp_from_result].
  pose proof (at_stage_step _ _ _ _ Hw3 (step_query r answers d ros2_type pn tn out s3 s4 Hty Hpn' Hout Hok)) as Ha.
  apply wp_bind. eapply wp_mono; [apply (wp_line_packages answers d out s4); [done|by apply since_now]|].
  intros pkgs s5 ([Ha5 Hq5] & all & Hall & ->). apply wp_bind, wp_io. intros s6 [] Hback.
  pose proof (at_stage_step _ _ _ _ Ha5 (step_return r answers d out s4 all s5 s6 Hall Hback)) as Hb.
  eapply wp_bind, wp_println; [by apply since_now|]. intros s7 [Hb7 _] Hq7. apply wp_ret. split_and!; [done| |].
  - rewrite (proj1 Hq7). by eapply chdir_back.
  - assert (same_files s1 s2 ∧ same_files s3 s4 ∧ same_files s5 s6) as (F12 & F34 & F56).
    { split_and!; intros f.
      - pose proof (chdir_files (utf8 (workspace_dir r)) s1 f) as HF. rewrite Hcd in HF. by destruct HF.
      - epose proof (command_files _ _ s3 f) as HF. rewrite Hout in HF. by destruct HF as (_ & ? & ?).
      - pose proof (chdir_files d s5 f) as HF. rewrite Hback in HF. by destruct HF. }
    apply quiet_files in Hq1, Hq3, Hq5, Hq7. by repeat (etransitivity; [eassumption|]).
Qed.
Lemma wp_query_types tys answers s :
  (∀ i, requested r !! (length answers + i) = tys !! i) → at_stage (Asking answers) s →
  wp run_panics (query_types (workspace_dir r) (utf8 (log_dir r)) tys (merge_packages answers))
    (λ all s', cwd s' = cwd s ∧ same_files s s' ∧
       ∃ answers', at_stage (Asking answers') s' ∧ length answers' = (length answers + length tys)%nat ∧
         all = merge_packages answers') s.
Proof.
  revert answers s. induction tys as [|ty tys IH]; intros answers s Htys Hst; cbn [query_types].
  { apply wp_ret. split_and!; [done..|]. exists answers. split_and!; [done|simpl; lia|done]. }
  apply wp_bind. eapply wp_mono.
  { apply (wp_list_packges answers); [|done]. by rewrite <-(Nat.add_0_r (length answers)), Htys. }
  intros new s1 (Hst1 & Hc & Hf).
  assert (unique (merge_packages answers ++ new) = merge_packages (answers ++ [new])) as ->.
  { unfold merge_packages. by rewrite fold_left_app. }
  eapply wp_mono; [apply IH; [|done]|].
  { intros i. rewrite length_app, <-Nat.add_assoc. simpl. by rewrite Htys. }
  intros all s2 (Hc2 & Hf2 & answers' & Hst2 & Hl & ->).
  split_and!; [congruence|by transitivity s1|]. exists answers'. split_and!; [done| |done].
  rewrite Hl, length_app. simpl. lia.
Qed.
(** *** The files of the packages *)
(** The file of a package is open, and its types are written to it. *)
Section types.
Context (answers : list (list RosPkg)) (mod_file : OutFile) (files : list OutFile) (pkg : RosPkg) (f : OutFile).
Context (Hpkg : merge_packages answers !! length files = Some pkg) (Hf : f ≠ stdout).
Abbreviation writing := (at_stage (Generating answers mod_file (files ++ [f]))).
Lemma writing_writes g s s' : g = mod_file ∨ g = f → writing s → rtc (writes_to g) s s' → writing s'.
Proof.
  intros Hg Hs Hw. induction Hw as [s|s1 s2 s3 [t Ht] _ IH]; [done|]. apply IH.
  eapply at_stage_step; [done|]. econstructor; [|exact Ht]. rewrite last_snoc. naive_solver.
Qed.
Lemma wp_generate_type entry s :
  entry ∈ types pkg → writing s →
  wp run_panics (generate_type pr f entry)
    (λ _ s', writing s' ∧ ∃ ts, rendered_type pr entry = Some ts ∧ wrote f (text_of ts) s s') s.
Proof.
  intros He Hst. unfold generate_type. eapply wp_bind, wp_println; [by apply since_now|]. intros s1 [Hs1 _] Hq.
  assert ((∀ rest ls, msg_spec pr entry.2 ≠ Done rest ls) →
    wp run_panics (@generate _ _ S E (writer f) pr entry.1 entry.2) (λ _ s',
      writing s' ∧ ∃ ts, rendered_type pr entry = Some ts ∧ wrote f (text_of ts) s s') s1) as Hn.
  { intros Hn. unfold generate. destruct (msg_spec pr entry.2) eqn:Hp; [by edestruct Hn|..];
      (eapply does_not_parse; [exact Hs1|done..|by rewrite Hp]). }
  destruct (msg_spec pr entry.2) as [rest ls| | |] eqn:Hp; [|by apply Hn..].
  destruct (generate_writes (W:=S) (E:=E) (IoWrite0:=writer f) pr entry.1 entry.2 rest ls Hp)
    as (ts & Hts & Hw).
  eapply wp_mono; [apply wp_writes; [exact Hw|apply only_generate]|]. intros a2 s2 [Hw2 Hr2].
  split; [by eapply writing_writes; [right|..]|]. exists ts. unfold rendered_type. rewrite Hp. split; [done|].
  eapply (wrote_app f []); [by apply wrote_quiet|done].
Qed.
Lemma wp_generate_types l s :
  l ⊆ types pkg → writing s →
  wp run_panics (for_each (generate_type pr f) l)
    (λ _ s', writing s' ∧ ∃ tss, mapM (rendered_type pr) l = Some tss ∧ wrote f (tss ≫= text_of) s s') s.
Proof.
  revert s. induction l as [|e l IH]; intros s Hl Hs; cbn [for_each].
  { apply wp_ret. split; [done|]. exists []. split; [done|]. apply wrote_nil. }
  apply wp_bind. eapply wp_mono; [apply wp_generate_type; [apply Hl; by left|done]|].
  intros a1 s1 (Hs1 & ts & Hts & Hw1). eapply wp_mono; [apply IH; [|done]; intros e' ?; apply Hl; by right|].
  intros a2 s2 (Hs2 & tss & Htss & Hw2). split; [done|]. exists (ts :: tss). split.
  - cbn [mapM]. rewrite Hts. simpl. by rewrite Htss.
  - rewrite bind_cons. by eapply wrote_app.
Qed.
End types.
Lemma wp_generate_package answers mod_file files pkg s :
  merge_packages answers !! length files = Some pkg → at_stage (Generating answers mod_file files) s →
  mod_file ≠ stdout → is_Some (created mod_file s) →
  wp run_panics (generate_package pr (output_dir r) mod_file pkg)
    (λ _ s', extends mod_file s s' ∧
       written mod_file s' = written mod_file s ++ (lit "mod " ++ pkg_name pkg ++ lit ";") ++ [10%N] ∧
       ∃ f, f ≠ mod_file ∧ f ≠ stdout ∧ package_file pr (output_dir r) s' pkg f ∧
         at_stage (Generating answers mod_file (files ++ [f])) s') s.
Proof.
  intros Hpkg Hst Hm Hc. unfold generate_package. eapply wp_bind, wp_println; [by apply since_now|].
  intros s1 [Hst1 _] Hq.
  pose proof (wrote_quiet mod_file s s1 Hm Hq) as Hw1. pose proof Hw1 as (C1 & W1 & F1). destruct (F1 mod_file) as [R1 _].
  apply wp_bind, wp_create. intros f s2 Hcr Hf Hn Hs2 Ht2 He2.
  assert (f ≠ mod_file) as Hfm by (intros ->; rewrite <-R1, Hn in Hc; by destruct Hc).
  pose proof (at_stage_step _ _ _ _ Hst1 (step_package r answers mod_file files pkg f s1 s2 Hpkg Hcr)) as Hst2.
  apply wp_writeln_then. intros s3 Hw3 Hr3. pose proof Hw3 as (C3 & W3 & F3).
  pose proof (writing_writes _ _ _ _ _ _ _ (or_introl eq_refl) Hst2 Hr3) as Hst3.
  apply wp_header_then. intros s4 Hw4 Hr4.
  pose proof (writing_writes _ _ _ _ _ _ _ (or_intror eq_refl) Hst3 Hr4) as Hst4.
  eapply wp_mono; [by apply (wp_generate_types answers mod_file files pkg)|].
  intros _ s5 (Hst5 & tss & Htss & Hw5). pose proof (wrote_app _ _ _ _ _ _ Hw4 Hw5) as Hw.
  assert (extends mod_file s s5) as He.
  { assert (extends mod_file s s1) as He1 by (eapply wrote_extends; [by right|reflexivity|exact Hw1]).
    assert (extends mod_file s1 s5) as He5; [|by transitivity s1].
    eapply wrote_extends; [by left| |exact Hw]. by eapply wrote_extends; [by right|apply He2|]. }
  destruct Hw as (C5 & W5 & F5). split; [done|]. split.
  - destruct (F5 mod_file) as [_ ->]; [|done..]. rewrite W3. f_equal.
    rewrite <-R1 in Hc. destruct (proj2 (He2 f) mod_file Hc) as [_ W2].
    by rewrite W2, W1, app_nil_r.
  - exists f. split_and!; [done..| |done]. destruct (F3 f) as [R3 W3f], (F5 f) as [R5 _]. split.
    + rewrite R5, R3, Hs2, C5, C3. by rewrite (proj1 (He2 f)).
    + unfold package_text. rewrite Htss. simpl. by rewrite W5, W3f, Ht2.
Qed.
Lemma wp_generate_packages answers mod_file files pkgs s :
  drop (length files) (merge_packages answers) = pkgs → at_stage (Generating answers mod_file files) s →
  mod_file ≠ stdout → is_Some (created mod_file s) →
  wp run_panics (for_each (generate_package pr (output_dir r) mod_file) pkgs)
    (λ _ s', extends mod_file s s' ∧ written mod_file s' = written mod_file s ++ mod_text pkgs ∧
       ∃ fs, Forall2 (λ pkg f, f ≠ mod_file ∧ f ≠ stdout ∧ package_file pr (output_dir r) s' pkg f) pkgs fs ∧
         at_stage (Generating answers mod_file (files ++ fs)) s') s.
Proof.
  intros Hp Hst Hm. revert files s Hp Hst.
  induction pkgs as [|pkg pkgs IH]; intros files s Hp Hst Hc; cbn [for_each].
  { apply wp_ret. split_and!; [done|by rewrite app_nil_r|]. exists []. by rewrite app_nil_r. }
  assert (merge_packages answers !! length files = Some pkg) as Hpkg.
  { rewrite <-(Nat.add_0_r (length files)), <-lookup_drop, Hp. done. }
  apply wp_bind. eapply wp_mono; [by apply (wp_generate_package answers mod_file files)|].
  intros _ s1 (He1 & Hw1 & f & Hfm & Hf & Hpf & Hst1). destruct (proj2 He1 mod_file Hc) as [R1 _].
  eapply wp_mono; [apply (IH (files ++ [f])); [|done|by rewrite R1]|].
  { rewrite length_app, <-drop_drop, Hp. done. }
  intros _ s2 (He2 & Hw2 & fs & Hfs & Hst2). split; [by transitivity s1|]. split.
  - rewrite Hw2, Hw1, <-app_assoc. done.
  - exists (f :: fs). rewrite <-app_assoc in Hst2. split; [|done].
    constructor; [|done]. split_and!; [done..|]. by eapply package_file_extends.
Qed.
Lemma wp_main_types args s :
  asks_for args r → start = s →
  wp run_panics (main_types pr args (utf8 (log_dir r)) (requested r))
    (λ _ s', ∃ answers mod_file files,
       at_stage (Generating answers mod_file files) s' ∧ length answers = length (requested r) ∧
       cwd s' = cwd s ∧ created mod_file s' = Some (cwd s, utf8 (output_dir r ++ lit "/mod.rs")) ∧
       written mod_file s' = mod_text (merge_packages answers) ∧
       Forall2 (package_file pr (output_dir r) s') (merge_packages answers) files) s.
Proof.
  intros (_ & _ & Ho & Hws & _) Hs. unfold main_types. rewrite Ho, Hws.
  apply wp_bind, wp_from_result. intros ? [= <-]. apply wp_bind, wp_from_result. intros ? [= <-].
  assert (at_stage (Asking []) s) as Hst by (unfold reached; by rewrite Hs).
  eapply wp_bind, wp_println; [by apply since_now|]. intros s1 [Hst1 _] Hq1. apply wp_bind.
  eapply wp_mono; [by apply (wp_query_types (requested r) [])|].
  intros pkgs s2 (C2 & _ & answers & Hst2 & Hl & ->).
  eapply wp_bind, wp_println; [by apply since_now|]. intros s3 [Hst3 _] Hq3. apply wp_bind, wp_create.
  intros mod_file s4 Hcr Hm Hn Hs4 Ht4 He4.
  pose proof (at_stage_step _ _ _ _ Hst3 (step_mod r answers mod_file s3 s4 Hl Hcr)) as Hst4.
  assert (cwd s3 = cwd s) as C3 by (by rewrite (proj1 Hq3), C2, (proj1 Hq1)).
  eapply wp_mono; [apply (wp_generate_packages answers mod_file []); [done|done|done|by rewrite Hs4]|].
  intros a s5 (He & Hw & files & Hfs & Hst5). exists answers, mod_file, files.
  destruct (proj2 He mod_file) as [R5 _]; [by rewrite Hs4|].
  split_and!; [done..| | | |].
  - by rewrite (proj1 He), (proj1 (He4 mod_file)).
  - by rewrite R5, Hs4, C3.
  - by rewrite Hw, Ht4.
  - eapply Forall2_impl; [exact Hfs|]. by intros ?? (_ & _ & ?).
Qed.
End run.

(** *** The types of a directory *)
(** Every [.msg] file of the directory is a type, by its stem, when no two have
    the same; the types are in the order of their names. *)
Lemma dir_types_iff s dir types names :
  dir_types s dir types → read_dir dir s = Ok (Ok <$> names) →
  StronglySorted key_lt types ∧
  (NoDup (omap (msg_file s dir) names).*1 →
   ∀ k v, (k, v) ∈ types ↔ ∃ name, name ∈ names ∧ msg_file s dir name = Some (k, Ok v)).
Proof.
  intros (names' & defs & Hd & Hm & ->) Hd'. rewrite Hd in Hd'. injection Hd' as Hn.
  apply list_fmap_eq_inj in Hn; [|by intros ?? [= ->]]. subst names'.
  split; [by apply btree_inserts_sorted; constructor|]. rewrite Hm. intros Hdup k v.
  transitivity ((k, v) ∈ defs).
  - assert (NoDup defs.*1) as Hnd.
    { revert Hdup. rewrite <-list_fmap_compose. by erewrite (list_fmap_ext (fst ∘ prod_map id Ok) fst). }
    rewrite btree_inserts_iff; [set_solver|constructor|done|set_solver].
  - split.
    + intros Hv. assert ((k, Ok v) ∈ omap (msg_file s dir) names) as (n & ? & ?)%list_elem_of_omap; [|eauto].
      rewrite Hm. apply list_elem_of_fmap. by exists (k, v).
    + intros (n & Hn & Hk). assert ((k, Ok v) ∈ prod_map id (Ok (E:=E)) <$> defs) as He.
      { rewrite <-Hm. apply list_elem_of_omap. eauto. }
      apply list_elem_of_fmap in He as ([k' v'] & He & ?). by simplify_eq/=.
Qed.

(** *** The answers of colcon *)
(** What is known of a run between the entry to the workspace and the return. *)
Definition in_query (r : Request) (s : S) (st : stage) (s' : S) : Prop :=
  match st with
  | InWorkspace answers home => ∃ s1 s2,
      reached r s (Leaving answers home) s1 ∧
      set_current_dir (utf8 (workspace_dir r)) s1 = (s2, Ok tt) ∧ quiet s2 s'
  | Answered answers home out at_ => ∃ ros2_type package_name type_name s1 s2 s3,
      requested r !! length answers = Some ros2_type ∧
      rsplit_once slash ros2_type = Some (package_name, type_name) ∧
      reached r s (Leaving answers home) s1 ∧
      set_current_dir (utf8 (workspace_dir r)) s1 = (s2, Ok tt) ∧ quiet s2 s3 ∧
      command_output (lit "colcon") (colcon_args (log_dir r) package_name) s3 = (at_, Ok out) ∧
      status_success out = true ∧ reached r s st at_
  | _ => True
  end.
Definition answers_of (st : stage) : list (list RosPkg) :=
  match st with
  | Asking answers | Leaving answers _ | InWorkspace answers _ | Answered answers _ _ _
  | Generating answers _ _ => answers
  end.
Lemma reached_queried r s st s' :
  reached r s st s' →
  in_query r s st s' ∧ ∀ i pkgs, answers_of st !! i = Some pkgs → queried r s (answers_of st) i pkgs.
Proof.
  revert st s'. assert (∀ c, rtc (step r) (Asking [], s) c →
    in_query r s c.1 c.2 ∧ ∀ i pkgs, answers_of c.1 !! i = Some pkgs → queried r s (answers_of c.1) i pkgs) as Hc;
    [|intros st s' Hr; exact (Hc (st, s') Hr)].
  apply (rtc_ind_r (λ c, _)); [done|].
  intros [st0 s0] [st s'] Hr Hstep [Hi Hq]. simpl in Hi, Hq.
  pose proof (rtc_r _ _ _ Hr Hstep) as Hr'. inversion Hstep; subst; simpl in *; try by split.
  - split; [|done]. pose proof (print_quiet _ _ _ ltac:(eassumption)) as Hp.
    destruct st; simpl in *; try done.
    destruct Hi as (s1 & s2 & ? & ? & ?). exists s1, s2. split_and!; [done..|]. by transitivity s0.
  - split; [|done]. by exists s0, s'.
  - split; [|done]. destruct Hi as (s1 & s2 & ? & ? & ?). by exists ros2_type, package_name, type_name, s1, s2, s0.
  - split; [done|]. intros i pkgs Hi'. apply lookup_snoc_Some in Hi' as [[Hlt Hi']|[-> <-]].
    + destruct (Hq i pkgs Hi') as (x1 & x2 & x3 & x4 & x5 & x6 & x7 & x8 & x9 & x10 & Hx).
      exists x1, x2, x3, x4, x5, x6, x7, x8, x9, x10. by rewrite take_app_le by lia.
    + destruct Hi as (ty & pn & tn & s1 & s2 & s3 & ? & ? & ? & ? & ? & ? & ? & ?).
      exists ty, pn, tn, home, s1, s2, s3, at_, out, all.
      rewrite take_app_length. by split_and!.
Qed.

(** C38: A run for requested types, from a state of the system, with the calls it
    makes. Whatever colcon and the files say, it panics only when a write to
    standard output fails in a state the run has reached, when colcon's answer to
    one of its queries has a line without three fields, or when a type of a package
    of its answers does not parse, once it has got to that package; and when it
    returns, it has asked for every type, in order, and is back in the directory it
    started in, relative to which it created [mod.rs], with a line for each package
    of the merged answers and nothing else, and the file of each package, with the
    fixed lines and then the generated code of every type in order. Each answer was
    given by colcon in the workspace, where the run had gone after the answers
    before it, and has the packages of its lines with at least one [.msg] file, with
    what these files held when colcon answered. *)
Theorem main_generates pr args r s :
  asks_for args r → Forall is_scalar (log_dir r) →
  match main (E:=E) pr args s with
  | (s', Ok _) => ∃ answers mod_file files,
      reached r s (Generating answers mod_file files) s' ∧
      length answers = length (requested r) ∧
      (∀ i pkgs, answers !! i = Some pkgs → queried r s answers i pkgs) ∧
      cwd s' = cwd s ∧ created mod_file s' = Some (cwd s, utf8 (output_dir r ++ lit "/mod.rs")) ∧
      written mod_file s' = mod_text (merge_packages answers) ∧
      Forall2 (package_file pr (output_dir r) s') (merge_packages answers) files
  | (_, Err (IoError _)) => True
  | (s', Err Panic) => panics r pr s s'
  end.
Proof.
  intros Ha Hlog. pose proof (wp_main_types r pr s Hlog args s Ha eq_refl) as Hm.
  destruct Ha as (Hi & Ht & _ & _ & Hl). unfold main. rewrite Hi, Ht, Hl. unfold wp in Hm.
  destruct (main_types _ _ _ _ s) as [s' [[]|[e|]]]; [|done..].
  destruct Hm as (answers & mod_file & files & Hr & Hm). exists answers, mod_file, files.
  destruct (reached_queried _ _ _ _ Hr) as [_ Hq]. simpl in Hq. naive_solver.
Qed.
(** A run for one file: the code generated from it, in a new file or after what
    is on standard output; it panics when the file does not parse. *)
Lemma main_input_generates pr args name s :
  input args = Some name →
  wp (λ _, ∃ file def, open (utf8 name) s = Ok file ∧ read_to_string file s = Ok def ∧
        ∀ rest ls, msg_spec pr def ≠ Done rest ls)
    (main pr args)
    (λ _ s', ∃ file input stem rest ls ts out_file s0,
       open (utf8 name) s = Ok file ∧ read_to_string file s = Ok input ∧
       file_stem (utf8 name) = Some stem ∧ msg_spec pr input = Done rest ls ∧
       rendered (from_utf8_lossy stem) ls = Some ts ∧
       match output args with
       | None => out_file = stdout ∧ s0 = s
       | Some out => create (utf8 out) s = (s0, Ok out_file)
       end ∧ wrote out_file (text_of ts) s0 s') s.
Proof.
  intros Hi. unfold main. rewrite Hi. unfold main_input. apply wp_bind, wp_ask. intros file Ho.
  apply wp_bind, wp_from_result. intros stem Hs. apply wp_bind, wp_ask. intros inp Hr.
  assert (file_stem (utf8 name) = Some stem) as Hstem by (by destruct (file_stem _); simplify_eq/=).
  apply wp_bind, wp_unwrap.
  2:{ intros Hp. exists file, inp. split_and!; [done..|]. intros rest ls Hd. by rewrite Hd in Hp. }
  intros [rest ls] Hp. assert (msg_spec pr inp = Done rest ls) as Hd.
  { destruct (msg_spec pr inp); by simplify_eq/=. }
  destruct (generate_writes (W:=S) (E:=E) (IoWrite0:=writer stdout) pr (from_utf8_lossy stem) inp rest ls Hd)
    as (ts & Hts & _).
  assert (∀ P f s0, wp P
    (print_struct_definition (W:=S) (E:=E) (IoWrite0:=writer f) (from_utf8_lossy stem) ls)
    (λ _ s', wrote f (text_of ts) s0 s') s0) as Hw.
  { intros P f s0. eapply wp_mono; [apply wp_writes; [by apply print_struct_writes|]|by intros ?? []].
    unfold print_struct_definition. frame. }
  apply wp_bind. destruct (output args) as [out|].
  - apply wp_io. intros s0 f Hc. eapply wp_mono; [apply Hw|]. intros a s' Hw'.
    by exists file, inp, stem, rest, ls, ts, f, s0.
  - apply wp_ret. eapply wp_mono; [apply Hw|]. intros a s' Hw'.
    by exists file, inp, stem, rest, ls, ts, stdout, s.
Qed.
End proofs.

(** ** A system with a workspace *)
Record ToySystem := {
  toy_answer : str;
  toy_cwd : OsStr;
  toy_stdout : str;
  toy_files : list ((OsStr * OsStr) * str);
}.
#[local] Definition toy_write (f : option nat) (t : str) (s : ToySystem) : ToySystem * result unit unit :=
  match f with
  | None => ({| toy_answer := toy_answer s; toy_cwd := toy_cwd s; toy_stdout := toy_stdout s ++ t; toy_files := toy_files s |}, Ok tt)
  | Some i =>
      match toy_files s !! i with
      | Some (at_, c) =>
          ({| toy_answer := toy_answer s; toy_cwd := toy_cwd s; toy_stdout := toy_stdout s;
              toy_files := <[i := (at_, c ++ t)]> (toy_files s) |}, Ok tt)
      | None => (s, Err tt)
      end
  end.
#[local] Definition toy_chdir (d : OsStr) (s : ToySystem) : ToySystem :=
  {| toy_answer := toy_answer s; toy_cwd := d; toy_stdout := toy_stdout s; toy_files := toy_files s |}.
#[local] Definition toy_create (p : OsStr) (s : ToySystem) : ToySystem :=
  {| toy_answer := toy_answer s; toy_cwd := toy_cwd s; toy_stdout := toy_stdout s;
     toy_files := toy_files s ++ [((toy_cwd s, p), [])] |}.
(** The package [turtlesim] depends on [geometry_msgs], and [cpp] has no
    messages. *)
#[local] Definition toy_colcon : str :=
  lit "cpp" ++ 9%N :: lit "src/cpp" ++ 9%N :: lit "(ament)" ++ 10%N ::
  lit "geometry_msgs" ++ 9%N :: lit "src/g" ++ 9%N :: lit "(ament)" ++ 10%N ::
  lit "turtlesim" ++ 9%N :: lit "src/t" ++ 9%N :: lit "(ament)" ++ [10%N].
#[local] Definition toy_dir (p : OsStr) : result unit (list (result unit OsStr)) :=
  if bool_decide (p = lit "src/g/msg") then Ok [Ok (lit "Point.msg")]
  else if bool_decide (p = lit "src/t/msg") then
    Ok [Ok (lit "Pose.msg"); Ok (lit "README"); Ok (lit "Color.msg"); Ok (lit "Color.idl")]
  else Err tt.
#[local] Definition toy_read (p : OsStr) : str :=
  if bool_decide (p = lit "src/g/msg/Point.msg") then lit "float64 x" ++ [10%N]
  else if bool_decide (p = lit "src/t/msg/Pose.msg") then lit "geometry_msgs/Point p" ++ [10%N]
  else lit "uint8 r" ++ [10%N].
#[local] Instance toy_os : Os ToySystem unit := {|
  OutFile := option nat; InFile := OsStr; stdout := None; io_error_other _ := tt;
  current_dir s := Ok (toy_cwd s);
  set_current_dir d s := (toy_chdir d s, Ok tt);
  command_output _ _ s :=
    (s, Ok {| status_success := true; stdout_bytes := toy_answer s; stderr_bytes := [] |});
  read_dir p _ := toy_dir p; open p _ := Ok p; read_to_string p _ := Ok (toy_read p);
  create p s := (toy_create p s, Ok (Some (length (toy_files s))));
  file_write := toy_write; debug s := s; debug_path s := s;
  cwd := toy_cwd;
  created f s := i ← f; fst <$> toy_files s !! i;
  written f s := match f with None => toy_stdout s | Some i => default [] (snd <$> toy_files s !! i) end;
|}.
#[local] Instance toy_os_laws : OsLaws ToySystem unit.
Proof.
  split; cbn; try done.
  - intros d s s1 s2 [= <-] [= <-]. done.
  - intros p s s' f [= <- <-]. cbn. rewrite lookup_ge_None_2, lookup_app_r, Nat.sub_diag by done. done.
  - intros p s g. split; [done|]. intros Hg. destruct g as [i|]; [|done]. cbn.
    destruct (decide (i < length (toy_files s))) as [Hi|Hi].
    + by rewrite lookup_app_l.
    + rewrite !lookup_ge_None_2; [done|lia|]. rewrite length_app. simpl.
      destruct (decide (i = length (toy_files s))); [by subst|lia].
  - intros [i|] t s s'; cbn; [|by intros [= <-]].
    destruct (toy_files s !! i) as [[at_ c]|] eqn:Hi; [|done]. intros [= <-]. cbn.
    by rewrite list_lookup_insert_eq by (by eapply lookup_lt_Some).
  - intros [i|] t s g; cbn; [|by destruct g].
    destruct (toy_files s !! i) as [[at_ c]|] eqn:Hi; [|done]. cbn. destruct g as [j|]; [|done].
    cbn. destruct (decide (i = j)) as [->|Hj].
    + rewrite list_lookup_insert_eq by (by eapply lookup_lt_Some). rewrite Hi. done.
    + by rewrite list_lookup_insert_ne.
Qed.
#[local] Instance toy_bstr : Bstr := {|
  bstr_lines s := filter (λ l, l ≠ []) (split_on 10 s);
  fields_with p s := filter (λ l, l ≠ []) (split_on 32 ((λ c, if p c then 32%N else c) <$> s));
|}.
#[local] Existing Instances MsgParser.toy_nom MsgParser.toy_nom_laws MsgParser.toy_float.
(** A run over both packages; and one for which colcon names a directory with a
    space in it, which panics while it goes through the lines of the answer. *)
Definition toy_args : ArgMatches :=
  {| input := None; type_ := Some [lit "geometry_msgs/Point"; lit "turtlesim/Pose"];
     output := Some (lit "gen"); workspace := Some (lit "/ws"); logdir := None |}.
Definition toy_request : Request :=
  {| requested := [lit "geometry_msgs/Point"; lit "turtlesim/Pose"]; workspace_dir := lit "/ws";
     log_dir := lit "/dev/null"; output_dir := lit "gen" |}.
Definition toy_system (answer : str) : ToySystem :=
  {| toy_answer := answer; toy_cwd := lit "/home/ros"; toy_stdout := []; toy_files := [] |}.
Definition toy_spaced : str :=
  lit "turtlesim" ++ 9%N :: lit "src/my turtles" ++ 9%N :: lit "(ament)" ++ [10%N].
Example main_generates_witness :
  (let s := toy_system toy_colcon in
   let s' := (main (E:=unit) Release toy_args s).1 in
   (toy_files s').*1 =
     [(lit "/home/ros", lit "gen/mod.rs"); (lit "/home/ros", lit "gen/geometry_msgs.rs");
      (lit "/home/ros", lit "gen/turtlesim.rs")] ∧
   ∃ answers mod_file files,
     reached toy_request s (Generating answers mod_file files) s' ∧ length answers = 2 ∧
     (∀ i pkgs, answers !! i = Some pkgs → queried toy_request s answers i pkgs) ∧
     cwd s' = lit "/home/ros" ∧
     created mod_file s' = Some (lit "/home/ros", utf8 (lit "gen/mod.rs")) ∧
     written mod_file s' = mod_text (merge_packages answers) ∧
     Forall2 (package_file Release (lit "gen") s') (merge_packages answers) files) ∧
  (let s := toy_system toy_spaced in
   is_ok (main (E:=unit) Release toy_args s).2 = false ∧
   panics toy_request Release s (main (E:=unit) Release toy_args s).1).
Proof.
  assert (asks_for toy_args toy_request) as Ha by (repeat split).
  assert (Forall is_scalar (log_dir toy_request)) as Hl
    by (change (Forall is_scalar (lit "/dev/null")); repeat constructor).
  split.
  - intros s s'. split; [vm_compute; reflexivity|].
    assert (is_ok (main (E:=unit) Release toy_args s).2 = true) as Hok by (vm_compute; reflexivity).
    pose proof (main_generates (E:=unit) Release toy_args toy_request s Ha Hl) as Hm.
    subst s'. revert Hok Hm. destruct (main (E:=unit) Release toy_args s) as [s' [[]|[e|]]]; [|done..].
    intros _ Hm. exact Hm.
  - intros s.
    assert (match (main (E:=unit) Release toy_args s).2 with Err Panic => true | _ => false end = true)
      as Hp by (vm_compute; reflexivity).
    pose proof (main_generates (E:=unit) Release toy_args toy_request s Ha Hl) as Hm. revert Hp Hm.
    destruct (main (E:=unit) Release toy_args s) as [s' [[]|[e|]]]; [done..|].
    intros _ Hm. split; [reflexivity|exact Hm].
Defined.
