(* ===== verification/EdgeLoop.v ===== *)
(** * Edge-triggered event loops (examples/ros2_service_server, examples/listener)

    A loop around mio's [Poll::poll] over one source registered with
    [PollOpt::edge()]: an event is there if something has arrived since the last
    one. The examples' bodies take a single item per event, from an endpoint whose
    history keeps the newest items that have not been taken. *)
From S2P Require Import Prelude.

Section loop.
(** The endpoint's state, what can arrive at it, the clock; the body of the
    event ([None] is a panic) and the arrival of something. *)
Context {E X T : Type}.
Context (body : T → E → option E) (arrives : E → X → E).

Record Polled := { endpoint : E; edge : bool }.
Inductive turn := Blocked | Turned (p : Polled) | TurnPanics.
Definition poll_turn (now : T) (p : Polled) : turn :=
  if edge p then
    match body now (endpoint p) with
    | None => TurnPanics
    | Some e => Turned {| endpoint := e; edge := false |}
    end
  else Blocked.
Definition arrive (p : Polled) (x : X) : Polled :=
  {| endpoint := arrives (endpoint p) x; edge := true |}.
(** The loop; before each of its turns some things arrive. [None] is a panic. *)
Fixpoint poll_loop (turns : list (list X * T)) (p : Polled) : option Polled :=
  match turns with
  | [] => Some p
  | (arrivals, now) :: turns =>
      let p := fold_left arrive arrivals p in
      match poll_turn now p with
      | Blocked => poll_loop turns p
      | Turned p => poll_loop turns p
      | TurnPanics => None
      end
  end.
(** The times at which the loop wakes up: a turn before which nothing arrives is
    none. *)
Definition wakes (turns : list (list X * T)) : list T :=
  turns ≫= λ '(arrivals, now), match arrivals with [] => [] | _ => [now] end.
(** What each burst leaves behind. *)
Definition left_behind (turns : list (list X * T)) : nat :=
  sum_list_with (λ t, pred (length t.1)) turns.
End loop.
Arguments Polled : clear implicits.
Arguments turn : clear implicits.

(** ** The items of a loop that takes one per wake-up, from a history of some depth *)
Section arrivals.
Context {X T A O : Type} (reads : O → X → A).
Implicit Types turns : list (list X * T).
(** What has arrived, as it reads, burst by burst and altogether. *)
Definition as_read (o : O) turns : list (list A * T) := (λ t : list X * T, (reads o <$> t.1, t.2)) <$> turns.
Definition arrived (o : O) turns : list A := turns ≫= λ '(arrivals, _), reads o <$> arrivals.

Lemma arrived_as_read o turns : arrived o turns = as_read o turns ≫= fst.
Proof. unfold arrived. induction turns as [|[xs t] turns IH]; csimpl; [done|]. by rewrite IH. Qed.
Lemma arrived_concat o turns : arrived o turns = reads o <$> (turns ≫= fst).
Proof. unfold arrived. induction turns as [|[xs t] turns IH]; csimpl; [done|]. by rewrite fmap_app, IH. Qed.
Lemma wakes_as_read o turns : wakes (as_read o turns) = wakes turns.
Proof. unfold wakes. induction turns as [|[[|x xs] t] turns IH]; csimpl; [done|..]; by rewrite IH. Qed.
Lemma left_behind_as_read o turns : left_behind (as_read o turns) = left_behind turns.
Proof.
  unfold left_behind. induction turns as [|[xs t] turns IH]; simpl; [done|]. by rewrite IH, length_fmap.
Qed.
End arrivals.

Section history.
Context {A T : Type} (depth : nat).
Implicit Types (turns : list (list A * T)) (q : list A).
(** The items taken, with the times of the wake-ups, and those that are left. *)
Fixpoint one_per_wake turns q : list (T * A) * list A :=
  match turns with
  | [] => ([], q)
  | ([], _) :: turns => one_per_wake turns q
  | (xs, now) :: turns =>
      match keep_last depth (q ++ xs) with
      | [] => one_per_wake turns []
      | r :: q => let '(l, q) := one_per_wake turns q in ((now, r) :: l, q)
      end
  end.
Context (Hdepth : 0 < depth).
(** A burst is never lost whole. *)
Lemma keep_last_burst q x xs : ∃ r k, keep_last depth (q ++ x :: xs) = r :: k ∧ S (length k) ≤ depth.
Proof.
  pose proof (length_keep_last depth (q ++ x :: xs)) as Hl. rewrite length_app in Hl. simpl in Hl.
  destruct (keep_last _ _) as [|r k]; simpl in Hl; [lia|]. exists r, k. split; [done|lia].
Qed.
Lemma one_per_wake_burst now x xs turns q :
  ∃ r k, keep_last depth (q ++ x :: xs) = r :: k ∧ S (length k) ≤ depth ∧
    one_per_wake ((x :: xs, now) :: turns) q = ((now, r) :: (one_per_wake turns k).1, (one_per_wake turns k).2).
Proof.
  destruct (keep_last_burst q x xs) as (r & k & Hk & Hl). exists r, k. split_and!; [done..|].
  cbn [one_per_wake]. rewrite Hk. by destruct (one_per_wake turns k).
Qed.
(** One item is taken at every wake-up. *)
Lemma one_per_wake_times turns q : (one_per_wake turns q).1.*1 = wakes turns.
Proof.
  revert q. induction turns as [|[[|x xs] now] turns IH]; intros q; [done|apply IH|].
  destruct (one_per_wake_burst now x xs turns q) as (r & k & _ & _ & ->). simpl. by rewrite IH.
Qed.
(** Items are taken and left in the order of their arrival. *)
Lemma one_per_wake_order turns q :
  (one_per_wake turns q).1.*2 ++ (one_per_wake turns q).2 `sublist_of` q ++ (turns ≫= fst).
Proof.
  revert q. induction turns as [|[[|x xs] now] turns IH]; intros q; csimpl; [by rewrite app_nil_r|apply IH|].
  destruct (one_per_wake_burst now x xs turns q) as (r & k & Hk & _ & E). simpl in E. rewrite E. simpl.
  pose proof (keep_last_sublist depth (q ++ x :: xs)) as Hs. rewrite Hk in Hs.
  trans ((r :: k) ++ (turns ≫= fst)); [simpl; by apply sublist_skip|].
  rewrite (app_comm_cons _ _ x), (assoc_L (++) q). by apply sublist_app.
Qed.
(** What is left is bounded by the depth. *)
Lemma one_per_wake_bounded turns q : length q ≤ depth → length (one_per_wake turns q).2 ≤ depth.
Proof.
  revert q. induction turns as [|[[|x xs] now] turns IH]; intros q Hq; [done|by apply IH|].
  destruct (one_per_wake_burst now x xs turns q) as (r & k & _ & Hl & ->). simpl. apply IH. lia.
Qed.
(** As long as what the bursts leave behind fits, nothing is dropped. *)
Lemma one_per_wake_fits turns q :
  length q + left_behind turns < depth →
  one_per_wake turns q = (zip (wakes turns) (q ++ (turns ≫= fst)),
                          drop (length (wakes turns)) (q ++ (turns ≫= fst))).
Proof.
  revert q. induction turns as [|[[|x xs] now] turns IH]; intros q Hq; csimpl; [by rewrite app_nil_r|by apply IH|].
  unfold left_behind in Hq. simpl in Hq.
  rewrite (keep_last_all depth (q ++ x :: xs)) by (rewrite length_app; simpl; lia).
  destruct (q ++ x :: xs) as [|r k] eqn:Ek; [by destruct q|].
  assert (length k = length q + length xs) as Hk.
  { apply (f_equal length) in Ek. rewrite length_app in Ek. simpl in Ek. lia. }
  rewrite IH by (unfold left_behind; lia). unfold wakes. csimpl.
  assert (q ++ x :: xs ++ (turns ≫= fst) = r :: k ++ (turns ≫= fst)) as ->.
  { by rewrite app_comm_cons, (assoc_L (++)), Ek. }
  done.
Qed.
Lemma one_per_wake_left turns q :
  length q + left_behind turns < depth →
  length (one_per_wake turns q).2 = length q + left_behind turns.
Proof.
  intros H. rewrite one_per_wake_fits by done. simpl. rewrite length_drop, length_app.
  assert (length (turns ≫= fst) = length (wakes turns) + left_behind turns) as ->; [|lia].
  clear H. unfold wakes, left_behind. induction turns as [|[[|x xs] now] turns IH]; csimpl; [done..|].
  rewrite length_app, IH. simpl. lia.
Qed.
End history.

(** ** What such a loop does, if its body takes the first item there is *)
Section spec.
Context {E X T A O : Type}.
Context (body : T → E → option E) (arrives : E → X → E).
(** The depth of its history, the items at the endpoint, what it has given out, how something that arrives
    reads, and the answer to an item. *)
Context (depth : nat) (queue : E → list A) (out : E → O) (reads : O → X → A) (answer : O → T * A → option O).
Implicit Types (e : E) (p : Polled E) (turns : list (list X * T)).

Record takes_one : Prop := {
  has_history : 0 < depth;
  arrives_queue e x : queue (arrives e x) = keep_last depth (queue e ++ [reads (out e) x]);
  arrives_out e x : out (arrives e x) = out e;
  answer_reads o x o' : answer o x = Some o' → reads o' = reads o;
  body_takes now e r q : queue e = r :: q →
    match answer (out e) (now, r) with
    | None => body now e = None
    | Some o => ∃ e', body now e = Some e' ∧ out e' = o ∧ queue e' = q
    end;
}.

(** Answering items, one after another. *)
Fixpoint answer_all (l : list (T * A)) (o : O) : option O :=
  match l with
  | [] => Some o
  | x :: l => o ← answer o x; answer_all l o
  end.

Context (Hone : takes_one).
Lemma arrive_all xs p :
  let p' := fold_left (arrive arrives) xs p in
  queue (endpoint p') = match xs with
                        | [] => queue (endpoint p)
                        | _ => keep_last depth (queue (endpoint p) ++ (reads (out (endpoint p)) <$> xs))
                        end ∧
  out (endpoint p') = out (endpoint p) ∧
  edge p' = match xs with [] => edge p | _ => true end.
Proof.
  revert p. induction xs as [|x xs IH]; intros p; simpl; [done|].
  destruct (IH (arrive arrives p x)) as (-> & -> & ->). simpl.
  rewrite arrives_queue, arrives_out by done.
  split_and!; [|done|by destruct xs]. destruct xs as [|y xs]; [done|].
  by rewrite keep_last_app, <-(assoc_L (++)).
Qed.
Lemma poll_turn_takes now p r q :
  edge p = true → queue (endpoint p) = r :: q →
  match answer (out (endpoint p)) (now, r) with
  | None => poll_turn body now p = TurnPanics
  | Some o => ∃ p', poll_turn body now p = Turned p' ∧ out (endpoint p') = o ∧
      queue (endpoint p') = q ∧ edge p' = false
  end.
Proof.
  intros He Hr. unfold poll_turn. rewrite He.
  pose proof (body_takes Hone now _ _ _ Hr) as Hs.
  destruct (answer _ _); [|by rewrite Hs]. destruct Hs as (e' & -> & ? & ?). by eexists.
Qed.
(** The loop answers what one take per wake-up takes from the history. *)
Lemma poll_loop_spec turns p :
  edge p = false →
  let '(taken, rest) := one_per_wake depth (as_read reads (out (endpoint p)) turns) (queue (endpoint p)) in
  match answer_all taken (out (endpoint p)) with
  | None => poll_loop body arrives turns p = None
  | Some o => ∃ p', poll_loop body arrives turns p = Some p' ∧ out (endpoint p') = o ∧
      queue (endpoint p') = rest ∧ edge p' = false
  end.
Proof.
  revert p. induction turns as [|[xs now] turns IH]; intros p He; [by exists p|].
  cbn [poll_loop]. destruct (arrive_all xs p) as (H1 & H2 & H3).
  set (p0 := fold_left (arrive arrives) xs p) in *. destruct xs as [|x xs].
  { unfold poll_turn. rewrite H3, He. rewrite He in H3. specialize (IH p0 H3). by rewrite H1, H2 in IH. }
  destruct (one_per_wake_burst depth (has_history Hone) now (reads (out (endpoint p)) x)
    (reads (out (endpoint p)) <$> xs) (as_read reads (out (endpoint p)) turns) (queue (endpoint p)))
    as (r & k & Hk & _ & Ew).
  change (as_read reads (out (endpoint p)) ((x :: xs, now) :: turns)) with
    ((reads (out (endpoint p)) x :: (reads (out (endpoint p)) <$> xs), now) ::
     as_read reads (out (endpoint p)) turns). rewrite Ew.
  rewrite fmap_cons, Hk in H1. pose proof (poll_turn_takes now p0 r k H3 H1) as Ht. rewrite H2 in Ht.
  cbn [answer_all]. destruct (answer _ _) as [o|] eqn:Eo; cbn [mbind option_bind]; [|by rewrite Ht].
  destruct Ht as (p1 & -> & Hw & Hr1 & He1). specialize (IH p1 He1).
  assert (as_read reads o turns = as_read reads (out (endpoint p)) turns) as Ha.
  { unfold as_read. by rewrite (answer_reads Hone _ _ _ Eo). }
  rewrite Hr1, Hw, Ha in IH. by destruct (one_per_wake _ _ k).
Qed.
End spec.
