(* ===== verification/Fibonacci.v ===== *)
(** * The Fibonacci examples (examples/concurrent_action_server, minimal_action_server, minimal_action_client)

    Applications of the asynchronous action server. The concurrent server has a
    main loop that takes new goals and a task [action_runner] per goal; the
    minimal one serves a goal at a time. Their calls of the action server are
    ActionTasks' tasks: a step runs one section of one call, so the sections of
    the calls of different runners interleave as they can on several threads. *)
From S2P Require Import Prelude Time ActionServer ActionTasks.

(** [action::Action<i32, Vec<i32>, Vec<i32>>]. *)
Section fibonacci.
Context {ReqId : Type}.
Abbreviation Server := (AsyncActionServer Z ReqId).
Abbreviation Msg := (message (list Z) (list Z) ReqId).
Abbreviation Task := (task Z (list Z) (list Z) ReqId).
Abbreviation Shared := (Shared Z ReqId).

(** ** [action_runner] *)
(** Where a runner is: before a call, in one ([t] is what is left of it), in its
    loop with the work done up to [i], or at its end. *)
Inductive runner :=
| Accepting (h : NewGoalHandle (ReqId:=ReqId)) (fib_order : nat)
| InAccept (t : Task) (h : NewGoalHandle (ReqId:=ReqId)) (fib_order : nat)
| Starting (h : AcceptedGoalHandle) (fib_order : nat)
| InStart (t : Task) (h : AcceptedGoalHandle) (fib_order : nat)
| Working (h : ExecutingGoalHandle) (fib_order i : nat) (fib : list Z)
| InCancel (t : Task) (h : ExecutingGoalHandle) (fib : list Z)
| Ending (h : ExecutingGoalHandle) (result_status : GoalEndStatus) (fib : list Z)
| InEnd (t : Task) (h : ExecutingGoalHandle) (result_status : GoalEndStatus) (fib : list Z)
| Ended
| Panicked.

(** What makes a runner go on: [accept_goal] is called, at a time; the call under
    way, or the next one, runs a section; the timer ticks; a cancel request or an
    error is read; [send_result_response] runs a section, or is given up. *)
Inductive awaited :=
| Clock (now : Time)
| Go (written : bool)
| Tick (written : bool)
| CancelRequest (req : ReqId * CancelGoalRequest)
| CancelReadError
| ResultTurn (written : bool)
| ResultTimeout.

Definition unwrap {A} (r : result GoalError A) (k : runner) : runner :=
  match r with Ok _ => k | Err _ => Panicked end.
(** The next section of a call [t]: the runner is still in the call, or takes its
    result. *)
Definition call_turn (pr : profile) (written : bool) (t : Task) (in_call : Task → runner)
    (back : result GoalError unit → runner) (sh : Shared) : option (Shared * list Msg * runner) :=
  '(sh, msgs, t) ← resume pr written t sh;
  Some (sh, msgs, match t with Returned r => back r | _ => in_call t end).
Definition accept_turn pr written t h fib_order :=
  call_turn pr written t (λ t, InAccept t h fib_order)
    (λ r, unwrap r (Starting {| acc_inner := new_inner h |} fib_order)).
Definition start_turn pr written t h fib_order :=
  call_turn pr written t (λ t, InStart t h fib_order)
    (λ r, unwrap r (Working {| exe_inner := acc_inner h |} fib_order 1 [0; 1]%Z)).
(** A turn of the computation: [fib.push(fib[i-2] + fib[i-1])] on [i32]. *)
Definition push_next (pr : profile) (i : nat) (fib : list Z) : option (list Z) :=
  a ← fib !! (i - 2); b ← fib !! (i - 1);
  c ← arith pr 32 (a + b);
  Some (fib ++ [c]).
(** The timer's arm of the loop; [publish_feedback] is one section. *)
Definition work_timer_arm (pr : profile) (written : bool) (h : ExecutingGoalHandle) (fib_order i : nat)
    (fib : list Z) (s : Server) : list Msg * runner :=
  let i := S i in
  match push_next pr i fib with
  | None => ([], Panicked)
  | Some fib =>
      let '(_, msgs, r) := publish_feedback written h fib s in
      (msgs, unwrap r (if i =? fib_order then Ending h EndSucceeded fib
                       else Working h fib_order i fib))
  end.
(** The cancel arm: the goals of the request are looked up, and it is answered, or
    dropped when it is about other goals. *)
Definition cancel_arm (req : ReqId * CancelGoalRequest) (h : ExecutingGoalHandle) (fib_order i : nat)
    (fib : list Z) (s : Server) : runner :=
  let cancel_handle := receive_cancel_request req s in
  let my_goal := h_goal_id (exe_inner h) in
  if contains_goal cancel_handle my_goal
  then InCancel (ReadCancels cancel_handle [my_goal] []) h fib
  else Working h fib_order i fib.
Definition cancel_turn pr written t h fib :=
  call_turn pr written t (λ t, InCancel t h fib) (λ r, unwrap r (Ending h EndCanceled fib)).
(** [send_result_response(..).or(timeout)]: an error is printed. The time-out drops
    the call where it awaits: for a request, or while the statuses are published. *)
Definition end_turn pr written t h st fib :=
  call_turn pr written t (λ t, InEnd t h st fib) (λ _, Ended).
Definition at_await (t : Task) : bool :=
  match t with AwaitRequest _ _ _ | Publish _ => true | _ => false end.

Definition runner_step (pr : profile) (aw : awaited) (r : runner) (sh : Shared) :
    option (Shared * list Msg * runner) :=
  match r, aw with
  | Accepting h n, Clock now => accept_turn pr true (Accept now h) h n sh
  | InAccept t h n, Go written => accept_turn pr written t h n sh
  | Starting h n, Go written => start_turn pr written (Start h) h n sh
  | InStart t h n, Go written => start_turn pr written t h n sh
  | Working h n i fib, Tick written =>
      let '(msgs, r) := work_timer_arm pr written h n i fib (server sh) in Some (sh, msgs, r)
  | Working h n i fib, CancelRequest req => Some (sh, [], cancel_arm req h n i fib (server sh))
  | Working _ _ _ _, CancelReadError => Some (sh, [], Panicked)
  | InCancel t h fib, Go written => cancel_turn pr written t h fib sh
  | Ending h st fib, ResultTurn written => end_turn pr written (SendResponse h st fib) h st fib sh
  | InEnd t h st fib, ResultTurn written => end_turn pr written t h st fib sh
  | InEnd t _ _ _, ResultTimeout => if at_await t then Some (sh, [], Ended) else None
  | _, _ => None
  end.

(** ** The main loop of the concurrent server *)
(** It waits in its [select!], or is in [receive_new_goal], the two sections of
    [get_new_goal], or [reject_goal]; then it was stopped or panicked. *)
Inductive main_loop :=
| Waiting
| Inserting (q : ReqId * SendGoalRequest (G:=Z))
| Flushing (h : NewGoalHandle (ReqId:=ReqId))
| Looking (h : NewGoalHandle (ReqId:=ReqId))
| Rejecting (t : Task)
| Stopped
| MainPanicked.
(** [usize::try_from(order).unwrap()], and the range of the orders served. *)
Definition order_of (order : Z) : option nat := if (order <? 0)%Z then None else Some (Z.to_nat order).
Definition in_range (fib_order : nat) : bool := (1 <=? fib_order) && (fib_order <=? 25).
Definition new_handle (q : ReqId * SendGoalRequest (G:=Z)) : NewGoalHandle (ReqId:=ReqId) :=
  {| new_inner := {| h_goal_id := sg_goal_id q.2 |}; req_id := q.1 |}.
(** The arm of [receive_new_goal]; the last part is a runner that is spawned. An
    error of [receive_new_goal] is printed, a duplicate goal ignored. *)
Definition main_step (pr : profile) (now : Time) (written : bool) (m : main_loop) (sh : Shared) :
    option (Shared * list Msg * main_loop * option runner) :=
  match m with
  | Waiting =>
      '(sh, msgs, t) ← resume (R:=list Z) (F:=list Z) pr written ReceiveGoal sh;
      Some (sh, msgs, match t with InsertGoal q => Inserting q | _ => Waiting end, None)
  | Inserting q =>
      '(sh, msgs, t) ← resume (R:=list Z) (F:=list Z) pr written (InsertGoal q) sh;
      Some (sh, msgs, match t with Returned _ => Flushing (new_handle q) | _ => Waiting end, None)
  | Flushing h =>
      Some match resume (R:=list Z) (F:=list Z) pr written (GetGoal h) sh with
           | Some (sh, msgs, _) => (sh, msgs, Looking h, None)
           | None => (sh, [], MainPanicked, None)
           end
  | Looking h =>
      Some match order ← goal <$> goals (server sh) !! h_goal_id (new_inner h); order_of order with
           | None => (sh, [], MainPanicked, None)
           | Some fib_order =>
               if negb (in_range fib_order) then (sh, [], Rejecting (Reject now h), None)
               else (sh, [], Waiting, Some (Accepting h fib_order))
           end
  | Rejecting t =>
      '(sh, msgs, t) ← resume pr written t sh;
      Some (sh, msgs, match t with
                      | Returned (Ok _) => Waiting
                      | Returned (Err _) => MainPanicked
                      | t => Rejecting t
                      end, None)
  | Stopped | MainPanicked => None
  end.

Record World := {
  w_shared : Shared;
  main : main_loop;
  runners : list runner;
  sent : list Msg;
}.
Definition World_new : World :=
  {| w_shared := {| server := AsyncActionServer_new; goal_requests := []; request_stream := [] |};
     main := Waiting; runners := []; sent := [] |}.
(** The end of the main loop, and a panic in it, end the process. *)
Definition ended (m : main_loop) : bool :=
  match m with Stopped | MainPanicked => true | _ => false end.

Inductive event :=
| GoalArrives (r : result unit (ReqId * SendGoalRequest (G:=Z)))
| ResultArrives (r : result unit (ReqId * GoalId))
| Main (now : Time) (written : bool)
| Stop
| Run (j : nat) (aw : awaited).
Definition goal_arrives r (sh : Shared) : Shared :=
  {| server := server sh; goal_requests := goal_requests sh ++ [r]; request_stream := request_stream sh |}.
Definition result_arrives r (sh : Shared) : Shared :=
  {| server := server sh; goal_requests := goal_requests sh; request_stream := request_stream sh ++ [r] |}.
Definition event_step (pr : profile) (ev : event) (w : World) : option World :=
  if ended (main w) then None else
  match ev with
  | GoalArrives r =>
      Some {| w_shared := goal_arrives r (w_shared w); main := main w; runners := runners w; sent := sent w |}
  | ResultArrives r =>
      Some {| w_shared := result_arrives r (w_shared w); main := main w; runners := runners w; sent := sent w |}
  | Main now written =>
      '(sh, msgs, m, r) ← main_step pr now written (main w) (w_shared w);
      Some {| w_shared := sh; main := m; runners := runners w ++ option_list r; sent := sent w ++ msgs |}
  | Stop =>
      match main w with
      | Waiting => Some {| w_shared := w_shared w; main := Stopped; runners := runners w; sent := sent w |}
      | _ => None
      end
  | Run j aw =>
      r ← runners w !! j;
      '(sh, msgs, r) ← runner_step pr aw r (w_shared w);
      Some {| w_shared := sh; main := main w; runners := <[j := r]> (runners w); sent := sent w ++ msgs |}
  end.
Fixpoint run_events (pr : profile) (evs : list event) (w : World) : option World :=
  match evs with [] => Some w | ev :: evs => w ← event_step pr ev w; run_events pr evs w end.

(** ** The minimal server: one goal at a time, in the main loop *)
Record Minimal := { m_shared : Shared; m_main : main_loop; serving : option runner; run : bool;
                    m_sent : list Msg }.
Definition Minimal_new : Minimal :=
  {| m_shared := w_shared World_new; m_main := Waiting; serving := None; run := true; m_sent := [] |}.
Inductive minimal_event :=
| MStop
| MGoalArrives (r : result unit (ReqId * SendGoalRequest (G:=Z)))
| MResultArrives (r : result unit (ReqId * GoalId))
| MMain (now : Time) (written : bool)
| MRun (aw : awaited).
(** While it serves a goal, the main loop is in its arm; a stop aborts the goal,
    and the loop ends after it. *)
Definition minimal_step (pr : profile) (ev : minimal_event) (m : Minimal) : option Minimal :=
  match ev, serving m with
  | MGoalArrives r, _ =>
      Some {| m_shared := goal_arrives r (m_shared m); m_main := m_main m; serving := serving m; run := run m;
              m_sent := m_sent m |}
  | MResultArrives r, _ =>
      Some {| m_shared := result_arrives r (m_shared m); m_main := m_main m; serving := serving m; run := run m;
              m_sent := m_sent m |}
  | MStop, None =>
      match m_main m, run m with
      | Waiting, true => Some {| m_shared := m_shared m; m_main := Stopped; serving := None; run := false;
                                 m_sent := m_sent m |}
      | _, _ => None
      end
  | MStop, Some (Working h _ _ fib) =>
      if run m then Some {| m_shared := m_shared m; m_main := m_main m;
                            serving := Some (Ending h EndAborted fib); run := false;
                            m_sent := m_sent m |}
      else None
  | MMain now written, None =>
      if run m then
        '(sh, msgs, l, r) ← main_step pr now written (m_main m) (m_shared m);
        Some {| m_shared := sh; m_main := l; serving := r; run := true; m_sent := m_sent m ++ msgs |}
      else None
  | MRun aw, Some r =>
      '(sh, msgs, r) ← runner_step pr aw r (m_shared m);
      Some {| m_shared := sh; m_main := match r with Panicked => MainPanicked | _ => m_main m end;
              serving := match r with Ended | Panicked => None | _ => Some r end; run := run m;
              m_sent := m_sent m ++ msgs |}
  | _, _ => None
  end.
End fibonacci.
Arguments runner : clear implicits.
Arguments awaited : clear implicits.
Arguments main_loop : clear implicits.
Arguments World : clear implicits.
Arguments event : clear implicits.
Arguments Minimal : clear implicits.
Arguments minimal_event : clear implicits.

(** ** The client's orders *)
Definition next_order (request_generator : Z) : Z := ((request_generator + 2) mod 10)%Z.

(** ** What is to be computed *)
Fixpoint fibonacci (n : nat) : Z :=
  match n with
  | O => 0%Z
  | S m => match m with O => 1%Z | S k => (fibonacci m + fibonacci k)%Z end
  end.
(** [F_0, ..., F_i]. *)
Definition fibs (i : nat) : list Z := fibonacci <$> seq 0 (S i).

Lemma fibonacci_SS n : fibonacci (S (S n)) = (fibonacci (S n) + fibonacci n)%Z.
Proof. done. Qed.
Lemma fibonacci_mono n : (0 <= fibonacci n <= fibonacci (S n))%Z.
Proof.
  induction n as [|n [IH1 IH2]]; [done|]. rewrite fibonacci_SS. lia.
Qed.
Lemma fibonacci_le n m : n ≤ m → (fibonacci n <= fibonacci m)%Z.
Proof. induction 1 as [|m _ IH]; [done|]. pose proof (fibonacci_mono m). lia. Qed.
Lemma fibs_S i : fibs (S i) = fibs i ++ [fibonacci (S i)].
Proof. unfold fibs. rewrite (seq_S (S i)), fmap_app. done. Qed.
Lemma fibs_lookup i k : k ≤ i → fibs i !! k = Some (fibonacci k).
Proof.
  intros Hk. unfold fibs. rewrite list_lookup_fmap, lookup_seq_lt by lia. done.
Qed.
(** [F_46] is the last one an [i32] holds. *)
Lemma push_next_fibs pr i :
  1 ≤ i → push_next pr (S i) (fibs i) =
    c ← arith pr 32 (fibonacci (S i)); Some (fibs i ++ [c]).
Proof.
  intros Hi. destruct i as [|i]; [lia|]. unfold push_next.
  rewrite !fibs_lookup by lia. simpl. rewrite Nat.sub_0_r. rewrite Z.add_comm. done.
Qed.
Fixpoint fib_pair (n : nat) : Z * Z :=
  match n with O => (0, 1)%Z | S n => let '(a, b) := fib_pair n in (b, (b + a)%Z) end.
Lemma fib_pair_spec n : fib_pair n = (fibonacci n, fibonacci (S n)).
Proof. induction n as [|n IH]; [done|]. cbn [fib_pair]. rewrite IH. done. Qed.
Lemma fibonacci_pair n : fibonacci n = (fib_pair n).1.
Proof. by rewrite fib_pair_spec. Qed.
Lemma fibonacci_in_i32 n : n ≤ 46 → in_i32 (fibonacci n).
Proof.
  intros Hn. pose proof (fibonacci_le n 46 Hn). pose proof (fibonacci_mono n).
  assert (fibonacci 46 <= i32_max)%Z.
  { rewrite (fibonacci_pair 46). by vm_compute. }
  unfold in_i32, i32_min. lia.
Qed.
Lemma fibonacci_47 : ¬ in_i32 (fibonacci 47).
Proof.
  rewrite (fibonacci_pair 47). unfold in_i32. intros [_ H]. vm_compute in H. by apply H.
Qed.
Lemma push_next_ok pr i : 1 ≤ i < 46 → push_next pr (S i) (fibs i) = Some (fibs (S i)).
Proof.
  intros Hi. rewrite push_next_fibs by lia. rewrite arith_i32 by (apply fibonacci_in_i32; lia).
  by rewrite fibs_S.
Qed.

Lemma push_next_overflow i : i = 46 → push_next Debug (S i) (fibs i) = None.
Proof.
  intros ->. rewrite push_next_fibs by lia. unfold arith. rewrite bool_decide_eq_false_2; [done|].
  pose proof fibonacci_47 as Hno. unfold in_i32, i32_min, i32_max in Hno. lia.
Qed.

(** ** The runners under any interleaving *)
Section runners.
Context {ReqId : Type}.
Abbreviation Server := (AsyncActionServer Z ReqId).
Abbreviation Msg := (message (list Z) (list Z) ReqId).
Abbreviation Task := (task Z (list Z) (list Z) ReqId).
Abbreviation Shared := (Shared Z ReqId).
Implicit Types (s : Server) (sh : Shared) (r : runner ReqId) (t : Task).

(** The call a runner is in, and the goal that it has ended and not yet listed. *)
Definition in_call r : option Task :=
  match r with InAccept t _ _ | InStart t _ _ | InCancel t _ _ | InEnd t _ _ _ => Some t | _ => None end.
Definition owes r : option GoalId := in_call r ≫= pending.
(** The goal a runner has not ended yet. *)
Definition active r : option GoalId :=
  match r with
  | Accepting h _ | InAccept _ h _ => Some (h_goal_id (new_inner h))
  | Starting h _ | InStart _ h _ => Some (h_goal_id (acc_inner h))
  | Working h _ _ _ | InCancel _ h _ | Ending h _ _ => Some (h_goal_id (exe_inner h))
  | InEnd (Publish _ | MarkFinished _) _ _ _ => None
  | InEnd _ h _ _ => Some (h_goal_id (exe_inner h))
  | Ended | Panicked => None
  end.
(** The status of the runner's goal, the order it asked for, the work done. *)
Definition goal_is s (g : GoalId) (st : GoalStatusEnum) (fib_order : nat) : Prop :=
  2 ≤ fib_order ≤ 25 ∧
  ∃ ag, goals s !! g = Some ag ∧ status ag = st ∧ goal ag = Z.of_nat fib_order.
(** The status of a goal that is about to end, and how far its work has come. *)
Definition ending (st : GoalEndStatus) : GoalStatusEnum :=
  match st with EndCanceled => Canceling | _ => Executing end.
Definition ends_at (st : GoalEndStatus) (n i : nat) : Prop :=
  match st with EndSucceeded => i = n | _ => 1 ≤ i < n end.
Definition about_to_end s (h : ExecutingGoalHandle) (st : GoalEndStatus) (fib : list Z) : Prop :=
  ∃ n i, goal_is s (h_goal_id (exe_inner h)) (ending st) n ∧ ends_at st n i ∧ fib = fibs i.
(** What is left of the answer to a cancel request for the goal [g], and the status
    the goal has meanwhile. *)
Definition cancels (g : GoalId) t : option GoalStatusEnum :=
  match t with
  | ReadCancels _ [g'] [] => if decide (g' = g) then Some Executing else None
  | ReadCancels _ [] [i] | SetCanceling _ [i] _ => if decide (goal_id i = g) then Some Executing else None
  | SetCanceling _ [] _ | Publish (Respond (SendCancelResponse _ _)) | Send (SendCancelResponse _ _) =>
      Some Canceling
  | _ => None
  end.
Definition runner_ok s r : Prop :=
  match r with
  | Accepting h n => goal_is s (h_goal_id (new_inner h)) Unknown n
  | InAccept t h n =>
      goal_is s (h_goal_id (new_inner h)) Accepted n ∧
      match t with Publish (Respond (SendGoalResponse _ _ _)) | Send (SendGoalResponse _ _ _) => True
              | _ => False end
  | Starting h n => goal_is s (h_goal_id (acc_inner h)) Accepted n
  | InStart t h n => goal_is s (h_goal_id (acc_inner h)) Executing n ∧ t = Publish ReturnNext
  | Working h n i fib =>
      goal_is s (h_goal_id (exe_inner h)) Executing n ∧ 1 ≤ i < n ∧ fib = fibs i
  | InCancel t h fib =>
      ∃ n i st, cancels (h_goal_id (exe_inner h)) t = Some st ∧
        goal_is s (h_goal_id (exe_inner h)) st n ∧ 1 ≤ i < n ∧ fib = fibs i
  | Ending h st fib => about_to_end s h st fib
  | InEnd t h st fib =>
      match t with
      | AwaitRequest h' st' fib' | EndGoal h' st' fib' _ =>
          h' = h ∧ st' = st ∧ fib' = fib ∧ about_to_end s h st fib
      | Publish (MarkNext _) | MarkFinished _ => True
      | _ => False
      end
  | Panicked => False
  | Ended => True
  end.
(** What the clients are told. *)
Definition msg_ok (m : Msg) : Prop :=
  match m with
  | SendFeedback _ l | SendResult _ Succeeded l => ∃ i, 2 ≤ i ≤ 25 ∧ l = fibs i
  | SendResult _ _ l => ∃ i, 1 ≤ i < 25 ∧ l = fibs i
  | _ => True
  end.
(** The writes of responses and feedback and the reads of cancel requests succeed,
    and no order is negative or one. *)
Definition good_awaited (aw : awaited ReqId) : Prop :=
  match aw with
  | Go written | Tick written => written = true
  | CancelReadError => False
  | Clock _ | CancelRequest _ | ResultTurn _ | ResultTimeout => True
  end.
Definition good_order (order : Z) : Prop := (0 <= order ∧ order ≠ 1)%Z.
Definition good_request (r : result unit (ReqId * SendGoalRequest (G:=Z))) : Prop :=
  match r with Ok q => good_order (sg_goal q.2) | Err _ => True end.
Definition good_event (ev : event ReqId) : Prop :=
  match ev with
  | GoalArrives r => good_request r
  | Main _ written => written = true
  | Run _ aw => good_awaited aw
  | ResultArrives _ | Stop => True
  end.

Lemma goal_is_frame s s' g st n : goals s' !! g = goals s !! g → goal_is s g st n → goal_is s' g st n.
Proof. intros Hg. unfold goal_is. by rewrite Hg. Qed.
Lemma runner_ok_frame s s' r :
  (∀ g, active r = Some g → goals s' !! g = goals s !! g) → runner_ok s r → runner_ok s' r.
Proof.
  intros Hf. assert (∀ h st fib, goals s' !! h_goal_id (exe_inner h) = goals s !! h_goal_id (exe_inner h) →
    about_to_end s h st fib → about_to_end s' h st fib) as He.
  { intros h st fib Hg (n & i & Hn & ?). exists n, i. split; [by eapply goal_is_frame|done]. }
  destruct r as [h n|t h n|h n|t h n|h n i fib|t h fib|h st fib|t h st fib| |]; simpl; try done.
  - by apply goal_is_frame, Hf.
  - intros [Hg ?]. split; [by eapply goal_is_frame, Hg; apply Hf|done].
  - by apply goal_is_frame, Hf.
  - intros [Hg ?]. split; [by eapply goal_is_frame, Hg; apply Hf|done].
  - intros (Hg & ?). split; [by eapply goal_is_frame, Hg; apply Hf|done].
  - intros (n & i & st & Hc & Hg & ?). exists n, i, st. split; [done|].
    split; [by eapply goal_is_frame, Hg; apply Hf|done].
  - by apply He, Hf.
  - destruct t; try done; intros (? & ? & ? & Hg); (split_and!; [done..|]); by apply (He h st fib), Hg; apply Hf.
Qed.
Lemma goal_is_live s g st n :
  goal_is s g st n → looks_done st = false →
  ∃ ag, goals s !! g = Some ag ∧ looks_done (status ag) = false.
Proof. intros (_ & ag & ? & <- & _) Hd. by exists ag. Qed.
Lemma cancels_live g t st : cancels g t = Some st → looks_done st = false ∧ st ≠ Unknown.
Proof.
  destruct t as [| | | | | | | | | | | |? [|? [|]] [|? [|]]|? [|? [|]] ?|[|[]|]| |[]|]; simpl; try done;
    try case_decide; by intros [= <-].
Qed.
(** The goal of a live runner is there, and has not ended. *)
Lemma active_goal s r g :
  runner_ok s r → active r = Some g → ∃ ag, goals s !! g = Some ag ∧ looks_done (status ag) = false.
Proof.
  assert (∀ h st fib, about_to_end s h st fib →
    ∃ ag, goals s !! h_goal_id (exe_inner h) = Some ag ∧ looks_done (status ag) = false) as He.
  { intros h st fib (n & i & Hg & _). eapply goal_is_live; [exact Hg|by destruct st]. }
  destruct r as [h n|t h n|h n|t h n|h n i fib|t h fib|h st fib|t h st fib| |]; simpl; try done.
  - intros Hg [= <-]. by eapply goal_is_live.
  - intros [Hg _] [= <-]. by eapply goal_is_live.
  - intros Hg [= <-]. by eapply goal_is_live.
  - intros [Hg _] [= <-]. by eapply goal_is_live.
  - intros [Hg _] [= <-]. by eapply goal_is_live.
  - intros (n & i & st & Hc & Hg & _) [= <-]. eapply goal_is_live; [done|]. by eapply cancels_live.
  - intros Hg [= <-]. by eapply He.
  - destruct t; try done; intros (_ & _ & _ & Hg) [= <-]; by eapply He.
Qed.

(** *** What a step of a runner keeps *)
(** The requests, the goals of the others and, with the goals [held] elsewhere and
    those that are lost now, the server's invariant. *)
Definition step_ok sh r (o : Shared * list Msg * runner ReqId) : Prop :=
  let '(sh', msgs, r') := o in
  runner_ok (server sh') r' ∧ (active r' = active r ∨ active r' = None) ∧
  (∀ g, active r ≠ Some g → goals (server sh') !! g = goals (server sh) !! g) ∧
  Forall msg_ok msgs ∧ goal_requests sh' = goal_requests sh ∧
  ∃ lost, ∀ held, holds (option_list (owes r) ++ held) (server sh) →
                  holds (option_list (owes r') ++ lost ++ held) (server sh').
Lemma goals_insert_ne (gs : gmap GoalId (AsyncGoal Z)) g ag g' :
  Some g ≠ Some g' → <[g := ag]> gs !! g' = gs !! g'.
Proof. intros Hne. apply lookup_insert_ne. congruence. Qed.
(** A section of a call, when it is not one of a cancel response. *)
Lemma turn_ok pr written t in_call' back sh r o :
  call_turn pr written t in_call' back sh = Some o → is_cancel t = false →
  owes r = pending t → (∀ t', owes (in_call' t') = pending t') → (∀ x, owes (back x) = None) →
  (∀ sh' msgs t', resume pr written t sh = Some (sh', msgs, t') →
     let r' := match t' with Returned x => back x | _ => in_call' t' end in
     runner_ok (server sh') r' ∧ (active r' = active r ∨ active r' = None) ∧
     (∀ g, active r ≠ Some g → goals (server sh') !! g = goals (server sh) !! g) ∧
     Forall msg_ok msgs ∧ goal_requests sh' = goal_requests sh) →
  step_ok sh r o.
Proof.
  intros Ho Hc Hr Hin Hback H. unfold call_turn in Ho.
  destruct (resume pr written t sh) as [[[sh' msgs] t']|] eqn:E; [|done]. injection Ho as <-.
  destruct (H _ _ _ eq_refl) as (H1 & H2 & H3 & H4 & H5). unfold step_ok. split_and!; [done..|].
  exists (unwritten written t (server sh)). intros held Hh. rewrite Hr in Hh.
  pose proof (holds_resume _ _ _ held _ _ _ _ Hc E Hh) as Hh'.
  assert (owes (match t' with Returned x => back x | _ => in_call' t' end) = pending t') as ->; [|done].
  destruct t'; rewrite ?Hin, ?Hback; done.
Qed.

Lemma accept_ok pr now h n sh o :
  runner_ok (server sh) (Accepting h n) → accept_turn pr true (Accept now h) h n sh = Some o →
  step_ok sh (Accepting h n) o.
Proof.
  intros (Hn & ag & Hg & Hs & Ho) H. eapply turn_ok; [exact H|done..| |]; [by intros [|]|].
  intros sh' msgs t'. cbn [resume]. unfold accept_goal. rewrite Hg, Hs. cbn. intros [= <- <- <-].
  split_and!; [|by left| |constructor|done].
  - split; [|done]. split; [done|]. eexists. split; [apply lookup_insert_eq|done].
  - intros g. apply goals_insert_ne.
Qed.
Lemma in_accept_ok pr t h n sh o :
  runner_ok (server sh) (InAccept t h n) → accept_turn pr true t h n sh = Some o →
  step_ok sh (InAccept t h n) o.
Proof.
  intros [Hg Ht] H.
  destruct t as [| | | | | | | | | | | | | |[|[m| | | |]|]| |[m| | | |]|]; try done;
    (eapply turn_ok; [exact H|done..| |]; [by intros [|]|]); intros sh' msgs t' [= <- <- <-];
    (split_and!; [done|by left|done|by repeat constructor|done]).
Qed.
Lemma start_ok pr written h n sh o :
  runner_ok (server sh) (Starting h n) → start_turn pr written (Start h) h n sh = Some o →
  step_ok sh (Starting h n) o.
Proof.
  intros (Hn & ag & Hg & Hs & Ho) H. eapply turn_ok; [exact H|done..| |]; [by intros [|]|].
  intros sh' msgs t'. cbn [resume]. unfold start_executing_goal. rewrite Hg, Hs. cbn. intros [= <- <- <-].
  split_and!; [|by left| |constructor|done].
  - split; [|done]. split; [done|]. eexists. split; [apply lookup_insert_eq|done].
  - intros g. apply goals_insert_ne.
Qed.
Lemma in_start_ok pr written t h n sh o :
  runner_ok (server sh) (InStart t h n) → start_turn pr written t h n sh = Some o →
  step_ok sh (InStart t h n) o.
Proof.
  intros [Hg ->] H. eapply turn_ok; [exact H|done..| |]; [by intros [|]|].
  intros sh' msgs t' [= <- <- <-]. pose proof Hg as [Hn _].
  split_and!; [|by left|done|by repeat constructor|done]. simpl. split; [done|]. split; [lia|done].
Qed.
Lemma work_timer_arm_ok pr h n i fib sh :
  runner_ok (server sh) (Working h n i fib) →
  let '(msgs, r) := work_timer_arm pr true h n i fib (server sh) in
  step_ok sh (Working h n i fib) (sh, msgs, r).
Proof.
  intros (Hgi & Hi & ->). pose proof Hgi as (Hn & ag & Hg & Hs & Ho).
  unfold work_timer_arm. rewrite push_next_ok by lia. unfold publish_feedback. rewrite Hg, Hs.
  cbn [unwrap]. unfold step_ok. split_and!; [| |done| |done|].
  - destruct (Nat.eqb_spec (S i) n) as [<-|Hne]; [by exists (S i), (S i)|].
    split; [done|]. split; [lia|done].
  - left. by destruct (S i =? n).
  - repeat constructor. exists (S i). split; [lia|done].
  - exists []. intros held. by destruct (S i =? n).
Qed.
Lemma cancel_arm_ok req h n i fib sh :
  runner_ok (server sh) (Working h n i fib) →
  step_ok sh (Working h n i fib) (sh, [], cancel_arm req h n i fib (server sh)).
Proof.
  intros Hr. pose proof Hr as (Hg & Hi & Hfib). unfold cancel_arm.
  destruct (contains_goal _ _); (unfold step_ok; split_and!; [|by left|done|by constructor|done|by exists []]).
  - exists n, i, Executing. cbn [cancels]. by rewrite decide_True.
  - done.
Qed.
(** The server while a cancel response is under way. *)
Lemma canceling_ok held h t fib sh sh' msgs t' pr :
  holds held (server sh) → runner_ok (server sh) (InCancel t h fib) →
  resume pr true t sh = Some (sh', msgs, t') → (∀ x, t' ≠ Returned x) →
  runner_ok (server sh') (InCancel t' h fib) ∧ pending t' = None ∧
  (∀ g, Some (h_goal_id (exe_inner h)) ≠ Some g → goals (server sh') !! g = goals (server sh) !! g) ∧
  Forall msg_ok msgs ∧ goal_requests sh' = goal_requests sh ∧
  ∀ held', holds held' (server sh) → holds held' (server sh').
Proof.
  intros Hh (n & i & st & Hc & Hg & Hfib) H Hnr. set (g := h_goal_id (exe_inner h)) in *.
  pose proof Hg as (Hn & ag & Hag & <- & Ho).
  destruct t as [| | | | | | | | | | | |ch [|g' [|]] [|gi [|]]|ch [|gi [|]] il|[|[| | | |rq rs]|]| |[]|];
    simpl in Hc; try done; cbn [resume read_section cancel_section] in H; simplify_eq/=.
  - case_decide as Hid; [|done]. injection Hc as Hst.
    split_and!; [|done..]. exists n, i, Executing. simpl. rewrite decide_True, Hst by done. done.
  - case_decide as Hid; [|done]. injection Hc as Hst.
    rewrite Hid, Hag. simpl. destruct (accepted_time ag) as [tm|] eqn:Ht.
    2: { exfalso. apply (holds_accepted _ _ _ _ Hh Hag) in Ht. congruence. }
    split_and!; [|done..]. exists n, i, Executing. simpl. rewrite decide_True, Hst by done. done.
  - split_and!; [|done..]. exists n, i, (status ag). split; [simpl; congruence|done].
  - case_decide as Hid; [|done]. injection Hc as Hst.
    unfold cancel_each. simpl. rewrite Hid.
    assert (alter (set_status Canceling) g (goals (server sh)) =
            <[g := set_status Canceling ag]> (goals (server sh))) as ->.
    { apply map_eq. intros k. destruct (decide (k = g)) as [->|];
        [by rewrite lookup_alter_eq, Hag, lookup_insert_eq|by rewrite lookup_alter_ne, lookup_insert_ne]. }
    split_and!; [|done| |done|done|].
    + exists n, i, Canceling. split; [done|]. split; [|done]. split; [done|].
      eexists. split; [apply lookup_insert_eq|done].
    + intros g'. apply goals_insert_ne.
    + intros held' H'. apply holds_cancel; rewrite <-?Hst; done.
  - split_and!; [|done|done|by repeat constructor|done|done]. exists n, i, (status ag). split; [simpl; congruence|done].
  - by destruct (Hnr (Ok tt)).
Qed.
Lemma cancels_pending g t st : cancels g t = Some st → pending t = None.
Proof. destruct t as [| | | | | | | | | | | | | |[]| | |]; done. Qed.
Lemma in_cancel_ok held pr t h fib sh o :
  holds held (server sh) → runner_ok (server sh) (InCancel t h fib) →
  cancel_turn pr true t h fib sh = Some o → step_ok sh (InCancel t h fib) o.
Proof.
  intros Hh Hr Ho. unfold cancel_turn, call_turn in Ho.
  destruct (resume pr true t sh) as [[[sh' msgs] t']|] eqn:E; [|done]. injection Ho as <-.
  pose proof Hr as (n & i & st & Hc & Hg & Hfib). pose proof (cancels_pending _ _ _ Hc) as Hp.
  assert (∀ x, t' = Returned x → step_ok sh (InCancel t h fib) (sh', msgs, unwrap x (Ending h EndCanceled fib)))
    as Hret.
  { intros x ->. destruct t as [| | | | | | | | | | | |ch [|g' gs] is0|ch [|gi gs] is0|[]|g'|m|x']; try done;
      cbn [resume read_section cancel_section] in E; simplify_eq/=.
    destruct m as [| | | |rq rs]; simplify_eq/=.
    unfold step_ok. split_and!; [|by left|done|by repeat constructor|done|by exists []].
    by exists n, i. }
  assert ((∀ x, t' ≠ Returned x) → step_ok sh (InCancel t h fib) (sh', msgs, InCancel t' h fib)) as Hin.
  { intros Hne. destruct (canceling_ok _ _ _ _ _ _ _ _ _ Hh Hr E Hne) as (H1 & H2 & H3 & H4 & H5 & H6).
    unfold step_ok. split_and!; [done|by left|done..|]. exists []. intros held'.
    cbn [owes in_call mbind option_bind]. rewrite Hp, H2. apply H6. }
  destruct t'; first [by apply Hin|by apply Hret].
Qed.

(** [send_result_response]: the request is in the buffer or is awaited; then the
    goal ends, and is listed unless the result was not written. *)
Lemma end_ok pr written h st fib sh o :
  runner_ok (server sh) (Ending h st fib) →
  end_turn pr written (SendResponse h st fib) h st fib sh = Some o → step_ok sh (Ending h st fib) o.
Proof.
  intros Hr H. eapply turn_ok; [exact H|done..|]. intros sh' msgs t' [= <- <- <-]. unfold buffer_section.
  destruct (result_requests _ !! _); (split_and!; [done|by left|done|constructor|done]).
Qed.
Lemma ending_status s h st fib :
  about_to_end s h st fib → ∃ ag, goals s !! h_goal_id (exe_inner h) = Some ag ∧
    (status ag = Executing ∨ status ag = Canceling).
Proof. intros (n & i & (_ & ag & Hg & Hs & _) & _). exists ag. split; [done|]. destruct st; auto. Qed.
Lemma ending_msg s h st fib req : about_to_end s h st fib → msg_ok (SendResult req (end_status st) fib).
Proof.
  intros (n & i & (Hn & _) & Hi & ->). destruct st; simpl in Hi |- *; exists i; (split; [lia|done]).
Qed.
Lemma in_end_ok pr written t h st fib sh o :
  runner_ok (server sh) (InEnd t h st fib) → end_turn pr written t h st fib sh = Some o →
  step_ok sh (InEnd t h st fib) o.
Proof.
  intros Hr H. destruct t as [| | | | | | | | |h' st' fib'|h' st' fib' req| | | |k|g| |]; try done.
  - destruct Hr as (-> & -> & -> & Hr). eapply turn_ok; [exact H|done..|].
    intros sh' msgs t'. cbn [resume]. unfold stream_section.
    destruct (request_stream sh) as [|[[req g]|er] rest]; [done| |].
    + destruct (g =? _)%N; intros [= <- <- <-]; (split_and!; [done|by left|done|constructor|done]).
    + intros [= <- <- <-]. split_and!; [done|by right|done|constructor|done].
  - destruct Hr as (-> & -> & -> & Hr). eapply turn_ok; [exact H|done..|].
    intros sh' msgs t'. cbn [resume]. unfold end_section.
    destruct (ending_status _ _ _ _ Hr) as (ag & -> & Hs). pose proof (ending_msg _ _ _ _ req Hr) as Hm.
    assert (∀ s', goals s' = <[h_goal_id (exe_inner h) := set_status (end_status st) ag]> (goals (server sh)) →
      ∀ g, Some (h_goal_id (exe_inner h)) ≠ Some g → goals s' !! g = goals (server sh) !! g) as Hf.
    { intros s' ->. intros g. apply goals_insert_ne. }
    destruct Hs as [-> | ->], written; intros [= <- <- <-];
      (split_and!; [done|by right|by apply Hf|by repeat constructor|done]).
  - eapply turn_ok; [exact H|done..|]. intros sh' msgs t'. cbn [resume]. destruct k; try done.
    intros [= <- <- <-]. split_and!; [done|by left|done|by repeat constructor|done].
  - eapply turn_ok; [exact H|done..|]. intros sh' msgs t' [= <- <- <-].
    split_and!; [done|by left|done|constructor|done].
Qed.
Lemma timeout_ok t h st fib sh : step_ok sh (InEnd t h st fib) (sh, [], Ended).
Proof.
  unfold step_ok. split_and!; [done|by right|done|constructor|done|].
  exists (option_list (owes (InEnd t h st fib))). done.
Qed.

Lemma runner_step_ok held pr aw r sh o :
  holds held (server sh) → runner_ok (server sh) r → good_awaited aw → runner_step pr aw r sh = Some o →
  step_ok sh r o.
Proof.
  intros Hh Hr Ha. destruct r as [h n|t h n|h n|t h n|h n i fib|t h fib|h st fib|t h st fib| |],
    aw as [now|w|w|req| |w|]; simpl in Ha; try done; subst; cbn [runner_step].
  - by apply accept_ok.
  - by apply in_accept_ok.
  - by apply start_ok.
  - by apply in_start_ok.
  - pose proof (work_timer_arm_ok pr h n i fib sh Hr) as H.
    destruct (work_timer_arm _ _ _ _ _ _ _) as [msgs r]. by intros [= <-].
  - intros [= <-]. by apply cancel_arm_ok.
  - by eapply in_cancel_ok.
  - by apply end_ok.
  - by apply in_end_ok.
  - destruct (at_await t); [|done]. intros [= <-]. apply timeout_ok.
Qed.

(** *** The world *)
Implicit Types (w : World ReqId) (m : main_loop ReqId).
(** The goal that the main loop has received and not yet decided about. *)
Definition main_active m : option GoalId :=
  match m with
  | Flushing h | Looking h | Rejecting (Reject _ h) => Some (h_goal_id (new_inner h))
  | _ => None
  end.
Definition is_new s (g : GoalId) : Prop :=
  ∃ ag, goals s !! g = Some ag ∧ status ag = Unknown ∧ good_order (goal ag).
Definition main_ok s m : Prop :=
  match m with
  | Waiting | Stopped => True
  | Inserting q => good_order (sg_goal q.2)
  | Flushing h | Looking h | Rejecting (Reject _ h) => is_new s (h_goal_id (new_inner h))
  | Rejecting (Send (SendGoalResponse _ _ _)) => True
  | _ => False
  end.
Record World_ok (lost : list GoalId) w : Prop := {
  ok_holds : holds (omap owes (runners w) ++ lost) (server (w_shared w));
  ok_runners : Forall (runner_ok (server (w_shared w))) (runners w);
  ok_active : NoDup (omap active (runners w));
  ok_apart g : main_active (main w) = Some g → g ∉ omap active (runners w);
  ok_main : main_ok (server (w_shared w)) (main w);
  ok_requests : Forall good_request (goal_requests (w_shared w));
  ok_sent : Forall msg_ok (sent w);
}.
Lemma main_ok_frame s s' m :
  (∀ g, main_active m = Some g → goals s' !! g = goals s !! g) → main_ok s m → main_ok s' m.
Proof.
  intros Hf. assert (∀ g, main_active m = Some g → is_new s g → is_new s' g) as Hn.
  { intros g Hg. unfold is_new. by rewrite Hf. }
  destruct m as [|q|h|h|[]| |]; simpl in *; auto.
Qed.
Lemma main_active_new s m g : main_ok s m → main_active m = Some g → is_new s g.
Proof. destruct m as [|q|h|h|[]| |]; simpl; try done; by intros ? [= <-]. Qed.

Lemma run_ok lost pr j aw w r sh' msgs r' :
  World_ok lost w → good_awaited aw → runners w !! j = Some r →
  runner_step pr aw r (w_shared w) = Some (sh', msgs, r') →
  ∃ lost', World_ok lost' {| w_shared := sh'; main := main w; runners := <[j:=r']> (runners w);
                             sent := sent w ++ msgs |}.
Proof.
  intros [Hh Hrs Hnd Hap Hm Hreq Hsent] Ha Hj Hstep.
  pose proof (Forall_lookup_1 _ _ _ _ Hrs Hj) as Hr.
  destruct (runner_step_ok _ _ _ _ _ _ Hh Hr Ha Hstep) as (Hr' & Hact & Hframe & Hmsgs & Hq & lost1 & Hl).
  exists (lost1 ++ lost). split; cbn [w_shared runners main sent].
  - destruct (omap_insert_perm owes (runners w) j r r' Hj) as [P1 P2].
    eapply holds_same; [done|done| |apply (Hl (omap owes (delete j (runners w)) ++ lost))].
    + rewrite P2, <-app_assoc. apply Permutation_app_head.
      by rewrite !(assoc_L (++)), (Permutation_app_comm lost1).
    + eapply holds_same; [done..| |exact Hh]. by rewrite P1, app_assoc.
  - apply Forall_lookup. intros k rk Hk. apply list_lookup_insert_Some in Hk as [(<- & <- & _)|[Hne Hk]]; [done|].
    apply (runner_ok_frame (server (w_shared w))); [|by eapply Forall_lookup_1].
    intros g Hg. apply Hframe. intros Hrg. by eapply (NoDup_omap_ne active (runners w) j k).
  - destruct Hact as [Hact|Hact]; [by rewrite (omap_insert_same _ _ _ r)|].
    eapply sublist_NoDup; [exact Hnd|]. by eapply omap_delete_sublist.
  - intros g Hg Hin. apply (Hap g Hg). destruct Hact as [Hact|Hact].
    + by rewrite (omap_insert_same _ _ _ r) in Hin.
    + eapply elem_of_submseteq; [exact Hin|]. eapply sublist_submseteq, omap_delete_sublist; done.
  - eapply main_ok_frame; [|exact Hm]. intros g Hg. apply Hframe. intros Hrg. apply (Hap g Hg).
    apply list_elem_of_omap. exists r. split; [by eapply list_elem_of_lookup_2|done].
  - by rewrite Hq.
  - by apply Forall_app.
Qed.

(** What a step of the main loop keeps of the server and the runners. *)
Lemma runners_frame lost w s' :
  World_ok lost w →
  (∀ g ag, goals (server (w_shared w)) !! g = Some ag → looks_done (status ag) = false →
     main_active (main w) ≠ Some g → goals s' !! g = Some ag) →
  Forall (runner_ok s') (runners w).
Proof.
  intros [Hh Hrs Hnd Hap Hm Hreq Hsent] Hf. apply Forall_forall. intros r Hin.
  pose proof (proj1 (Forall_forall _ _) Hrs _ Hin) as Hr.
  apply (runner_ok_frame (server (w_shared w))); [|done]. intros g Hg.
  destruct (active_goal _ _ _ Hr Hg) as (ag & Hag & Hd). rewrite Hag. apply Hf; [done..|].
  intros Hma. apply (Hap g Hma), list_elem_of_omap. eauto.
Qed.
Lemma new_not_active lost w g :
  World_ok lost w → goals (server (w_shared w)) !! g = None → g ∉ omap active (runners w).
Proof.
  intros Hw Hg (r & Hin & Ha)%list_elem_of_omap.
  pose proof (proj1 (Forall_forall _ _) (ok_runners _ _ Hw) _ Hin) as Hr.
  destruct (active_goal _ _ _ Hr Ha) as (ag & Hag & _). congruence.
Qed.
Lemma holds_none held t sh sh' msgs t' pr written :
  is_cancel t = false → pending t = None → unwritten written t (server sh) = [] → pending t' = None →
  resume pr written t sh = Some (sh', msgs, t') → holds held (server sh) → holds held (server sh').
Proof.
  intros Hc Hp Hu Hp' E H. pose proof (holds_resume _ _ _ held _ _ _ _ Hc E) as Hr.
  rewrite Hp, Hp', Hu in Hr. by apply Hr.
Qed.
Lemma waiting_ok lost pr written w sh msgs m (r : option (runner ReqId)) now :
  World_ok lost w → main w = Waiting → main_step pr now written Waiting (w_shared w) = Some (sh, msgs, m, r) →
  World_ok lost {| w_shared := sh; main := m; runners := runners w ++ option_list r; sent := sent w ++ msgs |}.
Proof.
  intros [Hh Hrs Hnd Hap Hm Hreq Hsent] Hmain. cbn [main_step resume]. unfold receive_section.
  destruct (goal_requests (w_shared w)) as [|q rest]; [done|].
  apply Forall_cons in Hreq as [Hq Hrest]. intros [= <- <- <- <-]. cbn [option_list].
  rewrite !app_nil_r. by destruct q as [q|]; split.
Qed.
Lemma inserting_ok lost pr written w sh msgs m (r : option (runner ReqId)) now q :
  World_ok lost w → main w = Inserting q →
  main_step pr now written (Inserting q) (w_shared w) = Some (sh, msgs, m, r) →
  World_ok lost {| w_shared := sh; main := m; runners := runners w ++ option_list r; sent := sent w ++ msgs |}.
Proof.
  intros Hw Hmain. pose proof Hw as [Hh Hrs Hnd Hap Hm Hreq Hsent]. rewrite Hmain in Hm. cbn [main_step].
  destruct (resume pr written (InsertGoal q) (w_shared w)) as [[[sh1 o1] t1]|] eqn:E; [|done].
  cbn [mbind option_bind]. intros [= <- <- <- <-]. cbn [option_list]. rewrite !app_nil_r.
  assert (holds (omap owes (runners w) ++ lost) (server sh1)) as Hh1.
  { eapply (holds_none _ (InsertGoal q)); [done..| |exact E|exact Hh].
    cbn [resume] in E. unfold insert_section in E. destruct (receive_new_goal [q] _) as [[[? ?] ?]|]; by simplify_eq. }
  cbn [resume] in E. unfold insert_section in E. destruct q as [req gr]. cbn [receive_new_goal] in E.
  destruct (goals (server (w_shared w)) !! sg_goal_id gr) eqn:Hg; injection E as <- <- <-.
  { rewrite app_nil_r. by split. }
  rewrite app_nil_r. split; cbn [w_shared main runners sent]; try done.
  - eapply runners_frame; [exact Hw|]. intros g ag Hag _ _. simpl. rewrite lookup_insert_ne; [done|]. congruence.
  - intros g [= <-]. by eapply new_not_active.
  - eexists. split; [apply lookup_insert_eq|done].
Qed.
Lemma flushing_ok lost pr written w sh msgs m (r : option (runner ReqId)) now h :
  World_ok lost w → main w = Flushing h →
  main_step pr now written (Flushing h) (w_shared w) = Some (sh, msgs, m, r) →
  World_ok lost {| w_shared := sh; main := m; runners := runners w ++ option_list r; sent := sent w ++ msgs |}.
Proof.
  intros Hw Hmain. pose proof Hw as [Hh Hrs Hnd Hap Hm Hreq Hsent]. rewrite Hmain in Hm, Hap.
  cbn [main_step resume]. destruct (holds_flushes pr _ _ Hh) as [s' Hs']. rewrite Hs'. cbn [mbind option_bind].
  destruct (holds_flush _ _ _ _ Hh Hs') as (Hh'&_&Hl).
  assert (∀ g ag, goals (server (w_shared w)) !! g = Some ag → looks_done (status ag) = false →
            goals s' !! g = Some ag) as Hkeep.
  { intros g ag Hag Hd. rewrite Hl, decide_False; [done|]. intros Hin.
    destruct (proj1 (holds_ended _ _ g Hh)) as (ag'&?&?); [apply elem_of_app; by left|]. congruence. }
  intros [= <- <- <- <-]. cbn [option_list]. rewrite !app_nil_r.
  split; cbn [w_shared main runners sent]; try done.
  - eapply runners_frame; [exact Hw|]. intros g ag Hag Hd _. by apply Hkeep.
  - destruct Hm as (ag & Hag & Hu & Ho). exists ag. split; [|done]. apply Hkeep; [done|]. by rewrite Hu.
Qed.
Lemma looking_ok lost pr written w sh msgs m (r : option (runner ReqId)) now h :
  World_ok lost w → main w = Looking h →
  main_step pr now written (Looking h) (w_shared w) = Some (sh, msgs, m, r) →
  World_ok lost {| w_shared := sh; main := m; runners := runners w ++ option_list r; sent := sent w ++ msgs |}.
Proof.
  intros Hw Hmain. pose proof Hw as [Hh Hrs Hnd Hap Hm Hreq Hsent]. rewrite Hmain in Hm, Hap.
  pose proof Hm as (ag & Hag & Hu & Ho1 & Ho2). cbn [main_step]. rewrite Hag. cbn [fmap option_fmap option_map mbind option_bind].
  unfold order_of. rewrite (proj2 (Z.ltb_ge _ _)) by done.
  destruct (in_range (Z.to_nat (goal ag))) eqn:Hr; cbn [negb]; intros [= <- <- <- <-]; cbn [option_list];
    rewrite !app_nil_r; [|by split].
  apply andb_prop in Hr as [H1%Nat.leb_le H2%Nat.leb_le].
  split; cbn [w_shared main runners sent]; try done.
  - by rewrite omap_app, app_nil_r.
  - apply Forall_app. split; [done|]. constructor; [|done]. split; [lia|]. exists ag. split_and!; [done..|lia].
  - rewrite omap_app. cbn [omap list_omap active]. apply NoDup_app. split; [done|]. split; [|apply NoDup_singleton].
    intros g Hin ->%list_elem_of_singleton. by eapply Hap.
Qed.
Lemma rejecting_ok lost pr w sh msgs m (r : option (runner ReqId)) now t :
  World_ok lost w → main w = Rejecting t →
  main_step pr now true (Rejecting t) (w_shared w) = Some (sh, msgs, m, r) →
  World_ok lost {| w_shared := sh; main := m; runners := runners w ++ option_list r; sent := sent w ++ msgs |}.
Proof.
  intros Hw Hmain. pose proof Hw as [Hh Hrs Hnd Hap Hm Hreq Hsent]. rewrite Hmain in Hm, Hap. cbn [main_step].
  destruct t as [| | | | |now' h| | | | | | | | | | |mg|]; try done.
  - destruct (resume pr true (Reject now' h) (w_shared w)) as [[[sh1 o1] t1]|] eqn:E; [|done].
    cbn [mbind option_bind]. intros [= <- <- <- <-]. cbn [option_list]. rewrite !app_nil_r.
    assert (holds (omap owes (runners w) ++ lost) (server sh1)) as Hh1.
    { eapply (holds_none _ (Reject now' h)); [done..| |exact E|exact Hh].
      cbn [resume] in E. destruct (reject_goal _ _ _ _) as [[s1 o] [x|x]]; by simplify_eq. }
    cbn [resume] in E. unfold reject_goal in E. destruct Hm as (ag & Hag & Hu & _).
    rewrite Hag, Hu in E. cbn in E. injection E as <- <- <-. rewrite app_nil_r.
    split; cbn [w_shared main runners sent]; try done.
    eapply runners_frame; [exact Hw|]. intros g ag' Hag' _ Hne. simpl. rewrite lookup_delete_ne; [done|].
    rewrite Hmain in Hne. simpl in Hne. congruence.
  - destruct mg; try done. cbn [resume mbind option_bind]. intros [= <- <- <- <-]. cbn [option_list].
    rewrite !app_nil_r. split; cbn [w_shared main runners sent]; try done.
    apply Forall_app. split; [done|]. by repeat constructor.
Qed.
Lemma main_step_ok lost pr w sh msgs m (r : option (runner ReqId)) now :
  World_ok lost w → main_step pr now true (main w) (w_shared w) = Some (sh, msgs, m, r) →
  World_ok lost {| w_shared := sh; main := m; runners := runners w ++ option_list r; sent := sent w ++ msgs |}.
Proof.
  intros Hw E. destruct (main w) eqn:Hmain; try done.
  - by eapply waiting_ok.
  - by eapply inserting_ok.
  - by eapply flushing_ok.
  - by eapply looking_ok.
  - by eapply rejecting_ok.
Qed.
Lemma arrivals_ok lost w q q' :
  World_ok lost w → good_request q →
  World_ok lost {| w_shared := goal_arrives q (w_shared w); main := main w; runners := runners w; sent := sent w |} ∧
  World_ok lost {| w_shared := result_arrives q' (w_shared w); main := main w; runners := runners w; sent := sent w |}.
Proof.
  intros [Hh Hrs Hnd Hap Hm Hreq Hsent] Hq. split; split; try done. apply Forall_app. by repeat constructor.
Qed.
Lemma stop_ok lost w :
  World_ok lost w →
  World_ok lost {| w_shared := w_shared w; main := Stopped; runners := runners w; sent := sent w |}.
Proof. intros [Hh Hrs Hnd Hap Hm Hreq Hsent]. by split. Qed.
Lemma event_ok lost pr ev w w' :
  World_ok lost w → good_event ev → event_step pr ev w = Some w' → ∃ lost', World_ok lost' w'.
Proof.
  intros Hw Hev Hs. unfold event_step in Hs. destruct (ended _); [done|].
  destruct ev as [q|q|now written| |j aw].
  - injection Hs as <-. exists lost. by apply (arrivals_ok lost w q (Err tt)).
  - injection Hs as <-. exists lost. by apply (arrivals_ok lost w (Err tt) q).
  - simpl in Hev. subst written.
    destruct (main_step pr now true (main w) (w_shared w)) as [[[[sh msgs] m] r]|] eqn:E; [|done].
    injection Hs as <-. exists lost. by eapply main_step_ok.
  - destruct (main w); try done. injection Hs as <-. exists lost. by apply stop_ok.
  - destruct (runners w !! j) as [r|] eqn:Hj; [|done]. simpl in Hs.
    destruct (runner_step pr aw r (w_shared w)) as [[[sh' msgs] r']|] eqn:Hstep; [|done].
    injection Hs as <-. by eapply run_ok.
Qed.
Lemma run_events_ok lost pr evs w w' :
  World_ok lost w → Forall good_event evs → run_events pr evs w = Some w' → ∃ lost', World_ok lost' w'.
Proof.
  intros Hw Hevs. revert w lost Hw.
  induction Hevs as [|ev evs Hev _ IH]; intros w lost Hw; simpl; [intros [= <-]; eauto|].
  destruct (event_step pr ev w) as [w1|] eqn:E; [|done]. simpl.
  destruct (event_ok _ _ _ _ _ Hw Hev E) as [lost1 Hw1]. by eapply IH.
Qed.
Lemma World_new_ok : World_ok [] World_new.
Proof. split; try done; [apply (holds_new (R:=list Z) (F:=list Z))|constructor..]. Qed.
End runners.
(** ** Ticks of one runner *)
Section ticks.
Context {ReqId : Type}.
Abbreviation Server := (AsyncActionServer Z ReqId).
Abbreviation Msg := (message (list Z) (list Z) ReqId).
Abbreviation Shared := (Shared Z ReqId).
Implicit Types (sh : Shared).

Fixpoint run_ticks (pr : profile) (k : nat) (r : runner ReqId) (sh : Shared) :
    option (Shared * list Msg * runner ReqId) :=
  match k with
  | O => Some (sh, [], r)
  | S k =>
      '(sh, msgs, r) ← runner_step pr (Tick true) r sh;
      '(sh, msgs', r) ← run_ticks pr k r sh;
      Some (sh, msgs ++ msgs', r)
  end.
Lemma run_ticks_app pr k1 k2 r (s s1 : Shared) m1 r1 :
  run_ticks pr k1 r s = Some (s1, m1, r1) →
  run_ticks pr (k1 + k2) r s = '(s2, m2, r2) ← run_ticks pr k2 r1 s1; Some (s2, m1 ++ m2, r2).
Proof.
  revert r s m1. induction k1 as [|k1 IH]; intros r s m1; cbn [run_ticks Nat.add].
  { intros [= <- <- <-]. by destruct (run_ticks pr k2 r s) as [[[??]?]|]. }
  destruct (runner_step _ _ r s) as [[[s' m'] r']|]; [|done]. cbn [mbind option_bind].
  destruct (run_ticks pr k1 r' s') as [[[s2 m2] r2]|] eqn:E; [|done]. cbn [mbind option_bind].
  intros [= -> <- ->]. rewrite (IH _ _ _ E). destruct (run_ticks pr k2 r1 s1) as [[[s3 m3] r3]|]; [|done].
  cbn. by rewrite app_assoc.
Qed.

(** The goal of a handle is executing. *)
Definition executing (s : Server) (h : ExecutingGoalHandle) : Prop :=
  ∃ ag, goals s !! h_goal_id (exe_inner h) = Some ag ∧ status ag = Executing.
Definition told (h : ExecutingGoalHandle) (fib : list Z) : Msg :=
  SendFeedback (h_goal_id (exe_inner h)) fib.
Lemma tick_pushes pr h n i fib fib' (s : Shared) :
  executing (server s) h → push_next pr (S i) fib = Some fib' →
  runner_step pr (Tick true) (Working h n i fib) s =
    Some (s, [told h fib'], if S i =? n then Ending h EndSucceeded fib' else Working h n (S i) fib').
Proof.
  intros (ag & Hg & Hs) Hp. cbn [runner_step]. unfold work_timer_arm. rewrite Hp.
  unfold publish_feedback. cbn [server]. by rewrite Hg, Hs.
Qed.
(** Below the order, and below [F_47], a tick computes the next number. *)
Lemma ticks_below pr h n (s : Shared) k :
  executing (server s) h → k ≤ 45 → n = 1 ∨ k + 1 < n →
  run_ticks pr k (Working h n 1 (fibs 1)) s =
    Some (s, told h ∘ fibs <$> seq 2 k, Working h n (S k) (fibs (S k))).
Proof.
  intros Hex. induction k as [|k IH]; intros Hk Hn; [done|].
  replace (S k) with (k + 1) at 1 by lia. erewrite run_ticks_app by (apply IH; lia).
  cbn [run_ticks]. erewrite tick_pushes by (done || (apply push_next_ok; lia)).
  rewrite (proj2 (Nat.eqb_neq _ _)) by lia. cbn [mbind option_bind].
  rewrite (seq_S k 2), fmap_app. done.
Qed.
(** Wrapping around, a tick always computes some number. *)
Lemma push_next_release i fib :
  1 ≤ i → length fib = S i → ∃ fib', push_next Release (S i) fib = Some fib' ∧ length fib' = S (S i).
Proof.
  intros Hi Hl. destruct i as [|i]; [lia|]. unfold push_next. simpl. rewrite Nat.sub_0_r.
  destruct (lookup_lt_is_Some_2 fib i) as [a ->]; [lia|].
  destruct (lookup_lt_is_Some_2 fib (S i)) as [b ->]; [lia|]. simpl. eexists. split; [done|].
  rewrite length_app. simpl. lia.
Qed.
Lemma ticks_forever h (s : Shared) k :
  executing (server s) h → ∃ msgs fib, run_ticks Release k (Working h 1 1 (fibs 1)) s =
    Some (s, msgs, Working h 1 (S k) fib) ∧ length fib = S (S k).
Proof.
  intros Hex. induction k as [|k (msgs & fib & IH & Hl)]; [by exists [], (fibs 1)|].
  destruct (push_next_release (S k) fib) as (fib' & Hp & Hl'); [lia|done|].
  exists (msgs ++ [told h fib']), fib'. split; [|done].
  assert (S k = k + 1) as Hk by lia. rewrite Hk at 1. erewrite run_ticks_app by exact IH. cbn [run_ticks].
  erewrite tick_pushes by done. by rewrite (proj2 (Nat.eqb_neq _ _)) by lia.
Qed.

(** C32: The orders the server accepts. An order from 2 to 25 is served: after
    exactly one tick less than the order the runner succeeds with the numbers up
    to [F_order], having published every prefix on the way. Order 1 is never: the
    test for the end comes after the first step past it, so in a release build
    no number of ticks ends the goal, and in a debug build [F_47] overflows an
    [i32] and the runner panics. *)
Theorem fibonacci_orders pr h n (s : Shared) :
  executing (server s) h → in_range n = true →
  if n =? 1 then
    (∀ k, match run_ticks Release k (Working h n 1 (fibs 1)) s with
          | Some (_, _, Working _ _ _ _) => True
          | _ => False
          end) ∧
    ∃ msgs, run_ticks Debug 46 (Working h n 1 (fibs 1)) s = Some (s, msgs, Panicked)
  else
    run_ticks pr (n - 1) (Working h n 1 (fibs 1)) s =
      Some (s, told h ∘ fibs <$> seq 2 (n - 1), Ending h EndSucceeded (fibs n)).
Proof.
  intros Hex [H1%Nat.leb_le H2%Nat.leb_le]%andb_prop. destruct (Nat.eqb_spec n 1) as [->|Hn]; [split|].
  - intros k. destruct (ticks_forever h s k Hex) as (msgs & fib & -> & _). done.
  - assert (46 = 45 + 1) as Hk by done. rewrite Hk.
    erewrite run_ticks_app by (apply ticks_below; [done|lia|by left]). clear Hk.
    cbn [run_ticks runner_step]. unfold work_timer_arm. rewrite push_next_overflow by done. by eexists.
  - replace (n - 1) with (n - 2 + 1) by lia. erewrite run_ticks_app by (apply ticks_below; [done|lia|lia]).
    cbn [run_ticks]. erewrite tick_pushes by (done || (apply push_next_ok; lia)).
    replace (S (S (n - 2))) with n by lia. rewrite Nat.eqb_refl. cbn [mbind option_bind].
    rewrite seq_app, fmap_app. replace (2 + (n - 2)) with n by lia. done.
Qed.
End ticks.

(** ** Theorems on the servers *)
Section servers.
Context {ReqId : Type}.
Implicit Types (w : World ReqId).

(** C30: The concurrent server. As long as the reads of cancel requests and the
    writes of responses and feedback succeed and no client asks for a negative order
    or order 1, then whatever the goals, the cancel and result requests, the
    time-outs, the failed reads and writes of results, and however the sections of
    the calls of all tasks interleave, no task panics; no flush of finished goals
    fails; live runners are about different goals, each in the status the runner
    believes; and every feedback and result a client is sent is a list of Fibonacci
    numbers, complete when the goal succeeded. *)
Theorem concurrent_server_safe pr evs w :
  Forall good_event evs → run_events pr evs World_new = Some w →
  main w ≠ MainPanicked ∧ Panicked ∉ runners w ∧
  is_Some (flush_finisehd_goals pr (server (w_shared w))) ∧
  NoDup (omap active (runners w)) ∧ Forall (runner_ok (server (w_shared w))) (runners w) ∧
  Forall msg_ok (sent w).
Proof.
  intros Hevs Hrun. destruct (run_events_ok _ _ _ _ _ World_new_ok Hevs Hrun) as [lost [Hh Hrs Hnd Hap Hm Hreq Hsent]].
  split_and!; try done.
  - intros Hp. by rewrite Hp in Hm.
  - intros Hp. exact (proj1 (Forall_forall _ _) Hrs _ Hp).
  - by eapply holds_flushes.
Qed.

Lemma run_cons pr ev evs w w1 w' :
  event_step pr ev w = Some w1 → run_events pr evs w1 = Some w' → run_events pr (ev :: evs) w = Some w'.
Proof. intros H1 H2. cbn [run_events]. by rewrite H1. Qed.
(** A cancel request for another goal than the runner's that takes it is dropped:
    nobody answers it, and the runner of that goal never sees it. *)
Lemma cancel_dropped pr j h n i fib w (req : ReqId * CancelGoalRequest) :
  ended (main w) = false → runners w !! j = Some (Working h n i fib) →
  goal_id (cr_goal_info req.2) ≠ UUID_ZERO → stamp (cr_goal_info req.2) = Time_ZERO →
  goal_id (cr_goal_info req.2) ≠ h_goal_id (exe_inner h) →
  event_step pr (Run j (CancelRequest req)) w = Some w.
Proof.
  intros Hmain Hj Hid Hst Hne. unfold event_step. rewrite Hmain, Hj. cbn [mbind option_bind runner_step].
  unfold cancel_arm, contains_goal. rewrite bool_decide_eq_false_2.
  - cbn. rewrite list_insert_id by done. rewrite app_nil_r. by destruct w.
  - intros Hin. apply receive_cancel_request_spec in Hin as (ag & _ & _ & Hsel).
    destruct Hsel as [[? _]|[[_ ?]|[? _]]]; congruence.
Qed.
(** One goal request with a negative order ends the process. *)
Lemma negative_order_panics pr lost req gid order now w :
  World_ok lost w → main w = Waiting → goal_requests (w_shared w) = [] →
  goals (server (w_shared w)) !! gid = None → (order < 0)%Z →
  ∃ w', run_events pr [GoalArrives (Ok (req, {| sg_goal_id := gid; sg_goal := order |}));
                       Main now true; Main now true; Main now true; Main now true] w = Some w' ∧
    main w' = MainPanicked.
Proof.
  intros Hw Hmain Hq Hg Ho.
  set (s1 := with_goals (<[gid := {| status := Unknown; accepted_time := None; goal := order |}]>
               (goals (server (w_shared w)))) (server (w_shared w))).
  assert (holds (omap owes (runners w) ++ lost) s1) as H1.
  { apply (holds_call (R:=list Z) (F:=list Z) pr
      (ReceiveNewGoal [(req, {| sg_goal_id := gid; sg_goal := order |})]) _ (server (w_shared w)));
      [done| |by apply ok_holds]. simpl. by rewrite Hg. }
  destruct (holds_flushes pr _ _ H1) as [s2 Hs2]. destruct (holds_flush _ _ _ _ H1 Hs2) as (_&_&Hl).
  assert (goals s2 !! gid = Some {| status := Unknown; accepted_time := None; goal := order |}) as Hg2.
  { rewrite Hl, decide_False; [apply lookup_insert_eq|]. intros Hin.
    destruct (proj1 (holds_ended _ _ gid H1)) as (ag&Hag&Hd); [apply elem_of_app; by left|].
    simpl in Hag. rewrite lookup_insert_eq in Hag. by simplify_eq/=. }
  eexists. split.
  - eapply run_cons; [unfold event_step; rewrite Hmain; reflexivity|].
    eapply run_cons; [unfold event_step; cbn; unfold receive_section; cbn;
                      rewrite Hq; reflexivity|].
    eapply run_cons; [unfold event_step; cbn -[with_goals]; unfold insert_section; cbn -[with_goals]; rewrite Hg; reflexivity|].
    eapply run_cons; [unfold event_step; cbn -[flush_finisehd_goals with_goals]; fold s1; rewrite Hs2; reflexivity|].
    eapply run_cons; [unfold event_step; cbn; rewrite Hg2; cbn; unfold order_of;
                      rewrite (proj2 (Z.ltb_lt _ _)) by done; reflexivity|reflexivity].
  - reflexivity.
Qed.

(** The minimal server keeps the same invariant; a stop aborts the goal. *)
Definition as_world (m : Minimal ReqId) : World ReqId :=
  {| w_shared := m_shared m; main := m_main m; runners := option_list (serving m); sent := m_sent m |}.
Definition good_minimal (ev : minimal_event ReqId) : Prop :=
  match ev with
  | MStop | MResultArrives _ => True
  | MGoalArrives q => good_request q
  | MMain _ written => written = true
  | MRun aw => good_awaited aw
  end.
Lemma minimal_step_ok lost pr ev (m m' : Minimal ReqId) :
  World_ok lost (as_world m) → good_minimal ev → minimal_step pr ev m = Some m' →
  ∃ lost', World_ok lost' (as_world m').
Proof.
  intros Hw Hev Hs. unfold minimal_step in Hs. destruct ev as [|q|q|now written|aw].
  - exists lost. unfold as_world in *. destruct (serving m) as [[]|] eqn:Hser; try done.
    + destruct (run m); [|done]. injection Hs as <-. cbn [serving m_shared m_main m_sent option_list] in *.
      pose proof Hw as [Hh Hrs Hnd Hap Hm Hreq Hsent]. split; try done. apply Forall_singleton in Hrs as (Hg&Hi&Hf).
      apply Forall_singleton. by exists fib_order, i.
    + destruct (m_main m), (run m); try done. injection Hs as <-. by apply (stop_ok lost _ Hw).
  - injection Hs as <-. exists lost. by apply (arrivals_ok lost (as_world m) q (Err tt)).
  - injection Hs as <-. exists lost. by apply (arrivals_ok lost (as_world m) (Err tt) q).
  - simpl in Hev. subst written. destruct (serving m) eqn:Hser; [done|]. destruct (run m); [|done].
    destruct (main_step pr now true (m_main m) (m_shared m)) as [[[[sh msgs] l] r]|] eqn:E; [|done].
    injection Hs as <-. exists lost.
    pose proof (main_step_ok lost pr (as_world m) sh msgs l r now Hw E) as H.
    unfold as_world in *. rewrite Hser in H. exact H.
  - destruct (serving m) as [r|] eqn:Hser; [|done].
    destruct (runner_step pr aw r (m_shared m)) as [[[sh msgs] r']|] eqn:E; [|done]. injection Hs as <-.
    destruct (run_ok lost pr 0 aw (as_world m) r sh msgs r' Hw Hev) as [lost' Hw']; [by simpl; rewrite Hser|done|].
    exists lost'. unfold as_world in *. cbn [serving m_shared m_main m_sent runners] in *. rewrite Hser in Hw'.
    pose proof Hw' as [Hh Hrs Hnd Hap Hm Hreq Hsent].
    assert (runner_ok (server sh) r') as Hr' by exact (proj1 (Forall_singleton _ _) Hrs).
    destruct r'; try exact Hw'; [split; first [done|constructor]|by destruct Hr'].
Qed.
End servers.

(** The client's orders are 4, 6, 8, 0, 2 and again; the server accepts all but 0,
    and none of them is the order it cannot serve. *)
Lemma client_orders k :
  let order := Nat.iter (S k) next_order 2%Z in
  order = [4; 6; 8; 0; 2]%Z !!! (k mod 5) ∧ good_order order ∧
  ∃ n, order_of order = Some n ∧ (in_range n = false ↔ k mod 5 = 3).
Proof.
  assert (∀ k, Nat.iter (S k) next_order 2%Z = [4; 6; 8; 0; 2]%Z !!! (k mod 5)) as Hall.
  { clear k. intros k. induction k as [|k IH]; [done|]. change (Nat.iter (S (S k)) next_order 2%Z) with
      (next_order (Nat.iter (S k) next_order 2%Z)). rewrite IH.
    assert (k mod 5 < 5) by (by apply Nat.mod_upper_bound).
    assert (S k mod 5 = if k mod 5 =? 4 then 0 else S (k mod 5)) as ->.
    { destruct (Nat.eqb_spec (k mod 5) 4); lia. }
    destruct (k mod 5) as [|[|[|[|[|m]]]]]; try done. lia. }
  intros order. unfold order. rewrite Hall. assert (k mod 5 < 5) by (by apply Nat.mod_upper_bound).
  destruct (k mod 5) as [|[|[|[|[|m]]]]]; try lia; (split; [done|]); (split; [by vm_compute; split|]);
    (eexists; split; [reflexivity|]); by vm_compute.
Qed.

(** ** Witnesses *)
#[local] Definition handle7 : ExecutingGoalHandle := {| exe_inner := {| h_goal_id := 7%N |} |}.
#[local] Definition server7 : Shared Z N :=
  {| goal_requests := []; request_stream := []; server := {| goals := {[7%N := {| status := Executing; accepted_time := Some (Time_from_nanos 5); goal := 3%Z |}]};
     finished_goals := []; result_requests := ∅ |} |}.
Example fibonacci_orders_witness :
  run_ticks Debug 2 (Working handle7 3 1 (fibs 1)) server7 =
    Some (server7, [SendFeedback 7%N [0; 1; 1]%Z; SendFeedback 7%N [0; 1; 1; 2]%Z],
          Ending handle7 EndSucceeded [0; 1; 1; 2]%Z) ∧
  ∃ msgs, run_ticks Debug 46 (Working handle7 1 1 (fibs 1)) server7 = Some (server7, msgs, Panicked).
Proof.
  assert (executing (server server7) handle7) as Hex.
  { eexists. split; [apply lookup_singleton_eq|reflexivity]. }
  split.
  - exact (fibonacci_orders Debug handle7 3 server7 Hex eq_refl).
  - exact (proj2 (fibonacci_orders Debug handle7 1 server7 Hex eq_refl)).
Defined.
(** Goal 7 of order 3 and goal 8 of order 2 run side by side, their sections mixed:
    the runner of 7 drops a cancel request for 8; 8 succeeds, but the write of its
    result fails; 7 is canceled and gets its result while a third goal with order 30
    is rejected. *)
Example concurrent_server_safe_witness :
  let request g order : result unit (N * SendGoalRequest) := Ok (g, {| sg_goal_id := g; sg_goal := order |}) in
  let cancel g : N * CancelGoalRequest := (90%N, {| cr_goal_info := {| goal_id := g; stamp := Time_ZERO |} |}) in
  let now := Time_from_nanos 1 in let main := Main now true in
  let go j := Run j (Go true) in let result_turn j := Run j (ResultTurn true) in
  let evs := [GoalArrives (request 7%N 3%Z); main; main; main; main; GoalArrives (request 7%N 3%Z);
              GoalArrives (request 8%N 2%Z); Run 0 (Clock now); main; go 0; main; main; main; go 0; main; main;
              Run 1 (Clock now); go 0; go 1; go 0; go 1; go 1; go 1; Run 0 (Tick true);
              Run 0 (CancelRequest (cancel 8%N)); Run 1 (Tick true);
              ResultArrives (Ok (80%N, 8%N)); ResultArrives (Ok (70%N, 7%N)); result_turn 1;
              Run 0 (CancelRequest (cancel 7%N)); go 0; result_turn 1; go 0; Run 1 (ResultTurn false);
              go 0; go 0; go 0; go 0; result_turn 0;
              GoalArrives (request 9%N 30%Z); main; result_turn 0; main; main; result_turn 0; main; main;
              result_turn 0; main; result_turn 0] in
  ∃ w, run_events Debug evs World_new = Some w ∧ runners w = [Ended; Ended] ∧
    omap (λ m, match m with SendResult req st l => Some (req, st, l) | _ => None end) (sent w) =
      [(80%N, Succeeded, [0; 1; 1]%Z); (70%N, Canceled, [0; 1; 1]%Z)] ∧
    Fibonacci.main w ≠ MainPanicked ∧ Panicked ∉ runners w ∧
    is_Some (flush_finisehd_goals Debug (server (w_shared w))) ∧
    NoDup (omap active (runners w)) ∧ Forall (runner_ok (server (w_shared w))) (runners w) ∧ Forall msg_ok (sent w).
Proof.
  intros request cancel now main go result_turn evs.
  assert (Forall good_event evs) as Hgood.
  { repeat (constructor; [first [exact I|reflexivity|split; [by vm_compute|done]]|]). constructor. }
  eexists. split; [vm_compute; reflexivity|]. split; [vm_compute; reflexivity|].
  split; [vm_compute; reflexivity|].
  apply (concurrent_server_safe Debug evs); [exact Hgood|]. vm_compute. reflexivity.
Defined.
