(* ===== verification/FibonacciClient.v ===== *)
(** * The Fibonacci client (examples/minimal_action_client)

    The client's main loop as a state machine over what its awaits return; the
    feedback and status streams are those of ActionClient, applied to what
    arrives. *)
From S2P Require Import Prelude Time ActionServer DdsService PubSub ActionClient Fibonacci.
#[local] Open Scope Z_scope.

Section client.
Context `{RD : Rustdds}.
Abbreviation Feedback := (FeedbackMessage (list Z)).

(** Where the main loop is: at its own [select!], at the response to a goal, in
    the [select!] of an accepted goal, in the pause after a rejected one, or
    past the loop. *)
Inductive client_phase :=
| Idle
| AwaitingGoal
| Following (g : GoalId)
| Sulking
| Left.
Inductive client_line :=
| SendingGoal (order : Z)
| NoGoalResponse
| GoalResponse (g : GoalId) (is_accepted : bool)
| GoalSendError
| GoalTimeout (g : GoalId)
| ActionResult (status : GoalStatusEnum) (sequence : list Z)
| ActionResultError
| FeedbackLine (r : result ReadError (list Z))
| StatusLine (status : GoalStatusEnum)
| StatusMissing (others : nat)
| StatusError (e : ReadError).
Record FibClient := { request_generator : Z; phase : client_phase }.
Definition FibClient_new : FibClient := {| request_generator := 2; phase := Idle |}.

(** What the loop can wait for; [None] is the timeout of the goal's response. *)
Inductive client_event :=
| CStop
| CTick
| CGoal (r : option (result unit (GoalId * SendGoalResponse)))
| CGoalTimeout
| CResult (r : result unit (GoalStatusEnum * list Z))
| CFeedback (r : result ReadError (Feedback * MessageInfo))
| CStatus (r : result ReadError (GoalStatusArray * MessageInfo))
| CSulked.

Definition with_phase (p : client_phase) (c : FibClient) : FibClient :=
  {| request_generator := request_generator c; phase := p |}.
Definition goal_arm (r : option (result unit (GoalId * SendGoalResponse))) (c : FibClient) :
    FibClient * list client_line :=
  match r with
  | None => (with_phase Idle c, [NoGoalResponse; GoalSendError])
  | Some (Err _) => (with_phase Idle c, [GoalSendError])
  | Some (Ok (g, goal_response)) =>
      (with_phase (if accepted goal_response then Following g else Sulking) c,
       [GoalResponse g (accepted goal_response)])
  end.
Definition status_line_of (g : GoalId) (r : result ReadError GoalStatusArray) : client_line :=
  match r with
  | Err e => StatusError e
  | Ok status =>
      match List.find (λ gs, (goal_id (gs_goal_info gs) =? g)%N) (status_list status) with
      | Some gs => StatusLine (gs_status gs)
      | None => StatusMissing (length (status_list status))
      end
  end.
(** A step; [None] is an event the loop does not wait for. *)
Definition client_step (ev : client_event) (c : FibClient) : option (FibClient * list client_line) :=
  match phase c, ev with
  | Idle, CStop => Some (with_phase Left c, [])
  | Idle, CTick =>
      let order := next_order (request_generator c) in
      Some ({| request_generator := order; phase := AwaitingGoal |}, [SendingGoal order])
  | AwaitingGoal, CGoal r => Some (goal_arm r c)
  | Following _, CStop => Some (with_phase Left c, [])
  | Following g, CGoalTimeout => Some (with_phase Idle c, [GoalTimeout g])
  | Following _, CResult r =>
      Some (with_phase Idle c,
            [match r with Ok (status, sequence) => ActionResult status sequence
                        | Err _ => ActionResultError end])
  | Following g, CFeedback r => Some (c, FeedbackLine <$> feedback_stream g [r])
  | Following g, CStatus r => Some (c, status_line_of g <$> all_statuses_stream [r])
  | Sulking, CSulked => Some (with_phase Idle c, [])
  | _, _ => None
  end.
Fixpoint client_run (evs : list client_event) (c : FibClient) : option (FibClient * list client_line) :=
  match evs with
  | [] => Some (c, [])
  | ev :: evs =>
      '(c, l) ← client_step ev c; '(c, l') ← client_run evs c; Some (c, l ++ l')
  end.

(** ** Lemmas *)
Definition sent_order (l : client_line) : option Z :=
  match l with SendingGoal order => Some order | _ => None end.
Lemma no_orders_in_streams g (f : list (result ReadError (list Z))) (s : list (result ReadError GoalStatusArray)) :
  omap sent_order (FeedbackLine <$> f) = [] ∧ omap sent_order (status_line_of g <$> s) = [].
Proof.
  split; [by induction f|]. induction s as [|[st|e] s IH]; simpl; [done| |done].
  by destruct (List.find _ _).
Qed.
(** The orders it sends follow one another by [next_order]; a new one is sent
    only when the previous goal was answered and its result, or a timeout, came. *)
Lemma client_step_orders ev c c' l :
  client_step ev c = Some (c', l) →
  (phase c = Idle ∧ ev = CTick ∧ request_generator c' = next_order (request_generator c) ∧
   omap sent_order l = [request_generator c']) ∨
  (request_generator c' = request_generator c ∧ omap sent_order l = []).
Proof.
  unfold client_step. destruct (phase c) eqn:Hp, ev; try done; intros Hs;
    try (injection Hs as <- <-; try by right).
  - by left.
  - right. unfold goal_arm in Hs. by destruct r as [[[g resp]|e]|]; injection Hs as <- <-.
  - right. by destruct r as [[st sq]|e].
  - right. split; [done|]. by apply (no_orders_in_streams g (feedback_stream g [r]) []).
  - right. split; [done|]. by apply (no_orders_in_streams g [] [fst <$> r]).
Qed.
Lemma client_run_orders evs c c' l :
  client_run evs c = Some (c', l) →
  omap sent_order l =
    (λ k, Nat.iter (S k) next_order (request_generator c)) <$> seq 0 (length (omap sent_order l)).
Proof.
  revert c l. induction evs as [|ev evs IH]; intros c l; simpl; [by intros [= <- <-]|].
  destruct (client_step ev c) as [[c1 l1]|] eqn:Es; simpl; [|done].
  destruct (client_run evs c1) as [[c2 l2]|] eqn:Er; simpl; [|done]. intros [= <- <-].
  apply IH in Er. rewrite omap_app. destruct (client_step_orders _ _ _ _ Es)
    as [(_ & _ & Hg & ->)|[Hg ->]]; rewrite Hg in *; [|done].
  cbn [app length seq fmap list_fmap]. f_equal. rewrite Er at 1. rewrite <-fmap_S_seq, <-list_fmap_compose.
  apply list_fmap_ext. intros _ k _. cbn [compose]. by rewrite <-(Nat.iter_succ_r (S k)).
Qed.
(** So every goal it sends is one the servers serve or reject: none makes them
    panic or run forever. *)
Lemma client_orders_good evs c l :
  client_run evs FibClient_new = Some (c, l) → Forall good_order (omap sent_order l).
Proof.
  intros H%client_run_orders. rewrite H. apply Forall_fmap, Forall_true.
  intros k. by destruct (client_orders k) as (_ & ? & _).
Qed.
(** While it follows a goal, the feedback it prints is of that goal, and so is
    the status. *)
Lemma client_feedback_own g r c :
  phase c = Following g →
  client_step (CFeedback r) c =
    Some (c, match r with
             | Err e => [FeedbackLine (Err e)]
             | Ok (m, _) => if (fb_goal_id m =? g)%N then [FeedbackLine (Ok (fb_feedback m))] else []
             end).
Proof.
  intros Hp. unfold client_step. rewrite Hp. unfold feedback_stream. destruct r as [[m i]|e]; simpl; [|done].
  by destruct (fb_goal_id m =? g)%N.
Qed.
(** A request to stop is not seen while it waits for a goal's response or sulks. *)
Lemma stop_waits c : phase c = AwaitingGoal ∨ phase c = Sulking → client_step CStop c = None.
Proof. unfold client_step. by intros [-> | ->]. Qed.
End client.
