(* ===== verification/TurtleUi.v ===== *)
(** * The user interface of the turtle example (examples/turtle_teleop/ui.rs)

    Key presses as events for the application, and what is displayed. Reading
    the terminal (crossterm) and drawing on it (ratatui) are third-party. *)
From S2P Require Import Prelude.

(** Floating-point numbers, by their literals and their [Display]. *)
Class Floats := {
  F64 : Type; F32 : Type;
  f64_lit : Z → F64; f32_lit : Z → F32;
  PI : F32;
  show_f64 : F64 → str; show_f32 : F32 → str;
}.

(** ** The messages of turtlesim (main.rs) *)
Section messages.
Context `{Floats}.
Record Vector3 := { v_x : F64; v_y : F64; v_z : F64 }.
Definition ZERO : Vector3 := {| v_x := f64_lit 0; v_y := f64_lit 0; v_z := f64_lit 0 |}.
Record Twist := { linear : Vector3; angular : Vector3 }.
Record Pose := { p_x : F32; p_y : F32; theta : F32; linear_velocity : F32; angular_velocity : F32 }.
(** [Default]. *)
Definition Twist_default : Twist := {| linear := ZERO; angular := ZERO |}.
Definition Pose_default : Pose :=
  {| p_x := f32_lit 0; p_y := f32_lit 0; theta := f32_lit 0; linear_velocity := f32_lit 0;
     angular_velocity := f32_lit 0 |}.
End messages.
Record PenRequest := { pen_r : N; pen_g : N; pen_b : N; pen_width : N; pen_off : N }.
#[export] Instance PenRequest_inhabited : Inhabited PenRequest :=
  populate {| pen_r := 0; pen_g := 0; pen_b := 0; pen_width := 0; pen_off := 0 |}.
#[export] Instance PenRequest_eq_dec : EqDecision PenRequest.
Proof. solve_decision. Defined.

(** ** Key presses *)
(** crossterm's events: a key press has a code and modifiers. *)
Inductive KeyCode := Char (c : char) | Up | Down | Left | Right | OtherKey.
#[export] Instance KeyCode_eq_dec : EqDecision KeyCode.
Proof. solve_decision. Defined.
Class Crossterm := {
  TermEvent : Type;
  KeyModifiers : Type;
  KeyModifiers_eq_dec :: EqDecision KeyModifiers;
  CONTROL : KeyModifiers;
  as_key_press_event : TermEvent → option (KeyCode * KeyModifiers);
}.

Section ui.
Context `{Floats, Crossterm}.

Inductive Event :=
| StopEventLoop
| ChooseTurtle (id : Z)
| TurtleCmdVel (twist : Twist)
| Reset
| SetPen (pen : PenRequest)
| Spawn (name : str)
| Kill (name : str)
| RotateAbsolute (heading : F32)
| CancelRotateAbsolute.

Definition MOVE_FORWARD : Twist :=
  {| linear := {| v_x := f64_lit 2; v_y := v_y ZERO; v_z := v_z ZERO |}; angular := ZERO |}.
Definition MOVE_BACKWARD : Twist :=
  {| linear := {| v_x := f64_lit (-2); v_y := v_y ZERO; v_z := v_z ZERO |}; angular := ZERO |}.
Definition ROTATE_LEFT : Twist :=
  {| linear := ZERO; angular := {| v_x := v_x ZERO; v_y := v_y ZERO; v_z := f64_lit 2 |} |}.
Definition ROTATE_RIGHT : Twist :=
  {| linear := ZERO; angular := {| v_x := v_x ZERO; v_y := v_y ZERO; v_z := f64_lit (-2) |} |}.
Definition PEN_REQUESTS : list PenRequest :=
  [ {| pen_r := 255; pen_b := 0; pen_g := 0; pen_width := 3; pen_off := 0 |};
    {| pen_r := 255; pen_b := 0; pen_g := 200; pen_width := 5; pen_off := 0 |};
    {| pen_r := 250; pen_b := 250; pen_g := 250; pen_width := 2; pen_off := 1 |};
    {| pen_r := 0; pen_b := 0; pen_g := 250; pen_width := 1; pen_off := 0 |};
    {| pen_r := 0; pen_b := 0; pen_g := 0; pen_width := 1; pen_off := 0 |} ].

(** The event of a terminal event and the next pen; [None] is the panic of an
    index out of range. *)
Definition key (c : string) : option char := head (lit c).
Definition is_char (code : KeyCode) (c : string) : bool :=
  match code with Char x => bool_decide (key c = Some x) | _ => false end.
Definition into_event (event : TermEvent) (pen_index : nat) : option (option Event * nat) :=
  match as_key_press_event event with
  | None => Some (None, pen_index)
  | Some (code, modifiers) =>
      if is_char code "q" then Some (Some StopEventLoop, pen_index)
      else if is_char code "c" && bool_decide (modifiers = CONTROL) then Some (Some StopEventLoop, pen_index)
      else if is_char code "r" then Some (Some Reset, pen_index)
      else if is_char code "p" then
        pen ← PEN_REQUESTS !! pen_index;
        Some (Some (SetPen pen), (pen_index + 1) mod length PEN_REQUESTS)
      else if is_char code "a" || is_char code "b" then
        Some (Some (Spawn (if is_char code "a" then lit "turtle1" else lit "turtle2")), pen_index)
      else if is_char code "A" || is_char code "B" then
        Some (Some (Kill (if is_char code "A" then lit "turtle1" else lit "turtle2")), pen_index)
      else if is_char code "1" then Some (Some (ChooseTurtle 1), pen_index)
      else if is_char code "2" then Some (Some (ChooseTurtle 2), pen_index)
      else if is_char code "d" then Some (Some (RotateAbsolute PI), pen_index)
      else if is_char code "g" then Some (Some (RotateAbsolute (f32_lit 0)), pen_index)
      else if is_char code "f" then Some (Some CancelRotateAbsolute, pen_index)
      else match code with
           | Up => Some (Some (TurtleCmdVel MOVE_FORWARD), pen_index)
           | Down => Some (Some (TurtleCmdVel MOVE_BACKWARD), pen_index)
           | Right => Some (Some (TurtleCmdVel ROTATE_RIGHT), pen_index)
           | Left => Some (Some (TurtleCmdVel ROTATE_LEFT), pen_index)
           | _ => Some (None, pen_index)
           end
  end.
(** [events]: the stream, on what the terminal's stream yields. *)
Fixpoint events_from {E} (pen_index : nat) (input : list (result E TermEvent)) : option (list (result E Event)) :=
  match input with
  | [] => Some []
  | Err e :: input => rest ← events_from pen_index input; Some (Err e :: rest)
  | Ok event :: input =>
      '(event, pen_index) ← into_event event pen_index;
      rest ← events_from pen_index input;
      Some (match event with Some event => Ok event :: rest | None => rest end)
  end.
Definition events {E} (input : list (result E TermEvent)) : option (list (result E Event)) :=
  events_from 0 input.

(** ** The display *)
Definition MESSAGES_MAX_LEN : nat := 20.
Record Display := { cmd_vel : Twist; pose : Pose; messages : list str }.
Definition Display_default : Display :=
  {| cmd_vel := Twist_default; pose := Pose_default; messages := [] |}.
Definition set_cmd_vel (twist : Twist) (d : Display) : Display :=
  {| cmd_vel := twist; pose := pose d; messages := messages d |}.
Definition set_pose (p : Pose) (d : Display) : Display :=
  {| cmd_vel := cmd_vel d; pose := p; messages := messages d |}.
Definition add_message (msg : str) (d : Display) : Display :=
  {| cmd_vel := cmd_vel d; pose := pose d; messages := take MESSAGES_MAX_LEN (msg :: messages d) |}.

(** What [render] hands to ratatui: text in styles, in the regions of its
    layout. *)
Inductive style := Plain | Bold | BlueBold.
Abbreviation line := (list (str * style)) (only parsing).
Inductive region := TopLeft | TopRight | Bottom | Frame.
Inductive widget :=
| Paragraph (title : str) (lines : list line)
| MessageList (title : str) (items : list str)
| MainBlock (title : line) (title_bottom : line).
Definition text (s : string) : str * style := (lit s, Plain).
Definition bold (s : string) : str * style := (lit s, Bold).
Definition vector_lines (v : Vector3) : list line :=
  [[text "   - "; bold "x: "; (show_f64 (v_x v), Plain)];
   [text "   - "; bold "y: "; (show_f64 (v_y v), Plain)];
   [text "   - "; bold "z: "; (show_f64 (v_z v), Plain)]].
Definition pose_line (name : string) (x : F32) : line := [text " - "; bold name; (show_f32 x, Plain)].
Definition status_lines (d : Display) : list line :=
  [bold "cmd_vel: "] :: [text " - "; bold "linear: "] :: vector_lines (linear (cmd_vel d)) ++
  [text " - "; bold "angular: "] :: vector_lines (angular (cmd_vel d)) ++
  [[]; [bold "pose: "]; pose_line "x: " (p_x (pose d)); pose_line "y: " (p_y (pose d));
   pose_line "theta: " (theta (pose d)); pose_line "linear velocity: " (linear_velocity (pose d));
   pose_line "angular velocity: " (angular_velocity (pose d))].
Definition INSTRUCTIONS : list (string * string) :=
  [("a", "Spawn 1"); ("A", "Kill 1"); ("b", "Spawn 2"); ("B", "Kill 2"); ("1", "Control Turtle 1");
   ("2", "Control Turtle 2"); ("d", "Rotate West "); ("g", "Rotate East"); ("f", "Cancel Rotate");
   ("Up", "Move Forward"); ("Down", "Move Backward"); ("Left", "Move Left "); ("Right", "Move Right");
   ("p", "Set pen"); ("r", "Reset")]%string.
Definition instruction_line (i : string * string) : line :=
  [(lit "<" ++ lit i.1 ++ lit ">: ", BlueBold); (lit i.2, Plain)].
Definition render (d : Display) : list (region * widget) :=
  [(TopLeft, Paragraph (lit "Turtle 1") (status_lines d));
   (TopRight, Paragraph (lit "Instructions") (instruction_line <$> INSTRUCTIONS));
   (Bottom, MessageList (lit "Messages") (messages d));
   (Frame, MainBlock [bold " Turle Teleop "] [text " Quit "; (lit "<q> / <Ctrl-C> ", BlueBold)])].

(** ** Lemmas *)

Definition key_named (name : string) : option KeyCode :=
  if bool_decide (name = "Up"%string) then Some Up
  else if bool_decide (name = "Down"%string) then Some Down
  else if bool_decide (name = "Left"%string) then Some Left
  else if bool_decide (name = "Right"%string) then Some Right
  else Char <$> key name.
(** The keys the display tells of. *)
Definition documented (code : KeyCode) (modifiers : KeyModifiers) : Prop :=
  Some code ∈ key_named <$> INSTRUCTIONS.*1 ∨ code = Char 113 ∨ (code = Char 99 ∧ modifiers = CONTROL).
Lemma is_char_spec c s : is_char (Char c) s = true ↔ key s = Some c.
Proof. apply bool_decide_eq_true. Qed.
Definition used_chars : list char := [113; 99; 114; 112; 97; 98; 65; 66; 49; 50; 100; 103; 102]%N.
Lemma unused_char c s : c ∉ used_chars → (∃ x, key s = Some x ∧ x ∈ used_chars) → is_char (Char c) s = false.
Proof.
  intros Hc (x & Hx & Hin). apply bool_decide_eq_false. rewrite Hx. intros [= ->]. done.
Qed.
Lemma used_documented c modifiers :
  c ∈ used_chars → c ≠ 99%N → documented (Char c) modifiers.
Proof.
  unfold used_chars. intros Hin Hc.
  repeat (apply elem_of_cons in Hin as [->|Hin]; [try done|]); [..|by apply not_elem_of_nil in Hin];
    try (right; left; reflexivity); left; by apply (bool_decide_eq_true_1 _).
Qed.
Lemma documented_used c modifiers : documented (Char c) modifiers → c ∈ used_chars.
Proof.
  intros [Hin|[[= ->]|[[= ->] _]]]; [|set_solver..]. simpl in Hin. unfold used_chars.
  repeat (apply elem_of_cons in Hin as [Hin|Hin]; [first [discriminate Hin|injection Hin as ->; set_solver]|]).
  by apply not_elem_of_nil in Hin.
Qed.
Lemma into_event_unused event pen_index c modifiers :
  as_key_press_event event = Some (Char c, modifiers) → c ∉ used_chars →
  into_event event pen_index = Some (None, pen_index).
Proof.
  intros Hev Hc. unfold into_event. rewrite Hev.
  rewrite !(unused_char c) by (done || (eexists; split; [reflexivity|set_solver])). done.
Qed.
(** A key press is an event exactly when the display documents the key, and the
    next pen is always one of the list. *)
Lemma into_event_documented event pen_index code modifiers :
  as_key_press_event event = Some (code, modifiers) → pen_index < 5 →
  ∃ o pen_index', into_event event pen_index = Some (o, pen_index') ∧ pen_index' < 5 ∧
    (is_Some o ↔ documented code modifiers).
Proof.
  intros Hev Hp. destruct code as [c| | | | |].
  - destruct (decide (c ∈ used_chars)) as [Hc|Hc].
    2: { exists None, pen_index. rewrite (into_event_unused _ _ c modifiers) by done.
         split; [done|]. split; [done|]. split; [by intros []|]. by intros ?%documented_used. }
    destruct (decide (c = 99%N)) as [->|Hne].
    { assert (into_event event pen_index =
        Some (if bool_decide (modifiers = CONTROL) then Some StopEventLoop else None, pen_index)) as He.
      { unfold into_event. rewrite Hev. by destruct (bool_decide (modifiers = CONTROL)). }
      eexists _, _. split; [exact He|]. split; [done|]. case_bool_decide as Hm; split; try by eexists.
      - intros _. by right; right.
      - by intros [].
      - intros [Hin|[?|[_ ?]]]; [|done..]. exfalso.
        assert (Some (Char 99) ∉ key_named <$> INSTRUCTIONS.*1) as Hno by (by apply (bool_decide_eq_true_1 _)). done. }
    pose proof (used_documented c modifiers Hc Hne) as Hdoc.
    assert (∃ e pen', into_event event pen_index = Some (Some e, pen') ∧ pen' < 5) as (e & pen' & He & Hp').
    { unfold into_event. rewrite Hev. unfold used_chars in Hc.
      repeat (apply elem_of_cons in Hc as [->|Hc]; [|]); [..|by apply not_elem_of_nil in Hc]; try done;
        cbn; try (eexists _, _; split; [reflexivity|lia]).
      destruct pen_index as [|[|[|[|[|]]]]]; try lia; eexists _, _; (split; [reflexivity|cbn; lia]). }
    exists (Some e), pen'. split; [done|]. split; [done|]. split; [done|by eexists].
  - unfold into_event. rewrite Hev. cbn -[documented]. eexists _, _. split; [done|]. split; [done|].
    split; [intros _; left; by apply (bool_decide_eq_true_1 _)|by eexists].
  - unfold into_event. rewrite Hev. cbn -[documented]. eexists _, _. split; [done|]. split; [done|].
    split; [intros _; left; by apply (bool_decide_eq_true_1 _)|by eexists].
  - unfold into_event. rewrite Hev. cbn -[documented]. eexists _, _. split; [done|]. split; [done|].
    split; [intros _; left; by apply (bool_decide_eq_true_1 _)|by eexists].
  - unfold into_event. rewrite Hev. cbn -[documented]. eexists _, _. split; [done|]. split; [done|].
    split; [intros _; left; by apply (bool_decide_eq_true_1 _)|by eexists].
  - unfold into_event. rewrite Hev. cbn -[documented]. exists None, pen_index. split; [done|]. split; [done|].
    split; [by intros []|]. intros [Hin|[?|[? _]]]; [|done..]. exfalso.
    assert (Some OtherKey ∉ key_named <$> INSTRUCTIONS.*1) as Hno by (by apply (bool_decide_eq_true_1 _)). done.
Qed.

Definition pen_of {E} (r : result E Event) : option PenRequest :=
  match r with Ok (SetPen pen) => Some pen | _ => None end.
Lemma into_event_pen event pen_index :
  pen_index < 5 → ∃ o pen_index', into_event event pen_index = Some (o, pen_index') ∧
    (o = SetPen <$> PEN_REQUESTS !! pen_index ∧ pen_index' = (pen_index + 1) mod 5 ∨
     (∀ pen, o ≠ Some (SetPen pen)) ∧ pen_index' = pen_index).
Proof.
  intros Hp. destruct (lookup_lt_is_Some_2 PEN_REQUESTS pen_index Hp) as [pen Hpen].
  unfold into_event. destruct (as_key_press_event event) as [[code modifiers]|].
  2: { exists None, pen_index. split; [done|]. by right. }
  repeat match goal with
    | |- context [if is_char code "p" then _ else _] =>
        destruct (is_char code "p");
        [rewrite Hpen; cbn; eexists _, _; split; [reflexivity|]; by left|]
    | |- context [if ?b then Some (Some ?e, _) else _] =>
        destruct b; [eexists _, _; split; [reflexivity|]; by right|]
    end.
  destruct code; eexists _, _; (split; [reflexivity|]); by right.
Qed.
(** The stream never panics, and the pens come round in their order. *)
Lemma events_spec {E} (input : list (result E TermEvent)) :
  ∃ out, events input = Some out ∧
    omap pen_of out = (λ k, PEN_REQUESTS !!! (k mod 5)) <$> seq 0 (length (omap pen_of out)).
Proof.
  assert (∀ p, ∃ out, events_from (p mod 5) input = Some out ∧
    omap pen_of out = (λ k, PEN_REQUESTS !!! (k mod 5)) <$> seq p (length (omap pen_of out))) as Hall.
  { induction input as [|[ev|e] input IH]; intros p; cbn [events_from].
    - by exists [].
    - assert (p mod 5 < 5) as Hp by (by apply Nat.mod_upper_bound).
      destruct (into_event_pen ev (p mod 5) Hp) as (o & p' & He & [[Ho ->]|[Ho ->]]); rewrite He; cbn [mbind option_bind].
      + destruct (lookup_lt_is_Some_2 PEN_REQUESTS (p mod 5) Hp) as [pen Hpen].
        rewrite Nat.Div0.add_mod_idemp_l, Nat.add_1_r. destruct (IH (S p)) as (out & -> & Hout).
        rewrite Ho, Hpen. eexists. split; [reflexivity|].
        cbn [fmap option_fmap option_map].
        change (omap pen_of (Ok (SetPen pen) :: out)) with (pen :: omap pen_of out).
        cbn [length seq]. rewrite fmap_cons, <-Hout. f_equal.
        symmetry. by apply list_lookup_total_correct.
      + destruct (IH p) as (out & -> & Hout). cbn [mbind option_bind]. eexists. split; [reflexivity|].
        destruct o as [[]|]; try exact Hout. by destruct (Ho pen).
    - destruct (IH p) as (out & -> & Hout). eexists. split; [reflexivity|]. exact Hout. }
  exact (Hall 0).
Qed.
End ui.
