(* ===== verification/TurtleTeleop.v ===== *)
(** * The turtle example (examples/turtle_teleop/main.rs)

    The main loop and the tasks it spawns for the requests of the user, as one
    state; a step handles an event of the main loop, or takes a task from one of
    its awaits to the next. The clients, publishers and the action client are
    those of the library: here, what is asked of them and what they answer. *)
From S2P Require Import Prelude ActionServer TurtleUi.

(** What the application says, before it is formatted. *)
Inductive UiMessage {F : Type} :=
| ResetSent
| PenSet (pen : PenRequest)
| TurtleKilled (name : str)
| GoalWasAccepted (goal_id : GoalId)
| CancelReturned (return_code : CancelGoalResponseEnum)
| RotateTerminated (status : GoalStatusEnum) (delta : F).
Arguments UiMessage : clear implicits.

Section teleop.
Context `{Floats, Crossterm}.
(** [format!] with the [Debug] of what the messages tell. *)
Context (format : UiMessage F32 → str).

(** What is asked of the node's clients and publishers. *)
Record SpawnRequest := { sp_x : F32; sp_y : F32; sp_theta : F32; sp_name : str }.
Inductive request :=
| PublishCmdVel (turtle : nat) (twist : Twist)
| CallReset
| CallSetPen (pen : PenRequest)
| CallSpawn (req : SpawnRequest)
| CallKill (name : str)
| SendGoal (theta : F32)
| RequestResult (goal_id : GoalId)
| CancelGoal (goal_id : GoalId)
| RosoutInfo (msg : str).

(** A future of a [Requester]'s method, by the await it is at; [Say] sends a
    message to the main loop and returns. *)
Inductive task :=
| PublishTwist (twist : Twist) | AwaitWrite
| ResetTask | AwaitReset
| PenTask (pen : PenRequest) | AwaitPen (pen : PenRequest)
| SpawnTask (name : str) | AwaitSpawn
| KillTask (name : str) | AwaitKill (name : str)
| RotateTask (heading : F32) | AwaitGoal
| SayAccepted (goal_id : GoalId)
| Rotating (goal_id : GoalId) (cancel_receiver : nat)
| AwaitCancel (goal_id : GoalId)
| Say (msg : str)
| Done.
(** What an await returns: [None] for an error. *)
Inductive outcome :=
| First
| Written (ok : bool)
| Replied (ok : bool)
| GoalReplied (r : option (GoalId * bool))
| Sent
| CancelReceived
| ResultReplied (r : option (GoalStatusEnum * F32))
| CancelReplied (r : option CancelGoalResponseEnum).

(** The oneshot channels are numbered as they are made; [cancel_rotate] is the
    sender that is kept, [fired] are the channels that were sent to. *)
Record App := {
  turtle_id : Z;
  cancel_rotate : option nat;
  channels : nat;
  fired : list nat;
  queue : list str;
  display : Display;
  tasks : list task;
  requests : list request;
  running : bool;
  said : list str; (* everything ever sent to the main loop *)
}.
Definition App_new : App :=
  {| turtle_id := 1; cancel_rotate := None; channels := 0; fired := []; queue := [];
     display := Display_default; tasks := []; requests := [RosoutInfo (lit "initialized, entering event loop")];
     running := true; said := [] |}.
(** [channel::bounded(16)]. *)
Definition QUEUE_LEN : nat := 16.

Definition with_tasks (ts : list task) (a : App) : App :=
  {| turtle_id := turtle_id a; cancel_rotate := cancel_rotate a; channels := channels a; fired := fired a;
     queue := queue a; display := display a; tasks := ts; requests := requests a; running := running a;
     said := said a |}.
Definition with_display (q : list str) (d : Display) (a : App) : App :=
  {| turtle_id := turtle_id a; cancel_rotate := cancel_rotate a; channels := channels a; fired := fired a;
     queue := q; display := d; tasks := tasks a; requests := requests a; running := running a; said := said a |}.
Definition request_ (r : request) (a : App) : App :=
  {| turtle_id := turtle_id a; cancel_rotate := cancel_rotate a; channels := channels a; fired := fired a;
     queue := queue a; display := display a; tasks := tasks a; requests := requests a ++ [r];
     running := running a; said := said a |}.
(** [messages_sender.send(msg).await], when it returns. *)
Definition send (msg : str) (a : App) : option App :=
  if length (queue a) <? QUEUE_LEN then
    Some {| turtle_id := turtle_id a; cancel_rotate := cancel_rotate a; channels := channels a;
            fired := fired a; queue := queue a ++ [msg]; display := display a; tasks := tasks a;
            requests := requests a; running := running a; said := said a ++ [msg] |}
  else None.
(** [oneshot::channel()], its sender into [cancel_rotate]. *)
Definition new_cancel (a : App) : App * nat :=
  ({| turtle_id := turtle_id a; cancel_rotate := Some (channels a); channels := S (channels a);
      fired := fired a; queue := queue a; display := display a; tasks := tasks a; requests := requests a;
      running := running a; said := said a |}, channels a).

(** ** [Requester] *)
(** [publish_turtle_cmd_vel]: the turtle is the one controlled when the task
    first runs. *)
Definition publish_turtle_cmd_vel (twist : Twist) (a : App) : App * task :=
  if (turtle_id a =? 1)%Z then (request_ (PublishCmdVel 1 twist) a, AwaitWrite)
  else if (turtle_id a =? 2)%Z then (request_ (PublishCmdVel 2 twist) a, AwaitWrite)
  else (a, Done).
Definition spawn_request (name : str) : SpawnRequest :=
  {| sp_x := f32_lit 1; sp_y := f32_lit 1; sp_theta := f32_lit 0; sp_name := name |}.
(** [rotate_absolute], once the goal is accepted and that is said: the select of
    the cancel channel and the result. *)
Definition start_rotating (goal_id : GoalId) (a : App) : App * task :=
  let '(a, cancel_receiver) := new_cancel a in
  (request_ (RequestResult goal_id) a, Rotating goal_id cancel_receiver).
(** One task, from an await to the next. *)
Definition resume (o : outcome) (k : task) (a : App) : option (App * task) :=
  match k, o with
  | PublishTwist twist, First => Some (publish_turtle_cmd_vel twist a)
  | AwaitWrite, Written _ => Some (a, Done)
  | ResetTask, First => Some (request_ CallReset a, AwaitReset)
  | AwaitReset, Replied true =>
      Some (request_ (RosoutInfo (lit "Requested turtlesim reset")) a, Say (format ResetSent))
  | PenTask pen, First => Some (request_ (CallSetPen pen) a, AwaitPen pen)
  | AwaitPen pen, Replied true => Some (a, Say (format (PenSet pen)))
  | SpawnTask name, First => Some (request_ (CallSpawn (spawn_request name)) a, AwaitSpawn)
  | KillTask name, First => Some (request_ (CallKill name) a, AwaitKill name)
  | AwaitKill name, Replied true => Some (a, Say (format (TurtleKilled name)))
  | AwaitSpawn, Replied _ | AwaitReset, Replied false | AwaitPen _, Replied false
  | AwaitKill _, Replied false => Some (a, Done)
  | RotateTask heading, First => Some (request_ (SendGoal heading) a, AwaitGoal)
  | AwaitGoal, GoalReplied (Some (goal_id, true)) =>
      Some (request_ (RosoutInfo (format (GoalWasAccepted goal_id))) a, SayAccepted goal_id)
  | AwaitGoal, GoalReplied _ => Some (a, Done)
  | SayAccepted goal_id, Sent =>
      a ← send (format (GoalWasAccepted goal_id)) a; Some (start_rotating goal_id a)
  | Rotating goal_id cancel_receiver, CancelReceived =>
      if bool_decide (cancel_receiver ∈ fired a)
      then Some (request_ (CancelGoal goal_id) a, AwaitCancel goal_id) else None
  | Rotating _ _, ResultReplied (Some (status, delta)) =>
      Some (a, Say (format (RotateTerminated status delta)))
  | Rotating _ _, ResultReplied None => Some (a, Done)
  | AwaitCancel _, CancelReplied (Some return_code) => Some (a, Say (format (CancelReturned return_code)))
  | AwaitCancel _, CancelReplied None => Some (a, Done)
  | Say msg, Sent => a ← send msg a; Some (a, Done)
  | _, _ => None
  end.
Definition cancel_rotate_absolute (a : App) : App :=
  match cancel_rotate a with
  | Some c =>
      {| turtle_id := turtle_id a; cancel_rotate := None; channels := channels a; fired := c :: fired a;
         queue := queue a; display := display a; tasks := tasks a; requests := requests a;
         running := running a; said := said a |}
  | None => a
  end.
Definition set_controlled_turtle_id (id : Z) (a : App) : App :=
  {| turtle_id := id; cancel_rotate := cancel_rotate a; channels := channels a; fired := fired a;
     queue := queue a; display := display a; tasks := tasks a; requests := requests a; running := running a;
     said := said a |}.
Definition stop (a : App) : App :=
  {| turtle_id := turtle_id a; cancel_rotate := cancel_rotate a; channels := channels a; fired := fired a;
     queue := queue a; display := display a; tasks := tasks a; requests := requests a; running := false;
     said := said a |}.

(** ** The main loop *)
Definition spawn (k : task) (a : App) : App := with_tasks (tasks a ++ [k]) a.
Definition handle_event (event : Event) (a : App) : App :=
  match event with
  | StopEventLoop => stop a
  | TurtleCmdVel twist => spawn (PublishTwist twist) a
  | Reset => spawn ResetTask a
  | SetPen pen_request => spawn (PenTask pen_request) a
  | Spawn name => spawn (SpawnTask name) a
  | Kill name => spawn (KillTask name) a
  | RotateAbsolute heading => spawn (RotateTask heading) a
  | CancelRotateAbsolute => cancel_rotate_absolute a
  | ChooseTurtle id => set_controlled_turtle_id id a
  end.
Inductive app_event :=
| UiEvent (event : Event)
| ReceiveMessage
| TakeCmdVel (twist : Twist)
| TakePose (p : Pose)
| Poll (i : nat) (o : outcome).
Definition app_step (ev : app_event) (a : App) : option App :=
  if negb (running a) then None else
  match ev with
  | UiEvent event => Some (handle_event event a)
  | ReceiveMessage =>
      match queue a with
      | msg :: q => Some (with_display q (add_message msg (display a)) a)
      | [] => None
      end
  | TakeCmdVel twist => Some (with_display (queue a) (set_cmd_vel twist (display a)) a)
  | TakePose p => Some (with_display (queue a) (set_pose p (display a)) a)
  | Poll i o =>
      k ← tasks a !! i;
      '(a, k) ← resume o k a;
      Some (with_tasks (<[i := k]> (tasks a)) a)
  end.
Fixpoint run (evs : list app_event) (a : App) : option App :=
  match evs with [] => Some a | ev :: evs => a ← app_step ev a; run evs a end.
End teleop.

(** ** Lemmas *)
Section proofs.
Context `{Floats, Crossterm}.
Context (format : UiMessage F32 → str).
Implicit Types (a : App) (k : task).

Definition with_requests (rs : list request) a : App :=
  {| turtle_id := turtle_id a; cancel_rotate := cancel_rotate a; channels := channels a; fired := fired a;
     queue := queue a; display := display a; tasks := tasks a; requests := rs; running := running a;
     said := said a |}.
Lemma with_requests_same a : a = with_requests (requests a) a.
Proof. by destruct a. Qed.
(** The channel a task waits at. *)
Definition chan_of k : option nat := match k with Rotating _ c => Some c | _ => None end.
(** A task asks something, or says something, and then may start to rotate. *)
Lemma resume_inv o k a a' k' :
  resume format o k a = Some (a', k') →
  (∃ rs, a' = with_requests rs a) ∧ chan_of k' = None ∨
  chan_of k = None ∧ ∃ msg a1, send msg a = Some a1 ∧ (a' = a1 ∧ k' = Done ∨ ∃ g, start_rotating g a1 = (a', k')).
Proof.
  intros Hr. destruct k, o; simpl in Hr; try discriminate Hr;
    repeat case_match; simplify_eq/=;
    try (left; split; [|done]; eexists; first [apply with_requests_same | reflexivity]).
  - unfold publish_turtle_cmd_vel in *. left. repeat case_match; simplify_eq/=;
      (split; [|done]); eexists; first [apply with_requests_same | reflexivity].
  - destruct (send _ a) as [a1|] eqn:Hs; simplify_eq/=. right. split; [done|]. eexists _, a1. eauto.
  - destruct (send _ a) as [a1|] eqn:Hs; simplify_eq/=. right. split; [done|]. eexists _, _. eauto.
Qed.

Record app_inv a : Prop := {
  chans_distinct : NoDup (omap chan_of (tasks a));
  chans_made c : c ∈ omap chan_of (tasks a) → c < channels a;
  fired_made c : c ∈ fired a → c < channels a;
  kept_newest c : cancel_rotate a = Some c → S c = channels a ∧ c ∉ fired a;
  queue_bound : length (queue a) ≤ QUEUE_LEN;
  messages_shown : ∃ n, n ≤ length (said a) ∧ queue a = drop n (said a) ∧
    messages (display a) = take MESSAGES_MAX_LEN (reverse (take n (said a)));
}.
Lemma app_inv_new : app_inv App_new.
Proof.
  split; simpl; try done; try (by intros ? ?%not_elem_of_nil); [constructor|lia|].
  by exists 0.
Qed.
Lemma app_inv_spawn k a : chan_of k = None → app_inv a → app_inv (spawn k a).
Proof.
  intros Hk [? ? ? ? ? ?].
  assert (omap chan_of (tasks a ++ [k]) = omap chan_of (tasks a)) as Ht.
  { rewrite omap_app. simpl. rewrite Hk. apply app_nil_r. }
  split; simpl; rewrite ?Ht; done.
Qed.
Lemma app_inv_event event a : app_inv a → app_inv (handle_event event a).
Proof.
  intros Ha. destruct event; simpl; try (by apply app_inv_spawn).
  - by destruct Ha.
  - by destruct Ha.
  - unfold cancel_rotate_absolute. destruct (cancel_rotate a) as [c|] eqn:Hc; [|done].
    destruct Ha as [? ? Hf Hk ? ?]. split; simpl; try done.
    intros c' [->|Hin]%elem_of_cons; [|by apply Hf]. destruct (Hk _ Hc). lia.
Qed.
Lemma app_inv_message msg q a :
  app_inv a → queue a = msg :: q → app_inv (with_display q (add_message msg (display a)) a).
Proof.
  intros [? ? ? ? Hq (n & Hn & Hd & Hm)] Hqueue. split; simpl; try done.
  - rewrite Hqueue in Hq. simpl in Hq. lia.
  - assert (said a !! n = Some msg) as Hsn.
    { rewrite <-(Nat.add_0_r n), <-lookup_drop, <-Hd, Hqueue. done. }
    exists (S n). split; [by apply lookup_lt_Some in Hsn|]. split.
    + pose proof (drop_S _ _ _ Hsn) as E. rewrite <-Hd, Hqueue in E. by simplify_eq.
    + rewrite (take_S_r _ _ _ Hsn), reverse_snoc, Hm. unfold MESSAGES_MAX_LEN.
      cbn [take]. by rewrite take_take.
Qed.
Lemma send_inv msg a a1 :
  send msg a = Some a1 → app_inv a → app_inv a1 ∧ tasks a1 = tasks a ∧ channels a1 = channels a ∧
    fired a1 = fired a ∧ cancel_rotate a1 = cancel_rotate a.
Proof.
  unfold send. destruct (Nat.ltb_spec (length (queue a)) QUEUE_LEN) as [Hlt|]; [|done].
  intros [= <-] [? ? ? ? Hq (n & Hn & Hd & Hm)]. split; [|done]. split; simpl; try done.
  - rewrite length_app. simpl. lia.
  - exists n. rewrite length_app, drop_app_le, take_app_le by done. split; [lia|]. by rewrite Hd.
Qed.
Lemma app_inv_poll i o a a' : app_inv a → app_step format (Poll i o) a = Some a' → app_inv a'.
Proof.
  intros Ha. unfold app_step. destruct (negb (running a)); [done|].
  destruct (tasks a !! i) as [k|] eqn:Hk; [|done]. cbn [mbind option_bind].
  destruct (resume format o k a) as [[a1 k']|] eqn:Hr; [|done]. intros [= <-].
  assert (∀ a2, app_inv a2 → tasks a2 = tasks a → chan_of k' = None → app_inv (with_tasks (<[i := k']> (tasks a2)) a2)) as Hplain.
  { intros a2 [Hd Hc ? ? ? ?] Ht Hk'. rewrite Ht in *.
    assert (omap chan_of (<[i := k']> (tasks a)) `sublist_of` omap chan_of (tasks a)) as Hsub
      by (by eapply omap_delete_sublist).
    split; simpl; try done; [by eapply sublist_NoDup|]. intros c Hin. apply Hc.
    by eapply elem_of_sublist. }
  destruct (resume_inv _ _ _ _ _ Hr) as [[[rs ->] Hk']|(Hkc & msg & a2 & Hs & Hcase)].
  - apply Hplain; [|done|done]. by destruct Ha.
  - destruct (send_inv _ _ _ Hs Ha) as (Ha2 & Ht & Hch & Hf & Hcr).
    destruct Hcase as [[-> ->]|[g Hg]]; [by apply Hplain|].
    unfold start_rotating, new_cancel in Hg. simplify_eq/=.
    destruct Ha2 as [Hd Hc Hfm Hkn Hq Hm].
    assert (omap chan_of (<[i := Rotating g (channels a2)]> (tasks a2)) ≡ₚ omap chan_of (tasks a2) ++ [channels a2])
      as Hp by (apply (omap_insert_new _ _ _ k); [by rewrite Ht|done|done]).
    split; simpl; try done.
    + rewrite Hp. apply NoDup_app. split; [done|]. split; [|apply NoDup_singleton].
      intros c Hin ->%list_elem_of_singleton. apply Hc in Hin. lia.
    + intros c. rewrite Hp, elem_of_app, list_elem_of_singleton. intros [?%Hc| ->]; lia.
    + intros c ?%Hfm. lia.
    + intros c [= <-]. split; [done|]. intros ?%Hfm. lia.
Qed.
Lemma app_inv_step ev a a' : app_inv a → app_step format ev a = Some a' → app_inv a'.
Proof.
  intros Ha. destruct ev as [event| |twist|p|i o]; [..|by apply app_inv_poll];
    unfold app_step; destruct (negb (running a)); try done.
  - intros [= <-]. by apply app_inv_event.
  - destruct (queue a) as [|msg q] eqn:Hq; [done|]. intros [= <-]. by apply app_inv_message.
  - intros [= <-]. by destruct Ha.
  - intros [= <-]. by destruct Ha.
Qed.
Lemma app_inv_run evs a a' : app_inv a → run format evs a = Some a' → app_inv a'.
Proof.
  revert a. induction evs as [|ev evs IH]; intros a Ha; simpl; [by intros [= <-]|].
  destruct (app_step format ev a) as [a1|] eqn:E; [|done]. apply IH. by eapply app_inv_step.
Qed.

(** *** Rotations that can no longer be canceled *)
Lemma resume_fields o k a a' k' :
  resume format o k a = Some (a', k') →
  tasks a' = tasks a ∧ fired a' = fired a ∧ channels a ≤ channels a' ∧
  (cancel_rotate a' = cancel_rotate a ∨ cancel_rotate a' = Some (channels a)).
Proof.
  intros [[[rs ->] _]|(_ & msg & a1 & Hs & Hcase)]%resume_inv; [by split_and!; auto|].
  unfold send in Hs. destruct (_ <? _); [|done]. injection Hs as <-.
  destruct Hcase as [[-> _]|[g Hg]]; [by split_and!; auto|].
  unfold start_rotating, new_cancel in Hg. simplify_eq/=. split_and!; auto.
Qed.
Definition lost (c : nat) a : Prop := c < channels a ∧ c ∉ fired a ∧ cancel_rotate a ≠ Some c.
(** The task goes on without ever asking for a cancellation. *)
Definition never_canceled (g : GoalId) (c : nat) k : Prop :=
  k = Rotating g c ∨ (∃ msg, k = Say msg) ∨ k = Done.
Definition orphaned (i : nat) (g : GoalId) (c : nat) a : Prop :=
  lost c a ∧ ∃ k, tasks a !! i = Some k ∧ never_canceled g c k.
Lemma orphaned_event event i g c a : orphaned i g c a → orphaned i g c (handle_event event a).
Proof.
  intros [Hl (k & Hk & Hn)].
  assert (∀ k', orphaned i g c (spawn k' a)) as Hspawn.
  { intros k'. split; [exact Hl|]. exists k. split; [|done]. cbn. by apply lookup_app_l_Some. }
  destruct event; simpl; try apply Hspawn; try (split; [exact Hl|]; by exists k).
  unfold cancel_rotate_absolute. destruct (cancel_rotate a) as [c'|] eqn:Hc.
  - destruct Hl as (Hlt & Hf & Hne). split; [|by exists k]. split_and!; simpl; try done.
    intros [->|?]%elem_of_cons; congruence.
  - split; [exact Hl|]. by exists k.
Qed.
Lemma orphaned_step ev i g c a a' :
  orphaned i g c a → app_step format ev a = Some a' → orphaned i g c a'.
Proof.
  intros Ho. destruct ev as [event| |twist|p|j o]; unfold app_step; destruct (negb (running a)); try done.
  - intros [= <-]. by apply orphaned_event.
  - destruct (queue a); [done|]. by intros [= <-].
  - by intros [= <-].
  - by intros [= <-].
  - destruct Ho as [(Hlt & Hf & Hne) (k & Hk & Hn)].
    destruct (tasks a !! j) as [kj|] eqn:Hj; [|done]. cbn [mbind option_bind].
    destruct (resume format o kj a) as [[a1 k']|] eqn:Hr; [|done]. intros [= <-].
    destruct (resume_fields _ _ _ _ _ Hr) as (Ht & Hfi & Hch & Hcr).
    split; [split_and!; simpl; [lia|by rewrite Hfi|]|].
    { destruct Hcr as [->| ->]; [done|]. intros [= <-]. lia. }
    cbn [with_tasks tasks]. rewrite Ht. destruct (decide (i = j)) as [<-|Hij].
    + exists k'. rewrite list_lookup_insert_eq by (by eapply lookup_lt_Some). split; [done|].
      simplify_eq. destruct Hn as [->|[[msg ->]| ->]]; destruct o; simpl in Hr; try discriminate Hr.
      * by rewrite bool_decide_eq_false_2 in Hr.
      * destruct r as [[st delta]|]; simplify_eq/=; [right; left; eauto|by right; right].
      * destruct (send msg a); simplify_eq/=. by right; right.
    + exists k. by rewrite list_lookup_insert_ne.
Qed.
Lemma orphaned_run evs i g c a a' : orphaned i g c a → run format evs a = Some a' → orphaned i g c a'.
Proof.
  revert a. induction evs as [|ev evs IH]; intros a Ha; simpl; [by intros [= <-]|].
  destruct (app_step format ev a) as [a1|] eqn:E; [|done]. apply IH. by eapply orphaned_step.
Qed.

(** What the cancel key does. Of the rotations under way, it cancels the one
    whose goal was accepted last, if its cancellation was not asked for yet. Any
    other rotation has lost its sender to a later one, and whatever is done from
    then on, its goal is never canceled: its task waits for the result. *)
Lemma cancel_key evs a i g c :
  run format evs App_new = Some a → running a = true →
  tasks a !! i = Some (Rotating g c) → c ∉ fired a →
  if decide (cancel_rotate a = Some c) then
    S c = channels a ∧
    ∃ a', run format [UiEvent CancelRotateAbsolute; Poll i CancelReceived] a = Some a' ∧
      tasks a' !! i = Some (AwaitCancel g) ∧ requests a' = requests a ++ [CancelGoal g]
  else
    ∀ evs' a', run format evs' a = Some a' →
      ∃ k, tasks a' !! i = Some k ∧ (k = Rotating g c ∨ (∃ msg, k = Say msg) ∨ k = Done).
Proof.
  intros Ha%app_inv_run Hrun Hi Hf; [|apply app_inv_new]. case_decide as Hc.
  - destruct (kept_newest _ Ha c Hc) as [Hn _]. split; [done|].
    assert (app_step format (UiEvent CancelRotateAbsolute) a = Some (cancel_rotate_absolute a)) as Hs.
    { unfold app_step. by rewrite Hrun. }
    cbn [run]. rewrite Hs. cbn [mbind option_bind]. unfold app_step, cancel_rotate_absolute. rewrite Hc.
    cbn [running tasks]. rewrite Hrun. cbn [negb]. rewrite Hi. cbn [mbind option_bind resume fired].
    rewrite bool_decide_eq_true_2 by (by left). eexists. split; [reflexivity|]. cbn. split; [|done].
    apply list_lookup_insert_eq. by eapply lookup_lt_Some.
  - intros evs' a' Ha'. assert (orphaned i g c a) as Ho.
    { split; [|exists (Rotating g c); split; [done|by left]]. split_and!; [|done|done].
      apply (chans_made _ Ha). apply list_elem_of_omap. exists (Rotating g c). split; [|done].
      by eapply list_elem_of_lookup_2. }
    by destruct (orphaned_run _ _ _ _ _ _ Ho Ha') as [_ ?].
Qed.

(** The display shows the newest twenty of the messages received, newest first;
    what was said and not received yet waits, at most sixteen messages. *)
Lemma messages_in_order evs a :
  run format evs App_new = Some a →
  length (queue a) ≤ 16 ∧ ∃ n, queue a = drop n (said a) ∧
    messages (display a) = take 20 (reverse (take n (said a))).
Proof.
  intros Ha%app_inv_run; [|apply app_inv_new]. split; [apply (queue_bound _ Ha)|].
  destruct (messages_shown _ Ha) as (n & _ & ? & ?). by exists n.
Qed.
(** A velocity command is for the turtle that is controlled when its task first
    runs, not for the one controlled when the key was pressed. *)
Lemma command_goes_elsewhere twist :
  ∃ a, run format [UiEvent (TurtleCmdVel twist); UiEvent (ChooseTurtle 2); Poll 0 First] App_new = Some a ∧
    PublishCmdVel 2 twist ∈ requests a ∧ PublishCmdVel 1 twist ∉ requests a.
Proof.
  eexists. split; [reflexivity|]. cbn. split; [by right; left|].
  intros [?|[?|[]%not_elem_of_nil]%elem_of_cons]%elem_of_cons; done.
Qed.
End proofs.

(** ** A run with two rotations *)
#[local] Instance toy_floats : Floats :=
  {| F64 := Z; F32 := Z; f64_lit := id; f32_lit := id; PI := 3%Z; show_f64 _ := []; show_f32 _ := [] |}.
#[local] Definition toy_format (m : UiMessage F32) : str :=
  match m with GoalWasAccepted g => [g] | _ => [] end.
#[local] Definition two_rotations : list app_event :=
  [UiEvent (RotateAbsolute PI); Poll 0 First; UiEvent (RotateAbsolute 0%Z);
   Poll 0 (GoalReplied (Some (7%N, true))); Poll 1 First; Poll 0 Sent; ReceiveMessage;
   Poll 1 (GoalReplied (Some (8%N, true))); Poll 1 Sent].
Example cancel_key_witness :
  ∃ a, run toy_format two_rotations App_new = Some a ∧
  tasks a = [Rotating 7%N 0; Rotating 8%N 1] ∧ messages (display a) = [[7%N]] ∧ queue a = [[8%N]] ∧
  (∃ a', run toy_format [UiEvent CancelRotateAbsolute; Poll 1 CancelReceived] a = Some a' ∧
     tasks a' !! 1 = Some (AwaitCancel 8%N) ∧ requests a' = requests a ++ [CancelGoal 8%N]) ∧
  ∀ evs' a', run toy_format evs' a = Some a' →
    ∃ k, tasks a' !! 0 = Some k ∧ (k = Rotating 7%N 0 ∨ (∃ msg, k = Say msg) ∨ k = Done).
Proof.
  eexists. split; [vm_compute; reflexivity|]. split; [reflexivity|]. split; [reflexivity|].
  split; [reflexivity|]. split.
  - pose proof (cancel_key toy_format two_rotations _ 1 8%N 1 ltac:(vm_compute; reflexivity)
      eq_refl eq_refl (not_elem_of_nil _)) as Hc. exact (proj2 Hc).
  - pose proof (cancel_key toy_format two_rotations _ 0 7%N 0 ltac:(vm_compute; reflexivity)
      eq_refl eq_refl (not_elem_of_nil _)) as Hc. exact Hc.
Defined.
