(* ===== verification/AddTwoInts.v ===== *)
(** * The AddTwoInts examples (examples/async_service_server, ros2_service_server, async_service_client, ros2_service_client)

    Applications of DdsService's [Server] and [Client]: a server that awaits a
    stream of requests, one that polls with mio, and the two clients. A loop's
    turn is what happens between two awaits or two calls of [Poll::poll], with
    the clock's readings. A server's reader keeps the last ten requests that have
    not been taken. Overflow is that of the build's profile. *)
From S2P Require Import Prelude EdgeLoop DdsService.
#[local] Open Scope Z_scope.

Record AddTwoIntsRequest := { a : Z; b : Z }.
Record AddTwoIntsResponse := { sum : Z }.
(** [History::KeepLast { depth: 10 }] of the servers' QoS. *)
Definition HISTORY_DEPTH : nat := 10.

Section add_two_ints.
Context `{RD : Rustdds, !CdrMessage BasicRequestHeader, !CdrMessage BasicReplyHeader,
          !CdrMessage CycloneHeader}.
Context `{!CdrMessage AddTwoIntsRequest, !CdrMessage AddTwoIntsResponse}.
Context {W D WS DS : Type}.
Context `{!DataWriter W RequestWrapper, !SimpleDataReader D ResponseWrapper}.
Context `{!DataWriter WS ResponseWrapper, !SimpleDataReader DS RequestWrapper}.
Abbreviation Server := (Server (WS:=WS) (DS:=DS)).
Abbreviation Client := (Client (W:=W) (D:=D)).
Abbreviation Request := (result ReadError (RmwRequestId * AddTwoIntsRequest)).

(** ** The async server *)
(** The closure of [then]; [None] is the panic of [req.a + req.b]. *)
Definition handle_request (pr : profile) (now : Timestamp) (result : Request) (server : Server) :
    option Server :=
  match result with
  | Ok (req_id, req) =>
      s ← arith pr 64 (a req + b req);
      Some (async_send_response now req_id {| sum := s |} server).1
  | Err _ => Some server
  end.
(** [server_stream.count()], polled until it is pending. *)
Inductive stream_state :=
| AwaitsRequest (count : nat) (server : Server)
| StreamEnds (count : nat)
| StreamPanics.
Fixpoint server_stream (fuel : nat) (pr : profile) (clock : nat → Timestamp) (count : nat)
    (server : Server) : option stream_state :=
  match fuel with
  | O => None
  | S fuel =>
      let '(server, next) := next_request server in
      match next with
      | Pending => Some (AwaitsRequest count server)
      | Ready None => Some (StreamEnds count)
      | Ready (Some result) =>
          match handle_request pr (clock count) result server with
          | None => Some StreamPanics
          | Some server => server_stream fuel pr clock (S count) server
          end
      end
  end.

(** ** The polling server *)
(** What an event of the server does; [None] is a panic. *)
Definition readable_arm (pr : profile) (now : Timestamp) (server : Server) : option Server :=
  let '(server, req_option) := receive_request server in
  match req_option with
  | Ok (Some (id, request)) =>
      s ← arith pr 64 (a request + b request);
      Some (send_response now id {| sum := s |} server).1
  | Ok None | Err _ => Some server
  end.
(** ** The clients *)
(** [request_generator += 3], and what is sent. *)
Definition next_operands (pr : profile) (request_generator : Z) : option (Z * AddTwoIntsRequest) :=
  request_generator ← arith pr 64 (request_generator + 3);
  Some (request_generator,
        {| a := Z.rem request_generator 5; b := Z.rem request_generator 7 |}).
(** [wait_for_service(..).or(timeout)] from the first poll of the wait: the
    timeout's timer is not awaited, so that the timeout is ready at once. *)
Definition service_is_ready (first_poll : Poll unit) : bool :=
  match first_poll with Ready _ => true | Pending => false end.
(** The responses printed by the loop of the polling client. *)
Fixpoint print_responses (fuel : nat) (client : Client) :
    option (Client * list (RmwRequestId * AddTwoIntsResponse)) :=
  match fuel with
  | O => None
  | S fuel =>
      match receive_response client with
      | (client, Ok (Some r)) =>
          '(client, l) ← print_responses fuel client; Some (client, r :: l)
      | (client, Ok None) | (client, Err _) => Some (client, [])
      end
  end.
(** The end of a turn of the polling client. *)
Definition send_next (pr : profile) (rate_limited : bool) (now : Timestamp) (gen : Z) (client : Client) :
    option (Z * Client) :=
  if rate_limited then Some (gen, client)
  else
    '(gen, req) ← next_operands pr gen;
    Some (gen, (send_request now client req).1).
Definition client_turn (fuel : nat) (pr : profile) (readable rate_limited : bool) (now : Timestamp)
    (gen : Z) (client : Client) :
    option (option (Z * Client) * list (RmwRequestId * AddTwoIntsResponse)) :=
  '(client, printed) ← if readable then print_responses fuel client else Some (client, []);
  Some (send_next pr rate_limited now gen client, printed).

(** ** A tick of the async client *)
Context `{!Delivers D ResponseWrapper, !Delivers DS RequestWrapper}.
Definition request_arrives (server : Server) x : Server :=
  {| srv_service_mapping := srv_service_mapping server;
     request_receiver := deliver (request_receiver server) x;
     response_sender := response_sender server |}.
Definition arrive_at_client (c : Client) x : Client := with_receiver (deliver (response_receiver c) x) c.
(** The polling server's loop. *)
Definition poll_server (pr : profile) := poll_loop (readable_arm pr) request_arrives.

Inductive tick_outcome :=
| ServiceMissing
| NotSent (e : WriteError unit)
| Response (r : AddTwoIntsResponse)
| ResponseError (e : ReadError)
| TimedOut.
(** [response.await]: the polls of the response, each after some arrivals, until
    the timer fires. *)
Fixpoint await_response (fuel : nat) (id : RmwRequestId)
    (arrivals : list (list (result ReadError (DeserializedCacheChange ResponseWrapper)))) (c : Client) :
    option (Client * tick_outcome) :=
  match arrivals with
  | [] => Some (c, TimedOut)
  | xs :: arrivals =>
      '(c, p) ← async_receive_response fuel id (fold_left arrive_at_client xs c);
      match p with
      | Pending => await_response fuel id arrivals c
      | Ready (Ok r) => Some (c, Response r)
      | Ready (Err e) => Some (c, ResponseError e)
      end
  end.
(** A tick; the outer [option] is for the fuel, the inner one is a panic. *)
Definition client_tick (fuel : nat) (pr : profile) (first_poll : Poll unit) (now : Timestamp)
    arrivals (gen : Z) (c : Client) : option (option (Z * Client * tick_outcome)) :=
  if service_is_ready first_poll then
    match next_operands pr gen with
    | None => Some None
    | Some (gen, req) =>
        match async_send_request now c req with
        | (c, Err e) => Some (Some (gen, c, NotSent e))
        | (c, Ok req_id) =>
            '(c, o) ← await_response fuel req_id arrivals c; Some (Some (gen, c, o))
        end
    end
  else Some (Some (gen, c, ServiceMissing)).
End add_two_ints.

(** ** Specification *)
Section spec.
Context `{RD : Rustdds, !CdrMessage BasicRequestHeader, !CdrMessage BasicReplyHeader,
          !CdrMessage CycloneHeader}.
Context `{!CdrMessage AddTwoIntsRequest, !CdrMessage AddTwoIntsResponse}.
Context {W D WS DS : Type}.
Context `{!DataWriter W RequestWrapper, !SimpleDataReader D ResponseWrapper}.
Context `{!DataWriter WS ResponseWrapper, !SimpleDataReader DS RequestWrapper}.
Context `{!Delivers DS RequestWrapper}.
Context `{!SimpleDataReaderLaws D ResponseWrapper, !SimpleDataReaderLaws DS RequestWrapper}.
Context `{!DeliversLaws HISTORY_DEPTH DS RequestWrapper}.
Abbreviation Server := (Server (WS:=WS) (DS:=DS)).
Abbreviation Client := (Client (W:=W) (D:=D)).
Abbreviation Request := (result ReadError (RmwRequestId * AddTwoIntsRequest)).
Abbreviation Sample := (result ReadError (DeserializedCacheChange RequestWrapper)).
Abbreviation Write := (WS → ResponseWrapper → WriteOptions → WS * result (WriteError ResponseWrapper) SampleIdentity).
Abbreviation queue := (requests (Req:=AddTwoIntsRequest)).
Implicit Types (s : Server) (p : Polled Server).

(** A server's mapping and writer, and answering requests, each at a time, over
    them: the sum of every request that could be read, in order. *)
Definition ends s : ServiceMapping * WS := (srv_service_mapping s, response_sender s).
Definition reply (pr : profile) (write : Write) (w : ServiceMapping * WS) (x : Timestamp * Request) :
    option (ServiceMapping * WS) :=
  match x.2 with
  | Err _ => Some w
  | Ok (id, req) => s ← arith pr 64 (a req + b req); Some (written write x.1 id {| sum := s |} w)
  end.
Abbreviation reply_all pr write := (answer_all (reply pr write)).
Definition read_as (w : ServiceMapping * WS) (x : Sample) : Request :=
  dcc ← x; RequestWrapper_unwrap w.1 (MessageInfo_from dcc) (into_value dcc).

Lemma reply_mapping pr write w x w' : reply pr write w x = Some w' → w'.1 = w.1.
Proof.
  unfold reply, written. destruct (x.2) as [[id req]|e]; [|congruence].
  destruct (arith _ _ _) as [z|]; simpl; [|done]. intros [= <-].
  by destruct (ResponseWrapper_new _ _ _ _).
Qed.

(** *** The async server *)
Lemma handle_request_spec pr now r s :
  match reply pr async_write_with_options (ends s) (now, r) with
  | None => handle_request pr now r s = None
  | Some w => ∃ s', handle_request pr now r s = Some s' ∧ ends s' = w ∧
      queue s' = queue s
  end.
Proof.
  destruct r as [[id req]|e]; simpl; [|by eauto].
  unfold reply. simpl. destruct (arith pr 64 (a req + b req)) as [z|]; simpl; [|done].
  destruct (async_send_response_spec now id {| sum := z |} s) as (H1 & H2 & H3).
  eexists. split; [done|]. split; [done|]. by apply requests_same.
Qed.
Lemma server_stream_spec fuel pr clock n s :
  (length (queue s) < fuel)%nat →
  match reply_all pr async_write_with_options
          (zip (clock <$> seq n (length (queue s))) (queue s)) (ends s) with
  | None => server_stream fuel pr clock n s = Some StreamPanics
  | Some w => ∃ s',
      server_stream fuel pr clock n s =
        Some (AwaitsRequest (n + length (queue s)) s') ∧
      queue s' = [] ∧ ends s' = w
  end.
Proof.
  revert n s. induction fuel as [|fuel IH]; intros n s Hf; [lia|]. cbn [server_stream].
  destruct (next_request_spec (Req:=AddTwoIntsRequest) s) as (H1 & H2 & H3 & H4).
  destruct (next_request s) as [s1 next]. simpl in H1, H2, H3, H4.
  destruct (queue s) as [|r q]; simpl in *; subst next.
  { exists s1. rewrite Nat.add_0_r. unfold ends. by rewrite H3, H4. }
  pose proof (handle_request_spec pr (clock n) r s1) as Hr.
  replace (ends s1) with (ends s) in Hr by (unfold ends; by rewrite H3, H4).
  destruct (reply _ _ (ends s) (clock n, r)) as [w|]; simpl; [|by rewrite Hr].
  destruct Hr as (s2 & -> & <- & Hq). rewrite <-Hq in H2.
  specialize (IH (S n) s2). rewrite H2 in IH. specialize (IH ltac:(lia)).
  by rewrite <-Nat.add_succ_comm.
Qed.

(** *** The polling server *)
Lemma readable_arm_spec pr now s r q :
  queue s = r :: q →
  match reply pr write_with_options (ends s) (now, r) with
  | None => readable_arm pr now s = None
  | Some w => ∃ s', readable_arm pr now s = Some s' ∧ ends s' = w ∧
      queue s' = q
  end.
Proof.
  intros Hs. unfold readable_arm.
  destruct (receive_request_spec (Req:=AddTwoIntsRequest) s) as (H1 & H2 & H3 & H4).
  destruct (receive_request s) as [s1 o]. simpl in H1, H2, H3, H4. rewrite Hs in H1, H2. subst o.
  replace (ends s) with (ends s1) by (unfold ends; by rewrite H3, H4).
  destruct r as [[id req]|e]; simpl; [|by eauto].
  unfold reply. simpl. destruct (arith pr 64 (a req + b req)) as [z|]; simpl; [|done].
  destruct (send_response_spec now id {| sum := z |} s1) as (E1 & E2 & E3).
  eexists. split; [done|]. split; [done|].
  trans (queue s1); [by apply requests_same|done].
Qed.
Lemma server_takes_one pr :
  takes_one (readable_arm pr) request_arrives HISTORY_DEPTH queue ends read_as
    (reply pr write_with_options).
Proof.
  split.
  - unfold HISTORY_DEPTH. lia.
  - intros s x. unfold requests. simpl. by rewrite samples_deliver, <-keep_last_fmap, fmap_app.
  - done.
  - intros w x w' H%reply_mapping. unfold read_as. by rewrite H.
  - intros now s r q Hq. by apply readable_arm_spec.
Qed.

Lemma reply_all_release write l w : is_Some (reply_all Release write l w).
Proof.
  revert w. induction l as [|[now r] l IH]; intros w; simpl; [done|].
  unfold reply. simpl. by destruct r as [[id req]|e]; simpl.
Qed.
(** A build with overflow checks panics for exactly the sums that overflow. *)
Lemma reply_all_debug write l w :
  reply_all Debug write l w = None ↔
  ∃ now id req, (now, Ok (id, req)) ∈ l ∧ ¬ in_i64 (a req + b req).
Proof.
  revert w. induction l as [|[now r] l IH]; intros w; cbn [answer_all].
  { split; [done|]. intros (?&?&?&[]%elem_of_nil&_). }
  unfold reply. simpl. destruct r as [[id req]|e]; simpl.
  - case_bool_decide as Hz; simpl.
    + rewrite IH. split.
      * intros (t & i & q & H & Hn). exists t, i, q. split; [by right|done].
      * intros (t & i & q & [[= -> -> ->]|H]%elem_of_cons & Hn); [|by exists t, i, q].
        destruct Hn. unfold in_i64, i64_min, i64_max. lia.
    + split; [intros _|done]. exists now, id, req. split; [by left|].
      unfold in_i64, i64_min, i64_max. lia.
  - rewrite IH. split; intros (t & i & q & H & Hn); exists t, i, q; (split; [|done]).
    + by right.
    + by apply elem_of_cons in H as [|].
Qed.

(** The requests at a server at which all has arrived before it is polled. *)
Lemma arrived_queue xs p :
  (length (queue (endpoint p)) <= HISTORY_DEPTH)%nat →
  let p' := fold_left (arrive request_arrives) xs p in
  queue (endpoint p') = keep_last HISTORY_DEPTH (queue (endpoint p) ++ (read_as (ends (endpoint p)) <$> xs)) ∧
  ends (endpoint p') = ends (endpoint p).
Proof.
  intros Hq. destruct (arrive_all _ _ _ _ _ _ _ (server_takes_one Release) xs p) as (H1 & H2 & _).
  cbn zeta. rewrite H1, H2. split; [|done]. destruct xs; [|done]. csimpl.
  by rewrite app_nil_r, keep_last_all.
Qed.

(** C31: The two AddTwoInts servers on the same requests, with a reader that keeps
    the last ten that have not been taken, and drops older ones. The async server,
    polled after all have arrived, answers those that were kept, in order, each with
    its sum, and waits for more. The polling one takes a single request each time it
    wakes up, and it wakes up only when something has arrived since: it answers one
    request per wake-up, in order, out of what the reader kept, and never holds
    more than ten unanswered ones. While what the bursts leave behind stays below
    ten, nothing is dropped: it answers the first requests, as many as it had
    wake-ups, and all but one of every burst stay unanswered. Requests that cannot be
    read are passed over; a sum that overflows panics in a build that checks and
    wraps around, for every request, in one that does not. *)
Theorem add_two_ints_servers pr turns p fuel clock :
  edge p = false → (length (queue (endpoint p)) <= HISTORY_DEPTH)%nat →
  let w0 := ends (endpoint p) in
  let all := queue (endpoint p) ++ arrived read_as w0 turns in
  let kept := keep_last HISTORY_DEPTH all in
  let with_all := endpoint (fold_left (arrive request_arrives) (turns ≫= fst) p) in
  let '(taken, rest) := one_per_wake HISTORY_DEPTH (as_read read_as w0 turns) (queue (endpoint p)) in
  (HISTORY_DEPTH < fuel)%nat →
  (match reply_all pr async_write_with_options (zip (clock <$> seq 0 (length kept)) kept) w0 with
   | None => server_stream fuel pr clock 0 with_all = Some StreamPanics
   | Some w => ∃ s', server_stream fuel pr clock 0 with_all = Some (AwaitsRequest (length kept) s') ∧
       queue s' = [] ∧ ends s' = w
   end) ∧
  (match reply_all pr write_with_options taken w0 with
   | None => poll_server pr turns p = None
   | Some w => ∃ p', poll_server pr turns p = Some p' ∧ ends (endpoint p') = w ∧
       queue (endpoint p') = rest
   end) ∧
  taken.*1 = wakes turns ∧ taken.*2 ++ rest `sublist_of` all ∧ (length rest <= HISTORY_DEPTH)%nat ∧
  ((length (queue (endpoint p)) + left_behind turns < HISTORY_DEPTH)%nat →
   taken = zip (wakes turns) all ∧ rest = drop (length (wakes turns)) all ∧
   length rest = (length (queue (endpoint p)) + left_behind turns)%nat) ∧
  (pr = Release → ∀ write l w, is_Some (reply_all pr write l w)) ∧
  (pr = Debug → ∀ write l w, reply_all pr write l w = None ↔
     ∃ now id req, (now, Ok (id, req)) ∈ l ∧ ¬ in_i64 (a req + b req)).
Proof.
  intros He Hq w0 all kept with_all. pose proof (server_takes_one pr) as Hone.
  pose proof (has_history _ _ _ _ _ _ _ Hone) as Hd.
  pose proof (poll_loop_spec _ _ _ _ _ _ _ Hone turns p He) as Hp. fold w0 in Hp.
  pose proof (one_per_wake_times HISTORY_DEPTH Hd (as_read read_as w0 turns) (queue (endpoint p))) as Ht.
  pose proof (one_per_wake_order HISTORY_DEPTH Hd (as_read read_as w0 turns) (queue (endpoint p))) as Ho.
  pose proof (one_per_wake_bounded HISTORY_DEPTH Hd (as_read read_as w0 turns) (queue (endpoint p)) Hq) as Hb.
  pose proof (one_per_wake_fits HISTORY_DEPTH Hd (as_read read_as w0 turns) (queue (endpoint p))) as Hf.
  pose proof (one_per_wake_left HISTORY_DEPTH Hd (as_read read_as w0 turns) (queue (endpoint p))) as Hl.
  rewrite <-arrived_as_read in Ho, Hf. rewrite wakes_as_read in Ht, Hf. rewrite left_behind_as_read in Hf, Hl.
  destruct (one_per_wake _ _ _) as [taken rest]. simpl in Ht, Ho, Hb, Hf, Hl. intros Hfuel. split_and!; try done.
  - destruct (arrived_queue (turns ≫= fst) p Hq) as [H1 H2]. fold w0 in H1, H2.
    rewrite <-arrived_concat in H1. fold all kept with_all in H1. fold with_all in H2.
    rewrite <-H2, <-H1. apply server_stream_spec. rewrite H1. unfold kept. rewrite length_keep_last. lia.
  - destruct (reply_all _ _ _ _); [|done]. destruct Hp as (p' & H1 & H2 & H3 & _). by exists p'.
  - intros Hlt. specialize (Hf Hlt). specialize (Hl Hlt). by injection Hf as -> ->.
  - intros ->. apply reply_all_release.
  - intros ->. apply reply_all_debug.
Qed.

(** *** The clients *)
(** The operands a client sends are small, whatever its counter is: a server
    adds them without overflow. *)
Lemma client_operands pr gen gen' req :
  next_operands pr gen = Some (gen', req) →
  in_i64 gen' ∧ -4 <= a req <= 4 ∧ -6 <= b req <= 6 ∧ arith pr 64 (a req + b req) = Some (a req + b req).
Proof.
  unfold next_operands. destruct (arith pr 64 (gen + 3)) as [g|] eqn:Hg; simpl; [|done].
  intros [= <- <-]. simpl. apply arith_i64_in in Hg as [_ Hg].
  pose proof (Z.rem_bound_abs g 5). pose proof (Z.rem_bound_abs g 7).
  split_and!; [done|lia..|]. apply arith_i64. unfold in_i64, i64_min, i64_max. lia.
Qed.

(** What the polling client prints: the responses up to the first that cannot be
    read, which is lost; what follows it stays until the next event. *)
Fixpoint up_to_error {A} (l : list (result ReadError A)) : list A :=
  match l with Ok x :: l => x :: up_to_error l | _ => [] end.
Fixpoint after_error {A} (l : list (result ReadError A)) : list (result ReadError A) :=
  match l with Ok _ :: l => after_error l | _ :: l => l | [] => [] end.
Lemma print_responses_spec fuel (c : Client) :
  (length (responses (Resp:=AddTwoIntsResponse) c) < fuel)%nat →
  ∃ d, print_responses fuel c = Some (with_receiver d c, up_to_error (responses c)) ∧
    responses (Resp:=AddTwoIntsResponse) (with_receiver d c) = after_error (responses c).
Proof.
  revert c. induction fuel as [|fuel IH]; intros c Hf; [lia|]. cbn [print_responses].
  destruct (receive_response_spec (Resp:=AddTwoIntsResponse) c) as (d & -> & Hd).
  destruct (responses c) as [|[r|e] l]; simpl in *.
  - by exists d.
  - destruct (IH (with_receiver d c)) as (d' & -> & Hd'); [rewrite Hd; lia|].
    exists d'. rewrite Hd in *. by split.
  - by exists d.
Qed.
(** What the async client takes for the response is one to its own request, read
    after the request was sent. *)
Section async_client.
Context (depth : nat) `{!Delivers D ResponseWrapper, !DeliversLaws depth D ResponseWrapper}.
Abbreviation answers := (responses (Resp:=AddTwoIntsResponse) (W:=W) (D:=D)).
Implicit Types c : Client.
Definition unwrapped (c : Client) xs : list (result ReadError (RmwRequestId * AddTwoIntsResponse)) :=
  (λ x, x ≫= unwrap_response c) <$> xs.
Lemma arrive_at_client_all xs c :
  let c' := fold_left arrive_at_client xs c in
  answers c' `sublist_of` answers c ++ unwrapped c xs ∧ ∃ d, c' = with_receiver d c.
Proof.
  revert c. induction xs as [|x xs IH]; intros c; simpl.
  { rewrite app_nil_r. split; [done|]. exists (response_receiver c). by destruct c. }
  destruct (IH (arrive_at_client c x)) as (Hs & d & Hc). split; [|exists d; by rewrite Hc].
  trans (answers (arrive_at_client c x) ++ unwrapped c xs); [exact Hs|].
  trans ((answers c ++ [x ≫= unwrap_response c]) ++ unwrapped c xs); [|by rewrite <-(assoc_L (++))].
  apply sublist_app; [|done]. unfold responses at 1, arrive_at_client. simpl.
  rewrite samples_deliver, <-keep_last_fmap, fmap_app. apply keep_last_sublist.
Qed.
Lemma async_receive_sound fuel id c c' q :
  async_receive_response (Resp:=AddTwoIntsResponse) fuel id c = Some (c', q) →
  (∃ d, c' = with_receiver d c) ∧
  match q with
  | Ready (Ok r) => Ok (id, r) ∈ answers c
  | Ready (Err _) => True
  | Pending => answers c' = []
  end.
Proof.
  revert c. induction fuel as [|fuel IH]; intros c; cbn [async_receive_response]; [done|].
  pose proof (poll_response_spec (Resp:=AddTwoIntsResponse) c) as Hp.
  destruct (responses c) as [|x l].
  { destruct Hp as (d & -> & Hd). intros [= <- <-]. eauto. }
  destruct Hp as (d & y & -> & Hy & Hd). destruct y as [dcc|e]; simpl in Hy.
  2: { intros [= <- <-]. eauto. }
  change (unwrap_response (with_receiver d c) dcc) with (unwrap_response (Resp:=AddTwoIntsResponse) c dcc).
  rewrite Hy. destruct x as [[i r]|e]; [|intros [= <- <-]; eauto].
  case_bool_decide as Hi; [subst; intros [= <- <-]; split; [eauto|by left]|].
  intros H. apply IH in H as ((d' & ->) & H). split; [by exists d'|].
  rewrite Hd in H. destruct q as [[|]|]; [by right|done..].
Qed.
Lemma await_response_sound fuel id arrivals c c' r :
  await_response fuel id arrivals c = Some (c', Response r) →
  Ok (id, r) ∈ answers c ++ unwrapped c (concat arrivals).
Proof.
  revert c. induction arrivals as [|xs arrivals IH]; intros c; simpl; [done|].
  destruct (arrive_at_client_all xs c) as (Ha & d & Hc).
  destruct (async_receive_response fuel id _) as [[c1 q]|] eqn:E; simpl; [|done].
  apply async_receive_sound in E as ((d1 & ->) & Hq).
  unfold unwrapped. rewrite fmap_app, (assoc_L (++)), elem_of_app.
  change ((λ x, x ≫= unwrap_response c) <$> xs) with (unwrapped c xs).
  destruct q as [[r'|e]|]; [intros [= <- ->]; left; eapply elem_of_submseteq; [exact Hq|by apply sublist_submseteq]|done|].
  intros H%IH. rewrite Hq in H. right. by rewrite Hc in H.
Qed.
Lemma client_tick_sound fuel pr first_poll now arrivals gen c gen' c' r :
  client_tick fuel pr first_poll now arrivals gen c = Some (Some (gen', c', Response r)) →
  first_poll = Ready tt ∧
  ∃ req c1 id, next_operands pr gen = Some (gen', req) ∧ async_send_request now c req = (c1, Ok id) ∧
    Ok (id, r) ∈ answers c1 ++ unwrapped c1 (concat arrivals).
Proof.
  unfold client_tick. destruct first_poll as [[]|]; simpl; [|done].
  destruct (next_operands pr gen) as [[g req]|]; [|done].
  destruct (async_send_request now c req) as [c1 [id|e]] eqn:Hs; [|done].
  destruct (await_response fuel id arrivals c1) as [[c2 o]|] eqn:E; simpl; [|done].
  intros [= <- <- ->]. apply await_response_sound in E. split; [done|]. by exists req, c1, id.
Qed.
End async_client.
End spec.

(** ** A concrete instance *)
#[local] Existing Instances toy_rustdds toy_basic_request toy_basic_reply toy_cyclone
  toy_writer toy_reader toy_reader_laws toy_delivers toy_delivers_laws.
#[local] Instance toy_operands : CdrMessage AddTwoIntsRequest := {|
  to_writer_with_rep_id m _ := Ok [a m; b m];
  deserialize_from_cdr_with_rep_id bs _ :=
    match bs with x :: y :: _ => Ok ({| a := x; b := y |}, 2%nat) | _ => Err (OtherReadError 0) end |}.
#[local] Instance toy_sum : CdrMessage AddTwoIntsResponse := {|
  to_writer_with_rep_id m _ := Ok [sum m];
  deserialize_from_cdr_with_rep_id bs _ :=
    match bs with x :: _ => Ok ({| sum := x |}, 1%nat) | _ => Err (OtherReadError 0) end |}.
Definition toy_operands_sample (n x y : Z) : result ReadError (DeserializedCacheChange RequestWrapper) :=
  Ok {| dcc_source_timestamp := None; dcc_sequence_number := n; dcc_writer_guid := toy_guid 8;
        dcc_related_sample_identity := None;
        into_value := {| rq_serialized_message := [x; y]; rq_encoding := CDR_LE |} |}.
Definition toy_turns : list (list (result ReadError (DeserializedCacheChange RequestWrapper)) * Timestamp) :=
  [([toy_operands_sample 1 2 3; toy_operands_sample 2 4 5; toy_operands_sample 3 6 7], toy_now);
   ([], toy_now); ([toy_operands_sample 4 8 9], toy_now)].
Definition toy_poll_server : Polled Server := {| endpoint := toy_server; edge := false |}.
(** A burst of twelve requests, then one: the async server answers the newest
    ten that were kept by then, the polling one two of them. Without the burst
    nothing is dropped; and a sum that overflows stops a checking build. *)
Definition toy_burst : list (list (result ReadError (DeserializedCacheChange RequestWrapper)) * Timestamp) :=
  [((λ n : nat, toy_operands_sample (Z.of_nat n) (Z.of_nat n) 3) <$> seq 1 12, toy_now);
   ([], toy_now); ([toy_operands_sample 13 8 9], toy_now)].
Lemma add_two_ints_servers_witness :
  (∃ s', server_stream 11 Debug (λ _, toy_now) 0
           (endpoint (fold_left (arrive request_arrives) (toy_burst ≫= fst) toy_poll_server)) =
         Some (AwaitsRequest 10 s') ∧ requests (Req:=AddTwoIntsRequest) s' = [] ∧
         length (response_sender s') = 10%nat) ∧
  (∃ p', poll_server Debug toy_burst toy_poll_server = Some p' ∧
         length (response_sender (endpoint p')) = 2%nat ∧
         length (requests (Req:=AddTwoIntsRequest) (endpoint p')) = 9%nat) ∧
  (∃ p', poll_server Debug toy_turns toy_poll_server = Some p' ∧
         length (response_sender (endpoint p')) = 2%nat ∧
         length (requests (Req:=AddTwoIntsRequest) (endpoint p')) = 2%nat) ∧
  poll_server Debug [([toy_operands_sample 1 i64_max 1], toy_now)] toy_poll_server = None.
Proof.
  assert (HISTORY_DEPTH < 11)%nat as Hf by (apply Nat.ltb_lt; reflexivity).
  assert (length (requests (Req:=AddTwoIntsRequest) (endpoint toy_poll_server)) <= HISTORY_DEPTH)%nat as Hq
    by (apply Nat.leb_le; vm_compute; reflexivity).
  destruct (add_two_ints_servers (RD:=toy_rustdds) Debug toy_burst toy_poll_server 11 (λ _, toy_now)
    eq_refl Hq Hf) as (H1 & H2 & _).
  destruct (add_two_ints_servers (RD:=toy_rustdds) Debug toy_turns toy_poll_server 11 (λ _, toy_now)
    eq_refl Hq Hf) as (_ & H3 & _).
  destruct (add_two_ints_servers (RD:=toy_rustdds) Debug
    [([toy_operands_sample 1 i64_max 1], toy_now)] toy_poll_server 11 (λ _, toy_now)
    eq_refl Hq Hf) as (_ & H4 & _).
  split_and!; [| | |exact H4].
  - destruct H1 as (s' & Hs & Hk & He). exists s'. split_and!; [exact Hs|exact Hk|].
    apply (f_equal (length ∘ snd)) in He. exact He.
  - destruct H2 as (p' & Hs & He & Hl). exists p'. split_and!; [exact Hs| |rewrite Hl; reflexivity].
    apply (f_equal (length ∘ snd)) in He. exact He.
  - destruct H3 as (p' & Hs & He & Hl). exists p'. split_and!; [exact Hs| |rewrite Hl; reflexivity].
    apply (f_equal (length ∘ snd)) in He. exact He.
Defined.
