(* ===== verification/Chatter.v ===== *)
(** * The chatter examples (examples/talker, async_talker, async_smart_talker, listener)

    The talkers number their messages and publish them through PubSub's
    publishers; the smart one stops while the tables of its node have no matched
    subscription. The listener takes a message per event of its edge-triggered
    loop, from a reader that keeps the last ten that have not been taken, and
    prints the first fifty bytes. *)
From S2P Require Import Prelude EdgeLoop DdsService Discovery PubSub Distributions OsPath.
#[local] Open Scope Z_scope.

(** ** The topic's type *)
Definition chatter_type (feature : RosDistro → bool) : str * str :=
  if feature Lyrical then (lit "example_interfaces", lit "String") else (lit "std_msgs", lit "String").

(** ** The talkers *)
Definition long_filler : str :=
  let text := lit "All work and no play makes ROS a dull boy. All play and no work makes RTPS a mere toy. " in
  text ++ text.
Definition short_filler : str := lit "All work and no play makes ROS a dull boy.".
Definition chatter_message (filler : str) (count : Z) : str :=
  lit "count=" ++ show_Z count ++ lit " " ++ filler.

Section talkers.
Context `{RD : Rustdds, !Countable GUID}.
Context {W : Type} `{!TopicWriter W str, !DdsEntity W}.
Abbreviation Tables := (Tables (GUID:=GUID)).

(** A turn of [talker], on its timer, and of [async_talker]; [count] is an
    [i32], [None] its overflow. *)
Definition talk (pr : profile) (now : Timestamp) (cw : Z * W) : option (Z * W) :=
  count ← arith pr 32 (cw.1 + 1);
  Some (count, (publish now (chatter_message long_filler count) cw.2).1).
Definition async_talk (pr : profile) (now : Timestamp) (cw : Z * W) : option (Z * W) :=
  count ← arith pr 32 (cw.1 + 1);
  Some (count, (async_publish now (chatter_message short_filler count) cw.2).1).

(** The smart talker waits for a subscription or is in its inner loop. *)
Record SmartTalker := { s_count : Z; sub_count : nat; talking : bool; chatter_publisher : W }.
Definition SmartTalker_new (w : W) : SmartTalker :=
  {| s_count := 0; sub_count := 0; talking := false; chatter_publisher := w |}.
Inductive smart_event :=
| SubscriptionAppeared
| InnerTurn (now : Timestamp) (my_node : Tables).
(** The lines of a turn about the subscriptions, and the new state; the inner
    [option] is a panic, the outer an event the talker does not wait for. *)
Inductive smart_line := CountChange (from to : nat) | StoppingPublishing.
Definition inner_turn (pr : profile) (now : Timestamp) (my_node : Tables) (t : SmartTalker) :
    option (SmartTalker * list smart_line) :=
  count ← arith pr 32 (s_count t + 1);
  let w := (async_publish now (chatter_message long_filler count) (chatter_publisher t)).1 in
  let new_sub_count := publisher_subscription_count my_node w in
  Some ({| s_count := count; sub_count := new_sub_count; talking := negb (new_sub_count =? 0)%nat;
           chatter_publisher := w |},
        (if (new_sub_count =? sub_count t)%nat then [] else [CountChange (sub_count t) new_sub_count]) ++
        (if (new_sub_count =? 0)%nat then [StoppingPublishing] else [])).
Definition smart_step (pr : profile) (ev : smart_event) (t : SmartTalker) :
    option (option (SmartTalker * list smart_line)) :=
  match ev, talking t with
  | SubscriptionAppeared, false =>
      Some (Some ({| s_count := s_count t; sub_count := sub_count t; talking := true;
                     chatter_publisher := chatter_publisher t |}, []))
  | InnerTurn now my_node, true => Some (inner_turn pr now my_node t)
  | _, _ => None
  end.
Fixpoint smart_run (pr : profile) (evs : list smart_event) (t : SmartTalker) :
    option (SmartTalker * list smart_line) :=
  match evs with
  | [] => Some (t, [])
  | ev :: evs =>
      o ← smart_step pr ev t; '(t, l) ← o; '(t, l') ← smart_run pr evs t; Some (t, l ++ l')
  end.
End talkers.

(** ** The listener *)
(** [&s[..i]]: a prefix of [i] bytes; [None] is the panic when there is none,
    that is, when byte [i] is inside a character or past the end. *)
Fixpoint slice_to (s : str) (i : nat) : option str :=
  match i with
  | O => Some []
  | _ =>
      match s with
      | [] => None
      | c :: s =>
          let k := length (utf8_char c) in
          if (k <=? i)%nat then cons c <$> slice_to s (i - k)%nat else None
      end
  end.
Definition preview (message : str) : option str :=
  slice_to message (Nat.min (length (utf8 message)) 50).

Inductive listener_line := Heard (len : nat) (text : str) | NoMessage | TakeFailed (e : ReadError).
Section listener.
Context `{RD : Rustdds}.
Context {D : Type} `{!SimpleDataReader D str, !Delivers D str}.
(** [History::KeepLast { depth: 10 }] of the topic's QoS. *)
Definition TOPIC_DEPTH : nat := 10.
Record Listener := { chatter_subscription : D; printed : list listener_line }.
Definition take_arm (_ : unit) (l : Listener) : option Listener :=
  let '(d, taken) := sub_take (chatter_subscription l) in
  line ← match taken with
         | Ok (Some (message, _)) =>
             text ← preview message; Some (Heard (length (utf8 message)) text)
         | Ok None => Some NoMessage
         | Err e => Some (TakeFailed e)
         end;
  Some {| chatter_subscription := d; printed := printed l ++ [line] |}.
Definition message_arrives (l : Listener) x : Listener :=
  {| chatter_subscription := deliver (chatter_subscription l) x; printed := printed l |}.
Definition listen := poll_loop take_arm message_arrives.
End listener.

(** ** Lemmas *)

(** *** Slices *)
Lemma utf8_char_length c : (0 < length (utf8_char c))%nat.
Proof. unfold utf8_char. repeat case_match; simpl; lia. Qed.
Lemma utf8_cons c s : utf8 (c :: s) = utf8_char c ++ utf8 s.
Proof. done. Qed.
Lemma slice_to_Some s i t : slice_to s i = Some t ↔ t `prefix_of` s ∧ length (utf8 t) = i.
Proof.
  revert i t. induction s as [|c s IH]; intros i t; cbn [slice_to].
  - destruct i as [|i]; (split; [intros [= <-] || done|intros [->%prefix_nil_inv Hi]; simpl in Hi]);
      [by split; [apply prefix_nil|]|done|done].
  - pose proof (utf8_char_length c) as Hc. destruct i as [|i].
    + split; [intros [= <-]; by split; [apply prefix_nil|]|]. intros [_ Ht].
      destruct t as [|d t]; [done|]. rewrite utf8_cons, length_app in Ht.
      pose proof (utf8_char_length d). lia.
    + destruct (Nat.leb_spec (length (utf8_char c)) (S i)) as [Hle|Hgt].
      * split.
        { intros (t' & Ht' & ->)%fmap_Some. apply IH in Ht' as [Hp Hl].
          split; [by apply prefix_cons|]. rewrite utf8_cons, length_app. lia. }
        { intros [Hp Hl]. destruct t as [|d t]; [done|].
          pose proof (prefix_cons_inv_1 _ _ _ _ Hp) as ->. apply prefix_cons_inv_2 in Hp.
          rewrite utf8_cons, length_app in Hl.
          assert (slice_to s (S i - length (utf8_char c)) = Some t) as -> by (apply IH; split; [done|lia]).
          done. }
      * split; [done|]. intros [Hp Hl]. destruct t as [|d t]; [done|].
        pose proof (prefix_cons_inv_1 _ _ _ _ Hp) as ->.
        rewrite utf8_cons, length_app in Hl. lia.
Qed.
(** A message has no preview if byte 50 falls inside one of its characters. *)
Definition splits_a_char (message : str) : Prop :=
  (50 < length (utf8 message))%nat ∧ ∀ t, t `prefix_of` message → length (utf8 t) ≠ 50%nat.
Lemma preview_None message : preview message = None ↔ splits_a_char message.
Proof.
  unfold preview, splits_a_char. split.
  - intros Hn. destruct (Nat.le_gt_cases (length (utf8 message)) 50) as [Hle|Hgt].
    + rewrite Nat.min_l in Hn by done.
      assert (slice_to message (length (utf8 message)) = Some message) as Hs by by apply slice_to_Some.
      congruence.
    + split; [done|]. intros t Ht Hl. rewrite Nat.min_r in Hn by lia.
      assert (slice_to message 50 = Some t) by by apply slice_to_Some. congruence.
  - intros [Hl Hno]. rewrite Nat.min_r by lia. apply eq_None_not_Some. intros [t Ht].
    apply slice_to_Some in Ht as [Hp Ht]. by apply (Hno t).
Qed.
Lemma preview_Some message t :
  preview message = Some t →
  t `prefix_of` message ∧ length (utf8 t) = Nat.min (length (utf8 message)) 50.
Proof. apply slice_to_Some. Qed.
Definition is_ascii (c : char) : Prop := (c < 128)%N.
Lemma utf8_ascii s : Forall is_ascii s → utf8 s = s.
Proof.
  induction 1 as [|c s Hc Hs IH]; [done|]. rewrite utf8_cons, IH. unfold utf8_char, is_ascii in *.
  by destruct (N.ltb_spec c 128); [|lia].
Qed.
Lemma preview_ascii s : Forall is_ascii s → preview s = Some (take 50 s).
Proof.
  intros Hs. unfold preview. apply slice_to_Some. split; [apply prefix_take|].
  rewrite !utf8_ascii by (try apply Forall_take; done). rewrite length_take. lia.
Qed.
(** What the talkers say can be previewed. *)
Lemma show_Z_ascii z : Forall is_ascii (show_Z z).
Proof.
  assert (∀ n, Forall is_ascii (show_N n)) as H.
  { intros n. eapply Forall_impl; [apply show_N_digits|]. intros c.
    unfold is_ascii_digit, is_ascii. rewrite andb_true_iff, !N.leb_le. lia. }
  unfold show_Z. destruct (z <? 0); [|by apply H]. simpl. constructor; [done|apply H].
Qed.
Lemma chatter_message_preview filler count :
  Forall is_ascii filler →
  preview (chatter_message filler count) = Some (take 50 (chatter_message filler count)).
Proof.
  intros Hf. apply preview_ascii. unfold chatter_message. rewrite !Forall_app.
  split_and!; [..|done]; [|apply show_Z_ascii|]; by repeat constructor.
Qed.

(** *** The talkers *)
Section talkers_spec.
Context `{RD : Rustdds, !Countable GUID}.
Context {W : Type} `{!TopicWriter W str, !DdsEntity W}.
Implicit Types t : SmartTalker (W:=W).
(** The times of the inner turns, and the messages published there. *)
Definition inner_times (evs : list (smart_event (RD:=RD))) : list Timestamp :=
  omap (λ ev, match ev with InnerTurn now _ => Some now | SubscriptionAppeared => None end) evs.
Fixpoint published (count : Z) (times : list Timestamp) (w : W) : W :=
  match times with
  | [] => w
  | now :: times =>
      published (count + 1) times
        (async_publish now (chatter_message long_filler (count + 1)) w).1
  end.
(** The smart talker numbers its messages one by one across its pauses, and keeps
    talking from one turn to the next only if it counted a subscription. *)
Lemma smart_run_spec pr evs t t' l :
  0 <= s_count t → s_count t + Z.of_nat (length evs) <= i32_max →
  smart_run pr evs t = Some (t', l) →
  s_count t' = s_count t + Z.of_nat (length (inner_times evs)) ∧
  chatter_publisher t' = published (s_count t) (inner_times evs) (chatter_publisher t) ∧
  (∀ now tb, last evs = Some (InnerTurn now tb) → talking t' = true → sub_count t' ≠ 0%nat).
Proof.
  revert t l. induction evs as [|ev evs IH]; intros t l H0 Hb; simpl.
  { intros [= <- <-]. split_and!; [lia|done|done]. }
  destruct (smart_step pr ev t) as [o|] eqn:Es; simpl; [|done].
  destruct o as [[t1 l1]|]; simpl; [|done].
  destruct (smart_run pr evs t1) as [[t2 l2]|] eqn:Er; simpl; [|done]. intros [= <- <-].
  destruct ev as [|now tb]; simpl in Es.
  - destruct (talking t); [done|]. injection Es as <- <-.
    apply IH in Er as (H1 & H2 & H3); simpl in *; [|lia..]. split_and!; [lia|done|].
    intros now tb Hl. apply (H3 now tb). by destruct evs.
  - destruct (talking t); [|done]. injection Es as Es. unfold inner_turn in Es.
    rewrite arith_i32 in Es by (unfold in_i32, i32_min, i32_max in *; simpl in *; lia).
    injection Es as <- <-.
    pose proof Er as (H1 & H2 & H3)%IH; simpl in *; [|lia..].
    split_and!; [lia|done|]. intros now' tb' Hl Ht. destruct evs as [|ev evs]; [|by eapply H3].
    injection Er as <- _. simpl in *. by destruct (publisher_subscription_count _ _).
Qed.
End talkers_spec.

(** *** The listener *)
Section listener_spec.
Context `{RD : Rustdds}.
Context {D : Type} `{!SimpleDataReader D str, !Delivers D str}.
Context `{!SimpleDataReaderLaws D str, !DeliversLaws TOPIC_DEPTH D str}.
Abbreviation Message := (result ReadError (str * MessageInfo)).
Implicit Types l : Listener (D:=D).
Definition unheard l : list Message := messages (chatter_subscription l).
(** The line for something that arrived. *)
Definition line_for (x : Message) : option listener_line :=
  match x with
  | Ok (message, _) => text ← preview message; Some (Heard (length (utf8 message)) text)
  | Err e => Some (TakeFailed e)
  end.
Definition print_line (lines : list listener_line) (x : unit * Message) : option (list listener_line) :=
  line ← line_for x.2; Some (lines ++ [line]).
Definition received (_ : list listener_line) (x : result ReadError (DeserializedCacheChange str)) : Message :=
  dcc_to_value_and_messageinfo <$> x.

Lemma take_arm_spec u l r q :
  unheard l = r :: q →
  match print_line (printed l) (u, r) with
  | None => take_arm u l = None
  | Some o => ∃ l', take_arm u l = Some l' ∧ printed l' = o ∧ unheard l' = q
  end.
Proof.
  unfold unheard, take_arm, print_line. intros Hq.
  destruct (sub_take_spec (chatter_subscription l)) as [H1 H2]. rewrite Hq in H1, H2.
  destruct (sub_take _) as [d taken]. simpl in *. subst taken.
  destruct r as [[message i]|e]; simpl; [|by eauto].
  destruct (preview message) as [text|]; simpl; [|done]. by eauto.
Qed.
Lemma listener_takes_one :
  takes_one take_arm message_arrives TOPIC_DEPTH unheard printed received print_line.
Proof.
  split; [unfold TOPIC_DEPTH; lia| |done|done|].
  - intros l x. unfold unheard, messages. simpl. by rewrite samples_deliver, <-keep_last_fmap, fmap_app.
  - intros u l r q. apply take_arm_spec.
Qed.
Lemma print_all (xs : list (unit * Message)) lines :
  match answer_all print_line xs lines with
  | None => ∃ m i, (tt, Ok (m, i)) ∈ xs ∧ splits_a_char m
  | Some lines' => ∃ ls, Forall2 (λ x line, line_for x.2 = Some line) xs ls ∧ lines' = lines ++ ls
  end.
Proof.
  revert lines. induction xs as [|[[] x] xs IH]; intros lines; simpl.
  { exists []. by rewrite app_nil_r. }
  change (print_line lines (tt, x)) with (line ← line_for x; Some (lines ++ [line])).
  destruct (line_for x) as [line|] eqn:Hx; simpl.
  - specialize (IH (lines ++ [line])). destruct (answer_all _ _ _) as [o|].
    + destruct IH as (ls & Hls & ->). exists (line :: ls). rewrite <-(assoc_L (++)).
      split; [by constructor|done].
    + destruct IH as (m & i & H & Hs). exists m, i. split; [by right|done].
  - destruct x as [[m i]|e]; simpl in Hx; [|done]. exists m, i. split; [by left|].
    apply preview_None. by destruct (preview m).
Qed.

Lemma snd_zip_wakes {A} (ts : list unit) (l : list A) : (zip ts l).*2 = take (length ts) l.
Proof. revert l. induction ts as [|t ts IH]; intros [|x l]; csimpl; [done..|]. by rewrite IH. Qed.

(** C33: The listener's loop, with a reader that keeps the last ten messages that
    have not been taken, and drops older ones. A wake-up takes one message, however
    many have come: what it hears is one message per wake-up, in order, out of what
    the reader kept, and at most ten stay behind. While what the bursts leave behind
    stays below ten, nothing is dropped: it hears the first as many messages as it
    had wake-ups, and all but one of every burst stay behind. It panics exactly when
    one of those it hears has its byte 50 inside a character; otherwise it prints for
    each its length and the longest prefix of at most 50 bytes. *)
Theorem listener_prints turns (p : Polled Listener) :
  edge p = false → (length (unheard (endpoint p)) <= TOPIC_DEPTH)%nat →
  let all := unheard (endpoint p) ++ arrived received [] turns in
  let '(taken, rest) := one_per_wake TOPIC_DEPTH (as_read received [] turns) (unheard (endpoint p)) in
  let heard := taken.*2 in
  length heard = length (wakes turns) ∧ heard ++ rest `sublist_of` all ∧ (length rest <= TOPIC_DEPTH)%nat ∧
  ((length (unheard (endpoint p)) + left_behind turns < TOPIC_DEPTH)%nat →
   heard = take (length (wakes turns)) all ∧
   length rest = (length (unheard (endpoint p)) + left_behind turns)%nat) ∧
  (listen turns p = None ↔ ∃ m i, @Ok ReadError _ (m, i) ∈ heard ∧ splits_a_char m) ∧
  ∀ p', listen turns p = Some p' →
    unheard (endpoint p') = rest ∧
    ∃ ls, printed (endpoint p') = printed (endpoint p) ++ ls ∧
      Forall2 (λ x line,
        match x with
        | Err e => line = TakeFailed e
        | Ok (m, _) => ∃ text, line = Heard (length (utf8 m)) text ∧ text `prefix_of` m ∧
            length (utf8 text) = Nat.min (length (utf8 m)) 50
        end) heard ls.
Proof.
  intros He Hq all. pose proof listener_takes_one as Hone. pose proof (has_history _ _ _ _ _ _ _ Hone) as Hd.
  pose proof (poll_loop_spec _ _ _ _ _ _ _ Hone turns p He) as Hp.
  change (as_read received (printed (endpoint p)) turns) with (as_read received [] turns) in Hp.
  pose proof (one_per_wake_times TOPIC_DEPTH Hd (as_read received [] turns) (unheard (endpoint p))) as Ht.
  pose proof (one_per_wake_order TOPIC_DEPTH Hd (as_read received [] turns) (unheard (endpoint p))) as Ho.
  pose proof (one_per_wake_bounded TOPIC_DEPTH Hd (as_read received [] turns) (unheard (endpoint p)) Hq) as Hb.
  pose proof (one_per_wake_fits TOPIC_DEPTH Hd (as_read received [] turns) (unheard (endpoint p))) as Hf.
  pose proof (one_per_wake_left TOPIC_DEPTH Hd (as_read received [] turns) (unheard (endpoint p))) as Hl.
  rewrite <-arrived_as_read in Ho, Hf. rewrite wakes_as_read in Ht, Hf. rewrite left_behind_as_read in Hf, Hl.
  destruct (one_per_wake _ _ _) as [taken rest]. cbn [fst snd] in Ht, Ho, Hb, Hf, Hl. cbn zeta. split_and!; try done.
  - by rewrite <-Ht, !length_fmap.
  - intros Hlt. split; [|by apply Hl]. specialize (Hf Hlt). injection Hf as -> _. apply snd_zip_wakes.
  - pose proof (print_all taken (printed (endpoint p))) as Ha. unfold listen.
    destruct (answer_all _ _ _) as [lines|].
    + destruct Hp as (p1 & -> & _). destruct Ha as (ls & Hls & _). split; [done|].
      intros (m & i & (x & Hx & Hm)%list_elem_of_fmap & Hs). apply list_elem_of_lookup in Hm as [k Hk].
      destruct (Forall2_lookup_l _ _ _ _ _ Hls Hk) as (y & _ & Hy). rewrite <-Hx in Hy. simpl in Hy.
      apply preview_None in Hs. by rewrite Hs in Hy.
    + split; [intros _|done]. destruct Ha as (m & i & H & Hs). exists m, i.
      split; [|done]. apply list_elem_of_fmap. by exists (tt, Ok (m, i)).
  - intros p' Hp'. unfold listen in Hp'. pose proof (print_all taken (printed (endpoint p))) as Ha.
    destruct (answer_all _ _ _) as [lines|]; [|congruence].
    destruct Hp as (p1 & Hp1 & Hpr & Hr & _). destruct Ha as (ls & Hls & Hlines).
    assert (p1 = p') as -> by congruence. split; [done|]. exists ls. split; [congruence|].
    apply Forall2_fmap_l. eapply Forall2_impl; [exact Hls|]. intros [u [[m i]|e]] line; simpl.
    + destruct (preview m) as [text|] eqn:Htx; simpl; [|done]. intros [= <-].
      apply preview_Some in Htx. by exists text.
    + by intros [= <-].
Qed.
End listener_spec.

(** ** A concrete instance *)
#[local] Existing Instances toy_rustdds toy_reader toy_reader_laws toy_delivers toy_delivers_laws.
Definition toy_chatter (message : str) : result ReadError (DeserializedCacheChange str) :=
  Ok {| dcc_source_timestamp := None; dcc_sequence_number := 1; dcc_writer_guid := toy_guid 8;
        dcc_related_sample_identity := None; into_value := message |}.
(** Two talkers' messages in one burst and one later; and a message whose 25th
    and 26th letters of two bytes are moved by one byte. *)
Definition toy_bursts : list (list (result ReadError (DeserializedCacheChange str)) * unit) :=
  [([toy_chatter (chatter_message long_filler 1); toy_chatter (chatter_message long_filler 2)], tt);
   ([toy_chatter (chatter_message short_filler 3)], tt)].
(** Twelve messages in one burst, of which the first two are dropped, and one
    that makes room for itself. *)
Definition toy_flood : list (list (result ReadError (DeserializedCacheChange str)) * unit) :=
  [((λ n : nat, toy_chatter (chatter_message short_filler (Z.of_nat n))) <$> seq 1 12, tt);
   ([toy_chatter (chatter_message short_filler 13); toy_chatter (chatter_message short_filler 14)], tt)].
Definition toy_umlauts : str := 97%N :: repeat 228%N 25.
Definition toy_listener :
    Polled (Listener (D:=list (result ReadError (DeserializedCacheChange str)))) :=
  {| endpoint := {| chatter_subscription := []; printed := [] |}; edge := false |}.
Definition text_of (line : listener_line) : option str :=
  match line with Heard _ text => Some text | NoMessage | TakeFailed _ => None end.
Lemma listener_prints_witness :
  (∃ p', listen toy_bursts toy_listener = Some p' ∧ length (unheard (endpoint p')) = 1%nat ∧
     length (printed (endpoint p')) = 2%nat) ∧
  (∃ p', listen toy_flood toy_listener = Some p' ∧ length (unheard (endpoint p')) = 9%nat ∧
     omap text_of (printed (endpoint p')) = (λ n, take 50 (chatter_message short_filler n)) <$> [3; 5]) ∧
  listen [([toy_chatter toy_umlauts], tt)] toy_listener = None.
Proof.
  assert (length (unheard (endpoint toy_listener)) <= TOPIC_DEPTH)%nat as Hq by (apply Nat.leb_le; reflexivity).
  split_and!.
  - destruct (listener_prints (RD:=toy_rustdds) toy_bursts toy_listener eq_refl Hq) as (_ & _ & _ & _ & _ & H).
    assert (match listen toy_bursts toy_listener with Some _ => true | None => false end = true)
      as Hsome by (vm_compute; reflexivity).
    destruct (listen toy_bursts toy_listener) as [p'|]; [|discriminate Hsome].
    destruct (H p' eq_refl) as (Hu & ls & Hp & Hls).
    exists p'. split; [reflexivity|]. split; [rewrite Hu; vm_compute; reflexivity|]. rewrite Hp.
    apply Forall2_length in Hls. rewrite length_app, <-Hls. vm_compute. reflexivity.
  - destruct (listener_prints (RD:=toy_rustdds) toy_flood toy_listener eq_refl Hq) as (_ & _ & _ & _ & _ & H).
    assert (match listen toy_flood toy_listener with
            | Some p' => bool_decide (omap text_of (printed (endpoint p')) =
                (λ n, take 50 (chatter_message short_filler n)) <$> [3; 5])
            | None => false end = true) as Hsome by (vm_compute; reflexivity).
    destruct (listen toy_flood toy_listener) as [p'|]; [|discriminate Hsome].
    destruct (H p' eq_refl) as (Hu & _). apply bool_decide_eq_true in Hsome.
    exists p'. split; [reflexivity|]. split; [rewrite Hu; vm_compute; reflexivity|exact Hsome].
  - destruct (listener_prints (RD:=toy_rustdds) [([toy_chatter toy_umlauts], tt)] toy_listener eq_refl Hq)
      as (_ & _ & _ & _ & H & _).
    apply H. eexists _, _. split; [by left|]. apply preview_None. vm_compute. reflexivity.
Defined.
