(* ===== verification/ZenohDemo.v ===== *)
(** * The Zenoh demo (examples/zenoh_demo)

    A talker and a listener in one process over ZenohPubSub: each turn publishes
    a numbered greeting and prints what has arrived. The samples are on their way
    in the order in which they were put; how many arrive in a turn is an
    argument. *)
From S2P Require Import Prelude Time ZenohService ZenohPubSub.
#[local] Open Scope Z_scope.

Section demo.
Context `{ZS : ZenohSerializer, !CdrEncoding str}.

Definition demo_message (count : Z) : str := lit "Hello ROS 2 over Zenoh #" ++ show_Z count.
Abbreviation Line := (str * MessageInfo)%type.
Record Demo := {
  publisher : Publisher;
  count : Z;
  received : Z;
  on_the_way : list Sample;
  printed : list Line;
}.
Definition Demo_new (p : Publisher) : Demo :=
  {| publisher := p; count := 0; received := 0; on_the_way := []; printed := [] |}.
(** [while let Ok(Some(..)) = subscription.try_take()] on the samples that are
    there: the lines, and the samples left. *)
Fixpoint drain (arrived : list Sample) : list Line * list Sample :=
  match arrived with
  | [] => ([], [])
  | sample :: rest =>
      match try_take (Ok (Some sample)) with
      | Ok (Some line) => let '(lines, unread) := drain rest in (line :: lines, unread)
      | Ok None | Err _ => ([], rest)
      end
  end.
(** [received += 1] for each line, on an [i32]. *)
Fixpoint add_each {A} (pr : profile) (l : list A) (n : Z) : option Z :=
  match l with [] => Some n | _ :: l => n ← arith pr 32 (n + 1); add_each pr l n end.
(** A turn of the loop: [now] is the clock's reading for the attachment,
    [outcome] Zenoh's, [k] the number of samples that arrive. [None] is a panic,
    that of [expect("publish")] included. *)
Definition demo_turn (pr : profile) (now : option StdDuration) (outcome : result ZenohError unit) (k : nat) (d : Demo) :
    option Demo :=
  n ← arith pr 32 (count d + 1);
  '(p, (sample, r)) ← publish pr (now_nanos now) outcome (demo_message n) (publisher d);
  match r with
  | Err _ => None
  | Ok _ =>
      let way := on_the_way d ++ option_list sample in
      let '(lines, unread) := drain (take k way) in
      m ← add_each pr lines (received d);
      Some {| publisher := p; count := n; received := m; on_the_way := unread ++ drop k way;
              printed := printed d ++ lines |}
  end.
Fixpoint demo_run (pr : profile) (turns : list (option StdDuration * nat)) (d : Demo) : option Demo :=
  match turns with
  | [] => Some d
  | (now, k) :: turns => d ← demo_turn pr now (Ok tt) k d; demo_run pr turns d
  end.
End demo.

(** ** Lemmas *)
Section spec.
Context `{ZS : ZenohSerializer, !ZenohSerializerLaws, !CdrEncoding str, !CdrEncodingLaws str}.
Implicit Types d : Demo.

(** The [i]th sample and what is read from it. *)
Definition is_sample (p : Publisher) (i : Z) (s : Sample) : Prop :=
  ∃ now, in_i64 now ∧
    try_take (Ok (Some s)) = Ok (Some (demo_message i,
      {| source_timestamp_nanos := now; mi_sequence_number := i; mi_source_gid := source_gid p |})).
Definition is_line (p : Publisher) (i : Z) (l : str * MessageInfo) : Prop :=
  l.1 = demo_message i ∧ mi_sequence_number l.2 = i ∧ mi_source_gid l.2 = source_gid p.
Definition numbers (a n : nat) : list Z := Z.of_nat <$> List.seq a n.
Record demo_inv d : Prop := {
  counted : received d = Z.of_nat (length (printed d)) ∧
            count d = Z.of_nat (length (printed d) + length (on_the_way d)) ∧
            pub_seq (publisher d) = count d;
  lines_numbered : Forall2 (is_line (publisher d)) (numbers 1 (length (printed d))) (printed d);
  way_numbered : Forall2 (is_sample (publisher d))
    (numbers (S (length (printed d))) (length (on_the_way d))) (on_the_way d);
}.
Lemma drain_samples p ns ss :
  Forall2 (is_sample p) ns ss →
  ∃ lines, drain ss = (lines, []) ∧ Forall2 (is_line p) ns lines.
Proof.
  induction 1 as [|i s ns ss (now & _ & Hs) _ (lines & Hd & Hl)]; simpl; [by exists []|].
  simpl in Hs. rewrite Hs, Hd. eexists. split; [done|]. by constructor.
Qed.
Lemma add_each_ok {A} pr (l : list A) n :
  0 <= n → n + Z.of_nat (length l) <= i32_max → add_each pr l n = Some (n + Z.of_nat (length l)).
Proof.
  revert n. induction l as [|x l IH]; intros n Hn Hl; simpl in *; [by rewrite Z.add_0_r|].
  rewrite arith_i32 by (unfold in_i32, i32_min, i32_max in *; lia). simpl.
  rewrite IH by lia. f_equal. lia.
Qed.
Lemma numbers_S a n : numbers a (S n) = numbers a n ++ [Z.of_nat (a + n)%nat].
Proof. unfold numbers. by rewrite seq_S, fmap_app. Qed.
Lemma numbers_take a n k : (k <= n)%nat → take k (numbers a n) = numbers a k ∧
  drop k (numbers a n) = numbers (a + k)%nat (n - k)%nat.
Proof.
  intros Hk. unfold numbers. rewrite <-fmap_take, <-fmap_drop, take_seq, drop_seq, Nat.min_l by done. done.
Qed.
Lemma numbers_app a n m : numbers a n ++ numbers (a + n)%nat m = numbers a (n + m)%nat.
Proof. unfold numbers. by rewrite seq_app, fmap_app. Qed.
(** What a publication puts on the way. *)
Lemma demo_publish pr now n p :
  is_ok (to_cdr (demo_message n)) = true → wf_gid (source_gid p) → pub_seq p + 1 = n → in_i64 n →
  ∃ s, publish pr (now_nanos now) (Ok tt) (demo_message n) p =
      Some (set_pub_seq n p, (Some s, Ok tt)) ∧ is_sample p n s.
Proof.
  intros Hm Hg Hn Hr. destruct (to_cdr (demo_message n)) as [b|] eqn:Hb; [|done].
  pose proof (exec_ok pr (PublishMsg now (Ok tt) (demo_message n)) p) as He.
  rewrite Hn in He. specialize (He Hr). simpl in He. rewrite Hb in He.
  unfold pub_result in He. simpl in He. rewrite Hb in He.
  eexists. split; [exact He|]. exists (now_nanos now). split; [apply now_nanos_in|].
  destruct (sample_reads_as p n (PublishMsg now (Ok tt) (demo_message n)) b Hg Hr Hb) as [_ Hreads].
  destruct (Hreads now (Ok tt) (demo_message n) eq_refl) as [_ Ht]. exact Ht.
Qed.
(** A turn sends the next number, and what it prints continues the lines. *)
Lemma demo_turn_ok pr now k d :
  is_ok (to_cdr (demo_message (count d + 1))) = true → wf_gid (source_gid (publisher d)) →
  count d < i32_max → demo_inv d →
  ∃ d', demo_turn pr now (Ok tt) k d = Some d' ∧ demo_inv d' ∧
    count d' = count d + 1 ∧ source_gid (publisher d') = source_gid (publisher d) ∧
    ((length (on_the_way d) < k)%nat → on_the_way d' = []).
Proof.
  intros Hm Hg Hc [(Hr & Hn & Hs) Hl Hw]. unfold demo_turn.
  rewrite arith_i32 by (unfold in_i32, i32_min, i32_max in *; lia). cbn [mbind option_bind].
  destruct (demo_publish pr now (count d + 1) (publisher d)) as (s & -> & Hsample);
    [done|done|lia|unfold in_i64, i64_min, i64_max, i32_max in *; lia|].
  cbn [mbind option_bind]. change (option_list (Some s)) with [s].
  set (np := length (printed d)) in *. set (nw := length (on_the_way d)) in *.
  assert (Forall2 (is_sample (publisher d)) (numbers (S np) (S nw)) (on_the_way d ++ [s])) as Hall.
  { rewrite numbers_S. apply Forall2_app; [done|]. constructor; [|done].
    replace (Z.of_nat (S np + nw)) with (count d + 1) by lia. done. }
  assert (length (on_the_way d ++ [s]) = S nw) as Hlen by (rewrite length_app; simpl; lia).
  set (way := on_the_way d ++ [s]) in *. set (j := Nat.min k (S nw)).
  assert (take k way = take j way ∧ drop k way = drop j way) as [-> ->].
  { unfold j. destruct (Nat.le_gt_cases k (S nw)); [by rewrite Nat.min_l|].
    rewrite Nat.min_r by lia. rewrite !take_ge, !drop_ge by lia. done. }
  destruct (numbers_take (S np) (S nw) j) as [Ht Hd]; [unfold j; lia|].
  destruct (drain_samples (publisher d) (numbers (S np) j) (take j way)) as (lines & -> & Hlines).
  { rewrite <-Ht. by apply Forall2_take. }
  assert (length lines = j) as Hj.
  { apply Forall2_length in Hlines. rewrite <-Hlines. unfold numbers. by rewrite length_fmap, length_seq. }
  rewrite (add_each_ok pr lines) by (rewrite ?Hj; unfold j; lia). cbn [mbind option_bind app].
  eexists. split; [done|]. split; [|split; [done|split; [done|]]].
  - split; simpl.
    + rewrite !length_app, length_drop, Hlen, Hj. fold np. split_and!; [lia|unfold j; lia|done].
    + rewrite length_app, Hj. fold np. rewrite <-numbers_app. by apply Forall2_app.
    + rewrite length_app, length_drop, Hlen, Hj. fold np.
      replace (S (np + j)) with (S np + j)%nat by lia. rewrite <-Hd. by apply Forall2_drop.
  - simpl. intros Hk. apply drop_ge. unfold j. lia.
Qed.
(** The demo: every line is the next greeting, with its sequence number and the
    talker's identity; nothing is lost, repeated or out of order, and once
    everything arrives it has received what it sent. *)
Lemma demo_run_ok pr turns p d :
  (∀ n, is_ok (to_cdr (demo_message n)) = true) → wf_gid (source_gid p) → pub_seq p = 0 →
  Z.of_nat (length turns) <= i32_max →
  demo_run pr turns (Demo_new p) = Some d →
  count d = Z.of_nat (length turns) ∧ received d <= count d ∧
  received d = Z.of_nat (length (printed d)) ∧
  Forall2 (is_line p) (numbers 1 (length (printed d))) (printed d) ∧
  (on_the_way d = [] → received d = count d).
Proof.
  intros Hm Hg Hp Hb Hd.
  assert (∀ d0, demo_inv d0 → source_gid (publisher d0) = source_gid p →
    count d0 + Z.of_nat (length turns) <= i32_max → demo_run pr turns d0 = Some d →
    demo_inv d ∧ source_gid (publisher d) = source_gid p ∧ count d = count d0 + Z.of_nat (length turns)) as Hrun.
  { clear Hb Hd. induction turns as [|[now k] turns IH]; intros d0 Hi Hs Hb; simpl.
    { intros [= <-]. split_and!; [done..|lia]. }
    simpl in Hb. destruct (demo_turn_ok pr now k d0) as (d1 & -> & Hi1 & Hc1 & Hs1 & _);
      [done|by rewrite Hs|lia|done|]. cbn [mbind option_bind]. intros Hd.
    destruct (IH d1) as (? & ? & ?); [done|congruence|lia|done|]. split_and!; [done..|lia]. }
  destruct (Hrun (Demo_new p)) as ([(Hr & Hc & _) Hl _] & Hs & Hn);
    [by split; simpl; [|constructor..]|done|simpl; lia|done|]. simpl in Hn.
  split_and!; [lia|lia|done| |].
  - eapply Forall2_impl; [exact Hl|]. intros n l (? & ? & ?). unfold is_line. by rewrite <-Hs.
  - intros Hw. rewrite Hw in Hc. simpl in Hc. lia.
Qed.
End spec.
