(* ===== verification/ParamExamples.v ===== *)
(** * The parameter and clock examples (examples/client_get_parameters, client_list_parameters, time_broadcaster, time_reporter)

    Applications of ParamStore's nodes and parameter services: the two clients
    from their command line to what they print, the broadcaster's validated
    parameter and its simulated clock, and the reporter that follows it. *)
From S2P Require Import Prelude Names Params Time ParamStore Discovery DdsService PubSub Spinner DdsContext OsPath.

(** ** The clients *)
(** What [main] does with its arguments: the usage, the panic of [unwrap], or a
    client of a service and the request it sends. *)
Inductive client_main (Req : Type) :=
| PrintUsage
| ServiceNamePanics
| CallsService (service_name : Name) (service_type : ServiceTypeName) (request : Req).
Arguments PrintUsage {Req}.
Arguments ServiceNamePanics {Req}.
Arguments CallsService {Req} service_name service_type request.

Definition get_parameters_main (args : list str) : client_main GetParametersRequest :=
  match args with
  | _ :: target_node :: names =>
      match unwrap_name target_node (lit "get_parameters") with
      | None => ServiceNamePanics
      | Some service_name =>
          CallsService service_name (ServiceTypeName_new (lit "rcl_interfaces") (lit "GetParameters"))
            {| gp_names := names |}
      end
  | _ => PrintUsage
  end.
Definition list_parameters_main (args : list str) : client_main ListParametersRequest :=
  match args with
  | _ :: target_node :: _ =>
      match unwrap_name target_node (lit "list_parameters") with
      | None => ServiceNamePanics
      | Some service_name =>
          CallsService service_name (ServiceTypeName_new (lit "rcl_interfaces") (lit "ListParameters"))
            {| prefixes := []; depth := 0 |}
      end
  | _ => PrintUsage
  end.
(** The line printed for a response to [get_parameters]. *)
Definition printed_values (response : GetParametersResponse) : list ParameterValue :=
  value_of_raw <$> gp_values response.

(** ** The time broadcaster *)
Section broadcaster.
Context {T : Type}.
(** What its set action has printed. *)
Abbreviation Lines := (list (str * ParameterValue)).
Definition my_param : str := lit "my_param".
Definition example_validator (name : str) (value : ParameterValue) (w : Lines) :
    Lines * SetParametersResult :=
  (w, if str_eqb name my_param then
        match value with
        | String s => if length (utf8 s) =? 3 then Ok tt else Err (lit "my_param must be a string of 3 chars")
        | _ => Err (lit "my_param must be a string of 3 chars")
        end
      else Ok tt).
Definition example_set_action (name : str) (value : ParameterValue) (w : Lines) :
    Lines * SetParametersResult :=
  (w ++ [(name, value)], Ok tt).
Definition broadcaster_options : NodeOptions Lines :=
  with_parameter_set_action example_set_action
    (with_parameter_validator example_validator
       (declare_parameter my_param (String (lit "foo"))
          (set_enable_rosout true NodeOptions_new))).
Definition broadcaster_node : result str (ParamStore.Node Lines T) :=
  match NodeName_new (lit "/") (lit "time_broadcaster") with
  | Ok node_name => ParamStore.Node_new node_name broadcaster_options []
  | Err _ => Err (lit "unwrap")
  end.

(** [sim_time_tick.try_into().unwrap()], of a second. *)
Definition sim_time_tick : option ROSDuration :=
  match ROSDuration_try_from_std {| as_secs := 1; subsec_nanos := 0 |} with
  | Ok d => Some d
  | Err _ => None
  end.
(** The messages of the first [n] turns of the loop, and the simulated time
    after them ([None] after a panic). *)
Fixpoint broadcast (pr : profile) (n : nat) (sim_time : ROSTime) : list Time * option ROSTime :=
  match n with
  | O => ([], Some sim_time)
  | S n =>
      let message := Time_of_ROSTime sim_time in
      match d ← sim_time_tick; ROSTime_add_duration pr sim_time d with
      | None => ([message], None)
      | Some sim_time =>
          let '(messages, sim_time) := broadcast pr n sim_time in (message :: messages, sim_time)
      end
  end.
End broadcaster.

(** ** The time reporter *)
Definition reporter_options {W : Type} : NodeOptions W := set_enable_rosout true NodeOptions_new.
(** [node.set_parameter("use_sim_time", Boolean(true)).unwrap()]. *)
Definition reporter_node {W T : Type} (t : T) (w : W) : option (ParamStore.Node W T) :=
  match NodeName_new (lit "/") (lit "time_reporter") with
  | Err _ => None
  | Ok node_name =>
      match ParamStore.Node_new node_name reporter_options w with
      | Err _ => None
      | Ok n =>
          match ParamStore.set_parameter t USE_SIM_TIME (Boolean true) n with
          | (n, Ok _) => Some n
          | (_, Err _) => None
          end
      end
  end.
(** What it publishes in a turn of its loop. *)
Definition report {W T : Type} (sim_time now : ROSTime) (n : ParamStore.Node W T) : Time :=
  Time_of_ROSTime (ParamStore.time_now sim_time now n).

(** ** Lemmas *)

(** *** The clients *)
(** The clients reach the services of the node they are given the name of, and
    print its parameters. *)
Lemma clients_find_services {W T} (t : T) (n : ParamStore.Node W T) services prog names :
  start_parameter_services (options n) = true → spinner_parameter_services n = Some services →
  (∃ service_name service_type,
     get_parameters_main (prog :: fqn n :: names) =
       CallsService service_name service_type {| gp_names := names |} ∧
     (service_name, service_type) ∈ services ∧
     printed_values (spinner_get_parameters t {| gp_names := names |} n) =
       (λ name, default NotSet (parameters n !! name)) <$> names) ∧
  ∃ service_name service_type request,
    list_parameters_main (prog :: fqn n :: names) = CallsService service_name service_type request ∧
    (service_name, service_type) ∈ services ∧
    lr_names (lr_result (spinner_list_parameters t request n)) = ParamStore.list_parameters n.
Proof.
  intros Hs. unfold spinner_parameter_services, get_parameters_main, list_parameters_main. rewrite Hs.
  destruct (unwrap_name (fqn n) (lit "get_parameters")) as [s1|]; simpl; [|done].
  destruct (unwrap_name (fqn n) (lit "get_parameter_types")) as [s2|]; simpl; [|done].
  destruct (unwrap_name (fqn n) (lit "set_parameters")) as [s3|]; simpl; [|done].
  destruct (unwrap_name (fqn n) (lit "set_parameters_atomically")) as [s4|]; simpl; [|done].
  destruct (unwrap_name (fqn n) (lit "list_parameters")) as [s5|]; simpl; [|done].
  destruct (unwrap_name (fqn n) (lit "describe_parameters")) as [s6|]; simpl; [|done].
  intros [= <-]. split.
  - eexists _, _. split; [done|]. split; [set_solver|].
    unfold printed_values. simpl. rewrite <-list_fmap_compose.
    apply list_fmap_ext. intros _ name _. simpl. by rewrite value_of_raw_of_value.
  - eexists _, _, _. split; [done|]. split; [set_solver|]. simpl.
    unfold ParamStore.list_parameters. induction ((entries _ _).*1) as [|x l IH]; simpl; congruence.
Qed.

(** *** The broadcaster's parameter *)
Lemma broadcaster_starts {T} : is_ok (broadcaster_node (T:=T)) = true.
Proof. by vm_compute. Qed.
Lemma example_validator_accepts :
  accepts_only (λ name v, name = my_param → ∃ s, v = String s ∧ length (utf8 s) = 3)
    broadcaster_options.
Proof.
  exists example_validator. split; [done|]. intros name v w Hv ->. revert Hv.
  unfold example_validator. simpl.
  destruct v as [| | | |s| | | | |]; try done. destruct (Nat.eqb_spec (length (utf8 s)) 3); [|done]. by exists s.
Qed.
(** The parameter has three bytes of UTF-8 whenever it is set. *)
Lemma my_param_valid {T} (n : ParamStore.Node _ T) os v :
  broadcaster_node = Ok n → parameters (apply_ops os n) !! my_param = Some v →
  ∃ s, v = String s ∧ length (utf8 s) = 3.
Proof.
  unfold broadcaster_node. destruct (NodeName_new _ _) as [nn|]; [|done]. intros Hn Hv.
  by apply (parameters_validated _ _ _ _ _ os example_validator_accepts Hn my_param v Hv).
Qed.
(** Three characters need not be three bytes. *)
Example three_chars_refused (w : list (str * ParameterValue)) :
  is_ok (example_validator my_param (String [228%N; 246%N; 252%N]) w).2 = false ∧
  is_ok (example_validator my_param (String [8364%N]) w).2 = true.
Proof. by vm_compute. Qed.

(** *** The simulated clock *)
Lemma broadcast_spec pr n t :
  in_i64 t → (t + Z.of_nat n * 1000000000 <= i64_max)%Z →
  broadcast pr n (ROSTime_from_nanos t) =
    ((λ i, Time_from_nanos (t + Z.of_nat i * 1000000000)) <$> seq 0 n,
     Some (ROSTime_from_nanos (t + Z.of_nat n * 1000000000))).
Proof.
  revert t. induction n as [|n IH]; intros t Ht Hn; [by rewrite Z.add_0_r|].
  cbn [broadcast]. unfold sim_time_tick.
  assert (ROSDuration_try_from_std {| as_secs := 1; subsec_nanos := 0 |} =
          Ok {| diff := 1000000000 |}) as -> by (by vm_compute).
  simpl. unfold ROSTime_add_duration. simpl.
  unfold in_i64 in *. rewrite arith_i64 by (unfold in_i64, i64_max in *; lia). simpl.
  change {| ros_nanos := t + 1000000000 |} with (ROSTime_from_nanos (t + 1000000000)).
  rewrite IH by (unfold i64_max in *; lia). f_equal.
  - unfold Time_of_ROSTime. simpl. rewrite Z.add_0_r. f_equal.
    rewrite <-fmap_S_seq, <-list_fmap_compose. apply list_fmap_ext. intros _ i _. simpl.
    unfold Time_from_nanos. f_equal. lia.
  - unfold ROSTime_from_nanos. do 2 f_equal. lia.
Qed.
Lemma broadcast_overflows t : (i64_max - 1000000000 < t)%Z → in_i64 t →
  broadcast Debug 1 (ROSTime_from_nanos t) = ([Time_from_nanos t], None).
Proof.
  intros Ht Hr. cbn [broadcast].
  assert (sim_time_tick = Some {| diff := 1000000000 |}) as -> by (by vm_compute).
  simpl. unfold ROSTime_add_duration. simpl.
  rewrite bool_decide_false; [done|]. unfold i64_max in Ht. lia.
Qed.

(** What a reader gets for a message that goes through [repr::Time]. *)
Definition heard (pr : profile) (m : Time) : option Time := r ← repr_of_Time pr m; Time_of_repr pr r.
Lemma heard_exact pr t :
  (i32_min <= t / 1000000000 <= i32_max)%Z → heard pr (Time_from_nanos t) = Some (Time_from_nanos t).
Proof.
  intros Ht. destruct (time_repr_roundtrip pr t Ht) as (r & Hr & _ & _ & Hb).
  unfold heard. by rewrite Hr.
Qed.

(** *** The reporter *)
Section reporter.
Context `{RD : Rustdds, !CdrMessage BasicRequestHeader, !CdrMessage BasicReplyHeader,
          !CdrMessage CycloneHeader, !Countable GUID}.
Context {W WS DS DC DI DP Other C S : Type}.
Context `{!SimpleDataReader DC Time, !SimpleDataReaderLaws DC Time}.
Abbreviation SpinState := (SpinState (W:=W) (WS:=WS) (DS:=DS) (DC:=DC) (DI:=DI) (DP:=DP) (C:=C) (S:=S)).
Implicit Types st : SpinState.
(** The Spinner's turns in which its clock's subscription is ready. *)
Fixpoint clock_turns (n : nat) st : SpinState :=
  match n with O => st | Datatypes.S n => clock_turns n (clock_arm st).1 end.

Lemma clock_arm_takes st m l :
  messages (ros_clock_stream st) = Ok m :: l →
  let st' := (clock_arm st).1 in
  messages (ros_clock_stream st') = l ∧ sim_time (self st') = ROSTime_of_Time m.1 ∧
  sp_node (self st') = sp_node (self st).
Proof.
  intros Hm. unfold clock_arm. destruct (sub_next_spec (ros_clock_stream st)) as [H1 H2].
  rewrite Hm in H1, H2. destruct (sub_next _) as [d p]. simpl in *. subst p. by destruct m.
Qed.
Lemma clock_turns_follow ms m st :
  messages (ros_clock_stream st) = (Ok <$> ms) ++ [Ok m] →
  let st' := clock_turns (length ms + 1) st in
  sim_time (self st') = ROSTime_of_Time m.1 ∧ sp_node (self st') = sp_node (self st).
Proof.
  revert st. induction ms as [|m0 ms IH]; intros st Hm; simpl.
  - by destruct (clock_arm_takes st m [] Hm) as (_ & ? & ?).
  - destruct (clock_arm_takes st m0 _ Hm) as (H & _ & <-). by apply IH.
Qed.

(** A reporter that has heard the first [n] messages of a broadcaster reports
    the time of the last of them, whatever the system's clock says. *)
Lemma reporter_follows pr n t infos now st :
  use_sim_time (sp_node (self st)) = true → in_i64 t →
  (i32_min <= t / 1000000000)%Z → ((t + Z.of_nat n * 1000000000) / 1000000000 <= i32_max)%Z →
  length infos = Datatypes.S n →
  Forall2 (λ m x, heard pr m = Some x.1) (broadcast pr (Datatypes.S n) (ROSTime_from_nanos t)).1 infos →
  messages (ros_clock_stream st) = Ok <$> infos →
  let st' := clock_turns (Datatypes.S n) st in
  report (sim_time (self st')) now (sp_node (self st')) =
    Time_from_nanos (t + Z.of_nat n * 1000000000).
Proof.
  intros Hu Ht Hlo Hhi Hl Hh Hm.
  rewrite broadcast_spec in Hh; [|done|unfold i64_max, i32_max in *; lia].
  cbn [fst] in Hh. rewrite seq_S, fmap_app in Hh.
  apply Forall2_app_inv_l in Hh as (ms & l & Hms & Hl1 & ->).
  inversion Hl1 as [|? x ? ? Hx H0]; subst. inversion H0; subst.
  simpl in Hx. rewrite heard_exact in Hx by lia.
  rewrite fmap_app in Hm. simpl in Hm. apply clock_turns_follow in Hm as (H1 & H2).
  rewrite length_app in Hl. simpl in Hl. assert (length ms = n) as Hn by lia.
  rewrite Hn, Nat.add_1_r in H1, H2. unfold report, ParamStore.time_now. rewrite H2, Hu, H1.
  destruct x as [y i]. simpl in *. injection Hx as <-. done.
Qed.
End reporter.
Lemma reporter_simulates {W T} (t : T) (w : W) (n : ParamStore.Node W T) :
  reporter_node t w = Some n → use_sim_time n = true.
Proof.
  unfold reporter_node. destruct (NodeName_new _ _) as [nn|]; [|done].
  destruct (ParamStore.Node_new nn reporter_options w) as [n0|]; [|done].
  pose proof (set_parameter_cases t USE_SIM_TIME (Boolean true) n0) as (_ & _ & H).
  destruct (ParamStore.set_parameter t USE_SIM_TIME (Boolean true) n0) as [n1 [[]|e]]; [|done].
  intros [= <-]. destruct H as [(H & _)|(_ & _ & H & _)]; [done|].
  rewrite decide_True in H by done. by injection H.
Qed.
Lemma reporter_starts {W T} (t : T) (w : W) : is_Some (reporter_node t w).
Proof. eexists. vm_compute. reflexivity. Qed.
